(** * SkyDrive: content-addressed blob store, chunked ingestion and the
      per-owner namespace tree.

    A shallow embedding of [backend/app/crud/crud_file.py],
    [backend/app/crud/crud_chunk.py], [backend/app/crud/crud_user.py] and of
    the upload / merge / purge endpoints of
    [backend/app/api/api_v1/endpoints/files.py].

    The SQL tables are lists of rows (in insertion order), the primary keys
    are checked on insertion, the file system is a finite map from paths to
    byte strings.  Integers are Python integers ([Z]); the clock is a
    parameter [now] of every operation that reads [datetime.utcnow()]. *)

From Stdlib Require Import ZArith List String Ascii Bool Lia.
From stdpp Require Import base tactics option list strings gmap pretty.
Import ListNotations.
Local Open Scope Z_scope.

(** ** Rows of the three tables of [models/file.py] and of [models/user.py] *)

Module FileMeta.
Record t : Type := mk {
  id : Z;
  user_id : Z;
  parent_id : Z;
  file_name : string;
  is_folder : bool;
  file_hash : option string;
  is_deleted : bool;
  deleted_at : option Z;
  created_at : Z;
  updated_at : Z }.

(** [obj.is_deleted = d; obj.deleted_at = t; obj.updated_at = now] *)
Definition set_deleted (d : bool) (t : option Z) (now : Z) (r : FileMeta.t) : FileMeta.t :=
  mk (id r) (user_id r) (parent_id r) (file_name r) (is_folder r) (file_hash r)
     d t (created_at r) now.

(** [obj.parent_id = p; obj.file_name = n; obj.updated_at = now] *)
Definition set_location (p : Z) (n : string) (now : Z) (r : FileMeta.t) : FileMeta.t :=
  mk (id r) (user_id r) p n (is_folder r) (file_hash r)
     (is_deleted r) (deleted_at r) (created_at r) now.
End FileMeta.

Module FileStore.
Record t : Type := mk {
  file_hash : string;
  real_path : string;
  file_size : Z;
  ref_count : Z }.

Definition set_ref_count (c : Z) (r : FileStore.t) : FileStore.t :=
  mk (file_hash r) (real_path r) (file_size r) c.
End FileStore.

Module FileChunk.
Record t : Type := mk {
  upload_id : string;
  user_id : Z;
  file_hash : string;
  chunk_index : Z;
  chunk_size : Z;
  is_uploaded : bool;
  temp_path : option string }.
End FileChunk.

Module User.
Record t : Type := mk {
  id : Z;
  quota_total : Z;
  quota_used : Z }.
End User.

(** ** The world an operation runs in: the database and the disk *)

Record World : Type := mkWorld {
  file_meta : list FileMeta.t;
  file_meta_seq : Z;                       (* last id given out by the autoincrement key *)
  file_store : list FileStore.t;
  file_chunk : list FileChunk.t;
  sys_user : gmap Z User.t;
  files : gmap string (list Byte.byte);         (* regular files: path -> content *)
  dirs : list string;                      (* directories that exist *)
  disk_free : gmap string Z }.             (* shutil.disk_usage(path).free, where readable *)

Definition with_file_meta (l : list FileMeta.t) (w : World) : World :=
  mkWorld l (file_meta_seq w) (file_store w) (file_chunk w) (sys_user w) (files w) (dirs w) (disk_free w).
Definition with_file_meta_seq (n : Z) (w : World) : World :=
  mkWorld (file_meta w) n (file_store w) (file_chunk w) (sys_user w) (files w) (dirs w) (disk_free w).
Definition with_file_store (l : list FileStore.t) (w : World) : World :=
  mkWorld (file_meta w) (file_meta_seq w) l (file_chunk w) (sys_user w) (files w) (dirs w) (disk_free w).
Definition with_file_chunk (l : list FileChunk.t) (w : World) : World :=
  mkWorld (file_meta w) (file_meta_seq w) (file_store w) l (sys_user w) (files w) (dirs w) (disk_free w).
Definition with_sys_user (m : gmap Z User.t) (w : World) : World :=
  mkWorld (file_meta w) (file_meta_seq w) (file_store w) (file_chunk w) m (files w) (dirs w) (disk_free w).
Definition with_files (m : gmap string (list Byte.byte)) (w : World) : World :=
  mkWorld (file_meta w) (file_meta_seq w) (file_store w) (file_chunk w) (sys_user w) m (dirs w) (disk_free w).
Definition with_dirs (l : list string) (w : World) : World :=
  mkWorld (file_meta w) (file_meta_seq w) (file_store w) (file_chunk w) (sys_user w) (files w) l (disk_free w).

(** ** Exceptions and the monad of operations *)

Inductive Detail : Type :=
| Msg (text : string)
| Conflict (message : string) (file_id : Z).

Inductive exn : Type :=
| HTTPException (status_code : Z) (detail : Detail)
| OSError (path : string).

(** An operation either returns a value, raises (the changes committed so
    far stay), or exceeds the recursion fuel. *)
Inductive outcome (A : Type) : Type :=
| Ok (a : A) (w : World)
| Raise (e : exn) (w : World)
| Diverge.
Arguments Ok {A} a w.
Arguments Raise {A} e w.
Arguments Diverge {A}.

Definition M (A : Type) : Type := World -> outcome A.

#[global] Instance M_ret : MRet M := fun A a w => Ok a w.
#[global] Instance M_bind : MBind M := fun A B k m w =>
  match m w with
  | Ok a w' => k a w'
  | Raise e w' => Raise e w'
  | Diverge => Diverge
  end.

Definition raise {A} (e : exn) : M A := fun w => Raise e w.
Definition diverge {A} : M A := fun _ => Diverge.
Definition gets {A} (f : World -> A) : M A := fun w => Ok (f w) w.
Definition modify (f : World -> World) : M unit := fun w => Ok tt (f w).

(** [for x in l: body(x)] *)
Fixpoint for_each {A} (l : list A) (body : A -> M unit) : M unit :=
  match l with
  | [] => mret tt
  | x :: l' => _ ← body x; for_each l' body
  end.

(** ** Queries *)

(** [db.query(T).filter(p).first()] and [.all()] *)
Definition first {A} (p : A -> bool) (rows : list A) : option A := List.find p rows.
Definition all {A} (p : A -> bool) (rows : list A) : list A := List.filter p rows.

(** Python truthiness of an optional string ([if obj.file_hash:]). *)
Definition truthy (o : option string) : bool :=
  match o with
  | Some s => negb (String.eqb s "")
  | None => false
  end.

Definition opt_eqb (o : option string) (s : string) : bool :=
  match o with
  | Some s' => String.eqb s' s
  | None => false
  end.

(** ** The disk: [os.path.exists], [os.remove], [os.path.getsize], [open(.., "wb")]

    A file is named by the string of its path.  [os.path.join] is modelled
    in full; what the operating system does with a path beyond its string
    (resolving a [.] or [..] component or a doubled separator, following a
    link, asking for the parent directory of a file it creates) is not: a
    theorem that depends on it states, as hypotheses, that its paths are
    spelled the way they resolve ([normal_path]) and that the name joined to
    a volume is a single component.  The disk takes every write to a path
    that is not a directory: permissions, the space left and the length of
    a name set no limit. *)

(** [path] without its trailing slashes: [os.path.join(base, "")] names the
    directory [base] itself. *)
Fixpoint strip_slash (p : string) : string :=
  match p with
  | EmptyString => EmptyString
  | String c p' =>
      match strip_slash p' with
      | EmptyString => if Ascii.eqb c "/" then EmptyString else String c EmptyString
      | q => String c q
      end
  end.

Definition is_file (p : string) (w : World) : bool := bool_decide (is_Some (files w !! p)).
Definition is_dir (p : string) (w : World) : bool :=
  existsb (String.eqb (strip_slash p)) (List.map strip_slash (dirs w)).
Definition os_path_exists (p : string) (w : World) : bool := is_file p w || is_dir p w.

(** [p.startswith("/")] and [p.endswith("/")] *)
Definition absolute (p : string) : bool :=
  match p with
  | String c _ => Ascii.eqb c "/"
  | EmptyString => false
  end.

Fixpoint ends_with_slash (p : string) : bool :=
  match p with
  | EmptyString => false
  | String c EmptyString => Ascii.eqb c "/"
  | String _ p' => ends_with_slash p'
  end.

(** [os.path.join(base, name)] of [posixpath]: an absolute [name] drops the
    base; otherwise the separator is put between the two, unless the base is
    empty or ends with one. *)
Definition os_path_join (base name : string) : string :=
  if absolute name then name
  else if String.eqb base "" || ends_with_slash base then base +:+ name
  else base +:+ "/" +:+ name.

(** [os.remove(path)]: only a regular file can be removed. *)
Definition os_remove (p : string) : M unit := fun w =>
  if is_file p w then Ok tt (with_files (delete p (files w)) w) else Raise (OSError p) w.

(** [open(path, "wb")] followed by the writes of [content]. *)
Definition write_file (p : string) (content : list Byte.byte) : M unit := fun w =>
  if is_dir p w then Raise (OSError p) w else Ok tt (with_files (<[p := content]> (files w)) w).

(** ** [crud/crud_chunk.py] *)

Module CRUDChunk.

Definition get_all_chunks_unordered (upload_id : string) (w : World) : list FileChunk.t :=
  all (fun c => String.eqb (FileChunk.upload_id c) upload_id) (file_chunk w).

Definition delete_chunks (upload_id : string) : M unit :=
  modify (fun w => with_file_chunk
    (all (fun c => negb (String.eqb (FileChunk.upload_id c) upload_id)) (file_chunk w)) w).

(** The slot created for index [i] by the loop of [create_init_chunks]. *)
Definition pending_chunk (upload_id : string) (user_id : Z) (file_hash : string) (i : Z) : FileChunk.t :=
  FileChunk.mk upload_id user_id file_hash i 0 false None.

(** [range(n)] *)
Definition range (n : Z) : list Z := List.map Z.of_nat (seq 0 (Z.to_nat n)).

Definition add_pending_chunks (upload_id : string) (user_id : Z) (file_hash : string)
    (total_chunks : Z) : M (list FileChunk.t) :=
  let chunks := List.map (pending_chunk upload_id user_id file_hash) (range total_chunks) in
  _ ← modify (fun w => with_file_chunk (file_chunk w ++ chunks) w);
  mret chunks.

Definition create_init_chunks (upload_id : string) (user_id : Z) (file_hash : string)
    (total_chunks : Z) : M (list FileChunk.t) :=
  existing ← gets (get_all_chunks_unordered upload_id);
  match existing with
  | _ :: _ =>
      if Z.of_nat (length existing) =? total_chunks then mret existing
      else
        _ ← delete_chunks upload_id;
        add_pending_chunks upload_id user_id file_hash total_chunks
  | [] => add_pending_chunks upload_id user_id file_hash total_chunks
  end.

(** [ORDER BY chunk_index]: a stable insertion sort. *)
Fixpoint insert_by_index (c : FileChunk.t) (l : list FileChunk.t) : list FileChunk.t :=
  match l with
  | [] => [c]
  | d :: l' =>
      if FileChunk.chunk_index c <? FileChunk.chunk_index d then c :: l
      else d :: insert_by_index c l'
  end.

Definition order_by_chunk_index (l : list FileChunk.t) : list FileChunk.t :=
  fold_right insert_by_index [] l.

Definition get_all_chunks (upload_id : string) : M (list FileChunk.t) :=
  gets (fun w => order_by_chunk_index (get_all_chunks_unordered upload_id w)).

Definition temp_exists (c : FileChunk.t) (w : World) : bool :=
  match FileChunk.temp_path c with
  | Some p => negb (String.eqb p "") && os_path_exists p w
  | None => false
  end.

Definition set_uploaded (b : bool) (c : FileChunk.t) : FileChunk.t :=
  FileChunk.mk (FileChunk.upload_id c) (FileChunk.user_id c) (FileChunk.file_hash c)
    (FileChunk.chunk_index c) (FileChunk.chunk_size c) b (FileChunk.temp_path c).

Definition same_slot (upload_id : string) (chunk_index : Z) (c : FileChunk.t) : bool :=
  String.eqb (FileChunk.upload_id c) upload_id && (FileChunk.chunk_index c =? chunk_index).

(** Slots marked uploaded whose temporary file vanished are reset to pending. *)
Definition get_uploaded_chunks (upload_id : string) : M (list Z) := fun w =>
  let chunks := all (fun c => String.eqb (FileChunk.upload_id c) upload_id && FileChunk.is_uploaded c)
                    (file_chunk w) in
  let valid_chunks := List.map FileChunk.chunk_index (all (fun c => temp_exists c w) chunks) in
  let reset c :=
    if String.eqb (FileChunk.upload_id c) upload_id && FileChunk.is_uploaded c && negb (temp_exists c w)
    then set_uploaded false c else c in
  Ok valid_chunks (with_file_chunk (List.map reset (file_chunk w)) w).

Definition mark_chunk_uploaded (upload_id : string) (chunk_index chunk_size : Z) (temp_path : string)
    : M (option FileChunk.t) := fun w =>
  match first (same_slot upload_id chunk_index) (file_chunk w) with
  | Some chunk =>
      let chunk' := FileChunk.mk (FileChunk.upload_id chunk) (FileChunk.user_id chunk)
                      (FileChunk.file_hash chunk) (FileChunk.chunk_index chunk)
                      chunk_size true (Some temp_path) in
      Ok (Some chunk')
         (with_file_chunk
            (List.map (fun c => if same_slot upload_id chunk_index c then chunk' else c) (file_chunk w)) w)
  | None => Ok None w
  end.

End CRUDChunk.

(** ** Strings: [rsplit], [split], SQL [LIKE] *)

Fixpoint contains_char (c : ascii) (s : string) : bool :=
  match s with
  | EmptyString => false
  | String d s' => Ascii.eqb d c || contains_char c s'
  end.

Definition startswith_char (c : ascii) (s : string) : bool :=
  match s with
  | String d _ => Ascii.eqb d c
  | EmptyString => false
  end.

(** [s.rsplit(c, 1)] when [c] occurs in [s]: the parts around the last [c]. *)
Fixpoint rsplit1 (c : ascii) (s : string) : option (string * string) :=
  match s with
  | EmptyString => None
  | String d s' =>
      match rsplit1 c s' with
      | Some (a, b) => Some (String d a, b)
      | None => if Ascii.eqb d c then Some (EmptyString, s') else None
      end
  end.

(** [s.split("/")] *)
Fixpoint split_slash (s : string) : list string :=
  match s with
  | EmptyString => [EmptyString]
  | String c s' =>
      if Ascii.eqb c "/" then EmptyString :: split_slash s'
      else match split_slash s' with
           | h :: t => String c h :: t
           | [] => [String c EmptyString]
           end
  end.

(** The letters [A] to [Z] as [a] to [z]; every other character as it is. *)
Definition lower (c : ascii) : ascii :=
  let n := nat_of_ascii c in
  if Nat.leb 65 n && Nat.leb n 90 then ascii_of_nat (n + 32) else c.

(** SQL [s LIKE pat], as SQLite evaluates it: [%] stands for any run of
    characters, [_] for any one character, every other character for
    itself, the ASCII letters without regard to their case (no escape
    character). *)
Fixpoint like (pat s : string) {struct pat} : bool :=
  match pat with
  | EmptyString => match s with EmptyString => true | _ => false end
  | String p pat' =>
      if Ascii.eqb p "%" then
        (fix star (s : string) : bool :=
           like pat' s || match s with
                          | EmptyString => false
                          | String _ s' => star s'
                          end) s
      else
        match s with
        | EmptyString => false
        | String c s' => (Ascii.eqb p "_" || Ascii.eqb (lower p) (lower c)) && like pat' s'
        end
  end.

(** [f"{name} ({counter}){ext}"] *)
Definition numbered (name ext : string) (counter : Z) : string :=
  name +:+ " (" +:+ pretty counter +:+ ")" +:+ ext.

(** The [while True] loop of the two unique-name routines: the first
    [counter], counting upwards, whose name is not taken. *)
Fixpoint probe (taken : string -> bool) (name ext : string) (fuel : nat) (counter : Z) : option string :=
  match fuel with
  | O => None
  | S fuel' =>
      let new_name := numbered name ext counter in
      if taken new_name then probe taken name ext fuel' (counter + 1) else Some new_name
  end.

Definition mem (s : string) (l : list string) : bool := existsb (String.eqb s) l.

(** [ORDER BY key] (ascending, stable). *)
Fixpoint insert_by {A} (key : A -> Z) (x : A) (l : list A) : list A :=
  match l with
  | [] => [x]
  | y :: l' => if key x <? key y then x :: l else y :: insert_by key x l'
  end.
Definition order_by {A} (key : A -> Z) (l : list A) : list A := fold_right (insert_by key) [] l.

Fixpoint foldM {A B} (f : B -> A -> M B) (b : B) (l : list A) : M B :=
  match l with
  | [] => mret b
  | x :: l' => b' ← f b x; foldM f b' l'
  end.

(** ** [crud/crud_user.py] *)

Module CRUDUser.

Definition update_quota_used (user : Z) (size_delta : Z) : M unit :=
  modify (fun w =>
    with_sys_user
      (alter (fun u => User.mk (User.id u) (User.quota_total u) (User.quota_used u + size_delta))
             user (sys_user w)) w).

End CRUDUser.

(** [schemas/file.py] *)
Module FileMetaCreate.
Record t : Type := mk {
  file_name : string;
  is_folder : bool;
  parent_id : Z;
  file_hash : option string;
  file_size : Z }.
End FileMetaCreate.

(** ** [crud/crud_file.py] *)

Module CRUDFileMeta.

Definition by_id (id : Z) (r : FileMeta.t) : bool := FileMeta.id r =? id.
Definition owned (id user_id : Z) (r : FileMeta.t) : bool :=
  (FileMeta.id r =? id) && (FileMeta.user_id r =? user_id).
Definition child_of (parent_id user_id : Z) (r : FileMeta.t) : bool :=
  (FileMeta.parent_id r =? parent_id) && (FileMeta.user_id r =? user_id).
Definition active_child_of (parent_id user_id : Z) (r : FileMeta.t) : bool :=
  child_of parent_id user_id r && negb (FileMeta.is_deleted r).
Definition deleted_child_of (parent_id user_id : Z) (r : FileMeta.t) : bool :=
  child_of parent_id user_id r && FileMeta.is_deleted r.

(** [db.query(FileMeta).filter(id == id, user_id == user_id).first()] *)
Definition get_obj (id user_id : Z) (w : World) : option FileMeta.t :=
  first (owned id user_id) (file_meta w).

(** [UPDATE file_meta SET ... WHERE id = id] *)
Definition update_row (id : Z) (f : FileMeta.t -> FileMeta.t) (w : World) : World :=
  with_file_meta (List.map (fun r => if by_id id r then f r else r) (file_meta w)) w.

(** [DELETE FROM file_meta WHERE id = id] *)
Definition delete_row (id : Z) (w : World) : World :=
  with_file_meta (all (fun r => negb (by_id id r)) (file_meta w)) w.

(** [db.add(FileMeta(...)); db.commit(); db.refresh(..)]: the key is the
    next value of the autoincrement counter, the deletion fields take
    their defaults. *)
Definition add_file_meta (file_name : string) (is_folder : bool) (parent_id : Z)
    (file_hash : option string) (user_id now : Z) : M FileMeta.t := fun w =>
  let id := file_meta_seq w + 1 in
  let obj := FileMeta.mk id user_id parent_id file_name is_folder file_hash false None now now in
  Ok obj (with_file_meta_seq id (with_file_meta (file_meta w ++ [obj]) w)).

Definition get_by_name_and_parent (name : string) (parent_id user_id : Z) (w : World)
    : option FileMeta.t :=
  first (fun r => active_child_of parent_id user_id r && String.eqb (FileMeta.file_name r) name)
        (file_meta w).

Definition split_ext (base_name : string) : string * string :=
  if contains_char "." base_name && negb (startswith_char "." base_name) then
    match rsplit1 "." base_name with
    | Some (name_without_ext, ext) => (name_without_ext, "." +:+ ext)
    | None => (base_name, EmptyString)
    end
  else (base_name, EmptyString).

Definition existing_names (user_id parent_id : Z) (file_name : string) (w : World) : list string :=
  let '(name_without_ext, ext) := split_ext file_name in
  List.map FileMeta.file_name
    (all (fun r => active_child_of parent_id user_id r
                   && like (name_without_ext +:+ "%" +:+ ext) (FileMeta.file_name r))
         (file_meta w)).

(** The loop stops at the first free name; one more round than there are
    existing names is always enough (see [_get_unique_filename_total]). *)
Definition _get_unique_filename (user_id parent_id : Z) (file_name : string) : M string := fun w =>
  let '(name_without_ext, ext) := split_ext file_name in
  let existing_names := existing_names user_id parent_id file_name w in
  if negb (mem file_name existing_names) then Ok file_name w
  else
    match probe (fun n => mem n existing_names) name_without_ext ext
                (S (length existing_names)) 1 with
    | Some new_name => Ok new_name w
    | None => Diverge
    end.

Definition create_with_user (obj_in : FileMetaCreate.t) (user_id now : Z) : M FileMeta.t :=
  unique_name ← _get_unique_filename user_id (FileMetaCreate.parent_id obj_in)
                                      (FileMetaCreate.file_name obj_in);
  add_file_meta unique_name (FileMetaCreate.is_folder obj_in) (FileMetaCreate.parent_id obj_in)
                (FileMetaCreate.file_hash obj_in) user_id now.

Definition get_by_hash (file_hash : string) (w : World) : option FileStore.t :=
  first (fun s => String.eqb (FileStore.file_hash s) file_hash) (file_store w).

(** [UPDATE file_store SET ref_count = ref_count + delta WHERE file_hash = h] *)
Definition add_ref_count (file_hash : string) (delta : Z) (w : World) : World :=
  with_file_store
    (List.map (fun s => if String.eqb (FileStore.file_hash s) file_hash
                        then FileStore.set_ref_count (FileStore.ref_count s + delta) s else s)
              (file_store w)) w.

Definition increment_ref_count (file_hash : string) : M (option FileStore.t) :=
  _ ← modify (add_ref_count file_hash 1);
  gets (get_by_hash file_hash).

Definition decrement_ref_count (file_hash : string) : M (option FileStore.t) :=
  _ ← modify (add_ref_count file_hash (-1));
  gets (get_by_hash file_hash).

(** [db.add(FileStore(..)); db.commit()]: [false] is the [IntegrityError]
    of the primary key [file_hash]. *)
Definition insert_file_store (db_obj : FileStore.t) : M bool := fun w =>
  if existsb (fun s => String.eqb (FileStore.file_hash s) (FileStore.file_hash db_obj)) (file_store w)
  then Ok false w
  else Ok true (with_file_store (file_store w ++ [db_obj]) w).

Definition create_file_store (file_hash real_path : string) (file_size : Z) : M (option FileStore.t) :=
  existing ← gets (get_by_hash file_hash);
  match existing with
  | Some _ => increment_ref_count file_hash
  | None =>
      let db_obj := FileStore.mk file_hash real_path file_size 1 in
      inserted ← insert_file_store db_obj;
      if inserted : bool then mret (Some db_obj) else increment_ref_count file_hash
  end.

(** Soft delete. *)
Fixpoint remove (fuel : nat) (now id user_id : Z) : M (option FileMeta.t) :=
  match fuel with
  | O => diverge
  | S fuel' =>
      obj ← gets (get_obj id user_id);
      match obj with
      | None => mret None
      | Some obj =>
          _ ← (if FileMeta.is_folder obj then
                 children ← gets (fun w => all (child_of id user_id) (file_meta w));
                 for_each children (fun child =>
                   _ ← remove fuel' now (FileMeta.id child) user_id; mret tt)
               else mret tt);
          _ ← modify (update_row (FileMeta.id obj) (FileMeta.set_deleted true (Some now) now));
          gets (first (by_id (FileMeta.id obj)) ∘ file_meta)
      end
  end.

(** *** Restore.

    The session is created with [autoflush=False] ([db/session.py]), and
    [restore] commits once, at its end: the queries of the two passes read
    the rows as they were when [restore] started, while the objects they
    return are those of the session's identity map, with the attributes
    already assigned.  [pend] is that map restricted to the dirty objects. *)

Definition load (pend : gmap Z FileMeta.t) (row : FileMeta.t) : FileMeta.t :=
  default row (pend !! FileMeta.id row).

Definition undelete (now : Z) (pend : gmap Z FileMeta.t) (obj : FileMeta.t)
    : gmap Z FileMeta.t * FileMeta.t :=
  let obj' := FileMeta.set_deleted false None now obj in
  (<[FileMeta.id obj := obj']> pend, obj').

Fixpoint _restore_downwards (fuel : nat) (now : Z) (w : World) (user_id : Z)
    (obj : FileMeta.t) (pend : gmap Z FileMeta.t) : option (gmap Z FileMeta.t) :=
  match fuel with
  | O => None
  | S fuel' =>
      if negb (FileMeta.is_folder obj) then Some pend
      else
        let children := all (deleted_child_of (FileMeta.id obj) user_id) (file_meta w) in
        fold_left
          (fun acc row =>
             match acc with
             | None => None
             | Some pend =>
                 let '(pend', child) := undelete now pend (load pend row) in
                 _restore_downwards fuel' now w user_id child pend'
             end)
          children (Some pend)
  end.

Fixpoint _restore_upwards (fuel : nat) (now : Z) (w : World) (user_id : Z)
    (current : FileMeta.t) (pend : gmap Z FileMeta.t) : option (gmap Z FileMeta.t) :=
  match fuel with
  | O => None
  | S fuel' =>
      if FileMeta.parent_id current =? 0 then Some pend
      else
        match get_obj (FileMeta.parent_id current) user_id w with
        | None => Some pend
        | Some row =>
            let parent := load pend row in
            if FileMeta.is_deleted parent then
              let '(pend', parent') := undelete now pend parent in
              _restore_upwards fuel' now w user_id parent' pend'
            else _restore_upwards fuel' now w user_id parent pend
        end
  end.

(** [db.commit()]: every dirty object is written to its row. *)
Definition commit (pend : gmap Z FileMeta.t) (w : World) : World :=
  with_file_meta (List.map (load pend) (file_meta w)) w.

Definition restore (fuel : nat) (now id user_id : Z) : M (option FileMeta.t) := fun w =>
  match get_obj id user_id w with
  | None => Ok None w
  | Some obj =>
      let '(pend, obj) := undelete now ∅ obj in
      match _restore_downwards fuel now w user_id obj pend with
      | None => Diverge
      | Some pend =>
          match _restore_upwards fuel now w user_id obj pend with
          | None => Diverge
          | Some pend =>
              let w' := commit pend w in
              Ok (first (by_id (FileMeta.id obj)) (file_meta w')) w'
          end
      end
  end.

(** *** Hard delete *)

(** The [file_store] relationship of a node, as [joinedload] fetches it. *)
Definition file_store_of (obj : FileMeta.t) (w : World) : option FileStore.t :=
  match FileMeta.file_hash obj with
  | Some h => get_by_hash h w
  | None => None
  end.

Definition delete_store (file_hash : string) (w : World) : World :=
  with_file_store
    (all (fun s => negb (String.eqb (FileStore.file_hash s) file_hash)) (file_store w)) w.

(** The non-folder branch of [permanent_remove]. *)
Definition release_store (obj : FileMeta.t) : M unit :=
  store ← gets (file_store_of obj);
  match store with
  | Some store =>
      updated_store ← decrement_ref_count (FileStore.file_hash store);
      match updated_store with
      | Some updated_store =>
          if FileStore.ref_count updated_store <=? 0 then
            present ← gets (os_path_exists (FileStore.real_path updated_store));
            _ ← (if present : bool then os_remove (FileStore.real_path updated_store) else mret tt);
            modify (delete_store (FileStore.file_hash updated_store))
          else mret tt
      | None => mret tt
      end
  | None => mret tt
  end.

Fixpoint permanent_remove (fuel : nat) (id user_id : Z) : M (option FileMeta.t) :=
  match fuel with
  | O => diverge
  | S fuel' =>
      obj ← gets (get_obj id user_id);
      match obj with
      | None => mret None
      | Some obj =>
          _ ← (if FileMeta.is_folder obj then
                 children ← gets (fun w => all (child_of id user_id) (file_meta w));
                 for_each children (fun child =>
                   _ ← permanent_remove fuel' (FileMeta.id child) user_id; mret tt)
               else release_store obj);
          _ ← modify (delete_row (FileMeta.id obj));
          mret (Some obj)
      end
  end.

(** [timedelta(days=days)], in the unit of the clock (seconds). *)
Definition timedelta_days (days : Z) : Z := days * 86400.

Definition expired (user_id expire_date : Z) (r : FileMeta.t) : bool :=
  (FileMeta.user_id r =? user_id) && FileMeta.is_deleted r &&
  match FileMeta.deleted_at r with
  | Some t => t <? expire_date
  | None => false
  end.

Definition clean_expired_trash (fuel : nat) (now user_id days : Z) : M unit :=
  let expire_date := now - timedelta_days days in
  expired_files ← gets (fun w => all (expired user_id expire_date) (file_meta w));
  for_each expired_files (fun file =>
    _ ← permanent_remove fuel (FileMeta.id file) user_id; mret tt).

(** [.offset(skip).limit(limit)], as SQLite evaluates it: a negative offset
    skips no row, a negative limit is no limit. *)
Definition page {A} (skip limit : Z) (l : list A) : list A :=
  let rows := List.skipn (Z.to_nat skip) l in
  if limit <? 0 then rows else List.firstn (Z.to_nat limit) rows.

Definition trash_root (user_id : Z) (w : World) (r : FileMeta.t) : bool :=
  (FileMeta.user_id r =? user_id) && FileMeta.is_deleted r &&
  ((FileMeta.parent_id r =? 0) ||
   match first (by_id (FileMeta.parent_id r)) (file_meta w) with
   | None => true
   | Some parent => negb (FileMeta.is_deleted parent)
   end).

Definition get_trash_files (fuel : nat) (now user_id : Z) (parent_id : option Z) (skip limit : Z)
    : M (list FileMeta.t) :=
  _ ← clean_expired_trash fuel now user_id 30;
  match parent_id with
  | Some p =>
      if negb (p =? 0) then
        gets (fun w => page skip limit (all (deleted_child_of p user_id) (file_meta w)))
      else gets (fun w => page skip limit (all (trash_root user_id w) (file_meta w)))
  | None => gets (fun w => page skip limit (all (trash_root user_id w) (file_meta w)))
  end.

(** *** Ancestors, path resolution, copy, move *)

Fixpoint get_ancestors_from (fuel : nat) (w : World) (user_id current_id : Z)
    (ancestors : list FileMeta.t) : option (list FileMeta.t) :=
  match fuel with
  | O => None
  | S fuel' =>
      if current_id =? 0 then Some ancestors
      else
        match get_obj current_id user_id w with
        | None => Some ancestors
        | Some folder =>
            get_ancestors_from fuel' w user_id (FileMeta.parent_id folder) (folder :: ancestors)
        end
  end.

Definition get_ancestors (fuel : nat) (folder_id user_id : Z) : M (list FileMeta.t) := fun w =>
  match get_ancestors_from fuel w user_id folder_id [] with
  | Some ancestors => Ok ancestors w
  | None => Diverge
  end.

Definition active_folder_named (user_id parent_id : Z) (folder_name : string) (r : FileMeta.t) : bool :=
  active_child_of parent_id user_id r && String.eqb (FileMeta.file_name r) folder_name
  && FileMeta.is_folder r.

(** One round of the loop of [get_or_create_path]. *)
Definition resolve_folder (user_id now : Z) (current_parent_id : Z) (folder_name : string) : M Z :=
  if String.eqb folder_name "" then mret current_parent_id
  else
    folder ← gets (fun w => first (active_folder_named user_id current_parent_id folder_name)
                                  (file_meta w));
    match folder with
    | Some folder => mret (FileMeta.id folder)
    | None =>
        new_folder ← add_file_meta folder_name true current_parent_id None user_id now;
        existing_folders ← gets (fun w =>
          order_by FileMeta.id
            (all (active_folder_named user_id current_parent_id folder_name) (file_meta w)));
        match existing_folders with
        | primary_folder :: ((_ :: _) as dups) =>
            _ ← modify (fun w =>
                  let childless dup :=
                    negb (existsb (fun r => FileMeta.parent_id r =? FileMeta.id dup) (file_meta w)) in
                  let doomed := List.map FileMeta.id (all childless dups) in
                  with_file_meta
                    (all (fun r => negb (existsb (Z.eqb (FileMeta.id r)) doomed)) (file_meta w)) w);
            mret (FileMeta.id primary_folder)
        | _ => mret (FileMeta.id new_folder)
        end
    end.

Definition get_or_create_path (user_id now parent_id : Z) (relative_path : string) : M Z :=
  let parts := split_slash relative_path in
  let folder_parts := removelast parts in
  foldM (resolve_folder user_id now) parent_id folder_parts.

Fixpoint copy (fuel : nat) (now id target_parent_id user_id : Z) : M (option FileMeta.t) :=
  match fuel with
  | O => diverge
  | S fuel' =>
      obj ← gets (get_obj id user_id);
      match obj with
      | None => mret None
      | Some obj =>
          unique_name ← _get_unique_filename user_id target_parent_id (FileMeta.file_name obj);
          new_obj ← add_file_meta unique_name (FileMeta.is_folder obj) target_parent_id
                                  (FileMeta.file_hash obj) user_id now;
          _ ← (if negb (FileMeta.is_folder obj) then
                 match FileMeta.file_hash obj with
                 | Some h =>
                     if truthy (Some h) then _ ← increment_ref_count h; mret tt else mret tt
                 | None => mret tt
                 end
               else
                 children ← gets (fun w => all (active_child_of id user_id) (file_meta w));
                 for_each children (fun child =>
                   _ ← copy fuel' now (FileMeta.id child) (FileMeta.id new_obj) user_id; mret tt));
          mret (Some new_obj)
      end
  end.

Definition move (fuel : nat) (now id target_parent_id user_id : Z) : M (option FileMeta.t) :=
  obj ← gets (get_obj id user_id);
  match obj with
  | None => mret None
  | Some obj =>
      cyclic ← (if FileMeta.is_folder obj then
                  ancestors ← get_ancestors fuel target_parent_id user_id;
                  mret (existsb (by_id id) ancestors)
                else mret false);
      if cyclic : bool then mret None
      else
        unique_name ← _get_unique_filename user_id target_parent_id (FileMeta.file_name obj);
        _ ← modify (update_row (FileMeta.id obj)
                      (FileMeta.set_location target_parent_id unique_name now));
        gets (first (by_id (FileMeta.id obj)) ∘ file_meta)
  end.

(** *** Listing *)

(** [get_by_user_and_parent]: with a search string the parent is ignored
    and every active node of the owner whose name contains it is listed. *)
Definition get_by_user_and_parent (user_id parent_id : Z) (search : option string)
    (skip limit : Z) (w : World) : list FileMeta.t :=
  if truthy search then
    page skip limit
      (all (fun r => (FileMeta.user_id r =? user_id) && negb (FileMeta.is_deleted r)
                     && like ("%" +:+ default EmptyString search +:+ "%") (FileMeta.file_name r))
           (file_meta w))
  else page skip limit (all (active_child_of parent_id user_id) (file_meta w)).

End CRUDFileMeta.

(** ** [api/api_v1/endpoints/files.py] *)

Module files.

(** A character that [is_filename_valid] rejects: less-than, greater-than,
    colon, double quote, slash, backslash, bar, question mark, star. *)
Definition illegal_char (c : ascii) : bool :=
  existsb (Ascii.eqb c)
    ["<"; ">"; ":"; ascii_of_nat 34; "/"; ascii_of_nat 92; "|"; "?"; "*"]%char.

Fixpoint has_illegal_char (s : string) : bool :=
  match s with
  | EmptyString => false
  | String c s' => illegal_char c || has_illegal_char s'
  end.

Definition is_filename_valid (filename : string) : bool := negb (has_illegal_char filename).

Fixpoint all_dots (s : string) : bool :=
  match s with
  | EmptyString => true
  | String c s' => Ascii.eqb c "." && all_dots s'
  end.

(** [os.path.splitext] (posixpath): the extension starts at the last dot of
    the last path component, unless only dots precede it there. *)
Definition splitext_component (tail : string) : string * string :=
  match rsplit1 "." tail with
  | Some (a, b) => if all_dots a then (tail, EmptyString) else (a, "." +:+ b)
  | None => (tail, EmptyString)
  end.

Definition splitext (p : string) : string * string :=
  match rsplit1 "/" p with
  | Some (head, tail) =>
      let '(root, ext) := splitext_component tail in (head +:+ "/" +:+ root, ext)
  | None => splitext_component p
  end.

(** [Modelled from the spec:] [CRUDBase.get] of [app/crud/base.py], which is
    not among the sources: the Node table is keyed by id, and [get] reads
    the row with that key, whoever owns it. *)
Definition crud_file_get (id : Z) (w : World) : option FileMeta.t :=
  first (CRUDFileMeta.by_id id) (file_meta w).

(** The attributes of [current_user], read again after each commit. *)
Definition quota_exceeded (current_user : Z) (incoming : Z) (w : World) : bool :=
  match sys_user w !! current_user with
  | Some u => User.quota_used u + incoming >? User.quota_total u
  | None => false
  end.

Definition name_conflict (file_name : string) (existing : FileMeta.t) : exn :=
  HTTPException 409
    (Conflict ("A file with name '" +:+ file_name +:+ "' already exists") (FileMeta.id existing)).

Definition illegal_name (file_name : string) : exn :=
  HTTPException 400 (Msg ("illegal characters in " +:+ file_name)).

Definition get_unique_filename (filename : string) (parent_id user_id : Z) : M string := fun w =>
  match CRUDFileMeta.get_by_name_and_parent filename parent_id user_id w with
  | None => Ok filename w
  | Some _ =>
      let '(name, ext) := splitext filename in
      match probe (fun n => bool_decide
                     (is_Some (CRUDFileMeta.get_by_name_and_parent n parent_id user_id w)))
                  name ext (S (length (file_meta w))) 1 with
      | Some new_name => Ok new_name w
      | None => Diverge
      end
  end.

(** The part shared by the three upload endpoints: the destination folder
    and the final name. *)
Definition destination (current_user now : Z) (file_name : string) (parent_id : Z)
    (relative_path : option string) (auto_rename : bool) : M (Z * string) :=
  target_parent_id ← (if truthy relative_path then
                        CRUDFileMeta.get_or_create_path current_user now parent_id
                          (default EmptyString relative_path)
                      else mret parent_id);
  final_filename ← (if auto_rename then
                      get_unique_filename file_name target_parent_id current_user
                    else
                      existing ← gets (CRUDFileMeta.get_by_name_and_parent file_name
                                         target_parent_id current_user);
                      match existing with
                      | Some existing => raise (name_conflict file_name existing)
                      | None => mret file_name
                      end);
  mret (target_parent_id, final_filename).

(** The tail shared by the three upload endpoints: the node and the quota. *)
Definition commit_node (current_user now : Z) (final_filename : string) (target_parent_id : Z)
    (file_hash : string) (file_size : Z) : M FileMeta.t :=
  let file_meta_in :=
    FileMetaCreate.mk final_filename false target_parent_id (Some file_hash) file_size in
  file_meta ← CRUDFileMeta.create_with_user file_meta_in current_user now;
  _ ← CRUDUser.update_quota_used current_user file_size;
  mret file_meta.

(** The endpoints that only wrap a namespace operation. *)

Definition not_found : exn := HTTPException 404 (Msg "File not found").
Definition illegal_folder_name : exn :=
  HTTPException 400 (Msg "illegal characters in the folder name").
Definition folder_conflict : exn :=
  HTTPException 409 (Msg "A folder with this name already exists in this directory").

Definition read_files (current_user parent_id : Z) (search : option string) (skip limit : Z)
    : M (list FileMeta.t) :=
  gets (CRUDFileMeta.get_by_user_and_parent current_user parent_id search skip limit).

Definition get_folder_path (fuel : nat) (current_user folder_id : Z) : M (list FileMeta.t) :=
  if folder_id =? 0 then mret []
  else CRUDFileMeta.get_ancestors fuel folder_id current_user.

Definition create_folder (current_user now : Z) (folder_in : FileMetaCreate.t) : M FileMeta.t :=
  if negb (is_filename_valid (FileMetaCreate.file_name folder_in)) then raise illegal_folder_name
  else
    existing ← gets (CRUDFileMeta.get_by_name_and_parent (FileMetaCreate.file_name folder_in)
                       (FileMetaCreate.parent_id folder_in) current_user);
    match existing with
    | Some _ => raise folder_conflict
    | None =>
        let folder_in :=
          FileMetaCreate.mk (FileMetaCreate.file_name folder_in) true
            (FileMetaCreate.parent_id folder_in) None (FileMetaCreate.file_size folder_in) in
        CRUDFileMeta.create_with_user folder_in current_user now
    end.

Definition delete_file (fuel : nat) (current_user now file_id : Z) : M FileMeta.t :=
  file_meta ← CRUDFileMeta.remove fuel now file_id current_user;
  match file_meta with
  | None => raise not_found
  | Some file_meta => mret file_meta
  end.

Definition restore_file (fuel : nat) (current_user now file_id : Z) : M FileMeta.t :=
  file_meta ← CRUDFileMeta.restore fuel now file_id current_user;
  match file_meta with
  | None => raise not_found
  | Some file_meta => mret file_meta
  end.

(** The loop of the batch endpoints: the results of the operations that
    returned a node, in the order of the request. *)
Definition batch (op : Z -> M (option FileMeta.t)) (file_ids : list Z) : M (list FileMeta.t) :=
  foldM (fun results file_id =>
           r ← op file_id;
           mret (match r with Some node => results ++ [node] | None => results end))
        [] file_ids.

Definition batch_copy (fuel : nat) (current_user now : Z) (file_ids : list Z)
    (target_parent_id : Z) : M (list FileMeta.t) :=
  batch (fun file_id => CRUDFileMeta.copy fuel now file_id target_parent_id current_user) file_ids.

Definition batch_move (fuel : nat) (current_user now : Z) (file_ids : list Z)
    (target_parent_id : Z) : M (list FileMeta.t) :=
  batch (fun file_id => CRUDFileMeta.move fuel now file_id target_parent_id current_user) file_ids.

Definition batch_delete (fuel : nat) (current_user now : Z) (file_ids : list Z)
    : M (list FileMeta.t) :=
  batch (fun file_id => CRUDFileMeta.remove fuel now file_id current_user) file_ids.

Definition batch_restore (fuel : nat) (current_user now : Z) (file_ids : list Z)
    : M (list FileMeta.t) :=
  batch (fun file_id => CRUDFileMeta.restore fuel now file_id current_user) file_ids.

Section Settings.

Variable md5 : list Byte.byte -> string.           (* hashlib.md5(..).hexdigest() *)
Variable UPLOAD_DIR : string.
Variable EXTRA_STORAGE_PATHS : list string.
Variable DIR_SIZE : Z.                             (* st_size of a directory *)

Definition STORAGE_PATHS : list string := UPLOAD_DIR :: EXTRA_STORAGE_PATHS.

Definition os_path_getsize (p : string) : M Z := fun w =>
  match files w !! p with
  | Some content => Ok (Z.of_nat (length content)) w
  | None => if is_dir p w then Ok DIR_SIZE w else Raise (OSError p) w
  end.

Definition read_file (p : string) : M (list Byte.byte) := fun w =>
  match files w !! p with
  | Some content => Ok content w
  | None => Raise (OSError p) w
  end.

(** [shutil.move(src, dst)] of a regular file onto a free path. *)
Definition shutil_move (src dst : string) : M unit :=
  content ← read_file src;
  _ ← write_file dst content;
  os_remove src.

(** The volume with the most free space; a path whose usage cannot be read
    ([OSError]) is skipped; the first of equally free volumes wins. *)
Definition get_best_storage_path : M string := fun w =>
  let step (acc : option string * Z * list string) (path : string) :=
    let '(best_path, max_free_space, made) := acc in
    match disk_free w !! path with
    | Some free =>
        if free >? max_free_space then (Some path, free, made ++ [path])
        else (best_path, max_free_space, made ++ [path])
    | None => acc
    end in
  let '(best_path, _, made) := fold_left step STORAGE_PATHS (None, -1, []) in
  let w' := with_dirs (dirs w ++ made) w in
  match best_path with
  | Some path => Ok path w'
  | None => Raise (HTTPException 500 (Msg "No usable storage paths found.")) w'
  end.

Definition upload_file (current_user now : Z) (filename : string) (content : list Byte.byte)
    (parent_id : Z) (relative_path : option string) (auto_rename : bool) (uuid : string)
    : M FileMeta.t :=
  if negb (is_filename_valid filename) then raise (illegal_name filename)
  else
    '(target_parent_id, final_filename) ←
        destination current_user now filename parent_id relative_path auto_rename;
    let temp_file_path :=
      os_path_join UPLOAD_DIR ("temp_" +:+ final_filename +:+ "_" +:+ uuid) in
    _ ← write_file temp_file_path content;
    let file_hash := md5 content in
    file_size ← os_path_getsize temp_file_path;
    over ← gets (quota_exceeded current_user file_size);
    if over : bool then
      _ ← os_remove temp_file_path;
      raise (HTTPException 413 (Msg "Storage quota exceeded"))
    else
      existing_store ← gets (CRUDFileMeta.get_by_hash file_hash);
      _ ← match existing_store with
          | Some _ =>
              _ ← CRUDFileMeta.increment_ref_count file_hash;
              os_remove temp_file_path
          | None =>
              storage_base_path ← get_best_storage_path;
              let final_path := os_path_join storage_base_path file_hash in
              present ← gets (os_path_exists final_path);
              _ ← (if present : bool then os_remove temp_file_path
                   else shutil_move temp_file_path final_path);
              _ ← CRUDFileMeta.create_file_store file_hash final_path file_size;
              mret tt
          end;
      commit_node current_user now final_filename target_parent_id file_hash file_size.

Definition check_fast_upload (current_user now : Z) (file_hash file_name : string)
    (parent_id : Z) (relative_path : option string) (auto_rename : bool)
    : M (option FileMeta.t) :=
  if negb (is_filename_valid file_name) then raise (illegal_name file_name)
  else
    '(target_parent_id, final_filename) ←
        destination current_user now file_name parent_id relative_path auto_rename;
    existing_store ← gets (CRUDFileMeta.get_by_hash file_hash);
    match existing_store with
    | Some existing_store =>
        over ← gets (quota_exceeded current_user (FileStore.file_size existing_store));
        if over : bool then raise (HTTPException 413 (Msg "Storage quota exceeded"))
        else
          _ ← CRUDFileMeta.increment_ref_count file_hash;
          file_meta ← commit_node current_user now final_filename target_parent_id file_hash
                                  (FileStore.file_size existing_store);
          mret (Some file_meta)
    | None => mret None
    end.

Definition chunk_missing (c : FileChunk.t) : exn :=
  HTTPException 400 (Msg ("Chunk " +:+ pretty (FileChunk.chunk_index c) +:+ " missing")).
Definition temp_missing (c : FileChunk.t) : exn :=
  HTTPException 400
    (Msg ("Temp file for chunk " +:+ pretty (FileChunk.chunk_index c) +:+ " missing")).
Definition hash_mismatch (file_hash calculated_hash : string) : exn :=
  HTTPException 400
    (Msg ("File hash mismatch. Client: " +:+ file_hash +:+ ", Server: " +:+ calculated_hash)).
Definition session_not_found : exn := HTTPException 404 (Msg "Upload session not found").

(** The concatenation loop of [merge_chunks]: every chunk is appended to the
    output and its temporary file removed; the value is what was hashed. *)
Definition append_chunk (final_path : string) (hashed : list Byte.byte) (chunk : FileChunk.t)
    : M (list Byte.byte) :=
  present ← gets (CRUDChunk.temp_exists chunk);
  if present : bool then
    let temp_path := default EmptyString (FileChunk.temp_path chunk) in
    chunk_content ← read_file temp_path;
    written ← read_file final_path;
    _ ← write_file final_path (written ++ chunk_content);
    _ ← os_remove temp_path;
    mret (hashed ++ chunk_content)
  else raise (temp_missing chunk).

Definition discard_chunk (chunk : FileChunk.t) : M unit :=
  present ← gets (CRUDChunk.temp_exists chunk);
  if present : bool then os_remove (default EmptyString (FileChunk.temp_path chunk)) else mret tt.

(** [merge_chunks], the session check: no session at all is accepted for
    the hash of the empty content only; every slot must be marked uploaded. *)
Definition check_session (file_hash : string) (chunks : list FileChunk.t) : M unit :=
  _ ← (match chunks with
       | [] => if String.eqb file_hash (md5 []) then mret tt else raise session_not_found
       | _ => mret tt
       end);
  for_each chunks (fun chunk =>
    if negb (FileChunk.is_uploaded chunk) then raise (chunk_missing chunk) else mret tt).

(** [merge_chunks] up to the choice of the output path: the name, the
    destination folder, the session and the volume. *)
Definition merge_prelude (current_user now : Z) (upload_id file_name file_hash : string)
    (parent_id : Z) (relative_path : option string) (auto_rename : bool)
    : M (Z * string * list FileChunk.t * string) :=
  if negb (is_filename_valid file_name) then raise (illegal_name file_name)
  else
    '(target_parent_id, final_filename) ←
        destination current_user now file_name parent_id relative_path auto_rename;
    chunks ← CRUDChunk.get_all_chunks upload_id;
    _ ← check_session file_hash chunks;
    storage_base_path ← get_best_storage_path;
    mret (target_parent_id, final_filename, chunks, os_path_join storage_base_path file_hash).

(** [merge_chunks], the reassembly: when no file exists at the output path
    the chunks are concatenated there and the hash of what was written is
    compared with the claimed one; when a file exists the chunks are
    discarded. *)
Definition reassemble (final_path file_hash : string) (chunks : list FileChunk.t) : M unit :=
  present ← gets (os_path_exists final_path);
  if negb present then
    _ ← write_file final_path [];
    hashed ← foldM (append_chunk final_path) [] chunks;
    let calculated_hash := md5 hashed in
    if negb (String.eqb calculated_hash file_hash) then
      _ ← os_remove final_path;
      raise (hash_mismatch file_hash calculated_hash)
    else mret tt
  else for_each chunks discard_chunk.

(** [merge_chunks], from the quota check on: the blob, the node, the end
    of the session. *)
Definition merge_commit (current_user now : Z) (upload_id final_filename : string)
    (target_parent_id : Z) (file_hash final_path : string) : M FileMeta.t :=
  file_size ← os_path_getsize final_path;
  over ← gets (quota_exceeded current_user file_size);
  if over : bool then
    existing_store_check ← gets (CRUDFileMeta.get_by_hash file_hash);
    _ ← (match existing_store_check with
         | None => os_remove final_path
         | Some _ => mret tt
         end);
    raise (HTTPException 413 (Msg "Storage quota exceeded"))
  else
    existing_store ← gets (CRUDFileMeta.get_by_hash file_hash);
    _ ← match existing_store with
        | Some _ => _ ← CRUDFileMeta.increment_ref_count file_hash; mret tt
        | None => _ ← CRUDFileMeta.create_file_store file_hash final_path file_size; mret tt
        end;
    file_meta ← commit_node current_user now final_filename target_parent_id file_hash file_size;
    _ ← CRUDChunk.delete_chunks upload_id;
    mret file_meta.

Definition merge_chunks (current_user now : Z) (upload_id file_name file_hash : string)
    (parent_id : Z) (relative_path : option string) (auto_rename : bool) : M FileMeta.t :=
  '(target_parent_id, final_filename, chunks, final_path) ←
      merge_prelude current_user now upload_id file_name file_hash parent_id relative_path
        auto_rename;
  _ ← reassemble final_path file_hash chunks;
  merge_commit current_user now upload_id final_filename target_parent_id file_hash final_path.

(** [schemas/chunk.py] *)
Record ChunkInit : Type := mkChunkInit {
  init_file_hash : string;
  init_file_size : Z;
  init_file_name : string;
  init_parent_id : Z;
  init_total_chunks : Z }.

(** The session identity: the digest of user, content hash and parent. *)
Definition session_id (current_user : Z) (init_data : ChunkInit) : string :=
  md5 (list_byte_of_string
         (pretty current_user +:+ "-" +:+ init_file_hash init_data +:+ "-"
          +:+ pretty (init_parent_id init_data))).

Definition init_chunk_upload (current_user : Z) (init_data : ChunkInit) (auto_rename : bool)
    : M (string * list Z) :=
  if negb (is_filename_valid (init_file_name init_data)) then
    raise (illegal_name (init_file_name init_data))
  else
    _ ← (if negb auto_rename then
           existing ← gets (CRUDFileMeta.get_by_name_and_parent (init_file_name init_data)
                              (init_parent_id init_data) current_user);
           match existing with
           | Some existing => raise (name_conflict (init_file_name init_data) existing)
           | None => mret tt
           end
         else mret tt);
    over ← gets (quota_exceeded current_user (init_file_size init_data));
    if over : bool then raise (HTTPException 413 (Msg "Storage quota exceeded"))
    else
      let upload_id := session_id current_user init_data in
      _ ← CRUDChunk.create_init_chunks upload_id current_user (init_file_hash init_data)
            (init_total_chunks init_data);
      uploaded_chunks ← CRUDChunk.get_uploaded_chunks upload_id;
      mret (upload_id, uploaded_chunks).

Definition chunk_path (upload_id : string) (chunk_index : Z) : string :=
  os_path_join UPLOAD_DIR (upload_id +:+ "_" +:+ pretty chunk_index).

Definition upload_chunk (upload_id : string) (chunk_index : Z) (content : list Byte.byte)
    : M Z :=
  let temp_chunk_path := chunk_path upload_id chunk_index in
  _ ← write_file temp_chunk_path content;
  let chunk_size := Z.of_nat (length content) in
  _ ← CRUDChunk.mark_chunk_uploaded upload_id chunk_index chunk_size temp_chunk_path;
  mret chunk_index.

(** [FileMeta.file_size] of [models/file.py] *)
Definition file_size_of (meta : FileMeta.t) (w : World) : Z :=
  if FileMeta.is_folder meta then 0
  else match CRUDFileMeta.file_store_of meta w with
       | Some store => FileStore.file_size store
       | None => 0
       end.

Fixpoint calculate_size (fuel : nat) (current_user now : Z) (meta : FileMeta.t) : M Z :=
  match fuel with
  | O => diverge
  | S fuel' =>
      if FileMeta.is_folder meta then
        children ← CRUDFileMeta.get_trash_files fuel' now current_user
                     (Some (FileMeta.id meta)) 0 10000;
        foldM (fun size child =>
                 s ← calculate_size fuel' current_user now child; mret (size + s))
              0 children
      else gets (file_size_of meta)
  end.

Definition permanent_delete_file (fuel : nat) (current_user now : Z) (file_id : Z)
    : M (option FileMeta.t) :=
  file_meta ← gets (crud_file_get file_id);
  match file_meta with
  | None => raise (HTTPException 404 (Msg "File not found"))
  | Some file_meta =>
      size_to_free ← calculate_size fuel current_user now file_meta;
      file_meta ← CRUDFileMeta.permanent_remove fuel file_id current_user;
      _ ← CRUDUser.update_quota_used current_user (- size_to_free);
      mret file_meta
  end.

End Settings.

End files.

(** * Properties *)

(** Unfolding of the monad's operations. *)
Ltac munfold :=
  unfold mbind, M_bind, mret, M_ret, gets, modify, raise, diverge in *; cbn beta iota in *.

(** ** Generic facts on the queries *)

Lemma all_nil_iff {A} (p : A -> bool) (l : list A) :
  all p l = [] <-> forall x, In x l -> p x = false.
Proof.
  unfold all. induction l as [|a l IH]; simpl.
  - split; [intros _ x []|reflexivity].
  - destruct (p a) eqn:E; split.
    + discriminate.
    + intros H. specialize (H a (or_introl eq_refl)). congruence.
    + intros H x [->|Hx]; [assumption|]. apply IH; assumption.
    + intros H. apply IH. intros x Hx. apply H. right; assumption.
Qed.

Lemma all_all_neg {A} (p : A -> bool) (l : list A) :
  all p (all (fun x => negb (p x)) l) = [].
Proof.
  apply all_nil_iff. intros x Hx. apply filter_In in Hx as [_ Hx].
  destruct (p x); [discriminate|reflexivity].
Qed.

Lemma all_id {A} (p : A -> bool) (l : list A) :
  (forall x, In x l -> p x = true) -> all p l = l.
Proof.
  unfold all. induction l as [|a l IH]; simpl; intros H; [reflexivity|].
  rewrite (H a (or_introl eq_refl)). f_equal. apply IH. intros x Hx. apply H. right; assumption.
Qed.

Lemma all_all_other {A} (p q : A -> bool) (l : list A) :
  (forall x, q x = true -> p x = false) ->
  all q (all (fun x => negb (p x)) l) = all q l.
Proof.
  intros H. unfold all. induction l as [|a l IH]; simpl; [reflexivity|].
  destruct (p a) eqn:Ep; simpl.
  - destruct (q a) eqn:Eq; [|assumption]. apply H in Eq. congruence.
  - destruct (q a); [f_equal|]; assumption.
Qed.

(** ** Chunk sessions *)

Section ChunkSession.

Import CRUDChunk.

Lemma range_length (n : Z) : length (range n) = Z.to_nat n.
Proof. unfold range. rewrite length_map, length_seq. reflexivity. Qed.

Lemma range_spec (n i : Z) : In i (range n) <-> 0 <= i < n.
Proof.
  unfold range. rewrite in_map_iff. split.
  - intros (k & <- & Hk). apply in_seq in Hk. lia.
  - intros Hi. exists (Z.to_nat i). split; [lia|]. apply in_seq. lia.
Qed.

(** The slots of the session after [add_pending_chunks], when none were left. *)
Lemma add_pending_chunks_spec upload_id user_id file_hash total_chunks w :
  get_all_chunks_unordered upload_id w = [] ->
  exists w',
    add_pending_chunks upload_id user_id file_hash total_chunks w
      = Ok (List.map (pending_chunk upload_id user_id file_hash) (range total_chunks)) w'
    /\ file_chunk w' = file_chunk w
                       ++ List.map (pending_chunk upload_id user_id file_hash) (range total_chunks)
    /\ get_all_chunks_unordered upload_id w'
       = List.map (pending_chunk upload_id user_id file_hash) (range total_chunks).
Proof.
  intros Hnone. eexists. split; [reflexivity|]. split; [reflexivity|].
  unfold get_all_chunks_unordered, all in *; simpl. rewrite List.filter_app, Hnone. simpl.
  apply all_id. intros c Hc. apply in_map_iff in Hc as (i & <- & _). simpl. apply String.eqb_refl.
Qed.

(** C9. Initialising a chunk session whose slots already exist returns
    them unchanged when their number equals [total_chunks] (the call is
    idempotent: the database is left as it was); when their number differs,
    every prior slot of the session is discarded and the session then
    consists of exactly the pending slots of indices [0 .. total_chunks-1],
    the slots of the other sessions being untouched. *)
Theorem create_init_chunks_reuse_or_reset :
  forall (upload_id : string) (user_id : Z) (file_hash : string) (total_chunks : Z) (w : World),
    get_all_chunks_unordered upload_id w <> [] ->
    let existing := get_all_chunks_unordered upload_id w in
    let fresh := List.map (pending_chunk upload_id user_id file_hash) (range total_chunks) in
    (Z.of_nat (length existing) = total_chunks ->
       create_init_chunks upload_id user_id file_hash total_chunks w = Ok existing w)
    /\
    (Z.of_nat (length existing) <> total_chunks ->
       exists w',
         create_init_chunks upload_id user_id file_hash total_chunks w = Ok fresh w'
         /\ get_all_chunks_unordered upload_id w' = fresh
         /\ (forall c, In c existing -> In c (file_chunk w') -> In c fresh)
         /\ (forall other, other <> upload_id ->
               get_all_chunks_unordered other w' = get_all_chunks_unordered other w)
         /\ List.map FileChunk.chunk_index fresh = range total_chunks
         /\ Forall (fun c => FileChunk.is_uploaded c = false /\ FileChunk.temp_path c = None) fresh
         /\ length fresh = Z.to_nat total_chunks).
Proof.
  intros upload_id user_id file_hash total_chunks w Hex existing fresh. split.
  - intros Hlen. unfold create_init_chunks. munfold. fold existing.
    destruct existing as [|c l] eqn:E; [contradiction|].
    apply Z.eqb_eq in Hlen. rewrite Hlen. reflexivity.
  - intros Hlen. unfold create_init_chunks. munfold. fold existing.
    destruct existing as [|c l] eqn:E; [contradiction|].
    apply Z.eqb_neq in Hlen. rewrite Hlen. unfold delete_chunks. munfold.
    set (w1 := with_file_chunk _ w).
    assert (Hnone : get_all_chunks_unordered upload_id w1 = []).
    { unfold get_all_chunks_unordered, w1; simpl.
      apply (all_all_neg (fun c => String.eqb (FileChunk.upload_id c) upload_id)). }
    destruct (add_pending_chunks_spec upload_id user_id file_hash total_chunks w1 Hnone)
      as (w' & Hrun & Hrows & Hsess).
    exists w'. split; [exact Hrun|]. split; [exact Hsess|]. split; [|split; [|split; [|split]]].
    + intros x Hx Hin. rewrite Hrows in Hin. apply in_app_or in Hin as [Hin|Hin]; [|exact Hin].
      exfalso. unfold w1 in Hin; simpl in Hin. apply filter_In in Hin as [_ Hin].
      unfold existing, get_all_chunks_unordered in E.
      assert (Hx' : In x (all (fun c => String.eqb (FileChunk.upload_id c) upload_id) (file_chunk w)))
        by (rewrite E; exact Hx).
      apply filter_In in Hx' as [_ Hx']. rewrite Hx' in Hin. discriminate.
    + intros other Hne. unfold get_all_chunks_unordered. rewrite Hrows.
      assert (Hf : all (fun c => String.eqb (FileChunk.upload_id c) other) fresh = []).
      { apply all_nil_iff. intros x Hx. apply in_map_iff in Hx as (i & <- & _).
        simpl. apply String.eqb_neq. congruence. }
      unfold all in *. rewrite List.filter_app. unfold fresh in Hf. rewrite Hf, app_nil_r.
      unfold w1; simpl.
      apply (all_all_other (fun c => String.eqb (FileChunk.upload_id c) upload_id)).
      intros x Hx. apply String.eqb_eq in Hx. apply String.eqb_neq. congruence.
    + unfold fresh. rewrite List.map_map. simpl. apply List.map_id.
    + apply List.Forall_forall. intros x Hx. apply in_map_iff in Hx as (i & <- & _). split; reflexivity.
    + unfold fresh. rewrite length_map. apply range_length.
Qed.

End ChunkSession.

(** ** The blob store: reference counts *)

Section BlobStore.

Import CRUDFileMeta.

Lemma first_map_stable {A} (p : A -> bool) (f : A -> A) (l : list A) :
  (forall x, p (f x) = p x) ->
  first p (List.map f l) = option_map f (first p l).
Proof.
  intros Hp. unfold first. induction l as [|a l IH]; simpl; [reflexivity|].
  rewrite Hp. destruct (p a); [reflexivity|assumption].
Qed.

Lemma first_none_all {A} (p : A -> bool) (l : list A) :
  first p l = None <-> all p l = [].
Proof.
  unfold first, all. induction l as [|a l IH]; simpl; [tauto|].
  destruct (p a); [split; discriminate|assumption].
Qed.

Lemma first_some {A} (p : A -> bool) (l : list A) (x : A) :
  first p l = Some x -> In x l /\ p x = true.
Proof. apply find_some. Qed.

Lemma first_app {A} (p : A -> bool) (l1 l2 : list A) :
  first p (l1 ++ l2) = match first p l1 with Some x => Some x | None => first p l2 end.
Proof.
  unfold first. induction l1 as [|a l IH]; simpl; [reflexivity|].
  destruct (p a); [reflexivity|assumption].
Qed.

Definition bump (file_hash : string) (delta : Z) (s : FileStore.t) : FileStore.t :=
  if String.eqb (FileStore.file_hash s) file_hash
  then FileStore.set_ref_count (FileStore.ref_count s + delta) s else s.

Lemma add_ref_count_store file_hash delta w :
  file_store (add_ref_count file_hash delta w) = List.map (bump file_hash delta) (file_store w).
Proof. reflexivity. Qed.

Lemma bump_hash file_hash delta s : FileStore.file_hash (bump file_hash delta s) = FileStore.file_hash s.
Proof. unfold bump. destruct (String.eqb _ _); reflexivity. Qed.

Lemma get_by_hash_add_ref_count h file_hash delta w :
  get_by_hash h (add_ref_count file_hash delta w)
  = option_map (bump file_hash delta) (get_by_hash h w).
Proof.
  unfold get_by_hash. rewrite add_ref_count_store.
  apply (first_map_stable (fun s => String.eqb (FileStore.file_hash s) h)).
  intros x. rewrite bump_hash. reflexivity.
Qed.

Lemma get_by_hash_hash h w s : get_by_hash h w = Some s -> FileStore.file_hash s = h.
Proof. intros H. apply first_some in H as [_ H]. apply String.eqb_eq in H. exact H. Qed.

Lemma get_by_hash_delete_store h file_hash w :
  get_by_hash h (delete_store file_hash w)
  = if String.eqb h file_hash then None else get_by_hash h w.
Proof.
  unfold get_by_hash, delete_store, first, all; simpl.
  induction (file_store w) as [|a l IH]; simpl.
  - destruct (String.eqb h file_hash); reflexivity.
  - destruct (String.eqb (FileStore.file_hash a) file_hash) eqn:E1; simpl.
    + rewrite IH. destruct (String.eqb h file_hash) eqn:E2; [reflexivity|].
      destruct (String.eqb (FileStore.file_hash a) h) eqn:E3; [|reflexivity].
      apply String.eqb_eq in E1, E3. apply String.eqb_neq in E2. congruence.
    + destruct (String.eqb (FileStore.file_hash a) h) eqn:E3.
      * destruct (String.eqb h file_hash) eqn:E2; [|reflexivity].
        apply String.eqb_eq in E2, E3. apply String.eqb_neq in E1. congruence.
      * exact IH.
Qed.

(** What [decrement_ref_count] does on a stored hash. *)
Lemma decrement_ref_count_spec h w s :
  get_by_hash h w = Some s ->
  decrement_ref_count h w
  = Ok (Some (FileStore.set_ref_count (FileStore.ref_count s - 1) s)) (add_ref_count h (-1) w).
Proof.
  intros Hs. unfold decrement_ref_count. munfold.
  rewrite get_by_hash_add_ref_count, Hs. simpl. unfold bump.
  rewrite (get_by_hash_hash _ _ _ Hs), String.eqb_refl. reflexivity.
Qed.

Lemma increment_ref_count_spec h w s :
  get_by_hash h w = Some s ->
  increment_ref_count h w
  = Ok (Some (FileStore.set_ref_count (FileStore.ref_count s + 1) s)) (add_ref_count h 1 w).
Proof.
  intros Hs. unfold increment_ref_count. munfold.
  rewrite get_by_hash_add_ref_count, Hs. simpl. unfold bump.
  rewrite (get_by_hash_hash _ _ _ Hs), String.eqb_refl. reflexivity.
Qed.


End BlobStore.

(** ** Reasoning about operations *)

Lemma bind_Ok {A B} (m : M A) (k : A -> M B) (w w' : World) (b : B) :
  (m ≫= k) w = Ok b w' -> exists a w1, m w = Ok a w1 /\ k a w1 = Ok b w'.
Proof. unfold mbind, M_bind. destruct (m w); intros H; [eauto|discriminate..]. Qed.

Lemma bind_Raise {A B} (m : M A) (k : A -> M B) (w w' : World) (e : exn) :
  (m ≫= k) w = Raise e w' ->
  m w = Raise e w' \/ exists a w1, m w = Ok a w1 /\ k a w1 = Raise e w'.
Proof.
  unfold mbind, M_bind. destruct (m w); intros H; [right; eauto|left; congruence|discriminate].
Qed.

(** The world in which an operation left off, when it did not diverge. *)
Definition final {A} (o : outcome A) (Q : World -> Prop) : Prop :=
  match o with
  | Ok _ w' => Q w'
  | Raise _ w' => Q w'
  | Diverge => True
  end.

Lemma final_bind {A B} (m : M A) (k : A -> M B) (w : World) (Q R : World -> Prop) :
  final (m w) Q -> (forall a w1, Q w1 -> final (k a w1) R) -> (forall w1, Q w1 -> R w1) ->
  final ((m ≫= k) w) R.
Proof.
  unfold mbind, M_bind, final. destruct (m w) as [a w1|e w1|]; intros Hm Hk HQR; auto.
  apply Hk. exact Hm.
Qed.

(** [w'] differs from [w] at most by folder nodes (without a content hash)
    added to the namespace. *)
Definition adds_folders (w w' : World) : Prop :=
  file_store w' = file_store w /\ file_chunk w' = file_chunk w /\ sys_user w' = sys_user w
  /\ files w' = files w /\ dirs w' = dirs w /\ disk_free w' = disk_free w
  /\ exists extra, file_meta w' = file_meta w ++ extra
       /\ Forall (fun r => FileMeta.is_folder r = true /\ FileMeta.file_hash r = None) extra.

Lemma adds_folders_refl w : adds_folders w w.
Proof.
  unfold adds_folders. repeat (split; [reflexivity|]). exists []. rewrite app_nil_r. auto.
Qed.

Lemma adds_folders_trans w1 w2 w3 : adds_folders w1 w2 -> adds_folders w2 w3 -> adds_folders w1 w3.
Proof.
  intros (A1 & A2 & A3 & A4 & A5 & A6 & e1 & A7 & A8) (B1 & B2 & B3 & B4 & B5 & B6 & e2 & B7 & B8).
  unfold adds_folders. rewrite B1, B2, B3, B4, B5, B6. repeat (split; [assumption|]).
  exists (e1 ++ e2). rewrite B7, A7, app_assoc. split; [reflexivity|].
  apply Forall_app; auto.
Qed.

Section Destination.

Import CRUDFileMeta.

Lemma order_by_singleton {A} (key : A -> Z) (x : A) : order_by key [x] = [x].
Proof. reflexivity. Qed.

Lemma resolve_folder_adds_folders user_id now current_parent_id folder_name w :
  final (resolve_folder user_id now current_parent_id folder_name w) (adds_folders w).
Proof.
  unfold resolve_folder. destruct (String.eqb folder_name "") eqn:Hname.
  - apply adds_folders_refl.
  - munfold.
    destruct (first (active_folder_named user_id current_parent_id folder_name) (file_meta w))
      as [folder|] eqn:Hf.
    + apply adds_folders_refl.
    + unfold add_file_meta. cbn.
      apply first_none_all in Hf. unfold all in *. rewrite List.filter_app, Hf. cbn.
      unfold active_folder_named, active_child_of, child_of. cbn.
      rewrite !Z.eqb_refl, String.eqb_refl. cbn.
      unfold adds_folders. cbn. repeat (split; [reflexivity|]).
      eexists. split; [reflexivity|]. repeat constructor.
Qed.

Lemma foldM_final {A B} (f : B -> A -> M B) (R : World -> World -> Prop) :
  (forall w, R w w) -> (forall w1 w2 w3, R w1 w2 -> R w2 w3 -> R w1 w3) ->
  (forall b a w, final (f b a w) (R w)) ->
  forall l b w, final (foldM f b l w) (R w).
Proof.
  intros Hrefl Htrans Hf l. induction l as [|x l IH]; intros b w; cbn.
  - apply Hrefl.
  - apply final_bind with (Q := R w).
    + apply Hf.
    + intros b' w1 H1. specialize (IH b' w1). destruct (foldM f b' l w1); cbn in *; eauto.
    + auto.
Qed.

Lemma get_or_create_path_adds_folders user_id now parent_id relative_path w :
  final (get_or_create_path user_id now parent_id relative_path w) (adds_folders w).
Proof.
  unfold get_or_create_path. apply foldM_final.
  - apply adds_folders_refl.
  - apply adds_folders_trans.
  - intros. apply resolve_folder_adds_folders.
Qed.

Lemma get_unique_filename_pure filename parent_id user_id w :
  final (files.get_unique_filename filename parent_id user_id w) (eq w).
Proof.
  unfold files.get_unique_filename.
  destruct (get_by_name_and_parent filename parent_id user_id w); [|reflexivity].
  destruct (files.splitext filename) as [name ext].
  destruct (probe _ _ _ _ _); reflexivity.
Qed.

Lemma _get_unique_filename_pure user_id parent_id file_name w :
  final (_get_unique_filename user_id parent_id file_name w) (eq w).
Proof.
  unfold _get_unique_filename. destruct (split_ext file_name) as [name ext].
  destruct (negb _); [reflexivity|]. destruct (probe _ _ _ _ _); reflexivity.
Qed.

Lemma destination_adds_folders current_user now file_name parent_id relative_path auto_rename w :
  final (files.destination current_user now file_name parent_id relative_path auto_rename w)
        (adds_folders w).
Proof.
  unfold files.destination.
  apply final_bind with (Q := adds_folders w).
  - destruct (truthy relative_path).
    + apply get_or_create_path_adds_folders.
    + apply adds_folders_refl.
  - intros target w1 H1. apply final_bind with (Q := adds_folders w).
    + destruct auto_rename.
      * pose proof (get_unique_filename_pure file_name target current_user w1) as Hp.
        destruct (files.get_unique_filename _ _ _ _); cbn in *; subst; auto.
      * munfold. destruct (get_by_name_and_parent _ _ _ _); exact H1.
    + intros a w2 H2. exact H2.
    + auto.
  - auto.
Qed.

End Destination.

(** ** Unique names: the probing loops terminate on a free name *)

Section UniqueNames.

Import CRUDFileMeta.

Lemma list_ascii_app (s1 s2 : string) :
  list_ascii_of_string (s1 +:+ s2) = list_ascii_of_string s1 ++ list_ascii_of_string s2.
Proof.
  induction s1 as [|c s1 IH]; [reflexivity|].
  change (c :: list_ascii_of_string (s1 +:+ s2)
          = c :: (list_ascii_of_string s1 ++ list_ascii_of_string s2))%list.
  rewrite IH. reflexivity.
Qed.

Lemma string_app_inv_tail (s1 s2 t : string) : s1 +:+ t = s2 +:+ t -> s1 = s2.
Proof.
  intros H. apply (f_equal list_ascii_of_string) in H. rewrite !list_ascii_app in H.
  apply app_inv_tail in H. apply (f_equal string_of_list_ascii) in H.
  rewrite !string_of_list_ascii_of_string in H. exact H.
Qed.

Lemma string_app_assoc (s1 s2 s3 : string) : (s1 +:+ s2) +:+ s3 = s1 +:+ (s2 +:+ s3).
Proof.
  induction s1 as [|c s1 IH]; [reflexivity|].
  change (String c ((s1 +:+ s2) +:+ s3) = String c (s1 +:+ s2 +:+ s3)). rewrite IH. reflexivity.
Qed.

Lemma string_app_nil_r (s : string) : s +:+ EmptyString = s.
Proof.
  induction s as [|c s IH]; [reflexivity|].
  change (String c (s +:+ EmptyString) = String c s). rewrite IH. reflexivity.
Qed.

Lemma numbered_inj name ext (k1 k2 : Z) : numbered name ext k1 = numbered name ext k2 -> k1 = k2.
Proof.
  unfold numbered. intros H. apply String.app_inj in H. apply String.app_inj in H.
  rewrite <- !string_app_assoc in H. apply string_app_inv_tail in H.
  apply string_app_inv_tail in H. apply pretty_Z_inj in H. exact H.
Qed.

Lemma numbered_shape name ext (k : Z) :
  numbered name ext k = name +:+ (" (" +:+ pretty k +:+ ")") +:+ ext.
Proof. unfold numbered. rewrite !string_app_assoc. reflexivity. Qed.

Lemma probe_none_taken taken name ext fuel :
  forall c, probe taken name ext fuel c = None ->
  forall i, (i < fuel)%nat -> taken (numbered name ext (c + Z.of_nat i)) = true.
Proof.
  induction fuel as [|fuel IH]; intros c H i Hi; [lia|]. simpl in H.
  destruct (taken (numbered name ext c)) eqn:E; [|discriminate].
  destruct i as [|i].
  - replace (c + Z.of_nat 0) with c by lia. exact E.
  - replace (c + Z.of_nat (S i)) with ((c + 1) + Z.of_nat i) by lia. apply IH; [exact H|lia].
Qed.

Lemma probe_some_free taken name ext fuel :
  forall c r, probe taken name ext fuel c = Some r ->
  taken r = false /\ exists k, c <= k /\ r = numbered name ext k.
Proof.
  induction fuel as [|fuel IH]; intros c r H; [discriminate|]. simpl in H.
  destruct (taken (numbered name ext c)) eqn:E.
  - destruct (IH _ _ H) as (Hf & k & Hk & ->). split; [exact Hf|]. exists k. split; [lia|reflexivity].
  - injection H as <-. split; [exact E|]. exists c. split; [lia|reflexivity].
Qed.

(** One more round than there are taken names is enough: the candidate
    names are pairwise distinct. *)
Lemma probe_total taken name ext (L : list string) (c : Z) :
  (forall n, taken n = true -> In n L) ->
  exists r, probe taken name ext (S (length L)) c = Some r.
Proof.
  intros HL. destruct (probe taken name ext (S (length L)) c) as [r|] eqn:E; [eauto|].
  exfalso. pose proof (probe_none_taken _ _ _ _ _ E) as Ht.
  set (cands := List.map (fun i => numbered name ext (c + Z.of_nat i)) (seq 0 (S (length L)))).
  assert (Hnd : List.NoDup cands).
  { unfold cands. apply List.NoDup_map_NoDup_ForallPairs; [|apply seq_NoDup].
    intros x y _ _ Hxy. apply numbered_inj in Hxy. lia. }
  assert (Hincl : incl cands L).
  { intros n Hn. unfold cands in Hn. apply in_map_iff in Hn as (i & <- & Hi).
    apply in_seq in Hi. apply HL, Ht. lia. }
  pose proof (NoDup_incl_length Hnd Hincl) as Hlen.
  unfold cands in Hlen. rewrite length_map, length_seq in Hlen. lia.
Qed.

(** *** [LIKE] *)

Lemma like_percent pat s :
  like (String "%" pat) s
  = like pat s || match s with
                  | EmptyString => false
                  | String _ s' => like (String "%" pat) s'
                  end.
Proof. destruct s; reflexivity. Qed.

Lemma like_prefix p q t : like q t = true -> like (p +:+ q) (p +:+ t) = true.
Proof.
  intros H. induction p as [|c p IH]; [exact H|].
  change (String c p +:+ q) with (String c (p +:+ q)).
  change (String c p +:+ t) with (String c (p +:+ t)).
  destruct (Ascii.eqb c "%") eqn:E.
  - apply Ascii.eqb_eq in E. subst c. rewrite like_percent.
    change (like (p +:+ q) (String "%" (p +:+ t)) || like (String "%" (p +:+ q)) (p +:+ t) = true).
    rewrite (like_percent (p +:+ q) (p +:+ t)), IH. cbn. apply orb_true_r.
  - simpl. rewrite E, Ascii.eqb_refl, orb_true_r. exact IH.
Qed.

Lemma like_refl s : like s s = true.
Proof.
  pose proof (like_prefix s EmptyString EmptyString eq_refl) as H.
  rewrite string_app_nil_r in H. exact H.
Qed.

Lemma like_any x e : like (String "%" e) (x +:+ e) = true.
Proof.
  induction x as [|c x IH]; rewrite like_percent.
  - simpl. rewrite like_refl. reflexivity.
  - change (like e (String c (x +:+ e)) || like (String "%" e) (x +:+ e) = true).
    rewrite IH. apply orb_true_r.
Qed.

(** The pattern of [_get_unique_filename] matches the name itself and
    every numbered candidate. *)
Lemma like_pattern name ext x : like (name +:+ "%" +:+ ext) (name +:+ x +:+ ext) = true.
Proof. apply like_prefix. apply like_any. Qed.

Lemma rsplit1_spec c s a b : rsplit1 c s = Some (a, b) -> s = a +:+ String c b.
Proof.
  revert a b. induction s as [|d s IH]; intros a b H; simpl in H; [discriminate|].
  destruct (rsplit1 c s) as [[a' b']|].
  - injection H as <- <-. simpl. rewrite (IH a' b' eq_refl). reflexivity.
  - destruct (Ascii.eqb d c) eqn:E; [|discriminate]. injection H as <- <-.
    apply Ascii.eqb_eq in E. subst d. reflexivity.
Qed.

Lemma split_ext_spec file_name name ext : split_ext file_name = (name, ext) -> file_name = name +:+ ext.
Proof.
  unfold split_ext. intros H.
  assert (Hnil : forall s, s = s +:+ EmptyString) by (intros s; symmetry; apply string_app_nil_r).
  destruct (contains_char "." file_name && negb (startswith_char "." file_name)).
  - destruct (rsplit1 "." file_name) as [[a b]|] eqn:E.
    + injection H as <- <-. apply rsplit1_spec in E. exact E.
    + injection H as <- <-. apply Hnil.
  - injection H as <- <-. apply Hnil.
Qed.

Lemma mem_In s l : mem s l = true <-> In s l.
Proof.
  unfold mem. rewrite existsb_exists. split.
  - intros (x & Hx & E). apply String.eqb_eq in E. subst. exact Hx.
  - intros H. exists s. split; [exact H|apply String.eqb_refl].
Qed.

(** A name that matches the pattern and is not among the existing names is
    the name of no active sibling. *)
Lemma not_existing_free user_id parent_id file_name w r :
  (let '(name, ext) := split_ext file_name in like (name +:+ "%" +:+ ext) r = true) ->
  mem r (existing_names user_id parent_id file_name w) = false ->
  get_by_name_and_parent r parent_id user_id w = None.
Proof.
  unfold existing_names, get_by_name_and_parent. destruct (split_ext file_name) as [name ext].
  intros Hlike Hmem. apply first_none_all. apply all_nil_iff. intros x Hx.
  destruct (active_child_of parent_id user_id x) eqn:Ea; [|reflexivity]. cbn.
  apply String.eqb_neq. intros Hname.
  assert (Hin : In r (List.map FileMeta.file_name
            (all (fun r0 => active_child_of parent_id user_id r0
                            && like (name +:+ "%" +:+ ext) (FileMeta.file_name r0)) (file_meta w)))).
  { apply in_map_iff. exists x. split; [exact Hname|]. apply filter_In. split; [exact Hx|].
    rewrite Ea, Hname, Hlike. reflexivity. }
  apply mem_In in Hin. congruence.
Qed.

(** [_get_unique_filename] returns, leaves the world as it is, and the name
    it returns is the name of no active sibling under [parent_id]. *)
Lemma _get_unique_filename_total user_id parent_id file_name w :
  exists r, _get_unique_filename user_id parent_id file_name w = Ok r w
            /\ get_by_name_and_parent r parent_id user_id w = None.
Proof.
  unfold _get_unique_filename.
  pose proof (not_existing_free user_id parent_id file_name w) as Hfree.
  destruct (split_ext file_name) as [name ext] eqn:Hsplit.
  destruct (mem file_name (existing_names user_id parent_id file_name w)) eqn:Hm; cbn [negb].
  - destruct (probe_total (fun n => mem n (existing_names user_id parent_id file_name w))
                name ext (existing_names user_id parent_id file_name w) 1) as [r Hr].
    { intros n Hn. apply mem_In. exact Hn. }
    rewrite Hr. exists r. split; [reflexivity|].
    apply probe_some_free in Hr as (Hf & k & _ & ->). apply Hfree; [|exact Hf].
    rewrite numbered_shape. apply like_pattern.
  - exists file_name. split; [reflexivity|]. apply Hfree; [|exact Hm].
    rewrite (split_ext_spec _ _ _ Hsplit).
    apply (like_pattern name ext EmptyString).
Qed.

(** The same for the endpoints' [get_unique_filename]. *)
Lemma get_unique_filename_total filename parent_id user_id w :
  exists r, files.get_unique_filename filename parent_id user_id w = Ok r w
            /\ get_by_name_and_parent r parent_id user_id w = None.
Proof.
  unfold files.get_unique_filename.
  destruct (get_by_name_and_parent filename parent_id user_id w) eqn:E; [|eauto].
  destruct (files.splitext filename) as [name ext].
  destruct (probe_total
              (fun n => bool_decide (is_Some (get_by_name_and_parent n parent_id user_id w)))
              name ext (List.map FileMeta.file_name (file_meta w)) 1) as [r Hr].
  { intros n Hn. apply bool_decide_eq_true in Hn as [x Hx].
    apply first_some in Hx as [Hin Hp]. apply in_map_iff. exists x. split; [|exact Hin].
    apply andb_true_iff in Hp as [_ Hp]. apply String.eqb_eq. exact Hp. }
  rewrite length_map in Hr. rewrite Hr. exists r. split; [reflexivity|].
  apply probe_some_free in Hr as (Hf & _). apply bool_decide_eq_false in Hf.
  destruct (get_by_name_and_parent r parent_id user_id w); [|reflexivity].
  exfalso. apply Hf. eexists; reflexivity.
Qed.

End UniqueNames.

(** ** Ingestion: what an upload leaves in the database *)

Section Ingestion.

Import CRUDFileMeta.

Variable md5 : list Byte.byte -> string.
Variable UPLOAD_DIR : string.
Variable EXTRA_STORAGE_PATHS : list string.
Variable DIR_SIZE : Z.

(** The nodes that reference the hash [h], and the records stored for it. *)
Definition references (h : string) (r : FileMeta.t) : bool := opt_eqb (FileMeta.file_hash r) h.
Definition refs (h : string) (w : World) : nat := length (all (references h) (file_meta w)).
Definition records (h : string) (w : World) : list FileStore.t :=
  all (fun s => String.eqb (FileStore.file_hash s) h) (file_store w).

(** At most one record for [h], whose count is the number of nodes that
    reference [h]; no record when no node references it. *)
Definition blob_consistent (h : string) (w : World) : Prop :=
  match records h w with
  | [] => refs h w = 0%nat
  | [s] => FileStore.ref_count s = Z.of_nat (refs h w)
  | _ => False
  end.

(** The three upload paths. *)
Inductive upload : Type :=
| WholeFile (current_user now : Z) (filename : string) (content : list Byte.byte)
    (parent_id : Z) (relative_path : option string) (auto_rename : bool) (uuid : string)
| ChunkedMerge (current_user now : Z) (upload_id file_name file_hash : string)
    (parent_id : Z) (relative_path : option string) (auto_rename : bool)
| FastUpload (current_user now : Z) (file_hash file_name : string)
    (parent_id : Z) (relative_path : option string) (auto_rename : bool).

Definition upload_hash (u : upload) : string :=
  match u with
  | WholeFile _ _ _ content _ _ _ _ => md5 content
  | ChunkedMerge _ _ _ _ file_hash _ _ _ => file_hash
  | FastUpload _ _ file_hash _ _ _ _ => file_hash
  end.

(** The node an upload commits; none when the fast path finds no blob. *)
Definition run_upload (u : upload) : M (option FileMeta.t) :=
  match u with
  | WholeFile current_user now filename content parent_id relative_path auto_rename uuid =>
      node ← files.upload_file md5 UPLOAD_DIR EXTRA_STORAGE_PATHS DIR_SIZE current_user now filename content
               parent_id relative_path auto_rename uuid;
      mret (Some node)
  | ChunkedMerge current_user now upload_id file_name file_hash parent_id relative_path auto_rename =>
      node ← files.merge_chunks md5 UPLOAD_DIR EXTRA_STORAGE_PATHS DIR_SIZE current_user now upload_id
               file_name file_hash parent_id relative_path auto_rename;
      mret (Some node)
  | FastUpload current_user now file_hash file_name parent_id relative_path auto_rename =>
      files.check_fast_upload current_user now file_hash file_name parent_id relative_path auto_rename
  end.

(** [w'] is reached from [w] by requests run one after the other, [n] of
    which are uploads that commit content of hash [h]; the others are
    uploads of other content, uploads that fail or find nothing to commit,
    and anything that leaves the nodes and the blob records alone (chunk
    uploads, session bookkeeping). *)
Inductive commits (h : string) : nat -> World -> World -> Prop :=
| commits_nil w : commits h 0 w w
| commits_same n w w1 w2 u node :
    commits h n w w1 -> upload_hash u = h -> run_upload u w1 = Ok (Some node) w2 ->
    commits h (S n) w w2
| commits_other n w w1 w2 u node :
    commits h n w w1 -> upload_hash u <> h -> run_upload u w1 = Ok (Some node) w2 ->
    commits h n w w2
| commits_nothing n w w1 w2 u :
    commits h n w w1 -> run_upload u w1 = Ok None w2 -> commits h n w w2
| commits_failed n w w1 w2 u e :
    commits h n w w1 -> run_upload u w1 = Raise e w2 -> commits h n w w2
| commits_elsewhere n w w1 w2 :
    commits h n w w1 -> file_meta w2 = file_meta w1 -> file_store w2 = file_store w1 ->
    commits h n w w2.

(** What a committing upload of hash [h'] does to the two tables: folders
    of the relative path, then the file node; one more reference on the
    record of [h'], which is created when there was none. *)
Definition commit_effect (h' : string) (node : FileMeta.t) (w w' : World) : Prop :=
  (exists folders,
      file_meta w' = file_meta w ++ folders ++ [node]
      /\ Forall (fun r => FileMeta.is_folder r = true /\ FileMeta.file_hash r = None) folders)
  /\ FileMeta.file_hash node = Some h'
  /\ match get_by_hash h' w with
     | Some _ => file_store w' = List.map (bump h' 1) (file_store w)
     | None => exists real_path file_size,
                 file_store w' = file_store w ++ [FileStore.mk h' real_path file_size 1]
     end.

(** The database after a request that committed nothing. *)
Definition no_commit (w w' : World) : Prop :=
  file_store w' = file_store w
  /\ exists folders,
       file_meta w' = file_meta w ++ folders
       /\ Forall (fun r => FileMeta.is_folder r = true /\ FileMeta.file_hash r = None) folders.

Lemma adds_folders_no_commit w w' : adds_folders w w' -> no_commit w w'.
Proof. intros (H1 & _ & _ & _ & _ & _ & H2). split; assumption. Qed.

(** *** The steps of an upload, one by one *)

Lemma write_file_Ok p content w a w' :
  write_file p content w = Ok a w' -> w' = with_files (<[p := content]> (files w)) w.
Proof. unfold write_file. destruct (is_dir p w); intros H; congruence. Qed.

Lemma write_file_Raise p content w e w' : write_file p content w = Raise e w' -> w' = w.
Proof. unfold write_file. destruct (is_dir p w); intros H; congruence. Qed.

Lemma os_remove_Ok p w a w' : os_remove p w = Ok a w' -> w' = with_files (delete p (files w)) w.
Proof. unfold os_remove. destruct (is_file p w); intros H; congruence. Qed.

Lemma os_remove_Raise p w e w' : os_remove p w = Raise e w' -> w' = w.
Proof. unfold os_remove. destruct (is_file p w); intros H; congruence. Qed.

Lemma read_file_final p w : final (files.read_file p w) (eq w).
Proof. unfold files.read_file. destruct (files w !! p); reflexivity. Qed.

Lemma os_path_getsize_final p w : final (files.os_path_getsize DIR_SIZE p w) (eq w).
Proof.
  unfold files.os_path_getsize. destruct (files w !! p); [reflexivity|].
  destruct (is_dir p w); reflexivity.
Qed.

(** The part of the world the disk operations leave alone. *)
Definition same_db (w w' : World) : Prop :=
  file_meta w' = file_meta w /\ file_meta_seq w' = file_meta_seq w
  /\ file_store w' = file_store w /\ file_chunk w' = file_chunk w /\ sys_user w' = sys_user w.

Lemma same_db_refl w : same_db w w.
Proof. repeat split. Qed.

Lemma same_db_trans w1 w2 w3 : same_db w1 w2 -> same_db w2 w3 -> same_db w1 w3.
Proof.
  unfold same_db. intros (A1 & A2 & A3 & A4 & A5) (B1 & B2 & B3 & B4 & B5).
  repeat split; congruence.
Qed.

Lemma write_file_same_db p content w : final (write_file p content w) (same_db w).
Proof. unfold write_file. destruct (is_dir p w); repeat split. Qed.

Lemma os_remove_same_db p w : final (os_remove p w) (same_db w).
Proof. unfold os_remove. destruct (is_file p w); repeat split. Qed.

Lemma final_eq_same_db {A} (o : outcome A) w : final o (eq w) -> final o (same_db w).
Proof. destruct o; cbn; intros; subst; auto using same_db_refl. Qed.

Lemma shutil_move_same_db src dst w : final (files.shutil_move src dst w) (same_db w).
Proof.
  unfold files.shutil_move.
  apply final_bind with (Q := same_db w); [apply final_eq_same_db, read_file_final| |auto].
  intros content w1 H1. apply final_bind with (Q := same_db w); [| |auto].
  - pose proof (write_file_same_db dst content w1) as H.
    destruct (write_file dst content w1); cbn in *; eauto using same_db_trans.
  - intros _ w2 H2. pose proof (os_remove_same_db src w2) as H.
    destruct (os_remove src w2); cbn in *; eauto using same_db_trans.
Qed.

Lemma get_best_storage_path_same_db w :
  final (files.get_best_storage_path UPLOAD_DIR EXTRA_STORAGE_PATHS w) (same_db w).
Proof.
  unfold files.get_best_storage_path.
  destruct (fold_left _ _ _) as [[best free] made]. destruct best; repeat split.
Qed.

Lemma no_commit_refl w : no_commit w w.
Proof. apply adds_folders_no_commit, adds_folders_refl. Qed.

Lemma no_commit_same_db w w1 w2 : no_commit w w1 -> same_db w1 w2 -> no_commit w w2.
Proof.
  intros (H1 & folders & H2 & H3) (S1 & _ & S3 & _). split; [congruence|].
  exists folders. split; [congruence|assumption].
Qed.

(** An operation of the disk, run after nothing was committed. *)
Lemma no_commit_final {A} (o : outcome A) w w1 :
  no_commit w w1 -> final o (same_db w1) -> final o (no_commit w).
Proof. intros Hc. destruct o; cbn; eauto using no_commit_same_db. Qed.

(** The database once the blob is committed and before the node is:
    the folders of the relative path, one more reference on the record. *)
Definition stored (h' : string) (w w' : World) : Prop :=
  (exists folders,
      file_meta w' = file_meta w ++ folders
      /\ Forall (fun r => FileMeta.is_folder r = true /\ FileMeta.file_hash r = None) folders)
  /\ match get_by_hash h' w with
     | Some _ => file_store w' = List.map (bump h' 1) (file_store w)
     | None => exists real_path file_size,
                 file_store w' = file_store w ++ [FileStore.mk h' real_path file_size 1]
     end.

Lemma stored_same_db h' w w1 w2 : stored h' w w1 -> same_db w1 w2 -> stored h' w w2.
Proof.
  intros ((folders & H2 & H3) & H1) (S1 & _ & S3 & _). split.
  - exists folders. split; [congruence|assumption].
  - destruct (get_by_hash h' w); [congruence|].
    destruct H1 as (p & sz & H1). exists p, sz. congruence.
Qed.

(** What a request leaves behind, for a hash [h']; [proj] reads the
    committed node off the value returned. *)
Definition upload_post {A} (proj : A -> option FileMeta.t) (h' : string) (w : World)
    (o : outcome A) : Prop :=
  match o with
  | Ok a w' =>
      match proj a with
      | Some node => commit_effect h' node w w'
      | None => no_commit w w'
      end
  | Raise _ w' => no_commit w w'
  | Diverge => True
  end.

Lemma post_bind_nc {A B} (proj : B -> option FileMeta.t) (h' : string) (m : M A) (k : A -> M B)
    (w w1 : World) :
  final (m w1) (same_db w1) -> no_commit w w1 ->
  (forall a w2, m w1 = Ok a w2 -> no_commit w w2 -> upload_post proj h' w (k a w2)) ->
  upload_post proj h' w ((m ≫= k) w1).
Proof.
  intros Hm Hc Hk. unfold mbind, M_bind.
  destruct (m w1) as [a w2|e w2|] eqn:E; cbn in *.
  - apply Hk; eauto using no_commit_same_db.
  - eauto using no_commit_same_db.
  - exact I.
Qed.

Lemma gets_same_db {A} (f : World -> A) w : final (gets f w) (same_db w).
Proof. apply same_db_refl. Qed.

Lemma gets_Ok {A} (f : World -> A) w a w' : gets f w = Ok a w' -> a = f w /\ w' = w.
Proof. unfold gets. intros H. injection H; auto. Qed.

Lemma increment_ref_count_Ok h w : exists r, increment_ref_count h w = Ok r (add_ref_count h 1 w).
Proof. unfold increment_ref_count. munfold. eauto. Qed.

Lemma get_by_hash_none_existsb h w :
  get_by_hash h w = None ->
  existsb (fun s => String.eqb (FileStore.file_hash s) h) (file_store w) = false.
Proof.
  unfold get_by_hash, first. induction (file_store w) as [|a l IH]; simpl; [reflexivity|].
  destruct (String.eqb _ _); [discriminate|exact IH].
Qed.

Lemma create_file_store_Ok h real_path file_size w :
  get_by_hash h w = None ->
  exists r, create_file_store h real_path file_size w
            = Ok r (with_file_store (file_store w ++ [FileStore.mk h real_path file_size 1]) w).
Proof.
  intros Hn. unfold create_file_store. munfold. rewrite Hn. unfold insert_file_store. cbn.
  rewrite (get_by_hash_none_existsb _ _ Hn). eauto.
Qed.

(** [commit_node] adds the file node and touches no record; it never raises. *)
Lemma commit_node_outcome current_user now final_filename target_parent_id h' file_size w :
  match files.commit_node current_user now final_filename target_parent_id h' file_size w with
  | Ok node w' =>
      file_meta w' = file_meta w ++ [node] /\ FileMeta.file_hash node = Some h'
      /\ file_store w' = file_store w
  | Raise _ _ => False
  | Diverge => True
  end.
Proof.
  unfold files.commit_node, create_with_user. munfold. cbn.
  pose proof (_get_unique_filename_pure current_user target_parent_id final_filename w) as Hp.
  destruct (_get_unique_filename _ _ _ w) as [n w1|e w1|] eqn:E; cbn in Hp.
  - subst w1. cbn. auto.
  - unfold _get_unique_filename in E. destruct (split_ext final_filename).
    destruct (negb _); [discriminate|]. destruct (probe _ _ _ _ _); discriminate.
  - exact I.
Qed.

Lemma commit_node_post {B} (proj : B -> option FileMeta.t) (k : FileMeta.t -> M B)
    current_user now final_filename target_parent_id h' file_size w w1 :
  stored h' w w1 ->
  (forall node w2,
     exists b w3, k node w2 = Ok b w3 /\ proj b = Some node
                  /\ file_meta w3 = file_meta w2 /\ file_store w3 = file_store w2) ->
  upload_post proj h' w
    ((files.commit_node current_user now final_filename target_parent_id h' file_size ≫= k) w1).
Proof.
  intros ((folders & Hm & Hf) & Hs) Hk. unfold mbind, M_bind.
  pose proof (commit_node_outcome current_user now final_filename target_parent_id h' file_size w1) as Hc.
  destruct (files.commit_node _ _ _ _ _ _ w1) as [node w2|e w2|]; [|contradiction|exact I].
  destruct Hc as (Hm2 & Hh & Hs2).
  destruct (Hk node w2) as (b & w3 & -> & Hp & Hm3 & Hs3).
  cbn. rewrite Hp. split; [|split; [exact Hh|]].
  - exists folders. split; [|exact Hf]. rewrite Hm3, Hm2, Hm, app_assoc. reflexivity.
  - rewrite Hs3, Hs2. exact Hs.
Qed.

Lemma commit_node_post_direct current_user now final_filename target_parent_id h' file_size w w1 :
  stored h' w w1 ->
  upload_post Some h' w
    (files.commit_node current_user now final_filename target_parent_id h' file_size w1).
Proof.
  intros ((folders & Hm & Hf) & Hs).
  pose proof (commit_node_outcome current_user now final_filename target_parent_id h' file_size w1) as Hc.
  destruct (files.commit_node _ _ _ _ _ _ w1) as [node w2|e w2|]; [|contradiction|exact I].
  destruct Hc as (Hm2 & Hh & Hs2). cbn. split; [|split; [exact Hh|]].
  - exists folders. split; [|exact Hf]. rewrite Hm2, Hm, app_assoc. reflexivity.
  - rewrite Hs2. exact Hs.
Qed.

Lemma is_file_written p content w : is_file p (with_files (<[p := content]> (files w)) w) = true.
Proof.
  unfold is_file. cbn. apply bool_decide_eq_true. rewrite lookup_insert_eq. eexists; reflexivity.
Qed.

Lemma no_commit_get_by_hash h w w1 : no_commit w w1 -> get_by_hash h w1 = get_by_hash h w.
Proof. intros (H & _). unfold get_by_hash. rewrite H. reflexivity. Qed.

(** The blob step of an upload whose blob is already stored. *)
Lemma stored_increment h' w w1 :
  no_commit w w1 -> is_Some (get_by_hash h' w) -> stored h' w (add_ref_count h' 1 w1).
Proof.
  intros (Hs & Hm) [s Hsome]. split; [exact Hm|]. rewrite Hsome. cbn. rewrite Hs. reflexivity.
Qed.

(** The blob step of an upload of new content. *)
Lemma stored_create h' real_path file_size w w1 :
  no_commit w w1 -> get_by_hash h' w = None ->
  stored h' w (with_file_store (file_store w1 ++ [FileStore.mk h' real_path file_size 1]) w1).
Proof.
  intros (Hs & Hm) Hnone. split; [exact Hm|]. rewrite Hnone. cbn. rewrite Hs. eauto.
Qed.

(** The outcome of the blob step: committed, or failed before anything was. *)
Definition blob_step (h' : string) (w : World) (o : outcome unit) : Prop :=
  match o with
  | Ok _ w' => stored h' w w'
  | Raise _ w' => no_commit w w'
  | Diverge => True
  end.

Lemma blob_step_bind {A} (h' : string) (m : M A) (k : A -> M unit) (w w1 : World) :
  final (m w1) (same_db w1) -> no_commit w w1 ->
  (forall a w2, m w1 = Ok a w2 -> no_commit w w2 -> blob_step h' w (k a w2)) ->
  blob_step h' w ((m ≫= k) w1).
Proof.
  intros Hm Hc Hk. unfold mbind, M_bind.
  destruct (m w1) as [a w2|e w2|] eqn:E; cbn in *.
  - apply Hk; eauto using no_commit_same_db.
  - eauto using no_commit_same_db.
  - exact I.
Qed.

Lemma blob_step_create h' real_path file_size w w1 :
  no_commit w w1 -> get_by_hash h' w = None ->
  blob_step h' w
    ((create_file_store h' real_path file_size ≫= λ _ : option FileStore.t, mret ()) w1).
Proof.
  intros Hc Hnone. unfold mbind, M_bind.
  destruct (create_file_store_Ok h' real_path file_size w1) as [r ->].
  { rewrite (no_commit_get_by_hash _ _ _ Hc). exact Hnone. }
  cbn. apply stored_create; assumption.
Qed.

Lemma blob_step_increment h' w w1 :
  no_commit w w1 -> is_Some (get_by_hash h' w) ->
  blob_step h' w
    ((increment_ref_count h' ≫= λ _ : option FileStore.t, mret ()) w1).
Proof.
  intros Hc Hsome. unfold mbind, M_bind.
  destruct (increment_ref_count_Ok h' w1) as [r ->]. cbn. apply stored_increment; assumption.
Qed.

Lemma post_of_blob_step {B} (proj : B -> option FileMeta.t) h' w (o : outcome unit) (k : World -> outcome B) :
  blob_step h' w o ->
  (forall w1, stored h' w w1 -> upload_post proj h' w (k w1)) ->
  upload_post proj h' w
    match o with
    | Ok _ w' => k w'
    | Raise e w' => Raise e w'
    | Diverge => Diverge
    end.
Proof. destruct o; cbn; auto. Qed.

Lemma upload_file_post current_user now filename content parent_id relative_path auto_rename uuid w :
  upload_post Some (md5 content) w
    (files.upload_file md5 UPLOAD_DIR EXTRA_STORAGE_PATHS DIR_SIZE current_user now filename content
       parent_id relative_path auto_rename uuid w).
Proof.
  unfold files.upload_file.
  destruct (negb (files.is_filename_valid filename)); [apply no_commit_refl|].
  pose proof (destination_adds_folders current_user now filename parent_id relative_path auto_rename w) as Hd.
  unfold mbind at 1, M_bind at 1.
  destruct (files.destination _ _ _ _ _ _ w) as [[target final_name] w1|e w1|]; cbn in Hd |- *;
    [|apply adds_folders_no_commit; exact Hd|exact I].
  apply adds_folders_no_commit in Hd.
  set (temp := os_path_join UPLOAD_DIR _).
  apply post_bind_nc; [apply write_file_same_db|exact Hd|]. intros [] w2 Hw Hc2.
  apply write_file_Ok in Hw.
  apply post_bind_nc; [apply final_eq_same_db, os_path_getsize_final|exact Hc2|].
  intros file_size w3 Hsz Hc3.
  pose proof (os_path_getsize_final temp w2) as Heq. rewrite Hsz in Heq. cbn in Heq. subst w3.
  apply post_bind_nc; [apply gets_same_db|exact Hc3|]. intros over w3 Hg _.
  apply gets_Ok in Hg as [-> ->].
  destruct (files.quota_exceeded current_user file_size w2).
  { apply post_bind_nc; [apply os_remove_same_db|exact Hc2|]. intros _ w3 _ Hc. exact Hc. }
  unfold mbind at 1, M_bind at 1. unfold mbind at 1, M_bind at 1. unfold gets at 1.
  apply post_of_blob_step; [|intros w3 H3; apply commit_node_post_direct; exact H3].
  rewrite (no_commit_get_by_hash _ _ _ Hc2).
  destruct (get_by_hash (md5 content) w) as [s|] eqn:Hg.
  - unfold mbind, M_bind. destruct (increment_ref_count_Ok (md5 content) w2) as [r ->].
    unfold os_remove.
    change (is_file temp (add_ref_count (md5 content) 1 w2)) with (is_file temp w2).
    rewrite Hw at 1. rewrite is_file_written. cbn.
    apply stored_same_db with (add_ref_count (md5 content) 1 w2); [|repeat split].
    apply stored_increment; [exact Hc2|]. rewrite Hg. eexists; reflexivity.
  - apply blob_step_bind; [apply get_best_storage_path_same_db|exact Hc2|].
    intros path w3 _ Hc. apply blob_step_bind; [apply gets_same_db|exact Hc|].
    intros present w4 Hp _. apply gets_Ok in Hp as [-> ->].
    apply blob_step_bind; [|exact Hc|].
    + destruct (os_path_exists _ w3); [apply os_remove_same_db|apply shutil_move_same_db].
    + intros _ w4 _ Hc4. apply blob_step_create; assumption.
Qed.

Lemma check_fast_upload_post current_user now file_hash file_name parent_id relative_path auto_rename w :
  upload_post id file_hash w
    (files.check_fast_upload current_user now file_hash file_name parent_id relative_path
       auto_rename w).
Proof.
  unfold files.check_fast_upload.
  destruct (negb (files.is_filename_valid file_name)); [apply no_commit_refl|].
  pose proof (destination_adds_folders current_user now file_name parent_id relative_path auto_rename w) as Hd.
  unfold mbind at 1, M_bind at 1.
  destruct (files.destination _ _ _ _ _ _ w) as [[target final_name] w1|e w1|]; cbn in Hd |- *;
    [|apply adds_folders_no_commit; exact Hd|exact I].
  apply adds_folders_no_commit in Hd.
  apply post_bind_nc; [apply gets_same_db|exact Hd|]. intros existing w2 Hg _.
  apply gets_Ok in Hg as [-> ->]. rewrite (no_commit_get_by_hash _ _ _ Hd).
  destruct (get_by_hash file_hash w) as [s|] eqn:Hs; [|exact Hd].
  apply post_bind_nc; [apply gets_same_db|exact Hd|]. intros over w2 Hg _.
  apply gets_Ok in Hg as [-> ->].
  destruct (files.quota_exceeded _ _ _); [exact Hd|].
  unfold mbind at 1, M_bind at 1. destruct (increment_ref_count_Ok file_hash w1) as [r ->].
  apply commit_node_post.
  - apply stored_increment; [exact Hd|]. rewrite Hs. eexists; reflexivity.
  - intros node w2. exists (Some node), w2. repeat split.
Qed.

Lemma same_db_bind {A B} (m : M A) (k : A -> M B) w :
  final (m w) (same_db w) -> (forall a w1, final (k a w1) (same_db w1)) ->
  final ((m ≫= k) w) (same_db w).
Proof.
  intros Hm Hk. apply final_bind with (Q := same_db w); [exact Hm| |auto].
  intros a w1 H1. specialize (Hk a w1). destruct (k a w1); cbn in *; eauto using same_db_trans.
Qed.

Lemma for_each_same_db {A} (l : list A) (body : A -> M unit) :
  (forall x w, final (body x w) (same_db w)) -> forall w, final (for_each l body w) (same_db w).
Proof.
  intros Hb. induction l as [|x l IH]; intros w; cbn; [apply same_db_refl|].
  apply same_db_bind; [apply Hb|]. intros _ w1. apply IH.
Qed.

Lemma append_chunk_same_db final_path hashed chunk w :
  final (files.append_chunk final_path hashed chunk w) (same_db w).
Proof.
  unfold files.append_chunk. apply same_db_bind; [apply gets_same_db|]. intros present w1.
  destruct present; [|apply same_db_refl].
  apply same_db_bind; [apply final_eq_same_db, read_file_final|]. intros c w2.
  apply same_db_bind; [apply final_eq_same_db, read_file_final|]. intros c' w3.
  apply same_db_bind; [apply write_file_same_db|]. intros _ w4.
  apply same_db_bind; [apply os_remove_same_db|]. intros _ w5. apply same_db_refl.
Qed.

Lemma discard_chunk_same_db chunk w : final (files.discard_chunk chunk w) (same_db w).
Proof.
  unfold files.discard_chunk. apply same_db_bind; [apply gets_same_db|]. intros present w1.
  destruct present; [apply os_remove_same_db|apply same_db_refl].
Qed.

(** The reassembly of [merge_chunks] touches the disk only. *)
Lemma reassemble_same_db final_path file_hash chunks w :
  final (files.reassemble md5 final_path file_hash chunks w) (same_db w).
Proof.
  unfold files.reassemble. apply same_db_bind; [apply gets_same_db|]. intros present w0.
  destruct present; cbn [negb].
  - apply for_each_same_db. intros. apply discard_chunk_same_db.
  - apply same_db_bind; [apply write_file_same_db|]. intros _ w1.
    apply same_db_bind.
    + apply foldM_final; [apply same_db_refl|apply same_db_trans|].
      intros. apply append_chunk_same_db.
    + intros hashed w2. cbn zeta. destruct (negb _); [|apply same_db_refl].
      apply same_db_bind; [apply os_remove_same_db|]. intros _ w3. apply same_db_refl.
Qed.

Lemma check_session_same_db file_hash chunks w :
  final (files.check_session md5 file_hash chunks w) (same_db w).
Proof.
  unfold files.check_session. apply same_db_bind.
  - destruct chunks; [destruct (String.eqb _ _)|]; apply same_db_refl.
  - intros _ w1. apply for_each_same_db. intros c w0. destruct (negb _); apply same_db_refl.
Qed.

(** Whatever the prelude of a merge does, nothing is committed by it. *)
Lemma merge_prelude_no_commit current_user now upload_id file_name file_hash parent_id
    relative_path auto_rename w :
  final (files.merge_prelude md5 UPLOAD_DIR EXTRA_STORAGE_PATHS current_user now upload_id
           file_name file_hash parent_id relative_path auto_rename w)
        (no_commit w).
Proof.
  unfold files.merge_prelude.
  destruct (negb (files.is_filename_valid file_name)); [apply no_commit_refl|].
  pose proof (destination_adds_folders current_user now file_name parent_id relative_path auto_rename w) as Hd.
  unfold mbind at 1, M_bind at 1.
  destruct (files.destination _ _ _ _ _ _ w) as [[target final_name] w1|e w1|]; cbn in Hd |- *;
    [|apply adds_folders_no_commit; exact Hd|exact I].
  apply adds_folders_no_commit in Hd.
  eapply no_commit_final; [exact Hd|].
  apply same_db_bind; [apply gets_same_db|]. intros chunks w2.
  apply same_db_bind; [apply check_session_same_db|]. intros _ w3.
  apply same_db_bind; [apply get_best_storage_path_same_db|]. intros path w4.
  apply same_db_refl.
Qed.

Lemma merge_commit_post current_user now upload_id final_filename target_parent_id file_hash
    final_path w w1 :
  no_commit w w1 ->
  upload_post Some file_hash w
    (files.merge_commit DIR_SIZE current_user now upload_id final_filename target_parent_id
       file_hash final_path w1).
Proof.
  intros Hc. unfold files.merge_commit.
  apply post_bind_nc; [apply final_eq_same_db, os_path_getsize_final|exact Hc|].
  intros file_size w6 _ Hc6.
  apply post_bind_nc; [apply gets_same_db|exact Hc6|]. intros over w7 Hg _.
  apply gets_Ok in Hg as [-> ->].
  destruct (files.quota_exceeded _ _ _).
  { apply post_bind_nc; [apply gets_same_db|exact Hc6|]. intros ex w7 Hg _.
    apply gets_Ok in Hg as [-> ->].
    apply post_bind_nc; [|exact Hc6|].
    - destruct (get_by_hash file_hash w6); [apply same_db_refl|apply os_remove_same_db].
    - intros _ w7 _ Hc7. exact Hc7. }
  unfold mbind at 1, M_bind at 1. unfold gets at 1.
  unfold mbind at 1, M_bind at 1.
  apply post_of_blob_step.
  - rewrite (no_commit_get_by_hash _ _ _ Hc6).
    destruct (get_by_hash file_hash w) as [s|] eqn:Hs.
    + apply blob_step_increment; [exact Hc6|]. rewrite Hs. eexists; reflexivity.
    + apply blob_step_create; assumption.
  - intros w7 H7. apply commit_node_post; [exact H7|].
    intros node w8. eexists _, _. split; [reflexivity|]. repeat split.
Qed.

Lemma merge_chunks_post current_user now upload_id file_name file_hash parent_id relative_path
    auto_rename w :
  upload_post Some file_hash w
    (files.merge_chunks md5 UPLOAD_DIR EXTRA_STORAGE_PATHS DIR_SIZE current_user now upload_id
       file_name file_hash parent_id relative_path auto_rename w).
Proof.
  unfold files.merge_chunks.
  pose proof (merge_prelude_no_commit current_user now upload_id file_name file_hash parent_id
                relative_path auto_rename w) as Hp.
  unfold mbind at 1, M_bind at 1.
  destruct (files.merge_prelude _ _ _ _ _ _ _ _ _ _ _ w) as [[[[target final_name] chunks] final_path] w1|e w1|];
    cbn in Hp |- *; [|exact Hp|exact I].
  apply post_bind_nc; [apply reassemble_same_db|exact Hp|]. intros _ w2 _ Hc2.
  apply merge_commit_post. exact Hc2.
Qed.

Lemma run_upload_post u w : upload_post id (upload_hash u) w (run_upload u w).
Proof.
  destruct u; cbn [run_upload upload_hash].
  - pose proof (upload_file_post current_user now filename content parent_id relative_path
                  auto_rename uuid w) as H.
    unfold mbind, M_bind. destruct (files.upload_file _ _ _ _ _ _ _ _ _ _ _ _ w); exact H.
  - pose proof (merge_chunks_post current_user now upload_id file_name file_hash parent_id
                  relative_path auto_rename w) as H.
    unfold mbind, M_bind. destruct (files.merge_chunks _ _ _ _ _ _ _ _ _ _ _ _ w); exact H.
  - apply check_fast_upload_post.
Qed.

(** *** One record per hash, counted once per node *)

Lemma all_app {A} (p : A -> bool) (l1 l2 : list A) : all p (l1 ++ l2) = all p l1 ++ all p l2.
Proof. apply List.filter_app. Qed.

Lemma all_map_stable {A} (p : A -> bool) (f : A -> A) (l : list A) :
  (forall x, p (f x) = p x) -> all p (List.map f l) = List.map f (all p l).
Proof.
  intros Hp. unfold all. induction l as [|a l IH]; simpl; [reflexivity|].
  rewrite Hp. destruct (p a); simpl; congruence.
Qed.

Lemma get_by_hash_records h w : get_by_hash h w = List.head (records h w).
Proof.
  unfold get_by_hash, records, first, all. induction (file_store w) as [|a l IH]; simpl; [reflexivity|].
  destruct (String.eqb _ _); [reflexivity|exact IH].
Qed.

Lemma folders_reference_nothing h (folders : list FileMeta.t) :
  Forall (fun r => FileMeta.is_folder r = true /\ FileMeta.file_hash r = None) folders ->
  all (references h) folders = [].
Proof.
  intros H. apply all_nil_iff. intros x Hx.
  rewrite List.Forall_forall in H. destruct (H x Hx) as [_ Hh].
  unfold references. rewrite Hh. reflexivity.
Qed.

Lemma no_commit_refs h w w' : no_commit w w' -> refs h w' = refs h w.
Proof.
  intros (_ & folders & Hm & Hf). unfold refs. rewrite Hm, all_app.
  rewrite (folders_reference_nothing h folders Hf), app_nil_r. reflexivity.
Qed.

Lemma no_commit_records h w w' : no_commit w w' -> records h w' = records h w.
Proof. intros (Hs & _). unfold records. rewrite Hs. reflexivity. Qed.

Lemma no_commit_consistent h w w' : no_commit w w' -> blob_consistent h w -> blob_consistent h w'.
Proof.
  intros Hc. unfold blob_consistent.
  rewrite (no_commit_records h _ _ Hc), (no_commit_refs h _ _ Hc). auto.
Qed.

Lemma commit_effect_refs h h' node w w' :
  commit_effect h' node w w' ->
  refs h w' = (refs h w + if String.eqb h' h then 1 else 0)%nat.
Proof.
  intros ((folders & Hm & Hf) & Hh & _). unfold refs. rewrite Hm, !all_app, !length_app.
  rewrite (folders_reference_nothing h folders Hf). cbn.
  unfold references at 2. rewrite Hh. cbn. destruct (String.eqb h' h); reflexivity.
Qed.

Lemma records_bump_other h h' (l : list FileStore.t) :
  h <> h' ->
  all (fun s => String.eqb (FileStore.file_hash s) h) (List.map (bump h' 1) l)
  = all (fun s => String.eqb (FileStore.file_hash s) h) l.
Proof.
  intros Hne. unfold all. induction l as [|a l IH]; simpl; [reflexivity|].
  rewrite bump_hash. destruct (String.eqb (FileStore.file_hash a) h) eqn:E; [|exact IH].
  rewrite IH. f_equal. unfold bump. apply String.eqb_eq in E.
  destruct (String.eqb (FileStore.file_hash a) h') eqn:E'; [|reflexivity].
  apply String.eqb_eq in E'. congruence.
Qed.

Lemma commit_effect_consistent h h' node w w' :
  commit_effect h' node w w' -> blob_consistent h w -> blob_consistent h w'.
Proof.
  intros Hce Hb. pose proof (commit_effect_refs h h' node w w' Hce) as Hrefs.
  destruct Hce as (_ & _ & Hs). unfold blob_consistent in *. rewrite Hrefs.
  destruct (String.eqb h' h) eqn:E.
  - apply String.eqb_eq in E. subst h'. rewrite get_by_hash_records in Hs.
    destruct (records h w) as [|s [|s' l]] eqn:Hr; try contradiction; cbn in Hs.
    + destruct Hs as (real_path & file_size & Hs). unfold records in *. rewrite Hs, all_app.
      unfold records in Hr. rewrite Hr. cbn. rewrite String.eqb_refl. cbn. lia.
    + unfold records in *. rewrite Hs.
      rewrite (all_map_stable (fun s => String.eqb (FileStore.file_hash s) h) (bump h 1))
        by (intros x; rewrite bump_hash; reflexivity).
      rewrite Hr. cbn. unfold bump.
      assert (Hh : FileStore.file_hash s = h).
      { assert (Hin : In s (all (fun s => String.eqb (FileStore.file_hash s) h) (file_store w)))
          by (rewrite Hr; left; reflexivity).
        apply filter_In in Hin as [_ Hin]. apply String.eqb_eq. exact Hin. }
      rewrite Hh, String.eqb_refl. cbn. lia.
  - apply String.eqb_neq in E. rewrite Nat.add_0_r.
    assert (Hrec : records h w' = records h w).
    { unfold records. destruct (get_by_hash h' w).
      - rewrite Hs. apply records_bump_other. congruence.
      - destruct Hs as (real_path & file_size & Hs). rewrite Hs, all_app. cbn.
        destruct (String.eqb h' h) eqn:E'; [apply String.eqb_eq in E'; contradiction|].
        apply app_nil_r. }
    rewrite Hrec. exact Hb.
Qed.

(** Requests run one after the other keep every blob consistent, and add
    one reference per commit of [h]. *)
Lemma commits_consistent h n w w' :
  commits h n w w' -> blob_consistent h w ->
  blob_consistent h w' /\ refs h w' = (refs h w + n)%nat.
Proof.
  induction 1 as [w|n w w1 w2 u node Hc IH Hu Hrun|n w w1 w2 u node Hc IH Hu Hrun
                 |n w w1 w2 u Hc IH Hrun|n w w1 w2 u e Hc IH Hrun|n w w1 w2 Hc IH Hm Hs];
    intros Hb.
  - split; [exact Hb|lia].
  - destruct (IH Hb) as [Hb1 Hr1]. pose proof (run_upload_post u w1) as Hp.
    rewrite Hrun in Hp. cbn in Hp. rewrite Hu in Hp. split.
    + eapply commit_effect_consistent; eassumption.
    + rewrite (commit_effect_refs h h node w1 w2 Hp), String.eqb_refl. lia.
  - destruct (IH Hb) as [Hb1 Hr1]. pose proof (run_upload_post u w1) as Hp.
    rewrite Hrun in Hp. cbn in Hp. split.
    + eapply commit_effect_consistent; eassumption.
    + rewrite (commit_effect_refs h _ node w1 w2 Hp).
      destruct (String.eqb (upload_hash u) h) eqn:E; [apply String.eqb_eq in E; contradiction|lia].
  - destruct (IH Hb) as [Hb1 Hr1]. pose proof (run_upload_post u w1) as Hp.
    rewrite Hrun in Hp. cbn in Hp. split.
    + eapply no_commit_consistent; eassumption.
    + rewrite (no_commit_refs h _ _ Hp). exact Hr1.
  - destruct (IH Hb) as [Hb1 Hr1]. pose proof (run_upload_post u w1) as Hp.
    rewrite Hrun in Hp. cbn in Hp. split.
    + eapply no_commit_consistent; eassumption.
    + rewrite (no_commit_refs h _ _ Hp). exact Hr1.
  - destruct (IH Hb) as [Hb1 Hr1]. unfold blob_consistent, refs, records in *.
    rewrite Hm, Hs. auto.
Qed.


(** *** The session check of a merge *)

Lemma resolve_folder_total user_id now current_parent_id folder_name w :
  exists id w', resolve_folder user_id now current_parent_id folder_name w = Ok id w'.
Proof.
  unfold resolve_folder. destruct (String.eqb folder_name ""); [eexists _, _; reflexivity|].
  munfold.
  destruct (first (active_folder_named user_id current_parent_id folder_name) (file_meta w));
    [eexists _, _; reflexivity|].
  unfold add_file_meta. cbn.
  match goal with
  | |- context [match ?x with [] => _ | _ :: _ => _ end] => destruct x as [|primary [|dup dups]]
  end; eexists _, _; reflexivity.
Qed.

Lemma foldM_total {A B} (f : B -> A -> M B) :
  (forall b a w, exists b' w', f b a w = Ok b' w') ->
  forall l b w, exists b' w', foldM f b l w = Ok b' w'.
Proof.
  intros Hf l. induction l as [|x l IH]; intros b w; cbn; [eexists _, _; reflexivity|].
  unfold mbind, M_bind. destruct (Hf b x w) as (b1 & w1 & ->). apply IH.
Qed.

(** The destination of an upload is always resolved; the only failure is
    the name conflict, when no automatic renaming was asked for. *)
Lemma destination_total current_user now file_name parent_id relative_path auto_rename w :
  match files.destination current_user now file_name parent_id relative_path auto_rename w with
  | Ok _ _ => True
  | Raise e _ => exists x, e = files.name_conflict file_name x
  | Diverge => False
  end.
Proof.
  unfold files.destination. unfold mbind at 1, M_bind at 1.
  assert (Ht : exists t w1,
            (if truthy relative_path
             then get_or_create_path current_user now parent_id (default EmptyString relative_path)
             else mret parent_id) w = Ok t w1).
  { destruct (truthy relative_path); [|eexists _, _; reflexivity].
    unfold get_or_create_path. apply foldM_total. intros. apply resolve_folder_total. }
  destruct Ht as (t & w1 & ->). unfold mbind at 1, M_bind at 1.
  destruct auto_rename.
  - destruct (get_unique_filename_total file_name t current_user w1) as (r & -> & _). exact I.
  - munfold. destruct (get_by_name_and_parent file_name t current_user w1); [eauto|exact I].
Qed.

Lemma forallb_false_witness {A} (p : A -> bool) (l : list A) :
  forallb p l = false -> exists x, In x l /\ p x = false.
Proof.
  induction l as [|a l IH]; simpl; [discriminate|].
  destruct (p a) eqn:E; simpl.
  - intros H. destruct (IH H) as (x & Hx & Hp). exists x. auto.
  - intros _. exists a. auto.
Qed.

Lemma for_each_all_uploaded (chunks : list FileChunk.t) w :
  (forall c, In c chunks -> FileChunk.is_uploaded c = true) ->
  for_each chunks (fun chunk =>
    if negb (FileChunk.is_uploaded chunk) then raise (files.chunk_missing chunk) else mret tt) w
  = Ok tt w.
Proof.
  induction chunks as [|c l IH]; intros H; cbn; [reflexivity|].
  unfold mbind, M_bind. rewrite (H c (or_introl eq_refl)). cbn. apply IH.
  intros x Hx. apply H. right; exact Hx.
Qed.

Lemma for_each_not_uploaded (chunks : list FileChunk.t) w :
  (exists c, In c chunks /\ FileChunk.is_uploaded c = false) ->
  exists c, In c chunks /\ FileChunk.is_uploaded c = false
    /\ for_each chunks (fun chunk =>
         if negb (FileChunk.is_uploaded chunk) then raise (files.chunk_missing chunk) else mret tt) w
       = Raise (files.chunk_missing c) w.
Proof.
  induction chunks as [|c l IH]; intros (x & Hx & Hu); [destruct Hx|].
  cbn. unfold mbind, M_bind. destruct (FileChunk.is_uploaded c) eqn:E; cbn.
  - destruct Hx as [->|Hx]; [congruence|].
    destruct IH as (c' & Hc' & Hu' & Hr); [eauto|]. exists c'. auto.
  - exists c. auto.
Qed.

(** The session seen by a merge: complete, or absent with the hash of the
    empty content claimed. *)
Definition session_accepted (file_hash : string) (chunks : list FileChunk.t) : Prop :=
  (chunks <> [] /\ forall c, In c chunks -> FileChunk.is_uploaded c = true)
  \/ (chunks = [] /\ file_hash = md5 []).

Lemma check_session_outcome file_hash chunks w :
  (session_accepted file_hash chunks /\ files.check_session md5 file_hash chunks w = Ok tt w)
  \/ (chunks = [] /\ file_hash <> md5 []
      /\ files.check_session md5 file_hash chunks w = Raise files.session_not_found w)
  \/ (exists c, In c chunks /\ FileChunk.is_uploaded c = false
      /\ files.check_session md5 file_hash chunks w = Raise (files.chunk_missing c) w).
Proof.
  unfold files.check_session, session_accepted. destruct chunks as [|c0 l].
  - unfold mbind, M_bind. destruct (String.eqb file_hash (md5 [])) eqn:E.
    + apply String.eqb_eq in E. left. split; [right; auto|reflexivity].
    + apply String.eqb_neq in E. right. left. auto.
  - unfold mbind at 1, M_bind at 1. cbn [mret M_ret].
    destruct (forallb FileChunk.is_uploaded (c0 :: l)) eqn:E.
    + left. rewrite forallb_forall in E. split; [left; split; [discriminate|exact E]|].
      apply for_each_all_uploaded. exact E.
    + right. right. apply for_each_not_uploaded.
      destruct (forallb_false_witness FileChunk.is_uploaded (c0 :: l) E) as (c & Hc & Hu).
      exists c. auto.
Qed.

(** The slots of a session, as [merge_chunks] reads them. *)
Definition session_chunks (upload_id : string) (w : World) : list FileChunk.t :=
  CRUDChunk.order_by_chunk_index (CRUDChunk.get_all_chunks_unordered upload_id w).

(** How the prelude of a merge ends. *)
Lemma merge_prelude_outcome current_user now upload_id file_name file_hash parent_id
    relative_path auto_rename w :
  match files.merge_prelude md5 UPLOAD_DIR EXTRA_STORAGE_PATHS current_user now upload_id
          file_name file_hash parent_id relative_path auto_rename w with
  | Ok (_, _, chunks, _) _ =>
      chunks = session_chunks upload_id w /\ session_accepted file_hash chunks
  | Raise e _ =>
      e = files.illegal_name file_name
      \/ (exists x, e = files.name_conflict file_name x)
      \/ (session_chunks upload_id w = [] /\ file_hash <> md5 [] /\ e = files.session_not_found)
      \/ (exists c, In c (session_chunks upload_id w) /\ FileChunk.is_uploaded c = false
                    /\ e = files.chunk_missing c)
      \/ (session_accepted file_hash (session_chunks upload_id w)
          /\ e = HTTPException 500 (Msg "No usable storage paths found."))
  | Diverge => False
  end.
Proof.
  unfold files.merge_prelude.
  destruct (negb (files.is_filename_valid file_name)); [left; reflexivity|].
  pose proof (destination_adds_folders current_user now file_name parent_id relative_path auto_rename w) as Hd.
  pose proof (destination_total current_user now file_name parent_id relative_path auto_rename w) as Ht.
  unfold mbind at 1, M_bind at 1.
  destruct (files.destination _ _ _ _ _ _ w) as [[target final_name] w1|e w1|]; cbn in Hd;
    [|right; left; exact Ht|exact Ht].
  unfold mbind at 1, M_bind at 1. unfold CRUDChunk.get_all_chunks at 1, gets at 1.
  assert (Hch : CRUDChunk.order_by_chunk_index (CRUDChunk.get_all_chunks_unordered upload_id w1)
                = session_chunks upload_id w).
  { unfold session_chunks, CRUDChunk.get_all_chunks_unordered.
    destruct Hd as (_ & -> & _). reflexivity. }
  rewrite Hch. unfold mbind at 1, M_bind at 1.
  destruct (check_session_outcome file_hash (session_chunks upload_id w) w1)
    as [[Hacc ->]|[(Hnil & Hne & ->)|(c & Hc & Hu & ->)]].
  - unfold mbind at 1, M_bind at 1. unfold files.get_best_storage_path.
    destruct (fold_left _ _ _) as [[best free] made]. destruct best; cbn; auto 10.
  - auto 10.
  - right. right. right. left. eauto.
Qed.

Lemma merge_chunks_unfold current_user now upload_id file_name file_hash parent_id relative_path
    auto_rename w :
  files.merge_chunks md5 UPLOAD_DIR EXTRA_STORAGE_PATHS DIR_SIZE current_user now upload_id
    file_name file_hash parent_id relative_path auto_rename w
  = match files.merge_prelude md5 UPLOAD_DIR EXTRA_STORAGE_PATHS current_user now upload_id
            file_name file_hash parent_id relative_path auto_rename w with
    | Ok (target_parent_id, final_filename, chunks, final_path) w1 =>
        (_ ← files.reassemble md5 final_path file_hash chunks;
         files.merge_commit DIR_SIZE current_user now upload_id final_filename target_parent_id
           file_hash final_path) w1
    | Raise e w1 => Raise e w1
    | Diverge => Diverge
    end.
Proof.
  unfold files.merge_chunks. unfold mbind at 1, M_bind at 1.
  destruct (files.merge_prelude _ _ _ _ _ _ _ _ _ _ _ w) as [[[[t n] c] f] w1|e w1|]; reflexivity.
Qed.

(** The slot that the loop of the session check stops at: the first one, in
    index order, that is not marked uploaded. *)
Definition first_missing (chunks : list FileChunk.t) : option FileChunk.t :=
  first (fun c => negb (FileChunk.is_uploaded c)) chunks.

Lemma first_missing_some (chunks : list FileChunk.t) :
  (exists c, In c chunks /\ FileChunk.is_uploaded c = false) ->
  exists c, first_missing chunks = Some c.
Proof.
  intros (c & Hc & Hu). unfold first_missing, first.
  destruct (List.find _ chunks) as [d|] eqn:E; [eauto|].
  pose proof (List.find_none _ _ E c Hc) as H. cbn in H. rewrite Hu in H. discriminate H.
Qed.

Lemma for_each_first_missing (chunks : list FileChunk.t) c w :
  first_missing chunks = Some c ->
  for_each chunks (fun chunk =>
    if negb (FileChunk.is_uploaded chunk) then raise (files.chunk_missing chunk) else mret tt) w
  = Raise (files.chunk_missing c) w.
Proof.
  unfold first_missing, first. induction chunks as [|d l IH]; cbn; [discriminate|].
  unfold mbind, M_bind. destruct (negb (FileChunk.is_uploaded d)) eqn:E.
  - intros H. injection H as <-. reflexivity.
  - intros H. cbn. apply IH. exact H.
Qed.

(** The session check on a session that is not accepted. *)
Lemma check_session_rejects file_hash chunks w :
  (chunks = [] /\ file_hash <> md5 []
   /\ files.check_session md5 file_hash chunks w = Raise files.session_not_found w)
  \/ (exists c, first_missing chunks = Some c
      /\ files.check_session md5 file_hash chunks w = Raise (files.chunk_missing c) w)
  \/ session_accepted file_hash chunks.
Proof.
  destruct (check_session_outcome file_hash chunks w)
    as [[Hacc _]|[(Hnil & Hne & Hr)|(c & Hc & Hu & _)]]; [auto|auto|].
  right. left. destruct (first_missing_some chunks) as [d Hd]; [eauto|].
  exists d. split; [exact Hd|]. unfold files.check_session.
  destruct chunks as [|c0 l]; [destruct Hc|].
  unfold mbind at 1, M_bind at 1. cbn [mret M_ret]. apply for_each_first_missing. exact Hd.
Qed.

(** The destination of an upload fails only without automatic renaming. *)
Lemma destination_Raise current_user now file_name parent_id relative_path auto_rename w e w' :
  files.destination current_user now file_name parent_id relative_path auto_rename w = Raise e w' ->
  auto_rename = false /\ exists x, e = files.name_conflict file_name x.
Proof.
  intros H.
  pose proof (destination_total current_user now file_name parent_id relative_path auto_rename w) as Ht.
  rewrite H in Ht. split; [|exact Ht].
  destruct auto_rename; [exfalso|reflexivity].
  unfold files.destination in H. apply bind_Raise in H as [H|(t & w1 & Ht1 & H)].
  - destruct (truthy relative_path); [|discriminate H].
    unfold get_or_create_path in H.
    destruct (foldM_total (resolve_folder current_user now)
                (fun b a w0 => resolve_folder_total current_user now b a w0)
                (removelast (split_slash (default EmptyString relative_path))) parent_id w)
      as (b' & w0 & Hf).
    rewrite Hf in H. discriminate H.
  - apply bind_Raise in H as [H|(n & w2 & _ & H)]; [|discriminate H].
    destruct (get_unique_filename_total file_name t current_user w1) as (r & Hr & _).
    rewrite Hr in H. discriminate H.
Qed.

(** C7 (as amended). When the chunk session does not exist and the claimed
    hash is not that of the empty content, or when some slot of the session
    is not marked uploaded, the merge fails and commits no blob record and
    no file node (at most, the folders of the relative path were created).
    Which error it is follows from the request: an illegal name is refused
    first, with nothing changed; a legal name that an active node of the
    destination folder bears is refused with the conflict, when no
    automatic renaming was asked for; and once the name is legal and the
    destination resolved, the failure is the not-found error when there is
    no session and the chunk-missing error otherwise, naming the first
    slot, in index order, that is not marked uploaded.  A merge only
    succeeds when the session exists with every chunk uploaded, or when
    there is no session and the claimed hash is that of the empty content. *)
Theorem merge_rejects_incomplete_session :
  forall (current_user now : Z) (upload_id file_name file_hash : string) (parent_id : Z)
         (relative_path : option string) (auto_rename : bool) (w : World),
    let chunks := session_chunks upload_id w in
    let merge := files.merge_chunks md5 UPLOAD_DIR EXTRA_STORAGE_PATHS DIR_SIZE current_user now
                   upload_id file_name file_hash parent_id relative_path auto_rename in
    let placed := files.destination current_user now file_name parent_id relative_path
                    auto_rename w in
    ((chunks = [] /\ file_hash <> md5 [])
     \/ (exists c, In c chunks /\ FileChunk.is_uploaded c = false) ->
     exists e w',
       merge w = Raise e w' /\ no_commit w w'
       /\ ((files.is_filename_valid file_name = false
            /\ e = files.illegal_name file_name /\ w' = w)
           \/ (files.is_filename_valid file_name = true /\ auto_rename = false
               /\ placed = Raise e w' /\ exists x, e = files.name_conflict file_name x)
           \/ (files.is_filename_valid file_name = true
               /\ (exists target final_filename, placed = Ok (target, final_filename) w')
               /\ ((chunks = [] /\ e = files.session_not_found)
                   \/ (exists c, first_missing chunks = Some c /\ e = files.chunk_missing c)))))
    /\ (forall node w', merge w = Ok node w' ->
          (chunks <> [] /\ forall c, In c chunks -> FileChunk.is_uploaded c = true)
          \/ (chunks = [] /\ file_hash = md5 [])).
Proof.
  intros current_user now upload_id file_name file_hash parent_id relative_path auto_rename w
         chunks merge placed.
  assert (Hcontra : session_accepted file_hash chunks ->
            (chunks = [] /\ file_hash <> md5 [])
            \/ (exists c, In c chunks /\ FileChunk.is_uploaded c = false) -> False).
  { intros [[Hne Hall]|[Hnil Hh]] [[Hnil' Hh']|(c & Hc & Hu)]; try congruence.
    - rewrite (Hall c Hc) in Hu. discriminate.
    - rewrite Hnil in Hc. destruct Hc. }
  split.
  - intros Hbad.
    pose proof (merge_chunks_post current_user now
                  upload_id file_name file_hash parent_id relative_path auto_rename w) as Hpost.
    fold merge in Hpost.
    assert (Hrun : exists e w', merge w = Raise e w'
              /\ ((files.is_filename_valid file_name = false
                   /\ e = files.illegal_name file_name /\ w' = w)
                  \/ (files.is_filename_valid file_name = true /\ auto_rename = false
                      /\ placed = Raise e w' /\ exists x, e = files.name_conflict file_name x)
                  \/ (files.is_filename_valid file_name = true
                      /\ (exists target final_filename, placed = Ok (target, final_filename) w')
                      /\ ((chunks = [] /\ e = files.session_not_found)
                          \/ (exists c, first_missing chunks = Some c
                                        /\ e = files.chunk_missing c))))).
    { unfold merge. rewrite merge_chunks_unfold. unfold files.merge_prelude.
      destruct (files.is_filename_valid file_name) eqn:Hvalid; cbn [negb].
      2:{ exists (files.illegal_name file_name), w. split; [reflexivity|]. left. auto. }
      pose proof (destination_adds_folders current_user now file_name parent_id relative_path
                    auto_rename w) as Hd.
      pose proof (destination_total current_user now file_name parent_id relative_path
                    auto_rename w) as Ht.
      unfold mbind at 1, M_bind at 1. fold placed in Hd, Ht |- *.
      destruct placed as [[target final_name] w1|e w1|] eqn:Hplaced; [| |contradiction].
      - cbn in Hd. unfold mbind at 1, M_bind at 1.
        unfold CRUDChunk.get_all_chunks at 1, gets at 1.
        assert (Hch : CRUDChunk.order_by_chunk_index
                        (CRUDChunk.get_all_chunks_unordered upload_id w1) = chunks).
        { unfold chunks, session_chunks, CRUDChunk.get_all_chunks_unordered.
          destruct Hd as (_ & -> & _). reflexivity. }
        rewrite Hch. unfold mbind at 1, M_bind at 1.
        destruct (check_session_rejects file_hash chunks w1)
          as [(Hnil & Hne & ->)|[(c & Hc & ->)|Hacc]].
        + exists files.session_not_found, w1. split; [reflexivity|]. right. right.
          split; [reflexivity|]. split; [eauto|]. left. auto.
        + exists (files.chunk_missing c), w1. split; [reflexivity|]. right. right.
          split; [reflexivity|]. split; [eauto|]. right. eauto.
        + exfalso. exact (Hcontra Hacc Hbad).
      - exists e, w1. split; [reflexivity|]. right. left.
        destruct (destination_Raise _ _ _ _ _ _ _ _ _ Hplaced) as [Hauto Hx]. auto.
    }
    destruct Hrun as (e & w' & Hrun & Hcases). exists e, w'. split; [exact Hrun|].
    split; [|exact Hcases]. rewrite Hrun in Hpost. exact Hpost.
  - intros node w' H.
    pose proof (merge_prelude_outcome current_user now upload_id
                  file_name file_hash parent_id relative_path auto_rename w) as Hp.
    unfold merge in H. rewrite merge_chunks_unfold in H.
    destruct (files.merge_prelude _ _ _ _ _ _ _ _ _ _ _ w)
      as [[[[target final_name] chunks'] final_path] w1|e w1|]; [|discriminate H..].
    destruct Hp as [-> Hacc]. exact Hacc.
Qed.

(** *** The integrity check of a merge *)

(** The bytes of a chunk, and of a session's chunks in index order, as
    they lie in the temporary files. *)
Definition chunk_content (c : FileChunk.t) (w : World) : list Byte.byte :=
  match FileChunk.temp_path c with
  | Some p => default [] (files w !! p)
  | None => []
  end.

Definition chunk_bytes (chunks : list FileChunk.t) (w : World) : list Byte.byte :=
  List.concat (List.map (fun c => chunk_content c w) chunks).

(** A path spelled the way the operating system resolves it: after the
    leading separator of an absolute path, no component is empty, [.] or
    [..].  Two such paths name the same file only when they are the same
    string (links apart). *)
Definition plain_component (c : string) : bool :=
  negb (String.eqb c "" || String.eqb c "." || String.eqb c "..").

Definition normal_path (p : string) : bool :=
  match split_slash p with
  | c :: rest => (String.eqb c "" || plain_component c) && forallb plain_component rest
  | [] => false
  end.

(** The paths of a merge are spelled plainly: the claimed hash is a single
    component, so that the output lies in the volume itself, which exists;
    and the output path and the temporary paths of the chunks are spelled
    the way they resolve, so that no two of the strings name one file. *)
Definition plainly_spelled (file_hash final_path : string) (chunks : list FileChunk.t) : Prop :=
  contains_char "/" file_hash = false
  /\ normal_path final_path = true
  /\ forall c p, In c chunks -> FileChunk.temp_path c = Some p -> normal_path p = true.

(** Every chunk has its temporary file, at a path of its own which is not
    the output path. *)
Definition chunks_ready (final_path : string) (chunks : list FileChunk.t) (w : World) : Prop :=
  List.NoDup (List.map FileChunk.temp_path chunks)
  /\ forall c, In c chunks ->
       exists p, FileChunk.temp_path c = Some p /\ p <> EmptyString /\ p <> final_path
                 /\ is_Some (files w !! p).

Lemma chunk_bytes_frame (chunks : list FileChunk.t) (w w' : World) :
  (forall c p, In c chunks -> FileChunk.temp_path c = Some p -> files w' !! p = files w !! p) ->
  chunk_bytes chunks w' = chunk_bytes chunks w.
Proof.
  intros H. unfold chunk_bytes. f_equal. apply map_ext_in. intros c Hc.
  unfold chunk_content. destruct (FileChunk.temp_path c) as [p|] eqn:E; [|reflexivity].
  rewrite (H c p Hc E). reflexivity.
Qed.

(** One round of the concatenation loop. *)
Lemma append_chunk_step final_path (acc written content : list Byte.byte) (c : FileChunk.t)
    (p : string) (w : World) :
  FileChunk.temp_path c = Some p -> p <> EmptyString -> p <> final_path ->
  files w !! p = Some content -> files w !! final_path = Some written ->
  is_dir final_path w = false ->
  files.append_chunk final_path acc c w
  = Ok (acc ++ content)
       (with_files (delete p (<[final_path := written ++ content]> (files w))) w).
Proof.
  intros Hp Hne Hpf Hcontent Hfinal Hdir.
  assert (Hex : CRUDChunk.temp_exists c w = true).
  { unfold CRUDChunk.temp_exists. rewrite Hp. apply andb_true_iff. split.
    - apply negb_true_iff, String.eqb_neq. exact Hne.
    - unfold os_path_exists, is_file. rewrite Hcontent.
      rewrite bool_decide_eq_true_2 by (eexists; reflexivity). reflexivity. }
  unfold files.append_chunk. munfold. rewrite Hex, Hp. cbn [default from_option]. unfold id.
  unfold files.read_file at 1. rewrite Hcontent. unfold files.read_file at 1. rewrite Hfinal.
  unfold write_file at 1. rewrite Hdir. unfold os_remove.
  assert (Hfile : is_file p (with_files (<[final_path := written ++ content]> (files w)) w) = true).
  { unfold is_file. cbn. rewrite lookup_insert_ne by congruence. rewrite Hcontent.
    apply bool_decide_eq_true_2. eexists; reflexivity. }
  rewrite Hfile. reflexivity.
Qed.

(** The concatenation loop on a ready session: the output file and the
    hashed bytes both grow by the bytes of the chunks, whose temporary files
    are removed. *)
Lemma append_chunks_run final_path (chunks : list FileChunk.t) :
  forall (w : World) (acc : list Byte.byte),
    files w !! final_path = Some acc -> is_dir final_path w = false ->
    chunks_ready final_path chunks w ->
    exists w',
      foldM (files.append_chunk final_path) acc chunks w = Ok (acc ++ chunk_bytes chunks w) w'
      /\ files w' !! final_path = Some (acc ++ chunk_bytes chunks w)
      /\ same_db w w' /\ dirs w' = dirs w
      /\ (forall c p, In c chunks -> FileChunk.temp_path c = Some p -> files w' !! p = None)
      /\ (forall q, q <> final_path -> files w !! q = None -> files w' !! q = None).
Proof.
  induction chunks as [|c chunks IH]; intros w acc Hfinal Hdir [Hnd Hready].
  - exists w. cbn. rewrite app_nil_r. repeat split; auto. intros c p [].
  - destruct (Hready c (or_introl eq_refl)) as (p & Hp & Hne & Hpf & [content Hcontent]).
    cbn [foldM]. unfold mbind at 1, M_bind at 1.
    rewrite (append_chunk_step final_path acc acc content c p w Hp Hne Hpf Hcontent Hfinal Hdir).
    set (w2 := with_files (delete p (<[final_path := acc ++ content]> (files w))) w).
    assert (Hframe : forall q, q <> p -> q <> final_path -> files w2 !! q = files w !! q).
    { intros q Hq1 Hq2. unfold w2. cbn.
      rewrite lookup_delete_ne by congruence. rewrite lookup_insert_ne by congruence. reflexivity. }
    assert (Hrest : forall c' p', In c' chunks -> FileChunk.temp_path c' = Some p' ->
                      p' <> p /\ p' <> final_path).
    { intros c' p' Hc' Hp'. split.
      - intros ->. cbn in Hnd. apply List.NoDup_cons_iff in Hnd as [Hnotin _].
        apply Hnotin. rewrite Hp. rewrite <- Hp'. apply in_map. exact Hc'.
      - destruct (Hready c' (or_intror Hc')) as (q & Hq & _ & Hqf & _). congruence. }
    destruct (IH w2 (acc ++ content)) as (w' & Hrun & Hout & Hdb & Hdirs & Hgone & Hstay).
    { unfold w2. cbn. rewrite lookup_delete_ne by congruence. apply lookup_insert_eq. }
    { exact Hdir. }
    { split.
      - cbn in Hnd. apply List.NoDup_cons_iff in Hnd as [_ Hnd]. exact Hnd.
      - intros c' Hc'. destruct (Hready c' (or_intror Hc')) as (q & Hq & Hqe & Hqf & Hsome).
        exists q. repeat split; auto. destruct (Hrest c' q Hc' Hq) as [Hq1 Hq2].
        rewrite Hframe by assumption. exact Hsome. }
    assert (Hbytes : chunk_bytes chunks w2 = chunk_bytes chunks w).
    { apply chunk_bytes_frame. intros c' p' Hc' Hp'.
      destruct (Hrest c' p' Hc' Hp') as [Hq1 Hq2]. apply Hframe; assumption. }
    rewrite Hbytes in Hrun, Hout.
    assert (Hsplit : chunk_bytes (c :: chunks) w = content ++ chunk_bytes chunks w).
    { unfold chunk_bytes. cbn. unfold chunk_content at 1. rewrite Hp, Hcontent. reflexivity. }
    rewrite Hsplit, app_assoc.
    assert (Hpgone : files w2 !! p = None) by (unfold w2; cbn; apply lookup_delete_eq).
    exists w'. split; [exact Hrun|]. split; [exact Hout|]. split; [|split; [|split]].
    + apply same_db_trans with w2; [repeat split|exact Hdb].
    + rewrite Hdirs. reflexivity.
    + intros c' p' [<-|Hc'] Hp'.
      * assert (p' = p) by congruence. subst p'. apply Hstay; assumption.
      * eapply Hgone; eassumption.
    + intros q Hq Hnone. apply Hstay; [exact Hq|].
      destruct (decide (q = p)) as [->|Hqp]; [exact Hpgone|].
      rewrite Hframe by assumption. exact Hnone.
Qed.

(** The reassembly when no file exists at the output path and the session
    is ready: the chunks' bytes are written there in index order, and kept
    exactly when their hash is the claimed one. *)
Lemma reassemble_outcome final_path file_hash (chunks : list FileChunk.t) (w : World) :
  os_path_exists final_path w = false ->
  chunks_ready final_path chunks w ->
  exists w',
    files w' !! final_path = Some (chunk_bytes chunks w)
    /\ (forall c p, In c chunks -> FileChunk.temp_path c = Some p -> files w' !! p = None)
    /\ files.reassemble md5 final_path file_hash chunks w
       = if String.eqb (md5 (chunk_bytes chunks w)) file_hash then Ok tt w'
         else Raise (files.hash_mismatch file_hash (md5 (chunk_bytes chunks w)))
                    (with_files (delete final_path (files w')) w').
Proof.
  intros Hex [Hnd Hready].
  apply orb_false_iff in Hex as [Hfile Hdir].
  set (w0 := with_files (<[final_path := []]> (files w)) w).
  assert (Hframe : forall c p, In c chunks -> FileChunk.temp_path c = Some p ->
                     files w0 !! p = files w !! p).
  { intros c p Hc Hp. destruct (Hready c Hc) as (q & Hq & _ & Hqf & _).
    assert (q = p) by congruence. subst q. unfold w0. cbn.
    apply lookup_insert_ne. congruence. }
  destruct (append_chunks_run final_path chunks w0 [])
    as (w' & Hrun & Hout & _ & _ & Hgone & _).
  { unfold w0. cbn. apply lookup_insert_eq. }
  { exact Hdir. }
  { split; [exact Hnd|]. intros c Hc. destruct (Hready c Hc) as (q & Hq & Hqe & Hqf & Hsome).
    exists q. repeat split; auto. rewrite (Hframe c q Hc Hq). exact Hsome. }
  rewrite (chunk_bytes_frame chunks w w0 Hframe) in Hrun, Hout. cbn [app] in Hrun, Hout.
  exists w'. split; [exact Hout|]. split; [exact Hgone|].
  unfold files.reassemble. unfold mbind at 1, M_bind at 1. unfold gets at 1.
  unfold os_path_exists. rewrite Hfile, Hdir. cbn [orb negb].
  unfold mbind at 1, M_bind at 1. unfold write_file at 1. rewrite Hdir. fold w0.
  unfold mbind at 1, M_bind at 1. rewrite Hrun. cbn zeta.
  destruct (String.eqb (md5 (chunk_bytes chunks w)) file_hash); cbn [negb]; [reflexivity|].
  unfold mbind, M_bind. unfold os_remove.
  assert (Hf : is_file final_path w' = true).
  { unfold is_file. rewrite Hout. apply bool_decide_eq_true_2. eexists; reflexivity. }
  rewrite Hf. reflexivity.
Qed.

(** C2 (as amended). Take a merge that reaches the reassembly (legal name,
    destination resolved, session accepted, a volume chosen) when no file
    exists yet at the output path, the session's temporary files being in
    place and the paths plainly spelled (the claimed hash a single path
    component; no empty, [.] or [..] component in the output path and in
    the temporary paths).  If the hash recomputed over the concatenated
    chunk bytes differs from the claimed hash, the merge fails with the
    hash-mismatch error, the output file it wrote is deleted (and so are
    the temporary files), and neither a blob record nor a file node is
    created (the folders of the relative path may have been).  If the
    hashes are equal the output file holds those bytes and the merge goes
    on to the quota check.  Hence such a merge succeeds only if the hashes
    are equal.  (When a file already exists at the output path, be it
    because the claimed hash is itself the absolute path of a file, nothing
    is recomputed: see the counterexample.) *)
Theorem merge_accepts_only_matching_hash :
  forall (current_user now : Z) (upload_id file_name file_hash : string) (parent_id : Z)
         (relative_path : option string) (auto_rename : bool) (w w1 : World)
         (target_parent_id : Z) (final_filename final_path : string) (chunks : list FileChunk.t),
    files.merge_prelude md5 UPLOAD_DIR EXTRA_STORAGE_PATHS current_user now upload_id file_name
      file_hash parent_id relative_path auto_rename w
    = Ok (target_parent_id, final_filename, chunks, final_path) w1 ->
    plainly_spelled file_hash final_path chunks ->
    os_path_exists final_path w1 = false ->
    chunks_ready final_path chunks w1 ->
    let merge := files.merge_chunks md5 UPLOAD_DIR EXTRA_STORAGE_PATHS DIR_SIZE current_user now
                   upload_id file_name file_hash parent_id relative_path auto_rename in
    let bytes := chunk_bytes chunks w1 in
    (md5 bytes <> file_hash ->
       exists w',
         merge w = Raise (files.hash_mismatch file_hash (md5 bytes)) w'
         /\ files w' !! final_path = None
         /\ (forall c p, In c chunks -> FileChunk.temp_path c = Some p -> files w' !! p = None)
         /\ no_commit w w')
    /\ (md5 bytes = file_hash ->
          exists w2,
            files w2 !! final_path = Some bytes
            /\ merge w = files.merge_commit DIR_SIZE current_user now upload_id final_filename
                           target_parent_id file_hash final_path w2)
    /\ (forall node w', merge w = Ok node w' -> md5 bytes = file_hash).
Proof.
  intros current_user now upload_id file_name file_hash parent_id relative_path auto_rename w w1
         target_parent_id final_filename final_path chunks Hpre _ Hex Hready merge bytes.
  pose proof (merge_chunks_post current_user now upload_id file_name file_hash parent_id
                relative_path auto_rename w) as Hpost.
  assert (Hm : merge w = (_ ← files.reassemble md5 final_path file_hash chunks;
                          files.merge_commit DIR_SIZE current_user now upload_id final_filename
                            target_parent_id file_hash final_path) w1).
  { unfold merge. rewrite merge_chunks_unfold, Hpre. reflexivity. }
  fold merge in Hpost. unfold mbind, M_bind in Hm.
  destruct (reassemble_outcome final_path file_hash chunks w1 Hex Hready)
    as (w2 & Hout & Hgone & Hrun).
  fold bytes in Hout, Hrun. rewrite Hrun in Hm.
  destruct (String.eqb (md5 bytes) file_hash) eqn:E.
  - apply String.eqb_eq in E. split; [congruence|]. split; [|auto].
    intros _. exists w2. split; [exact Hout|exact Hm].
  - apply String.eqb_neq in E. split; [|split; [congruence|]].
    + intros _. eexists. split; [exact Hm|]. split; [apply lookup_delete_eq|]. split.
      * intros c p Hc Hp. cbn.
        destruct (decide (final_path = p)) as [->|Hne]; [apply lookup_delete_eq|].
        rewrite lookup_delete_ne by exact Hne. eapply Hgone; eassumption.
      * rewrite Hm in Hpost. exact Hpost.
    + intros node w' H. rewrite Hm in H. discriminate H.
Qed.

End Ingestion.

(** ** The namespace tree *)

Section Namespace.

Import CRUDFileMeta.

(** The discipline of the primary key of [file_meta]: the ids are pairwise
    distinct, positive (0 is the root, which is no node), and were given
    out by the autoincrement counter. *)
Definition keys_ok (w : World) : Prop :=
  List.NoDup (List.map FileMeta.id (file_meta w))
  /\ forall r, In r (file_meta w) -> 0 < FileMeta.id r <= file_meta_seq w.

(** The parent pointers of an owner's nodes contain no cycle: some depth
    decreases along every pointer from a node to its parent node. *)
Definition acyclic (user_id : Z) (w : World) : Prop :=
  exists depth : Z -> nat,
    forall c p, In c (file_meta w) -> In p (file_meta w) ->
      FileMeta.user_id c = user_id -> FileMeta.user_id p = user_id ->
      FileMeta.parent_id c = FileMeta.id p ->
      (depth (FileMeta.id p) < depth (FileMeta.id c))%nat.

(** [a] is a proper ancestor of the node [n] (both nodes of [user_id]). *)
Inductive ancestor (user_id : Z) (w : World) : Z -> Z -> Prop :=
| ancestor_parent n obj par :
    get_obj n user_id w = Some obj ->
    get_obj (FileMeta.parent_id obj) user_id w = Some par ->
    ancestor user_id w (FileMeta.parent_id obj) n
| ancestor_up n obj a :
    get_obj n user_id w = Some obj ->
    ancestor user_id w a (FileMeta.parent_id obj) ->
    ancestor user_id w a n.

(** [y] is a descendant of [x]. *)
Definition descendant (user_id : Z) (w : World) (x y : Z) : Prop := ancestor user_id w x y.

Lemma get_obj_In id user_id w r :
  get_obj id user_id w = Some r ->
  In r (file_meta w) /\ FileMeta.id r = id /\ FileMeta.user_id r = user_id.
Proof.
  intros H. apply first_some in H as [Hin Hp]. unfold owned in Hp.
  apply andb_true_iff in Hp as [H1 H2]. apply Z.eqb_eq in H1, H2. auto.
Qed.

Lemma NoDup_map_In_eq {A} (key : A -> Z) (l : list A) (x y : A) :
  List.NoDup (List.map key l) -> In x l -> In y l -> key x = key y -> x = y.
Proof.
  induction l as [|a l IH]; simpl; intros Hnd Hx Hy Hk; [destruct Hx|].
  apply List.NoDup_cons_iff in Hnd as [Hnotin Hnd].
  destruct Hx as [->|Hx], Hy as [->|Hy]; auto.
  - exfalso. apply Hnotin. rewrite Hk. apply in_map. exact Hy.
  - exfalso. apply Hnotin. rewrite <- Hk. apply in_map. exact Hx.
Qed.

Lemma In_get_obj w r :
  keys_ok w -> In r (file_meta w) -> get_obj (FileMeta.id r) (FileMeta.user_id r) w = Some r.
Proof.
  intros [Hnd _] Hin. unfold get_obj.
  destruct (first (owned (FileMeta.id r) (FileMeta.user_id r)) (file_meta w)) as [r'|] eqn:E.
  - apply first_some in E as [Hin' Hp]. unfold owned in Hp.
    apply andb_true_iff in Hp as [H1 _]. apply Z.eqb_eq in H1.
    f_equal. eapply NoDup_map_In_eq; eauto.
  - apply first_none_all in E. rewrite all_nil_iff in E. specialize (E r Hin).
    unfold owned in E. rewrite !Z.eqb_refl in E. discriminate.
Qed.

Lemma get_obj_zero user_id w : keys_ok w -> get_obj 0 user_id w = None.
Proof.
  intros [_ Hpos]. destruct (get_obj 0 user_id w) as [r|] eqn:E; [|reflexivity].
  apply get_obj_In in E as (Hin & Hid & _). specialize (Hpos r Hin). lia.
Qed.

(** *** The walk of [get_ancestors] *)

Lemma get_ancestors_from_acc fuel w user_id :
  forall current_id acc,
    get_ancestors_from fuel w user_id current_id acc
    = option_map (fun l => l ++ acc) (get_ancestors_from fuel w user_id current_id []).
Proof.
  induction fuel as [|fuel IH]; intros n acc; [reflexivity|]. simpl.
  destruct (n =? 0); [reflexivity|].
  destruct (get_obj n user_id w) as [folder|]; [|reflexivity].
  rewrite (IH _ (folder :: acc)), (IH _ [folder]).
  destruct (get_ancestors_from fuel w user_id (FileMeta.parent_id folder) []); simpl; [|reflexivity].
  rewrite <- app_assoc. reflexivity.
Qed.

(** With a depth at hand the walk ends, whatever fuel it has beyond it. *)
Lemma get_ancestors_from_total user_id w (depth : Z -> nat) :
  (forall c p, In c (file_meta w) -> In p (file_meta w) ->
      FileMeta.user_id c = user_id -> FileMeta.user_id p = user_id ->
      FileMeta.parent_id c = FileMeta.id p ->
      (depth (FileMeta.id p) < depth (FileMeta.id c))%nat) ->
  forall fuel n acc, (depth n + 2 <= fuel)%nat ->
    exists l, get_ancestors_from fuel w user_id n acc = Some l.
Proof.
  intros Hd. induction fuel as [|fuel IH]; intros n acc Hfuel; [lia|]. simpl.
  destruct (n =? 0); [eauto|].
  destruct (get_obj n user_id w) as [folder|] eqn:E; [|eauto].
  destruct fuel as [|fuel]; [lia|].
  destruct (get_obj (FileMeta.parent_id folder) user_id w) as [par|] eqn:Ep.
  - apply IH. apply get_obj_In in E as (Hin & Hid & Hu). apply get_obj_In in Ep as (Hinp & Hidp & Hup).
    specialize (Hd folder par Hin Hinp Hu Hup (eq_sym Hidp)). rewrite Hid, Hidp in Hd. lia.
  - simpl. destruct (FileMeta.parent_id folder =? 0); [eauto|]. rewrite Ep. eauto.
Qed.

(** The ids met by the walk from [n]: [n] itself and its ancestors. *)
Lemma get_ancestors_from_ids user_id w :
  keys_ok w ->
  forall fuel n l x,
    get_ancestors_from fuel w user_id n [] = Some l ->
    (existsb (by_id x) l = true
     <-> (x = n /\ is_Some (get_obj n user_id w)) \/ ancestor user_id w x n).
Proof.
  intros Hk. induction fuel as [|fuel IH]; intros n l x H; [discriminate|]. simpl in H.
  destruct (n =? 0) eqn:E0.
  - apply Z.eqb_eq in E0. subst n. injection H as <-. simpl. split; [discriminate|].
    intros [[_ [r Hr]]|Ha].
    + rewrite (get_obj_zero _ _ Hk) in Hr. discriminate.
    + inversion Ha as [n obj par Hobj|n obj a Hobj]; subst;
        rewrite (get_obj_zero _ _ Hk) in Hobj; discriminate.
  - destruct (get_obj n user_id w) as [folder|] eqn:E.
    + rewrite get_ancestors_from_acc in H.
      destruct (get_ancestors_from fuel w user_id (FileMeta.parent_id folder) []) as [l'|] eqn:E';
        [|discriminate].
      injection H as <-. rewrite existsb_app. simpl. rewrite orb_false_r.
      specialize (IH _ _ x E'). rewrite orb_true_iff, IH. unfold by_id.
      pose proof (get_obj_In _ _ _ _ E) as (_ & Hid & _). rewrite Hid. split.
      * intros [[[-> [par Hpar]]|Ha]|Hx].
        -- right. eapply ancestor_parent; eauto.
        -- right. eapply ancestor_up; eauto.
        -- apply Z.eqb_eq in Hx. left. split; [congruence|eauto].
      * intros [[-> _]|Ha]; [right; apply Z.eqb_refl|]. left.
        inversion Ha as [n' obj par Hobj Hpar|n' obj a Hobj Hup]; subst.
        -- assert (obj = folder) by congruence. subst obj. left. split; [reflexivity|eauto].
        -- assert (obj = folder) by congruence. subst obj. right. exact Hup.
    + injection H as <-. simpl. split; [discriminate|].
      intros [[_ [r Hr]]|Ha]; [discriminate|].
      inversion Ha as [n' obj par Hobj|n' obj a Hobj]; subst; congruence.
Qed.

Lemma update_row_get_obj id f n user_id w :
  (forall r, FileMeta.id (f r) = FileMeta.id r /\ FileMeta.user_id (f r) = FileMeta.user_id r) ->
  get_obj n user_id (update_row id f w)
  = option_map (fun r => if by_id id r then f r else r) (get_obj n user_id w).
Proof.
  intros Hf. unfold get_obj, update_row. cbn.
  apply (first_map_stable (owned n user_id)). intros r. unfold owned.
  destruct (by_id id r); [|reflexivity]. destruct (Hf r) as [-> ->]. reflexivity.
Qed.

(** *** Move *)

Lemma set_location_keys target name now r :
  FileMeta.id (FileMeta.set_location target name now r) = FileMeta.id r
  /\ FileMeta.user_id (FileMeta.set_location target name now r) = FileMeta.user_id r.
Proof. split; reflexivity. Qed.

Lemma update_row_keys_ok id f w :
  (forall r, FileMeta.id (f r) = FileMeta.id r) -> keys_ok w -> keys_ok (update_row id f w).
Proof.
  intros Hf [Hnd Hpos]. unfold keys_ok, update_row. cbn.
  assert (Hids : List.map FileMeta.id (List.map (fun r => if by_id id r then f r else r) (file_meta w))
                 = List.map FileMeta.id (file_meta w)).
  { rewrite List.map_map. apply map_ext. intros r. destruct (by_id id r); auto. }
  rewrite Hids. split; [exact Hnd|].
  intros r Hr. apply in_map_iff in Hr as (r0 & <- & Hr0). specialize (Hpos r0 Hr0).
  destruct (by_id id r0); [rewrite Hf|]; exact Hpos.
Qed.

(** Whether [x] lies on the walk from [n] up to the root. *)
Definition on_walk (user_id : Z) (w : World) (depth : Z -> nat) (x n : Z) : bool :=
  existsb (by_id x) (default [] (get_ancestors_from (depth n + 2) w user_id n [])).

Lemma on_walk_spec user_id w depth x n :
  keys_ok w ->
  (forall c p, In c (file_meta w) -> In p (file_meta w) ->
      FileMeta.user_id c = user_id -> FileMeta.user_id p = user_id ->
      FileMeta.parent_id c = FileMeta.id p ->
      (depth (FileMeta.id p) < depth (FileMeta.id c))%nat) ->
  on_walk user_id w depth x n = true
  <-> (x = n /\ is_Some (get_obj n user_id w)) \/ ancestor user_id w x n.
Proof.
  intros Hk Hd. unfold on_walk.
  destruct (get_ancestors_from_total user_id w depth Hd (depth n + 2) n [] (Nat.le_refl _)) as [l Hl].
  rewrite Hl. cbn [default from_option]. unfold id.
  apply (get_ancestors_from_ids user_id w Hk _ _ _ _ Hl).
Qed.

Lemma ancestor_via_parent user_id w x c p :
  keys_ok w -> In c (file_meta w) -> In p (file_meta w) ->
  FileMeta.user_id c = user_id -> FileMeta.user_id p = user_id ->
  FileMeta.parent_id c = FileMeta.id p ->
  ancestor user_id w x (FileMeta.id c) <-> x = FileMeta.id p \/ ancestor user_id w x (FileMeta.id p).
Proof.
  intros Hk Hc Hp Huc Hup Hpar.
  pose proof (In_get_obj w c Hk Hc) as Hgc. pose proof (In_get_obj w p Hk Hp) as Hgp.
  rewrite Huc in Hgc. rewrite Hup in Hgp. split.
  - intros Ha. inversion Ha as [n obj par Hobj Hpar'|n obj a Hobj Hup']; subst.
    + assert (obj = c) by congruence. subst obj. auto.
    + assert (obj = c) by congruence. subst obj. right. rewrite <- Hpar. exact Hup'.
  - intros [->|Ha].
    + rewrite <- Hpar. eapply ancestor_parent; [exact Hgc|]. rewrite Hpar. exact Hgp.
    + eapply ancestor_up; [exact Hgc|]. rewrite Hpar. exact Ha.
Qed.

(** Reparenting a node under a target that is neither the node nor one of
    its descendants leaves the parent pointers without a cycle. *)
Lemma acyclic_move user_id w id target name now obj :
  keys_ok w -> acyclic user_id w -> get_obj id user_id w = Some obj ->
  ~ (target = id \/ descendant user_id w id target) ->
  acyclic user_id (update_row id (FileMeta.set_location target name now) w).
Proof.
  intros Hk [depth Hd] Hobj Hnc.
  pose proof (get_obj_In _ _ _ _ Hobj) as (Hobj_in & Hobj_id & Hobj_u).
  set (sub := on_walk user_id w depth id).
  exists (fun n => if sub n then (depth n + depth target + 1)%nat else depth n).
  intros c' p' Hc' Hp' Huc Hup Hpar.
  unfold update_row in Hc', Hp'. cbn in Hc', Hp'.
  apply in_map_iff in Hc' as (c & <- & Hc). apply in_map_iff in Hp' as (p & <- & Hp).
  assert (Hidc : forall r, FileMeta.id (if by_id id r then FileMeta.set_location target name now r else r)
                           = FileMeta.id r) by (intros r; destruct (by_id id r); reflexivity).
  assert (Huu : forall r, FileMeta.user_id (if by_id id r then FileMeta.set_location target name now r else r)
                          = FileMeta.user_id r) by (intros r; destruct (by_id id r); reflexivity).
  rewrite !Hidc. rewrite Huu in Huc, Hup. rewrite Hidc in Hpar.
  assert (Hsub_id : sub id = true).
  { apply on_walk_spec; [exact Hk|exact Hd|]. left. split; [reflexivity|eauto]. }
  assert (Hsub_target : sub target = false).
  { destruct (sub target) eqn:E; [|reflexivity]. exfalso. apply Hnc.
    apply on_walk_spec in E; [|exact Hk|exact Hd]. destruct E as [[-> _]|Ha]; auto. }
  destruct (by_id id c) eqn:Ec.
  - unfold by_id in Ec. apply Z.eqb_eq in Ec. cbn in Hpar. rewrite <- Hpar, Ec.
    rewrite Hsub_id, Hsub_target. lia.
  - unfold by_id in Ec. apply Z.eqb_neq in Ec.
    pose proof (Hd c p Hc Hp Huc Hup Hpar) as Hlt.
    assert (Hsame : sub (FileMeta.id c) = sub (FileMeta.id p)).
    { apply eq_true_iff_eq. unfold sub.
      rewrite !on_walk_spec by assumption.
      rewrite (ancestor_via_parent user_id w id c p Hk Hc Hp Huc Hup Hpar).
      pose proof (In_get_obj w c Hk Hc) as Hgc. pose proof (In_get_obj w p Hk Hp) as Hgp.
      rewrite Huc in Hgc. rewrite Hup in Hgp. split.
      - intros [[Heq _]|[Heq|Ha]]; [congruence|left; split; [exact Heq|eauto]|right; exact Ha].
      - intros [[Heq _]|Ha]; right; auto. }
    rewrite Hsame. destruct (sub (FileMeta.id p)); lia.
Qed.

Lemma update_row_first_by_id id f w obj :
  first (by_id id) (file_meta w) = Some obj ->
  first (by_id id) (file_meta (update_row id f w)) = Some (f obj)
  \/ by_id id (f obj) = false.
Proof.
  intros H. destruct (by_id id (f obj)) eqn:E; [left|right; reflexivity].
  unfold update_row. cbn. unfold first in *.
  induction (file_meta w) as [|a l IH]; simpl in *; [discriminate|].
  destruct (by_id id a) eqn:Ea.
  - injection H as ->. rewrite E. reflexivity.
  - rewrite Ea. apply IH. exact H.
Qed.

Lemma get_obj_first_by_id id user_id w obj :
  keys_ok w -> get_obj id user_id w = Some obj -> first (by_id id) (file_meta w) = Some obj.
Proof.
  intros [Hnd _] H. apply get_obj_In in H as (Hin & Hid & _).
  destruct (first (by_id id) (file_meta w)) as [r|] eqn:E.
  - apply first_some in E as [Hr Hp]. unfold by_id in Hp. apply Z.eqb_eq in Hp.
    f_equal. eapply NoDup_map_In_eq; eauto. congruence.
  - apply first_none_all in E. rewrite all_nil_iff in E. specialize (E obj Hin).
    unfold by_id in E. rewrite Hid, Z.eqb_refl in E. discriminate.
Qed.

(** C5 (as amended). In a namespace without a cycle, take an existing node
    [x] and a target [y].  With enough fuel for the walk up from [y]:
    when [x] is a folder, [move] refuses (it returns none and changes
    nothing) if and only if [y] equals [x] or [y] is a descendant of [x];
    and whenever [y] is neither [x] nor a descendant of [x], [move]
    reparents [x] under [y] with a name that no active sibling there bears,
    and the parent pointers remain without a cycle.  (For a node that is not
    a folder the walk is skipped: see the counterexample.) *)
Theorem move_refuses_cycles_for_folders :
  forall (user_id : Z) (w : World) (id target_parent_id now : Z) (obj : FileMeta.t),
    keys_ok w -> acyclic user_id w -> get_obj id user_id w = Some obj ->
    exists N, forall fuel, (N <= fuel)%nat ->
      (FileMeta.is_folder obj = true ->
         (move fuel now id target_parent_id user_id w = Ok None w
          <-> target_parent_id = id \/ descendant user_id w id target_parent_id))
      /\ (~ (target_parent_id = id \/ descendant user_id w id target_parent_id) ->
           exists name w',
             move fuel now id target_parent_id user_id w
               = Ok (Some (FileMeta.set_location target_parent_id name now obj)) w'
             /\ get_by_name_and_parent name target_parent_id user_id w = None
             /\ w' = update_row id (FileMeta.set_location target_parent_id name now) w
             /\ get_obj id user_id w'
                = Some (FileMeta.set_location target_parent_id name now obj)
             /\ keys_ok w' /\ acyclic user_id w').
Proof.
  intros user_id w id target now obj Hk Hac Hobj.
  pose proof Hac as [depth Hd].
  pose proof (get_obj_In _ _ _ _ Hobj) as (Hobj_in & Hobj_id & Hobj_u).
  exists (depth target + 2)%nat. intros fuel Hfuel.
  destruct (get_ancestors_from_total user_id w depth Hd fuel target [] Hfuel) as [l Hl].
  pose proof (get_ancestors_from_ids user_id w Hk fuel target l id Hl) as Hmem.
  assert (Hcyc : existsb (by_id id) l = true <-> target = id \/ descendant user_id w id target).
  { rewrite Hmem. unfold descendant. split.
    - intros [[-> _]|Ha]; auto.
    - intros [->|Ha]; [left; split; [reflexivity|eauto]|right; exact Ha]. }
  assert (Hgo : ~ (target = id \/ descendant user_id w id target) ->
            exists name w',
              move fuel now id target user_id w
                = Ok (Some (FileMeta.set_location target name now obj)) w'
              /\ get_by_name_and_parent name target user_id w = None
              /\ w' = update_row id (FileMeta.set_location target name now) w
              /\ get_obj id user_id w' = Some (FileMeta.set_location target name now obj)
              /\ keys_ok w' /\ acyclic user_id w').
  { intros Hnc.
    destruct (_get_unique_filename_total user_id target (FileMeta.file_name obj) w)
      as (name & Hname & Hfree).
    exists name, (update_row id (FileMeta.set_location target name now) w).
    assert (Hget : get_obj id user_id (update_row id (FileMeta.set_location target name now) w)
                   = Some (FileMeta.set_location target name now obj)).
    { rewrite update_row_get_obj by (intros r; apply set_location_keys).
      rewrite Hobj. cbn. unfold by_id. rewrite Hobj_id, Z.eqb_refl. reflexivity. }
    split; [|split; [exact Hfree|split; [reflexivity|split; [exact Hget|split]]]].
    - assert (Hfirst : first (by_id (FileMeta.id obj))
                         (file_meta (update_row id (FileMeta.set_location target name now) w))
                       = Some (FileMeta.set_location target name now obj)).
      { rewrite Hobj_id. apply (get_obj_first_by_id id user_id); [|exact Hget].
        apply update_row_keys_ok; [reflexivity|exact Hk]. }
      unfold move. munfold. rewrite Hobj.
      destruct (FileMeta.is_folder obj).
      + unfold get_ancestors. rewrite Hl.
        destruct (existsb (by_id id) l) eqn:E; [exfalso; apply Hnc, Hcyc; reflexivity|].
        rewrite Hname. unfold compose. rewrite Hobj_id in Hfirst |- *. rewrite Hfirst. reflexivity.
      + rewrite Hname. unfold compose. rewrite Hobj_id in Hfirst |- *. rewrite Hfirst. reflexivity.
    - apply update_row_keys_ok; [reflexivity|exact Hk].
    - eapply acyclic_move; eauto. }
  split; [|exact Hgo].
  intros Hfolder. split.
  - intros Hnone. destruct (existsb (by_id id) l) eqn:E; [apply Hcyc; reflexivity|].
    exfalso. destruct Hgo as (name & w' & Hrun & _).
    { intros Hc. apply Hcyc in Hc. congruence. }
    rewrite Hrun in Hnone. discriminate.
  - intros Hc. apply Hcyc in Hc. unfold move. munfold. rewrite Hobj, Hfolder.
    unfold get_ancestors. rewrite Hl, Hc. reflexivity.
Qed.

(** A depth along the parent pointers rules out every cycle. *)
Lemma acyclic_no_cycle user_id w x : acyclic user_id w -> ~ ancestor user_id w x x.
Proof.
  intros [depth Hd].
  assert (H : forall a n, ancestor user_id w a n -> (depth a < depth n)%nat).
  { induction 1 as [n obj par Hobj Hpar|n obj a Hobj Hup IH].
    - apply get_obj_In in Hobj as (Hin & Hid & Hu). apply get_obj_In in Hpar as (Hinp & Hidp & Hup).
      specialize (Hd obj par Hin Hinp Hu Hup (eq_sym Hidp)). rewrite Hid, Hidp in Hd. exact Hd.
    - assert (Hpar : exists par, get_obj (FileMeta.parent_id obj) user_id w = Some par)
        by (inversion Hup; eauto).
      destruct Hpar as [par Hpar].
      apply get_obj_In in Hobj as (Hin & Hid & Hu). apply get_obj_In in Hpar as (Hinp & Hidp & Hup').
      specialize (Hd obj par Hin Hinp Hu Hup' (eq_sym Hidp)). rewrite Hid, Hidp in Hd. lia. }
  intros Ha. specialize (H x x Ha). lia.
Qed.

(** *** Names of siblings *)

(** No two active nodes of the same owner under the same parent share a
    name. *)
Definition sibling_key (r : FileMeta.t) : Z * Z * string :=
  (FileMeta.user_id r, FileMeta.parent_id r, FileMeta.file_name r).
Definition active (r : FileMeta.t) : bool := negb (FileMeta.is_deleted r).
Definition active_keys (rows : list FileMeta.t) : list (Z * Z * string) :=
  List.map sibling_key (all active rows).
Definition unique_names (w : World) : Prop := List.NoDup (active_keys (file_meta w)).

Lemma free_name_not_key name parent_id user_id w :
  get_by_name_and_parent name parent_id user_id w = None ->
  ~ In (user_id, parent_id, name) (active_keys (file_meta w)).
Proof.
  intros Hnone Hin. unfold active_keys in Hin. apply in_map_iff in Hin as (r & Hkey & Hr).
  apply filter_In in Hr as [Hr Hact]. unfold get_by_name_and_parent in Hnone.
  apply first_none_all in Hnone. rewrite all_nil_iff in Hnone. specialize (Hnone r Hr).
  unfold sibling_key in Hkey. injection Hkey as Hu Hp Hn.
  unfold active_child_of, child_of in Hnone. unfold active in Hact.
  rewrite Hu, Hp, Hn, !Z.eqb_refl, String.eqb_refl, Hact in Hnone. discriminate.
Qed.

Lemma active_keys_app l1 l2 : active_keys (l1 ++ l2) = active_keys l1 ++ active_keys l2.
Proof. unfold active_keys. rewrite all_app, List.map_app. reflexivity. Qed.

Lemma NoDup_snoc {A} (l : list A) (x : A) : List.NoDup l -> ~ In x l -> List.NoDup (l ++ [x]).
Proof.
  intros Hnd Hx. apply List.NoDup_app; [exact Hnd|repeat constructor; intros []|].
  intros y Hy [<-|[]]. exact (Hx Hy).
Qed.

Lemma add_file_meta_unique_names name is_folder parent_id file_hash user_id now w r w' :
  get_by_name_and_parent name parent_id user_id w = None ->
  unique_names w ->
  add_file_meta name is_folder parent_id file_hash user_id now w = Ok r w' ->
  unique_names w'.
Proof.
  intros Hfree Hu H. unfold add_file_meta in H. injection H as <- <-.
  unfold unique_names. cbn [file_meta with_file_meta with_file_meta_seq].
  rewrite active_keys_app.
  match goal with
  | |- List.NoDup (_ ++ active_keys [?r]) => change (active_keys [r]) with [sibling_key r]
  end.
  apply NoDup_snoc; [exact Hu|]. apply free_name_not_key. exact Hfree.
Qed.

Lemma create_with_user_unique_names obj_in user_id now w r w' :
  unique_names w -> create_with_user obj_in user_id now w = Ok r w' -> unique_names w'.
Proof.
  intros Hu H. unfold create_with_user in H. apply bind_Ok in H as (name & w1 & Hname & H).
  destruct (_get_unique_filename_total user_id (FileMetaCreate.parent_id obj_in)
              (FileMetaCreate.file_name obj_in) w) as (name' & Hname' & Hfree).
  rewrite Hname' in Hname. injection Hname as <- <-.
  eapply add_file_meta_unique_names; eauto.
Qed.

Lemma for_each_preserves {A} (P : World -> Prop) (body : A -> M unit) (l : list A) :
  (forall x w a w', P w -> body x w = Ok a w' -> P w') ->
  forall w a w', P w -> for_each l body w = Ok a w' -> P w'.
Proof.
  intros Hb. induction l as [|x l IH]; intros w a w' HP H; cbn in H.
  - unfold mret, M_ret in H. assert (w = w') by congruence. subst w'. exact HP.
  - apply bind_Ok in H as (a1 & w1 & H1 & H). eapply IH; [|exact H]. eapply Hb; eauto.
Qed.

Lemma copy_unique_names fuel now user_id :
  forall id target_parent_id w r w',
    unique_names w -> copy fuel now id target_parent_id user_id w = Ok r w' -> unique_names w'.
Proof.
  induction fuel as [|fuel IH]; intros id target w r w' Hu H; [discriminate|].
  cbn [copy] in H. apply bind_Ok in H as (obj & w0 & Hg & H). apply gets_Ok in Hg as [-> ->].
  destruct (get_obj id user_id w) as [obj|]; [|injection H as _ <-; exact Hu].
  apply bind_Ok in H as (name & w1 & Hname & H).
  destruct (_get_unique_filename_total user_id target (FileMeta.file_name obj) w)
    as (name' & Hname' & Hfree).
  rewrite Hname' in Hname. injection Hname as <- <-.
  apply bind_Ok in H as (new_obj & w2 & Hadd & H).
  pose proof (add_file_meta_unique_names _ _ _ _ _ _ _ _ _ Hfree Hu Hadd) as Hu2.
  apply bind_Ok in H as ([] & w3 & Hbody & H). injection H as _ <-.
  destruct (FileMeta.is_folder obj); cbn [negb] in Hbody.
  - apply bind_Ok in Hbody as (children & w2' & Hg & Hbody). apply gets_Ok in Hg as [-> ->].
    eapply (for_each_preserves unique_names); [|exact Hu2|exact Hbody].
    intros child wa [] wb Hua Hc. apply bind_Ok in Hc as (rc & wc & Hc & Hret).
    injection Hret as <-. eapply IH; eauto.
  - destruct (FileMeta.file_hash obj) as [h|]; [|injection Hbody as <-; exact Hu2].
    destruct (truthy (Some h)); [|injection Hbody as <-; exact Hu2].
    apply bind_Ok in Hbody as (s & w2' & Hinc & Hret). injection Hret as <-.
    destruct (increment_ref_count_Ok h w2) as [s' Hinc']. rewrite Hinc' in Hinc.
    injection Hinc as _ <-. exact Hu2.
Qed.

(** Rows whose deletion flag is raised leave the active names a sublist. *)
Lemma set_deleted_unique_names id t now w :
  unique_names w -> unique_names (update_row id (FileMeta.set_deleted true t now) w).
Proof.
  unfold unique_names, update_row. cbn. induction (file_meta w) as [|a l IH]; [auto|].
  unfold active_keys in *. cbn. intros Hu.
  assert (Hsub : forall k, In k (List.map sibling_key (all active
                   (List.map (fun r => if by_id id r then FileMeta.set_deleted true t now r else r) l)))
                 -> In k (List.map sibling_key (all active l))).
  { clear. intros k Hk. apply in_map_iff in Hk as (r & <- & Hr). apply filter_In in Hr as [Hr Hact].
    apply in_map_iff in Hr as (r0 & <- & Hr0). destruct (by_id id r0); [discriminate|].
    apply in_map. apply filter_In. auto. }
  destruct (by_id id a); cbn.
  - apply IH. destruct (active a); [apply List.NoDup_cons_iff in Hu as [_ Hu]|]; exact Hu.
  - destruct (active a); cbn.
    + apply List.NoDup_cons_iff in Hu as [Hnotin Hu]. constructor; [|apply IH; exact Hu].
      intros Hin. apply Hnotin, Hsub, Hin.
    + apply IH. exact Hu.
Qed.

Lemma remove_unique_names fuel now user_id :
  forall id w r w', unique_names w -> remove fuel now id user_id w = Ok r w' -> unique_names w'.
Proof.
  induction fuel as [|fuel IH]; intros id w r w' Hu H; [discriminate|].
  cbn [remove] in H. apply bind_Ok in H as (obj & w0 & Hg & H). apply gets_Ok in Hg as [-> ->].
  destruct (get_obj id user_id w) as [obj|]; [|injection H as _ <-; exact Hu].
  apply bind_Ok in H as ([] & w1 & Hbody & H).
  assert (Hu1 : unique_names w1).
  { destruct (FileMeta.is_folder obj); [|injection Hbody as <-; exact Hu].
    apply bind_Ok in Hbody as (children & w0 & Hg & Hbody). apply gets_Ok in Hg as [-> ->].
    eapply (for_each_preserves unique_names); [|exact Hu|exact Hbody].
    intros child wa [] wb Hua Hc. apply bind_Ok in Hc as (rc & wc & Hc & Hret).
    injection Hret as <-. eapply IH; eauto. }
  apply bind_Ok in H as ([] & w2 & Hmod & H). apply gets_Ok in H as [_ ->].
  unfold modify in Hmod. injection Hmod as <-. apply set_deleted_unique_names. exact Hu1.
Qed.

Lemma relocate_no_row id (f : FileMeta.t -> FileMeta.t) (l : list FileMeta.t) :
  ~ In id (List.map FileMeta.id l) ->
  List.map (fun r => if by_id id r then f r else r) l = l.
Proof.
  induction l as [|a l IH]; intros Hn; [reflexivity|]. cbn.
  unfold by_id at 1. destruct (FileMeta.id a =? id) eqn:E.
  - apply Z.eqb_eq in E. exfalso. apply Hn. left. exact E.
  - f_equal. apply IH. intros Hin. apply Hn. right. exact Hin.
Qed.

(** Moving the row [id] to a place whose key is free keeps the active keys
    pairwise distinct. *)
Lemma relocate_NoDup id user_id target name now (l : list FileMeta.t) :
  List.NoDup (List.map FileMeta.id l) ->
  (forall r, In r l -> FileMeta.id r = id -> FileMeta.user_id r = user_id) ->
  List.NoDup (active_keys l) ->
  ~ In (user_id, target, name) (active_keys l) ->
  List.NoDup (active_keys
    (List.map (fun r => if by_id id r then FileMeta.set_location target name now r else r) l)).
Proof.
  induction l as [|a l IH]; intros Hids Hown Hnd Hfree; [constructor|].
  cbn [List.map] in Hids. apply List.NoDup_cons_iff in Hids as [Hida Hids].
  assert (Htail : List.NoDup (active_keys l) /\ ~ In (user_id, target, name) (active_keys l)
                  /\ (active a = true -> ~ In (sibling_key a) (active_keys l))
                  /\ (active a = true -> sibling_key a <> (user_id, target, name))).
  { unfold active_keys in *. cbn in Hnd, Hfree. destruct (active a); cbn in Hnd, Hfree.
    - apply List.NoDup_cons_iff in Hnd as [Hn Hnd]. repeat split; auto.
    - repeat split; auto; discriminate. }
  destruct Htail as (Hnd' & Hfree' & Hafresh & Hane).
  cbn [List.map]. unfold by_id at 1. destruct (FileMeta.id a =? id) eqn:E.
  - apply Z.eqb_eq in E. rewrite relocate_no_row by (rewrite <- E; exact Hida).
    unfold active_keys. cbn. unfold active at 1. cbn.
    destruct (negb (FileMeta.is_deleted a)); [|exact Hnd']. cbn.
    constructor; [|exact Hnd']. unfold sibling_key at 1. cbn.
    rewrite (Hown a (or_introl eq_refl) E). exact Hfree'.
  - specialize (IH Hids (fun r Hr => Hown r (or_intror Hr)) Hnd' Hfree').
    unfold active_keys in *. cbn. destruct (active a) eqn:Ea; [|exact IH]. cbn.
    constructor; [|exact IH]. intros Hin.
    apply in_map_iff in Hin as (r & Hkey & Hr). apply filter_In in Hr as [Hr Hact].
    apply in_map_iff in Hr as (r0 & <- & Hr0). destruct (by_id id r0) eqn:Er.
    + apply (Hane eq_refl). rewrite <- Hkey. unfold sibling_key. cbn.
      unfold by_id in Er. apply Z.eqb_eq in Er. rewrite (Hown r0 (or_intror Hr0) Er). reflexivity.
    + apply (Hafresh eq_refl). rewrite <- Hkey. apply in_map. apply filter_In. auto.
Qed.

Lemma get_ancestors_pure fuel folder_id user_id w : final (get_ancestors fuel folder_id user_id w) (eq w).
Proof. unfold get_ancestors. destruct (get_ancestors_from _ _ _ _ _); reflexivity. Qed.

Lemma move_unique_names fuel now id target_parent_id user_id w r w' :
  keys_ok w -> unique_names w ->
  move fuel now id target_parent_id user_id w = Ok r w' -> unique_names w'.
Proof.
  intros Hk Hu H. unfold move in H.
  apply bind_Ok in H as (obj & w0 & Hg & H). apply gets_Ok in Hg as [-> ->].
  destruct (get_obj id user_id w) as [obj|] eqn:Hobj; [|injection H as _ <-; exact Hu].
  apply bind_Ok in H as (cyclic & w1 & Hc & H).
  assert (w1 = w).
  { destruct (FileMeta.is_folder obj); [|unfold mret, M_ret in Hc; congruence].
    apply bind_Ok in Hc as (ancestors & w2 & Ha & Hret).
    pose proof (get_ancestors_pure fuel target_parent_id user_id w) as Hp. rewrite Ha in Hp.
    cbn in Hp. unfold mret, M_ret in Hret. congruence. }
  subst w1. destruct cyclic; [unfold mret, M_ret in H; injection H as _ <-; exact Hu|].
  apply bind_Ok in H as (name & w1 & Hname & H).
  destruct (_get_unique_filename_total user_id target_parent_id (FileMeta.file_name obj) w)
    as (name' & Hname' & Hfree).
  rewrite Hname' in Hname. injection Hname as <- <-.
  apply bind_Ok in H as ([] & w2 & Hmod & H). apply gets_Ok in H as [_ ->].
  unfold modify in Hmod. injection Hmod as <-.
  pose proof (get_obj_In _ _ _ _ Hobj) as (Hin & Hid & Huser).
  unfold unique_names, update_row. cbn. rewrite Hid.
  apply (relocate_NoDup id user_id); [apply Hk| |exact Hu|apply free_name_not_key; exact Hfree].
  intros r0 Hr Hrid. destruct Hk as [Hnd _].
  assert (r0 = obj) by (eapply NoDup_map_In_eq; eauto; congruence). subst r0. exact Huser.
Qed.

(** The names of folders.  The resolution of a relative path tells folders
    from files: what it keeps distinct is the names of the active
    folders under one parent. *)
Definition active_folder (r : FileMeta.t) : bool := active r && FileMeta.is_folder r.
Definition folder_keys (rows : list FileMeta.t) : list (Z * Z * string) :=
  List.map sibling_key (all active_folder rows).
Definition unique_folder_names (w : World) : Prop := List.NoDup (folder_keys (file_meta w)).

Lemma unique_names_folders w : unique_names w -> unique_folder_names w.
Proof.
  unfold unique_names, unique_folder_names, active_keys, folder_keys.
  induction (file_meta w) as [|a l IH]; [auto|]. unfold active_folder in *. cbn.
  assert (Hsub : forall k, In k (List.map sibling_key
                                   (all (fun r => active r && FileMeta.is_folder r) l))
                           -> In k (List.map sibling_key (all active l))).
  { intros k Hk. apply in_map_iff in Hk as (r & <- & Hr). apply filter_In in Hr as [Hr Hp].
    apply andb_true_iff in Hp as [Hp _]. apply in_map. apply filter_In. auto. }
  destruct (active a); cbn; [|exact IH]. intros Hnd.
  apply List.NoDup_cons_iff in Hnd as [Hfresh Hnd].
  destruct (FileMeta.is_folder a); [|auto]. cbn. constructor; auto.
Qed.

Lemma NoDup_map_all_all {A B} (f : A -> B) (p q : A -> bool) (l : list A) :
  List.NoDup (List.map f (all p l)) -> List.NoDup (List.map f (all p (all q l))).
Proof.
  assert (Hsub : forall l x, In x (List.map f (all p (all q l))) -> In x (List.map f (all p l))).
  { intros l0 x Hx. apply in_map_iff in Hx as (r & <- & Hr). apply filter_In in Hr as [Hr Hp].
    apply filter_In in Hr as [Hr _]. apply in_map. apply filter_In. auto. }
  induction l as [|a l IH]; [auto|]. cbn. destruct (q a); cbn; destruct (p a); cbn; intros Hnd.
  - apply List.NoDup_cons_iff in Hnd as [Hfresh Hnd]. constructor; auto.
  - auto.
  - apply List.NoDup_cons_iff in Hnd as [_ Hnd]. auto.
  - auto.
Qed.

Lemma resolve_folder_unique_folder_names user_id now parent_id folder_name w r w' :
  unique_folder_names w ->
  resolve_folder user_id now parent_id folder_name w = Ok r w' -> unique_folder_names w'.
Proof.
  unfold resolve_folder. intros Hu H.
  destruct (String.eqb folder_name ""); [injection H as _ <-; exact Hu|].
  apply bind_Ok in H as (folder & w0 & Hg & H). apply gets_Ok in Hg as [-> ->].
  destruct (first (active_folder_named user_id parent_id folder_name) (file_meta w))
    as [folder|] eqn:Hfirst; [injection H as _ <-; exact Hu|].
  apply bind_Ok in H as (nf & w1 & Hadd & H). unfold add_file_meta in Hadd.
  injection Hadd as <- <-.
  match type of H with
  | mbind _ _ ?w1 = _ =>
      assert (Hu1 : unique_folder_names w1)
  end.
  { unfold unique_folder_names, folder_keys. cbn [file_meta with_file_meta with_file_meta_seq].
    unfold all. rewrite List.filter_app, List.map_app. cbn.
    apply NoDup_snoc; [exact Hu|]. unfold sibling_key at 1. cbn.
    intros Hin. apply in_map_iff in Hin as (r0 & Hkey & Hr0). apply filter_In in Hr0 as [Hr0 Hp].
    apply first_none_all in Hfirst. apply (proj1 (all_nil_iff _ _)) with (x := r0) in Hfirst; [|exact Hr0].
    unfold active_folder, active in Hp. apply andb_true_iff in Hp as [Hact Hfold].
    unfold sibling_key in Hkey. injection Hkey as Hku Hkp Hkn.
    unfold active_folder_named, active_child_of, child_of in Hfirst.
    rewrite Hku, Hkp, Hkn, Hact, Hfold, !Z.eqb_refl, String.eqb_refl in Hfirst.
    discriminate Hfirst. }
  apply bind_Ok in H as (ex & w2 & Hg & H). apply gets_Ok in Hg as [-> ->].
  match type of H with
  | context [match ?x with [] => _ | _ :: _ => _ end] => destruct x as [|pf [|d dups]]
  end.
  - injection H as _ <-. exact Hu1.
  - injection H as _ <-. exact Hu1.
  - apply bind_Ok in H as ([] & w3 & Hmod & H). injection H as _ <-.
    unfold modify in Hmod. injection Hmod as <-.
    unfold unique_folder_names, folder_keys. cbn [file_meta with_file_meta].
    apply NoDup_map_all_all. exact Hu1.
Qed.

Lemma foldM_preserves {A B} (P : World -> Prop) (f : B -> A -> M B) :
  (forall b a w r w', P w -> f b a w = Ok r w' -> P w') ->
  forall l b w r w', P w -> foldM f b l w = Ok r w' -> P w'.
Proof.
  intros Hf. induction l as [|x l IH]; intros b w r w' HP H; cbn in H.
  - unfold mret, M_ret in H. assert (w = w') by congruence. subst w'. exact HP.
  - apply bind_Ok in H as (b1 & w1 & H1 & H). eapply IH; [|exact H]. eapply Hf; eauto.
Qed.

Lemma get_or_create_path_unique_folder_names user_id now parent_id relative_path w r w' :
  unique_folder_names w ->
  get_or_create_path user_id now parent_id relative_path w = Ok r w' -> unique_folder_names w'.
Proof.
  unfold get_or_create_path. intros Hu H.
  eapply (foldM_preserves unique_folder_names); [|exact Hu|exact H].
  intros b a w0 r0 w0' H0 Hr. eapply resolve_folder_unique_folder_names; eauto.
Qed.

(** X19. The operations that name a node with [_get_unique_filename]
    keep the names of active siblings pairwise distinct: [create_with_user]
    (folder creation and the commit of every upload), [copy] and [move];
    so does the soft delete.  The resolution of a relative path keeps the
    names of active sibling folders pairwise distinct; it does not look at
    the files, and may create a folder beside a file of the same name. *)
Theorem unique_sibling_names_preserved :
  forall (w : World),
    unique_names w ->
    (forall obj_in user_id now r w',
        create_with_user obj_in user_id now w = Ok r w' -> unique_names w')
    /\ (forall current_user now final_filename target_parent_id file_hash file_size r w',
          files.commit_node current_user now final_filename target_parent_id file_hash file_size w
            = Ok r w' -> unique_names w')
    /\ (forall fuel now id target_parent_id user_id r w',
          copy fuel now id target_parent_id user_id w = Ok r w' -> unique_names w')
    /\ (forall fuel now id target_parent_id user_id r w',
          keys_ok w -> move fuel now id target_parent_id user_id w = Ok r w' -> unique_names w')
    /\ (forall fuel now id user_id r w',
          remove fuel now id user_id w = Ok r w' -> unique_names w')
    /\ (forall user_id now parent_id relative_path r w',
          get_or_create_path user_id now parent_id relative_path w = Ok r w' ->
          unique_folder_names w').
Proof.
  intros w Hu. split; [|split; [|split; [|split; [|split]]]].
  - intros. eapply create_with_user_unique_names; eauto.
  - intros current_user now final_filename target_parent_id file_hash file_size r w' H.
    unfold files.commit_node in H. apply bind_Ok in H as (node & w1 & Hc & H).
    apply bind_Ok in H as ([] & w2 & Hq & H). unfold mret, M_ret in H. injection H as _ <-.
    unfold CRUDUser.update_quota_used, modify in Hq. injection Hq as <-.
    eapply create_with_user_unique_names in Hc; [|exact Hu]. exact Hc.
  - intros. eapply copy_unique_names; eauto.
  - intros. eapply move_unique_names; eauto.
  - intros. eapply remove_unique_names; eauto.
  - intros. eapply get_or_create_path_unique_folder_names; eauto.
    apply unique_names_folders. exact Hu.
Qed.

(** *** Restore *)

(** Not deleted, and the deletion timestamp cleared. *)
Definition cleared (r : FileMeta.t) : Prop :=
  FileMeta.is_deleted r = false /\ FileMeta.deleted_at r = None.

(** The trash fields of the rows agree: an active row has no deletion
    timestamp. *)
Definition flags_ok (w : World) : Prop :=
  forall r, In r (file_meta w) -> FileMeta.is_deleted r = false -> FileMeta.deleted_at r = None.

(** [r] is reached from the node [n] going down through folders, every node
    below [n] on the way, [r] included, being soft-deleted. *)
Inductive deleted_below (user_id : Z) (w : World) : FileMeta.t -> FileMeta.t -> Prop :=
| deleted_child n r :
    FileMeta.is_folder n = true -> In r (file_meta w) ->
    deleted_child_of (FileMeta.id n) user_id r = true ->
    deleted_below user_id w n r
| deleted_deeper n c r :
    FileMeta.is_folder n = true -> In c (file_meta w) ->
    deleted_child_of (FileMeta.id n) user_id c = true ->
    deleted_below user_id w c r ->
    deleted_below user_id w n r.

Lemma deleted_below_same user_id w n n' r :
  FileMeta.id n' = FileMeta.id n -> FileMeta.is_folder n' = FileMeta.is_folder n ->
  deleted_below user_id w n r -> deleted_below user_id w n' r.
Proof.
  intros Hid Hf H. inversion H as [n0 r0 Hfo Hin Hc|n0 c r0 Hfo Hin Hc Hb]; subst.
  - apply deleted_child; [congruence|exact Hin|rewrite Hid; exact Hc].
  - eapply deleted_deeper; [congruence|exact Hin|rewrite Hid; exact Hc|exact Hb].
Qed.

(** The dirty objects of the session: each is the un-deleted copy of the
    row that has its key. *)
Definition pend_ok (w : World) (pend : gmap Z FileMeta.t) : Prop :=
  forall k o, pend !! k = Some o ->
    cleared o /\ exists row, In row (file_meta w) /\ FileMeta.id row = k
      /\ FileMeta.id o = k /\ FileMeta.user_id o = FileMeta.user_id row
      /\ FileMeta.is_folder o = FileMeta.is_folder row
      /\ FileMeta.parent_id o = FileMeta.parent_id row.

Lemma load_fields w pend row :
  keys_ok w -> pend_ok w pend -> In row (file_meta w) ->
  FileMeta.id (load pend row) = FileMeta.id row
  /\ FileMeta.user_id (load pend row) = FileMeta.user_id row
  /\ FileMeta.is_folder (load pend row) = FileMeta.is_folder row
  /\ FileMeta.parent_id (load pend row) = FileMeta.parent_id row.
Proof.
  intros [Hnd _] Hp Hin. unfold load.
  destruct (pend !! FileMeta.id row) as [o|] eqn:E; cbn; [|auto].
  destruct (Hp _ _ E) as (_ & row' & Hin' & Hid' & Hid & Hu & Hf & Hpar).
  assert (row' = row) by (eapply NoDup_map_In_eq; eauto). subst row'. auto.
Qed.

Lemma undelete_pend_ok w now pend row :
  keys_ok w -> pend_ok w pend -> In row (file_meta w) ->
  pend_ok w (fst (undelete now pend (load pend row))).
Proof.
  intros Hk Hp Hin. destruct (load_fields w pend row Hk Hp Hin) as (Hid & Hu & Hf & Hpar).
  unfold undelete. cbn. intros k o Hko. rewrite Hid in Hko.
  destruct (decide (FileMeta.id row = k)) as [<-|Hne].
  - rewrite lookup_insert_eq in Hko. injection Hko as <-. split; [split; reflexivity|].
    exists row. cbn. repeat split; assumption.
  - rewrite lookup_insert_ne in Hko by exact Hne. apply Hp. exact Hko.
Qed.

Lemma undelete_keeps now pend obj k :
  is_Some (pend !! k) -> is_Some (fst (undelete now pend obj) !! k).
Proof.
  intros Hs. unfold undelete. cbn. destruct (decide (FileMeta.id obj = k)) as [<-|Hne].
  - rewrite lookup_insert_eq. eauto.
  - rewrite lookup_insert_ne by exact Hne. exact Hs.
Qed.

Lemma fold_left_none {A B} (f : option B -> A -> option B) (l : list A) :
  (forall a, f None a = None) -> fold_left f l None = None.
Proof. intros Hf. induction l as [|a l IH]; cbn; [reflexivity|]. rewrite Hf. exact IH. Qed.

(** The downward pass puts into the session every node that lies below
    the node along soft-deleted children. *)
Lemma _restore_downwards_spec now w user_id :
  keys_ok w ->
  forall fuel obj pend pend',
    pend_ok w pend ->
    _restore_downwards fuel now w user_id obj pend = Some pend' ->
    pend_ok w pend'
    /\ (forall k, is_Some (pend !! k) -> is_Some (pend' !! k))
    /\ (forall r, deleted_below user_id w obj r -> is_Some (pend' !! FileMeta.id r)).
Proof.
  intros Hk. induction fuel as [|fuel IH]; intros obj pend pend' Hp H; [discriminate|].
  cbn [_restore_downwards] in H.
  destruct (FileMeta.is_folder obj) eqn:Hfolder; cbn [negb] in H.
  2:{ injection H as <-. split; [exact Hp|]. split; [auto|].
      intros r Hr. inversion Hr; congruence. }
  set (step := fun (acc : option (gmap Z FileMeta.t)) (row : FileMeta.t) =>
                 match acc with
                 | None => None
                 | Some pend0 =>
                     let '(pend1, child) := undelete now pend0 (load pend0 row) in
                     _restore_downwards fuel now w user_id child pend1
                 end) in H.
  assert (Hloop : forall cs pend0 pend1,
            pend_ok w pend0 ->
            (forall c, In c cs -> In c (file_meta w)) ->
            fold_left step cs (Some pend0) = Some pend1 ->
            pend_ok w pend1
            /\ (forall k, is_Some (pend0 !! k) -> is_Some (pend1 !! k))
            /\ (forall c, In c cs -> is_Some (pend1 !! FileMeta.id c))
            /\ (forall c r, In c cs -> deleted_below user_id w c r ->
                            is_Some (pend1 !! FileMeta.id r))).
  { induction cs as [|c cs IHcs]; intros pend0 pend1 Hp0 Hrows Hfold.
    - cbn in Hfold. injection Hfold as <-. split; [exact Hp0|]. split; [auto|].
      split; [intros c []|intros c r []].
    - cbn [fold_left] in Hfold.
      assert (Hcrow : In c (file_meta w)) by (apply Hrows; left; reflexivity).
      destruct (load_fields w pend0 c Hk Hp0 Hcrow) as (Hid & Hu & Hf & Hpar).
      pose proof (undelete_pend_ok w now pend0 c Hk Hp0 Hcrow) as Hp0'.
      destruct (step (Some pend0) c) as [pend2|] eqn:Estep;
        [|rewrite fold_left_none in Hfold by reflexivity; discriminate].
      unfold step in Estep. unfold undelete in Estep, Hp0'. cbn in Estep, Hp0'.
      destruct (IH _ _ _ Hp0' Estep) as (Hp2 & Hmono2 & Hbelow2).
      destruct (IHcs pend2 pend1 Hp2 (fun x Hx => Hrows x (or_intror Hx)) Hfold)
        as (Hp1 & Hmono1 & Hcs & Hbelow1).
      assert (Hc2 : is_Some (pend2 !! FileMeta.id c)).
      { apply Hmono2. rewrite Hid. rewrite lookup_insert_eq. eauto. }
      split; [exact Hp1|]. split; [|split].
      + intros k Hk0. apply Hmono1, Hmono2.
        destruct (decide (FileMeta.id (load pend0 c) = k)) as [<-|Hne].
        * rewrite lookup_insert_eq. eauto.
        * rewrite lookup_insert_ne by exact Hne. exact Hk0.
      + intros x [<-|Hx]; [apply Hmono1; exact Hc2|apply Hcs; exact Hx].
      + intros x r [<-|Hx] Hr; [|eapply Hbelow1; eauto].
        apply Hmono1, Hbelow2. eapply deleted_below_same; [| |exact Hr]; cbn; auto. }
  destruct (Hloop _ _ _ Hp (fun c Hc => proj1 (proj1 (filter_In _ _ _) Hc)) H)
    as (Hp' & Hmono & Hcs & Hbelow).
  split; [exact Hp'|]. split; [exact Hmono|].
  intros r Hr. inversion Hr as [n0 r0 Hfo Hin Hc|n0 c r0 Hfo Hin Hc Hb]; subst.
  - apply Hcs. apply filter_In. auto.
  - eapply Hbelow; [|exact Hb]. apply filter_In. auto.
Qed.

Lemma depth_bound (depth : Z -> nat) (rows : list FileMeta.t) :
  exists bound, forall r, In r rows -> (depth (FileMeta.id r) < bound)%nat.
Proof.
  induction rows as [|a l [bound IH]].
  - exists 0%nat. intros r [].
  - exists (S (Nat.max bound (depth (FileMeta.id a)))). intros r [<-|Hr]; [lia|].
    specialize (IH r Hr). lia.
Qed.

Lemma deleted_child_of_spec parent_id user_id r :
  deleted_child_of parent_id user_id r = true ->
  FileMeta.parent_id r = parent_id /\ FileMeta.user_id r = user_id
  /\ FileMeta.is_deleted r = true.
Proof.
  unfold deleted_child_of, child_of. intros H.
  apply andb_true_iff in H as [H Hd]. apply andb_true_iff in H as [Hp Hu].
  apply Z.eqb_eq in Hp, Hu. auto.
Qed.

(** The downward pass ends: the depth grows from a node to its children
    and is bounded over the rows. *)
Lemma _restore_downwards_total now w user_id (depth : Z -> nat) (bound : nat) :
  keys_ok w ->
  (forall c p, In c (file_meta w) -> In p (file_meta w) ->
      FileMeta.user_id c = user_id -> FileMeta.user_id p = user_id ->
      FileMeta.parent_id c = FileMeta.id p ->
      (depth (FileMeta.id p) < depth (FileMeta.id c))%nat) ->
  (forall r, In r (file_meta w) -> (depth (FileMeta.id r) < bound)%nat) ->
  forall fuel obj pend,
    pend_ok w pend ->
    (exists row, In row (file_meta w) /\ FileMeta.user_id row = user_id
                 /\ FileMeta.id row = FileMeta.id obj) ->
    (bound - depth (FileMeta.id obj) < fuel)%nat ->
    exists pend', _restore_downwards fuel now w user_id obj pend = Some pend'.
Proof.
  intros Hk Hd Hb. induction fuel as [|fuel IH]; intros obj pend Hp (row & Hrow & Hru & Hrid) Hfuel;
    [lia|].
  cbn [_restore_downwards]. destruct (negb (FileMeta.is_folder obj)); [eauto|].
  set (step := fun (acc : option (gmap Z FileMeta.t)) (row : FileMeta.t) =>
                 match acc with
                 | None => None
                 | Some pend0 =>
                     let '(pend1, child) := undelete now pend0 (load pend0 row) in
                     _restore_downwards fuel now w user_id child pend1
                 end).
  assert (Hloop : forall cs pend0,
            pend_ok w pend0 ->
            (forall c, In c cs -> In c (file_meta w)
                                  /\ deleted_child_of (FileMeta.id obj) user_id c = true) ->
            exists pend1, fold_left step cs (Some pend0) = Some pend1).
  { induction cs as [|c cs IHcs]; intros pend0 Hp0 Hcs; [cbn; eauto|].
    destruct (Hcs c (or_introl eq_refl)) as [Hcrow Hchild].
    apply deleted_child_of_spec in Hchild as (Hcp & Hcu & _).
    destruct (load_fields w pend0 c Hk Hp0 Hcrow) as (Hid & Hu & Hf & Hpar).
    pose proof (undelete_pend_ok w now pend0 c Hk Hp0 Hcrow) as Hp0'.
    cbn [fold_left]. unfold step at 2. unfold undelete in Hp0' |- *. cbn in Hp0' |- *.
    destruct (IH (FileMeta.set_deleted false None now (load pend0 c))
                 (<[FileMeta.id (load pend0 c) := FileMeta.set_deleted false None now (load pend0 c)]> pend0)
                 Hp0') as [pend2 Hrun].
    { exists c. cbn. auto. }
    { cbn. rewrite Hid. rewrite <- Hrid in Hcp.
      pose proof (Hd c row Hcrow Hrow Hcu Hru Hcp) as Hlt.
      pose proof (Hb c Hcrow) as Hlt'. rewrite Hrid in Hlt. lia. }
    rewrite Hrun.
    destruct (_restore_downwards_spec now w user_id Hk _ _ _ _ Hp0' Hrun) as (Hp2 & _).
    apply IHcs; [exact Hp2|]. intros x Hx. apply Hcs. right. exact Hx. }
  apply Hloop; [exact Hp|]. intros c Hc. apply filter_In in Hc. exact Hc.
Qed.

(** The upward pass: every ancestor on the way up is un-deleted in the
    session, unless it is active already. *)
Lemma _restore_upwards_spec now w user_id :
  keys_ok w ->
  forall fuel current pend pend',
    pend_ok w pend ->
    (exists row, get_obj (FileMeta.id current) user_id w = Some row
                 /\ FileMeta.parent_id current = FileMeta.parent_id row) ->
    _restore_upwards fuel now w user_id current pend = Some pend' ->
    pend_ok w pend'
    /\ (forall k, is_Some (pend !! k) -> is_Some (pend' !! k))
    /\ (forall a, ancestor user_id w a (FileMeta.id current) ->
          is_Some (pend' !! a)
          \/ exists row, get_obj a user_id w = Some row /\ FileMeta.is_deleted row = false).
Proof.
  intros Hk. induction fuel as [|fuel IH]; intros current pend pend' Hp (row & Hrow & Hpar) H;
    [discriminate|].
  cbn [_restore_upwards] in H.
  assert (Hinv : forall a, ancestor user_id w a (FileMeta.id current) ->
            exists par, get_obj (FileMeta.parent_id current) user_id w = Some par
              /\ (a = FileMeta.parent_id current
                  \/ ancestor user_id w a (FileMeta.parent_id current))).
  { intros a Ha. inversion Ha as [n obj par Hobj Hpar'|n obj a' Hobj Hup]; subst.
    - assert (obj = row) by congruence. subst obj. rewrite Hpar. eauto.
    - assert (obj = row) by congruence. subst obj. rewrite Hpar.
      assert (exists par, get_obj (FileMeta.parent_id row) user_id w = Some par)
        as [par Hp'] by (inversion Hup; eauto).
      eauto. }
  destruct (FileMeta.parent_id current =? 0) eqn:E0.
  { injection H as <-. split; [exact Hp|]. split; [auto|]. intros a Ha.
    destruct (Hinv a Ha) as (par & Hpar' & _). apply Z.eqb_eq in E0.
    rewrite E0, (get_obj_zero _ _ Hk) in Hpar'. discriminate. }
  destruct (get_obj (FileMeta.parent_id current) user_id w) as [prow|] eqn:Eprow.
  2:{ injection H as <-. split; [exact Hp|]. split; [auto|]. intros a Ha.
      destruct (Hinv a Ha) as (par & Hpar' & _). discriminate. }
  pose proof (get_obj_In _ _ _ _ Eprow) as (Hprow_in & Hprow_id & Hprow_u).
  destruct (load_fields w pend prow Hk Hp Hprow_in) as (Hid & Hu & Hf & Hppar).
  assert (Hcur : exists row0, get_obj (FileMeta.id (load pend prow)) user_id w = Some row0
                   /\ FileMeta.parent_id (load pend prow) = FileMeta.parent_id row0).
  { exists prow. rewrite Hid, Hprow_id. auto. }
  assert (Hcur' : exists row0,
            get_obj (FileMeta.id (FileMeta.set_deleted false None now (load pend prow))) user_id w
              = Some row0
            /\ FileMeta.parent_id (FileMeta.set_deleted false None now (load pend prow))
               = FileMeta.parent_id row0).
  { exact Hcur. }
  destruct (FileMeta.is_deleted (load pend prow)) eqn:Edel.
  - pose proof (undelete_pend_ok w now pend prow Hk Hp Hprow_in) as Hp1.
    unfold undelete in H, Hp1. cbn in H, Hp1.
    destruct (IH _ _ _ Hp1 Hcur' H) as (Hp' & Hmono & Hanc).
    split; [exact Hp'|]. split.
    + intros k Hk0. apply Hmono.
      destruct (decide (FileMeta.id (load pend prow) = k)) as [<-|Hne].
      * rewrite lookup_insert_eq. eauto.
      * rewrite lookup_insert_ne by exact Hne. exact Hk0.
    + intros a Ha. destruct (Hinv a Ha) as (par & _ & [->|Hup]).
      * left. apply Hmono. rewrite Hid, Hprow_id. rewrite lookup_insert_eq. eauto.
      * apply Hanc. cbn. rewrite Hid, Hprow_id. exact Hup.
  - destruct (IH _ _ _ Hp Hcur H) as (Hp' & Hmono & Hanc).
    split; [exact Hp'|]. split; [exact Hmono|].
    intros a Ha. destruct (Hinv a Ha) as (par & _ & [->|Hup]).
    + unfold load in Edel. destruct (pend !! FileMeta.id prow) as [o|] eqn:Eo.
      * left. apply Hmono. rewrite <- Hprow_id. eauto.
      * right. exists prow. cbn in Edel. auto.
    + apply Hanc. rewrite Hid, Hprow_id. exact Hup.
Qed.

Lemma _restore_upwards_total now w user_id (depth : Z -> nat) :
  keys_ok w ->
  (forall c p, In c (file_meta w) -> In p (file_meta w) ->
      FileMeta.user_id c = user_id -> FileMeta.user_id p = user_id ->
      FileMeta.parent_id c = FileMeta.id p ->
      (depth (FileMeta.id p) < depth (FileMeta.id c))%nat) ->
  forall fuel current pend,
    pend_ok w pend ->
    (exists row, get_obj (FileMeta.id current) user_id w = Some row
                 /\ FileMeta.parent_id current = FileMeta.parent_id row) ->
    (depth (FileMeta.id current) < fuel)%nat ->
    exists pend', _restore_upwards fuel now w user_id current pend = Some pend'.
Proof.
  intros Hk Hd. induction fuel as [|fuel IH]; intros current pend Hp (row & Hrow & Hpar) Hfuel;
    [lia|].
  cbn [_restore_upwards]. destruct (FileMeta.parent_id current =? 0); [eauto|].
  destruct (get_obj (FileMeta.parent_id current) user_id w) as [prow|] eqn:Eprow; [|eauto].
  pose proof (get_obj_In _ _ _ _ Eprow) as (Hprow_in & Hprow_id & Hprow_u).
  pose proof (get_obj_In _ _ _ _ Hrow) as (Hrow_in & Hrow_id & Hrow_u).
  destruct (load_fields w pend prow Hk Hp Hprow_in) as (Hid & Hu & Hf & Hppar).
  assert (Hlt : (depth (FileMeta.id prow) < depth (FileMeta.id current))%nat).
  { rewrite <- Hrow_id. apply Hd; auto. congruence. }
  assert (Hcur : exists row0, get_obj (FileMeta.id (load pend prow)) user_id w = Some row0
                   /\ FileMeta.parent_id (load pend prow) = FileMeta.parent_id row0).
  { exists prow. rewrite Hid, Hprow_id. auto. }
  destruct (FileMeta.is_deleted (load pend prow)).
  - pose proof (undelete_pend_ok w now pend prow Hk Hp Hprow_in) as Hp1.
    unfold undelete in Hp1 |- *. cbn in Hp1 |- *. apply IH; [exact Hp1|exact Hcur|].
    cbn. rewrite Hid. lia.
  - apply IH; [exact Hp|exact Hcur|]. rewrite Hid. lia.
Qed.

Lemma first_map_stable_in {A} (p : A -> bool) (f : A -> A) (l : list A) :
  (forall x, In x l -> p (f x) = p x) ->
  first p (List.map f l) = option_map f (first p l).
Proof.
  unfold first. induction l as [|a l IH]; intros Hp; [reflexivity|]. simpl.
  rewrite (Hp a (or_introl eq_refl)). destruct (p a); [reflexivity|].
  apply IH. intros x Hx. apply Hp. right. exact Hx.
Qed.

Lemma commit_get_obj w pend n user_id :
  keys_ok w -> pend_ok w pend ->
  get_obj n user_id (commit pend w) = option_map (load pend) (get_obj n user_id w).
Proof.
  intros Hk Hp. unfold get_obj, commit. cbn. apply first_map_stable_in.
  intros x Hx. destruct (load_fields w pend x Hk Hp Hx) as (Hid & Hu & _).
  unfold owned. rewrite Hid, Hu. reflexivity.
Qed.

Lemma commit_first_by_id w pend n :
  keys_ok w -> pend_ok w pend ->
  first (by_id n) (file_meta (commit pend w)) = option_map (load pend) (first (by_id n) (file_meta w)).
Proof.
  intros Hk Hp. unfold commit. cbn. apply first_map_stable_in.
  intros x Hx. destruct (load_fields w pend x Hk Hp Hx) as (Hid & _).
  unfold by_id. rewrite Hid. reflexivity.
Qed.

(** What a committed session leaves in a row. *)
Lemma load_cleared w pend row :
  pend_ok w pend -> flags_ok w -> In row (file_meta w) ->
  is_Some (pend !! FileMeta.id row) \/ FileMeta.is_deleted row = false ->
  cleared (load pend row).
Proof.
  intros Hp Hfl Hin H. unfold load. destruct (pend !! FileMeta.id row) as [o|] eqn:E; cbn.
  - apply (Hp _ _ E).
  - destruct H as [[o Ho]|Hact]; [discriminate|]. split; [exact Hact|apply Hfl; assumption].
Qed.

(** C4 (as amended). In a namespace without a cycle, [restore] on an
    existing node returns (with enough fuel) and leaves non-deleted, with
    the deletion timestamp cleared: the node itself, every ancestor of it up
    to the root, and every node reached from it going down through folders
    along soft-deleted children.  (A deleted descendant that lies below an
    active one is not reached: see the counterexample.) *)
Theorem restore_node_ancestors_deleted_chain :
  forall (user_id : Z) (w : World) (id now : Z) (obj : FileMeta.t),
    keys_ok w -> flags_ok w -> acyclic user_id w ->
    get_obj id user_id w = Some obj ->
    exists N, forall fuel, (N <= fuel)%nat ->
      exists obj' w',
        restore fuel now id user_id w = Ok (Some obj') w'
        /\ get_obj id user_id w' = Some obj' /\ cleared obj'
        /\ (forall a, ancestor user_id w a id ->
              exists r, get_obj a user_id w' = Some r /\ cleared r)
        /\ (forall d, deleted_below user_id w obj d ->
              exists r, get_obj (FileMeta.id d) user_id w' = Some r /\ cleared r).
Proof.
  intros user_id w id now obj Hk Hfl [depth Hd] Hobj.
  destruct (depth_bound depth (file_meta w)) as [bound Hb].
  pose proof (get_obj_In _ _ _ _ Hobj) as (Hobj_in & Hobj_id & Hobj_u).
  exists (S (bound + depth id))%nat. intros fuel Hfuel.
  assert (Hp0 : pend_ok w (fst (undelete now ∅ (load ∅ obj)))).
  { apply undelete_pend_ok; [exact Hk| |exact Hobj_in]. intros k o Hko.
    rewrite lookup_empty in Hko. discriminate. }
  assert (Hload : load ∅ obj = obj) by (unfold load; rewrite lookup_empty; reflexivity).
  rewrite Hload in Hp0. unfold undelete in Hp0. cbn in Hp0.
  set (obj0 := FileMeta.set_deleted false None now obj) in *.
  set (pend0 := <[FileMeta.id obj := obj0]> (∅ : gmap Z FileMeta.t)) in *.
  destruct (_restore_downwards_total now w user_id depth bound Hk Hd Hb fuel obj0 pend0 Hp0)
    as [pend1 Hdown].
  { exists obj. auto. }
  { cbn. lia. }
  destruct (_restore_downwards_spec now w user_id Hk _ _ _ _ Hp0 Hdown) as (Hp1 & Hmono1 & Hbelow).
  assert (Hcur : exists row, get_obj (FileMeta.id obj0) user_id w = Some row
                   /\ FileMeta.parent_id obj0 = FileMeta.parent_id row).
  { exists obj. cbn. rewrite Hobj_id. auto. }
  destruct (_restore_upwards_total now w user_id depth Hk Hd fuel obj0 pend1 Hp1 Hcur)
    as [pend2 Hup].
  { cbn. rewrite Hobj_id. lia. }
  destruct (_restore_upwards_spec now w user_id Hk _ _ _ _ Hp1 Hcur Hup) as (Hp2 & Hmono2 & Hanc).
  assert (Hself : is_Some (pend2 !! FileMeta.id obj)).
  { apply Hmono2, Hmono1. unfold pend0. rewrite lookup_insert_eq. eauto. }
  exists (load pend2 obj), (commit pend2 w).
  assert (Hget : forall n row, get_obj n user_id w = Some row ->
            get_obj n user_id (commit pend2 w) = Some (load pend2 row)).
  { intros n row Hrow. rewrite commit_get_obj by assumption. rewrite Hrow. reflexivity. }
  split; [|split; [apply Hget; exact Hobj|split; [|split]]].
  - unfold restore. rewrite Hobj. unfold undelete. cbn. fold obj0 pend0.
    rewrite Hdown, Hup. f_equal.
    etransitivity; [apply (commit_first_by_id w pend2 _ Hk Hp2)|].
    change (FileMeta.id obj0) with (FileMeta.id obj). rewrite Hobj_id.
    rewrite (get_obj_first_by_id id user_id w obj Hk Hobj). reflexivity.
  - apply (load_cleared w); auto.
  - intros a Ha. cbn in Hanc. rewrite Hobj_id in Hanc.
    assert (Harow : exists row, get_obj a user_id w = Some row).
    { clear -Ha. induction Ha; eauto. }
    destruct Harow as [arow Harow]. exists (load pend2 arow). split; [apply Hget; exact Harow|].
    pose proof (get_obj_In _ _ _ _ Harow) as (Hain & Haid & _).
    apply (load_cleared w); auto. rewrite Haid.
    destruct (Hanc a Ha) as [Hs|(row & Hrow & Hact)]; [left; exact Hs|].
    right. congruence.
  - intros d Hdel.
    assert (Hdrow : In d (file_meta w) /\ FileMeta.user_id d = user_id).
    { clear -Hdel. induction Hdel as [n r Hf Hin Hc|n c r Hf Hin Hc Hb IH]; [|exact IH].
      apply deleted_child_of_spec in Hc as (_ & Hu & _). auto. }
    destruct Hdrow as [Hdin Hdu].
    exists (load pend2 d). split.
    + apply Hget. rewrite <- Hdu. apply In_get_obj; assumption.
    + apply (load_cleared w); auto. left. apply Hmono2, Hbelow.
      eapply deleted_below_same; [| |exact Hdel]; reflexivity.
Qed.

End Namespace.

(** ** Copy *)

Section Copy.

Import CRUDFileMeta.

(** [r] is reached from the node [n] going down through folders along
    active children: every node below [n] on the way, [r] included, is
    active. *)
Inductive active_below (user_id : Z) (w : World) : FileMeta.t -> FileMeta.t -> Prop :=
| active_child n r :
    FileMeta.is_folder n = true -> In r (file_meta w) ->
    active_child_of (FileMeta.id n) user_id r = true ->
    active_below user_id w n r
| active_deeper n c r :
    FileMeta.is_folder n = true -> In c (file_meta w) ->
    active_child_of (FileMeta.id n) user_id c = true ->
    active_below user_id w c r ->
    active_below user_id w n r.

(** The node [n] is a clone of the node [s]: an active node of the owner
    with the kind and the content of [s]. *)
Definition clone_of (user_id : Z) (s n : FileMeta.t) : Prop :=
  FileMeta.is_folder n = FileMeta.is_folder s
  /\ FileMeta.file_hash n = FileMeta.file_hash s
  /\ FileMeta.user_id n = user_id
  /\ FileMeta.is_deleted n = false /\ FileMeta.deleted_at n = None.

(** The file node [r] holds a reference on the blob [h]. *)
Definition takes_ref (h : string) (r : FileMeta.t) : bool :=
  negb (FileMeta.is_folder r) && truthy (FileMeta.file_hash r) && opt_eqb (FileMeta.file_hash r) h.

(** The record [s] after one increment for each of the nodes [news] that
    reference it. *)
Definition add_refs (news : list FileMeta.t) (s : FileStore.t) : FileStore.t :=
  FileStore.set_ref_count
    (FileStore.ref_count s + Z.of_nat (length (all (takes_ref (FileStore.file_hash s)) news))) s.

Lemma add_refs_none news s :
  all (takes_ref (FileStore.file_hash s)) news = [] -> add_refs news s = s.
Proof.
  intros H. unfold add_refs. rewrite H. destruct s as [h p sz c]. cbn.
  unfold FileStore.set_ref_count. cbn. f_equal. lia.
Qed.

Lemma add_refs_app n1 n2 s : add_refs n2 (add_refs n1 s) = add_refs (n1 ++ n2) s.
Proof.
  unfold add_refs, all. rewrite List.filter_app, length_app. destruct s as [h p sz c]. cbn.
  unfold FileStore.set_ref_count. cbn. f_equal. lia.
Qed.

Lemma map_add_refs_app n1 n2 (l : list FileStore.t) :
  List.map (add_refs n2) (List.map (add_refs n1) l) = List.map (add_refs (n1 ++ n2)) l.
Proof. rewrite List.map_map. apply List.map_ext. intros s. apply add_refs_app. Qed.

Lemma map_add_refs_skip r (l : list FileStore.t) :
  FileMeta.is_folder r = true \/ truthy (FileMeta.file_hash r) = false ->
  List.map (add_refs [r]) l = l.
Proof.
  intros H. rewrite <- (List.map_id l) at 2. apply List.map_ext. intros s.
  apply add_refs_none. cbn. unfold takes_ref.
  destruct H as [-> | ->]; [reflexivity|]. rewrite andb_false_r. reflexivity.
Qed.

Lemma map_add_refs_nil (l : list FileStore.t) : List.map (add_refs []) l = l.
Proof.
  rewrite <- (List.map_id l) at 2. apply List.map_ext. intros s.
  apply add_refs_none. reflexivity.
Qed.

Lemma add_ref_count_add_refs h r w :
  FileMeta.is_folder r = false -> FileMeta.file_hash r = Some h -> truthy (Some h) = true ->
  file_store (add_ref_count h 1 w) = List.map (add_refs [r]) (file_store w).
Proof.
  intros Hf Hh Ht. unfold add_ref_count. cbn. apply List.map_ext. intros s.
  unfold add_refs. cbn. unfold takes_ref. rewrite Hf, Hh, Ht. cbn.
  rewrite String.eqb_sym. destruct (String.eqb h (FileStore.file_hash s)); cbn.
  - reflexivity.
  - destruct s as [h' p sz c]. unfold FileStore.set_ref_count. cbn. f_equal. lia.
Qed.

(** One level of [copy] on an existing node. *)
Lemma copy_unfold fuel now id target user_id w obj name :
  get_obj id user_id w = Some obj ->
  _get_unique_filename user_id target (FileMeta.file_name obj) w = Ok name w ->
  let new_obj := FileMeta.mk (file_meta_seq w + 1) user_id target name (FileMeta.is_folder obj)
                             (FileMeta.file_hash obj) false None now now in
  let w1 := with_file_meta_seq (file_meta_seq w + 1)
              (with_file_meta (file_meta w ++ [new_obj]) w) in
  copy (S fuel) now id target user_id w =
    if FileMeta.is_folder obj then
      match for_each (all (active_child_of id user_id) (file_meta w1))
                     (fun child => _ ← copy fuel now (FileMeta.id child) (FileMeta.id new_obj) user_id;
                                   mret tt) w1 with
      | Ok _ w2 => Ok (Some new_obj) w2
      | Raise e w2 => Raise e w2
      | Diverge => Diverge
      end
    else if truthy (FileMeta.file_hash obj) then
      match FileMeta.file_hash obj with
      | Some h => Ok (Some new_obj) (add_ref_count h 1 w1)
      | None => Ok (Some new_obj) w1
      end
    else Ok (Some new_obj) w1.
Proof.
  intros Hobj Hname new_obj w1. cbn [copy].
  unfold mbind at 1. unfold M_bind at 1. unfold gets at 1. rewrite Hobj.
  unfold mbind at 1. unfold M_bind at 1. rewrite Hname.
  unfold mbind at 1. unfold M_bind at 1. unfold add_file_meta at 1. cbn zeta.
  fold new_obj. fold w1.
  unfold mbind at 1. unfold M_bind at 1.
  destruct (FileMeta.is_folder obj); cbn [negb].
  - unfold mbind at 1. unfold M_bind at 1. unfold gets at 1.
    destruct (for_each _ _ w1) as [[] w2|e w2|]; reflexivity.
  - destruct (FileMeta.file_hash obj) as [h|]; [|reflexivity].
    destruct (truthy (Some h)); [|reflexivity].
    unfold increment_ref_count. munfold. reflexivity.
Qed.

Section Run.

Variables (user_id now : Z) (w : World) (T0 : Z).
Hypothesis Hk : keys_ok w.

(** Where the rows added during a copy hang: under the destination, or
    under a node created since the copy began. *)
Definition outside (p : Z) : Prop := p = T0 \/ file_meta_seq w < p.

(** The world [w1] is [w] with rows added, none of them under a node of
    [w] other than the destination. *)
Definition grown (w1 : World) : Prop :=
  exists extra,
    file_meta w1 = file_meta w ++ extra
    /\ (forall r, In r extra -> outside (FileMeta.parent_id r))
    /\ file_meta_seq w <= file_meta_seq w1.

(** The rows [news] were added between [w1] and [w2], and the counts of
    the blobs they reference were incremented. *)
Definition added (w1 w2 : World) (news : list FileMeta.t) : Prop :=
  file_meta w2 = file_meta w1 ++ news
  /\ file_meta_seq w1 <= file_meta_seq w2
  /\ (forall r, In r news -> file_meta_seq w1 < FileMeta.id r <= file_meta_seq w2)
  /\ file_store w2 = List.map (add_refs news) (file_store w1).

Lemma grown_refl : grown w.
Proof. exists []. rewrite app_nil_r. split; [reflexivity|]. split; [intros r []|lia]. Qed.

Lemma added_trans w1 w2 w3 n1 n2 :
  added w1 w2 n1 -> added w2 w3 n2 -> added w1 w3 (n1 ++ n2).
Proof.
  intros (Hm1 & Hs1 & Hi1 & Hst1) (Hm2 & Hs2 & Hi2 & Hst2). repeat split.
  - rewrite Hm2, Hm1, <- app_assoc. reflexivity.
  - lia.
  - apply in_app_iff in H as [H|H]; [apply Hi1 in H|apply Hi2 in H]; lia.
  - apply in_app_iff in H as [H|H]; [apply Hi1 in H|apply Hi2 in H]; lia.
  - rewrite Hst2, Hst1. apply map_add_refs_app.
Qed.

Lemma added_grown w1 w2 news :
  grown w1 -> added w1 w2 news ->
  (forall r, In r news -> outside (FileMeta.parent_id r)) -> grown w2.
Proof.
  intros (extra & Hm & Hout & Hs) (Hm2 & Hs2 & _) Hnews. exists (extra ++ news).
  split; [rewrite Hm2, Hm, <- app_assoc; reflexivity|]. split; [|lia].
  intros r Hr. apply in_app_iff in Hr as [Hr|Hr]; auto.
Qed.

Lemma get_obj_grown w1 src :
  grown w1 -> In src (file_meta w) -> FileMeta.user_id src = user_id ->
  get_obj (FileMeta.id src) user_id w1 = Some src.
Proof.
  intros (extra & Hm & _) Hin Hu. unfold get_obj. rewrite Hm, first_app.
  pose proof (In_get_obj w src Hk Hin) as H. rewrite Hu in H. unfold get_obj in H.
  rewrite H. reflexivity.
Qed.

Lemma children_grown w1 src :
  grown w1 -> In src (file_meta w) -> FileMeta.id src <> T0 ->
  all (active_child_of (FileMeta.id src) user_id) (file_meta w1)
  = all (active_child_of (FileMeta.id src) user_id) (file_meta w).
Proof.
  intros (extra & Hm & Hout & _) Hin Hne. rewrite Hm. unfold all. rewrite List.filter_app.
  assert (Hnone : all (active_child_of (FileMeta.id src) user_id) extra = []).
  { apply all_nil_iff. intros x Hx. unfold active_child_of, child_of.
    destruct (FileMeta.parent_id x =? FileMeta.id src) eqn:E; [|reflexivity].
    apply Z.eqb_eq in E. exfalso. destruct Hk as [_ Hrange].
    specialize (Hrange src Hin). destruct (Hout x Hx) as [H|H]; [congruence|lia]. }
  unfold all in Hnone. rewrite Hnone. apply app_nil_r.
Qed.

Lemma active_child_of_spec parent_id r :
  active_child_of parent_id user_id r = true ->
  FileMeta.parent_id r = parent_id /\ FileMeta.user_id r = user_id
  /\ FileMeta.is_deleted r = false.
Proof.
  unfold active_child_of, child_of. intros H.
  apply andb_true_iff in H as [H Hd]. apply andb_true_iff in H as [Hp Hu].
  apply Z.eqb_eq in Hp, Hu. apply negb_true_iff in Hd. auto.
Qed.

End Run.

Lemma active_below_active user_id w n r :
  active_below user_id w n r -> In r (file_meta w) /\ FileMeta.is_deleted r = false.
Proof.
  induction 1 as [n r _ Hin Hc|n c r _ _ _ _ IH]; [|exact IH].
  apply active_child_of_spec in Hc as (_ & _ & Hact). auto.
Qed.

(** The nodes reached from distinct children of a node are distinct: the
    walk down never meets a node twice. *)
Section Tree.

Variables (user_id : Z) (w : World) (depth : Z -> nat).
Hypothesis Hk : keys_ok w.
Hypothesis Hd : forall c p, In c (file_meta w) -> In p (file_meta w) ->
  FileMeta.user_id c = user_id -> FileMeta.user_id p = user_id ->
  FileMeta.parent_id c = FileMeta.id p ->
  (depth (FileMeta.id p) < depth (FileMeta.id c))%nat.

Lemma active_below_deeper n r :
  In n (file_meta w) -> FileMeta.user_id n = user_id ->
  active_below user_id w n r -> (depth (FileMeta.id n) < depth (FileMeta.id r))%nat.
Proof.
  intros Hn Hu H. induction H as [n r _ Hr Hc|n c r _ Hcin Hc _ IH].
  - apply active_child_of_spec in Hc as (Hp & Hru & _). apply Hd; auto.
  - apply active_child_of_spec in Hc as (Hp & Hcu & _).
    pose proof (Hd c n Hcin Hn Hcu Hu Hp). specialize (IH Hcin Hcu). lia.
Qed.

(** The last step of a walk down. *)
Lemma active_below_last n r :
  active_below user_id w n r ->
  active_child_of (FileMeta.id n) user_id r = true
  \/ exists p, In p (file_meta w) /\ active_child_of (FileMeta.id p) user_id r = true
               /\ active_below user_id w n p.
Proof.
  induction 1 as [n r Hf Hr Hc|n c r Hf Hcin Hc Hbelow IH]; [left; exact Hc|].
  right. destruct IH as [Hlast|(p & Hp & Hlast & Hnp)].
  - exists c. split; [exact Hcin|]. split; [exact Hlast|]. apply active_child; assumption.
  - exists p. split; [exact Hp|]. split; [exact Hlast|].
    exact (active_deeper user_id w n c p Hf Hcin Hc Hnp).
Qed.

Lemma same_row a b :
  In a (file_meta w) -> In b (file_meta w) -> FileMeta.id a = FileMeta.id b -> a = b.
Proof. intros Ha Hb. destruct Hk as [Hnd _]. apply (NoDup_map_In_eq FileMeta.id _ a b Hnd Ha Hb). Qed.

Lemma sibling_not_below src c1 c2 :
  In src (file_meta w) -> FileMeta.user_id src = user_id ->
  In c1 (file_meta w) -> In c2 (file_meta w) ->
  active_child_of (FileMeta.id src) user_id c1 = true ->
  active_child_of (FileMeta.id src) user_id c2 = true ->
  ~ active_below user_id w c2 c1.
Proof.
  intros Hsrc Hsu H1 H2 Hc1 Hc2 Hbelow.
  apply active_child_of_spec in Hc1 as (Hp1 & Hu1 & _).
  apply active_child_of_spec in Hc2 as (Hp2 & Hu2 & _).
  pose proof (Hd c2 src H2 Hsrc Hu2 Hsu Hp2) as Hlt.
  destruct (active_below_last _ _ Hbelow) as [Hlast|(p & Hp & Hlast & Hc2p)].
  - apply active_child_of_spec in Hlast as (Hp & _).
    assert (c2 = src) by (apply same_row; auto; congruence). subst c2. lia.
  - apply active_child_of_spec in Hlast as (Hpp & _).
    assert (p = src) by (apply same_row; auto; congruence). subst p.
    pose proof (active_below_deeper c2 src H2 Hu2 Hc2p). lia.
Qed.

Lemma siblings_disjoint src c1 c2 :
  In src (file_meta w) -> FileMeta.user_id src = user_id ->
  In c1 (file_meta w) -> In c2 (file_meta w) ->
  active_child_of (FileMeta.id src) user_id c1 = true ->
  active_child_of (FileMeta.id src) user_id c2 = true ->
  forall x, (x = c1 \/ active_below user_id w c1 x) ->
            (x = c2 \/ active_below user_id w c2 x) -> c1 = c2.
Proof.
  intros Hsrc Hsu H1 H2 Hc1 Hc2.
  assert (Hind : forall n x, (depth (FileMeta.id x) < n)%nat ->
            (x = c1 \/ active_below user_id w c1 x) ->
            (x = c2 \/ active_below user_id w c2 x) -> c1 = c2).
  { induction n as [|n IH]; intros x Hn Hx1 Hx2; [lia|].
    destruct Hx1 as [->|Hx1], Hx2 as [->|Hx2]; [reflexivity| | |].
    - exfalso. eapply (sibling_not_below src c1 c2); eassumption.
    - exfalso. eapply (sibling_not_below src c2 c1); eassumption.
    - pose proof (active_below_active _ _ _ _ Hx1) as [Hxin _].
      destruct (active_below_last _ _ Hx1) as [L1|(p1 & Hp1 & L1 & B1)],
               (active_below_last _ _ Hx2) as [L2|(p2 & Hp2 & L2 & B2)].
      + apply active_child_of_spec in L1 as (L1 & _), L2 as (L2 & _).
        apply same_row; auto. congruence.
      + apply active_child_of_spec in L1 as (L1 & _), L2 as (L2 & _).
        assert (p2 = c1) by (apply same_row; auto; congruence). subst p2.
        exfalso. eapply (sibling_not_below src c1 c2); eassumption.
      + apply active_child_of_spec in L1 as (L1 & _), L2 as (L2 & _).
        assert (p1 = c2) by (apply same_row; auto; congruence). subst p1.
        exfalso. eapply (sibling_not_below src c2 c1); eassumption.
      + apply active_child_of_spec in L1 as (L1 & Hxu & _), L2 as (L2 & _).
        assert (p2 = p1) by (apply same_row; auto; congruence). subst p2.
        apply (IH p1); auto.
        assert (Hpu : FileMeta.user_id p1 = user_id).
        { destruct (active_below_last _ _ B1) as [L|(q & _ & L & _)];
            apply active_child_of_spec in L as (_ & L & _); exact L. }
        pose proof (Hd x p1 Hxin Hp1 Hxu Hpu L1). lia. }
  intros x. apply (Hind (S (depth (FileMeta.id x)))). lia.
Qed.

End Tree.

(** A run of [copy] on a node of [w], in a world grown from [w]: it
    returns, and adds one clone for the node and one for each node reached
    from it along active children. *)
Lemma copy_run user_id now w T0 (depth : Z -> nat) (bound : nat) :
  keys_ok w ->
  (forall c p, In c (file_meta w) -> In p (file_meta w) ->
      FileMeta.user_id c = user_id -> FileMeta.user_id p = user_id ->
      FileMeta.parent_id c = FileMeta.id p ->
      (depth (FileMeta.id p) < depth (FileMeta.id c))%nat) ->
  (forall r, In r (file_meta w) -> (depth (FileMeta.id r) < bound)%nat) ->
  forall fuel src target w1,
    In src (file_meta w) -> FileMeta.user_id src = user_id ->
    FileMeta.id src <> T0 ->
    (forall v, active_below user_id w src v -> FileMeta.id v <> T0) ->
    grown w T0 w1 -> outside w T0 target ->
    (bound - depth (FileMeta.id src) < fuel)%nat ->
    exists new_obj rest sources w2,
      copy fuel now (FileMeta.id src) target user_id w1 = Ok (Some new_obj) w2
      /\ added w1 w2 (new_obj :: rest)
      /\ FileMeta.parent_id new_obj = target
      /\ (forall r, In r rest ->
            In (FileMeta.parent_id r) (List.map FileMeta.id (new_obj :: rest)))
      /\ List.Forall2 (clone_of user_id) (src :: sources) (new_obj :: rest)
      /\ (forall r, In r sources <-> active_below user_id w src r)
      /\ List.NoDup (src :: sources).
Proof.
  intros Hk Hd Hb. induction fuel as [|fuel IH];
    intros src target w1 Hsrc Hsu Hne Hbelow Hg Hout Hfuel; [lia|].
  pose proof (get_obj_grown user_id w T0 Hk w1 src Hg Hsrc Hsu) as Hobj.
  destruct (_get_unique_filename_total user_id target (FileMeta.file_name src) w1)
    as (name & Hname & _).
  rewrite (copy_unfold fuel now _ target user_id w1 src name Hobj Hname). cbn zeta.
  set (new_obj := FileMeta.mk (file_meta_seq w1 + 1) user_id target name (FileMeta.is_folder src)
                              (FileMeta.file_hash src) false None now now).
  set (w1' := with_file_meta_seq (file_meta_seq w1 + 1)
                (with_file_meta (file_meta w1 ++ [new_obj]) w1)).
  assert (Hclone : clone_of user_id src new_obj) by (repeat split; reflexivity).
  assert (Hids : forall r, In r [new_obj] ->
                   file_meta_seq w1 < FileMeta.id r <= file_meta_seq w1 + 1).
  { intros r [<-|[]]. cbn. lia. }
  assert (Hadd_plain : FileMeta.is_folder src = true \/ truthy (FileMeta.file_hash src) = false ->
                       added w1 w1' [new_obj]).
  { intros H. split; [reflexivity|]. split; [cbn; lia|]. split; [exact Hids|].
    cbn. symmetry. apply map_add_refs_skip. exact H. }
  destruct (FileMeta.is_folder src) eqn:Hfolder.
  - (* a folder: its active children are copied under the clone *)
    assert (Hg' : grown w T0 w1').
    { eapply (added_grown w T0 w1 w1' [new_obj]); [exact Hg|apply Hadd_plain; auto|].
      intros r [<-|[]]. exact Hout. }
    rewrite (children_grown user_id w T0 Hk w1' src Hg' Hsrc Hne).
    assert (Hnid : file_meta_seq w < FileMeta.id new_obj).
    { destruct Hg as (_ & _ & _ & Hs). cbn. lia. }
    assert (Hloop : forall cs wa,
              grown w T0 wa -> List.NoDup cs ->
              (forall c, In c cs -> In c (file_meta w)
                                    /\ active_child_of (FileMeta.id src) user_id c = true) ->
              exists news sources wb,
                for_each cs (fun child =>
                               _ ← copy fuel now (FileMeta.id child) (FileMeta.id new_obj) user_id;
                               mret tt) wa = Ok tt wb
                /\ added wa wb news
                /\ (forall r, In r news ->
                      FileMeta.parent_id r = FileMeta.id new_obj
                      \/ In (FileMeta.parent_id r) (List.map FileMeta.id news))
                /\ List.Forall2 (clone_of user_id) sources news
                /\ (forall r, In r sources <->
                      exists c, In c cs /\ (r = c \/ active_below user_id w c r))
                /\ List.NoDup sources).
    { induction cs as [|c cs IHcs]; intros wa Hga Hnd Hcs.
      - exists [], [], wa. split; [reflexivity|]. split.
        { split; [rewrite app_nil_r; reflexivity|]. split; [lia|]. split; [intros r []|].
          symmetry. apply map_add_refs_nil. }
        split; [intros r []|]. split; [constructor|]. split; [|constructor].
        intros r. split; [intros []|intros (c & [] & _)].
      - destruct (Hcs c (or_introl eq_refl)) as [Hc Hchild].
        pose proof (active_child_of_spec user_id _ _ Hchild) as (Hcp & Hcu & Hcact).
        destruct (IH c (FileMeta.id new_obj) wa Hc Hcu) as (nc & rc & sc & wc & Hrun & Hadd & Hpar & Hrest & Hcl & Hsrcs & Hndc).
        { apply Hbelow. apply active_child; assumption. }
        { intros v Hv. apply Hbelow. eapply active_deeper; eassumption. }
        { exact Hga. }
        { right. exact Hnid. }
        { pose proof (Hd c src Hc Hsrc Hcu Hsu Hcp). pose proof (Hb c Hc). lia. }
        assert (Hgc : grown w T0 wc).
        { eapply added_grown; [exact Hga|exact Hadd|]. intros r [<-|Hr].
          - rewrite Hpar. right. exact Hnid.
          - right. specialize (Hrest r Hr). apply in_map_iff in Hrest as (x & Hx & Hxin).
            destruct Hadd as (_ & _ & Hi & _). specialize (Hi x Hxin).
            destruct Hga as (_ & _ & _ & Hs). lia. }
        apply List.NoDup_cons_iff in Hnd as [Hfresh Hnd].
        destruct (IHcs wc Hgc Hnd)
          as (news & sources & wb & Hrun' & Hadd' & Hpar' & Hcl' & Hsrcs' & Hnd').
        { intros x Hx. apply Hcs. right. exact Hx. }
        exists ((nc :: rc) ++ news), ((c :: sc) ++ sources), wb.
        split; [|split; [|split; [|split; [|split]]]].
        + cbn [for_each]. unfold mbind at 1. unfold M_bind at 1.
          unfold mbind at 1. unfold M_bind at 1. rewrite Hrun. cbn. exact Hrun'.
        + eapply added_trans; eassumption.
        + intros r Hr. apply in_app_iff in Hr as [[<-|Hr]|Hr].
          * left. exact Hpar.
          * right. rewrite List.map_app. apply in_or_app. left. apply Hrest. exact Hr.
          * destruct (Hpar' r Hr) as [H|H]; [left; exact H|].
            right. rewrite List.map_app. apply in_or_app. right. exact H.
        + apply List.Forall2_app; assumption.
        + intros r. rewrite in_app_iff, Hsrcs'. cbn [In]. rewrite Hsrcs. split.
          * intros [[<-|H]|(x & Hx & H)]; [exists c; auto|exists c; auto|exists x; auto].
          * intros (x & [<-|Hx] & [->|H]); [auto|auto|right; exists x; auto|right; exists x; auto].
        + apply List.NoDup_app; [exact Hndc|exact Hnd'|].
          intros x Hx Hx'. apply Hsrcs' in Hx' as (c' & Hc' & Hx').
          destruct (Hcs c' (or_intror Hc')) as [Hc'in Hc'child].
          assert (Hxc : x = c \/ active_below user_id w c x).
          { destruct Hx as [<-|Hx]; [left; reflexivity|right; apply Hsrcs; exact Hx]. }
          assert (c = c').
          { apply (siblings_disjoint user_id w depth Hk Hd src c c' Hsrc Hsu Hc Hc'in
                     Hchild Hc'child x Hxc Hx'). }
          subst c'. contradiction. }
    destruct (Hloop (all (active_child_of (FileMeta.id src) user_id) (file_meta w)) w1' Hg')
      as (news & sources & w2 & Hrun & Hadd & Hpar & Hcl & Hsrcs & Hnd).
    { apply List.NoDup_filter. destruct Hk as [Hids0 _]. exact (List.NoDup_map_inv _ _ Hids0). }
    { intros c Hc. apply filter_In in Hc. exact Hc. }
    rewrite Hrun. exists new_obj, news, sources, w2.
    split; [reflexivity|]. split; [|split; [reflexivity|split; [|split; [|split]]]].
    + apply (added_trans w1 w1' w2 [new_obj] news); [apply Hadd_plain; auto|exact Hadd].
    + intros r Hr. destruct (Hpar r Hr) as [H|H]; [left; symmetry; exact H|right; exact H].
    + constructor; assumption.
    + intros r. rewrite Hsrcs. split.
      * intros (c & Hc & [->|H]); apply filter_In in Hc as [Hc Hchild].
        -- apply active_child; assumption.
        -- eapply active_deeper; eassumption.
      * intros H. inversion H as [n r0 Hf Hin Hchild|n c r0 Hf Hin Hchild Hdeep]; subst.
        -- exists r. split; [apply filter_In; auto|auto].
        -- exists c. split; [apply filter_In; auto|auto].
    + constructor; [|exact Hnd]. intros Hself. apply Hsrcs in Hself as (c & Hc & Hself).
      apply filter_In in Hc as [Hc Hchild].
      assert (Hb0 : active_below user_id w src src).
      { destruct Hself as [->|Hself]; [apply active_child; assumption|].
        exact (active_deeper user_id w src c src Hfolder Hc Hchild Hself). }
      pose proof (active_below_deeper user_id w depth Hd src src Hsrc Hsu Hb0). lia.
  - (* a file: one clone, and one more reference on its blob *)
    assert (Hnone : forall r, In r [] <-> active_below user_id w src r).
    { intros r. split; [intros []|]. intros H. inversion H; congruence. }
    destruct (truthy (FileMeta.file_hash src)) eqn:Htruthy.
    + destruct (FileMeta.file_hash src) as [h|] eqn:Hhash; [|discriminate Htruthy].
      exists new_obj, [], [], (add_ref_count h 1 w1').
      split; [reflexivity|]. split; [|split; [reflexivity|split; [intros r []|split; [|split]]]].
      * split; [reflexivity|]. split; [cbn; lia|]. split; [exact Hids|].
        apply (add_ref_count_add_refs h new_obj w1'); [reflexivity|reflexivity|exact Htruthy].
      * constructor; [exact Hclone|constructor].
      * exact Hnone.
      * constructor; [intros []|constructor].
    + exists new_obj, [], [], w1'.
      split; [reflexivity|]. split; [apply Hadd_plain; auto|].
      split; [reflexivity|]. split; [intros r []|]. split; [|split; [exact Hnone|]].
      * constructor; [exact Hclone|constructor].
      * constructor; [intros []|constructor].
Qed.


End Copy.

(** *** A copy into the folder itself

    [copy] checks nothing about its destination.  When the destination is
    the folder copied, or a folder below it, the clone is itself among the
    children that are copied next: the recursion does not end. *)

Section CopyInside.

Import CRUDFileMeta.

(** The keys and the parent pointers were given out by the counter. *)
Definition numbered_rows (w : World) : Prop :=
  forall r, In r (file_meta w) ->
    FileMeta.id r <= file_meta_seq w /\ FileMeta.parent_id r <= file_meta_seq w.

(** The world after [copy] has added the clone [n] of a node. *)
Definition with_clone (n : FileMeta.t) (w : World) : World :=
  with_file_meta_seq (file_meta_seq w + 1) (with_file_meta (file_meta w ++ [n]) w).

Section Step.

Variables (user_id now target : Z) (name : string) (h : option string) (w : World).
Hypothesis Hn : numbered_rows w.

Let n : FileMeta.t :=
  FileMeta.mk (file_meta_seq w + 1) user_id target name true h false None now now.

Lemma with_clone_numbered : target <= file_meta_seq w -> numbered_rows (with_clone n w).
Proof.
  intros Ht r Hr. cbn in Hr. apply in_app_iff in Hr as [Hr|[<-|[]]]; cbn.
  - destruct (Hn r Hr). lia.
  - lia.
Qed.

Lemma with_clone_get_old id obj :
  get_obj id user_id w = Some obj -> get_obj id user_id (with_clone n w) = Some obj.
Proof.
  unfold get_obj. cbn. intros H. rewrite first_app, H. reflexivity.
Qed.

Lemma with_clone_get_new : get_obj (FileMeta.id n) user_id (with_clone n w) = Some n.
Proof.
  unfold get_obj. cbn. rewrite first_app.
  destruct (first _ (file_meta w)) as [r|] eqn:E.
  - apply first_some in E as [Hr Ho]. destruct (Hn r Hr) as [Hid _].
    unfold owned in Ho. apply andb_true_iff in Ho as [Ho _]. apply Z.eqb_eq in Ho. lia.
  - cbn. unfold owned. cbn. rewrite !Z.eqb_refl. reflexivity.
Qed.

Lemma with_clone_children_new :
  target <= file_meta_seq w ->
  all (active_child_of (FileMeta.id n) user_id) (file_meta (with_clone n w)) = [].
Proof.
  intros Ht. apply all_nil_iff. intros r Hr. cbn in Hr. apply in_app_iff in Hr as [Hr|[<-|[]]].
  - destruct (Hn r Hr) as [_ Hp]. unfold active_child_of, child_of. cbn.
    destruct (FileMeta.parent_id r =? file_meta_seq w + 1) eqn:E; [|reflexivity].
    apply Z.eqb_eq in E. lia.
  - unfold active_child_of, child_of. cbn.
    destruct (target =? file_meta_seq w + 1) eqn:E; [|reflexivity].
    apply Z.eqb_eq in E. lia.
Qed.

Lemma with_clone_children p :
  all (active_child_of p user_id) (file_meta (with_clone n w))
  = all (active_child_of p user_id) (file_meta w) ++ (if p =? target then [n] else []).
Proof.
  cbn. rewrite all_app. f_equal. cbn. unfold active_child_of, child_of. cbn.
  rewrite Z.eqb_refl, (Z.eqb_sym target p). destruct (p =? target); reflexivity.
Qed.

End Step.

(** One level of [copy] on a folder: the clone is added, and then every
    active child of the folder, as the table stands with the clone in it,
    is copied into the clone. *)
Lemma copy_folder_unfold fuel now id target user_id w obj :
  get_obj id user_id w = Some obj -> FileMeta.is_folder obj = true ->
  exists name,
    let n := FileMeta.mk (file_meta_seq w + 1) user_id target name true (FileMeta.file_hash obj)
                         false None now now in
    copy (S fuel) now id target user_id w
    = match for_each (all (active_child_of id user_id) (file_meta (with_clone n w)))
                     (fun child => _ ← copy fuel now (FileMeta.id child) (FileMeta.id n) user_id;
                                   mret tt) (with_clone n w) with
      | Ok _ w2 => Ok (Some n) w2
      | Raise e w2 => Raise e w2
      | Diverge => Diverge
      end.
Proof.
  intros Hobj Hf.
  destruct (_get_unique_filename_total user_id target (FileMeta.file_name obj) w) as (name & Hname & _).
  exists name. cbn zeta.
  rewrite (copy_unfold fuel now id target user_id w obj name Hobj Hname). cbn zeta.
  rewrite Hf. reflexivity.
Qed.

(** A folder without an active child, copied into itself: the clone is its
    only active child, and is copied into itself in turn. *)
Lemma copy_into_itself_diverges fuel now user_id :
  forall w id obj,
    numbered_rows w -> get_obj id user_id w = Some obj -> FileMeta.is_folder obj = true ->
    id <= file_meta_seq w ->
    all (active_child_of id user_id) (file_meta w) = [] ->
    copy fuel now id id user_id w = Diverge.
Proof.
  induction fuel as [|fuel IH]; intros w id obj Hn Hobj Hf Hid Hnone; [reflexivity|].
  destruct (copy_folder_unfold fuel now id id user_id w obj Hobj Hf) as [name Hrun].
  cbn zeta in Hrun. rewrite Hrun. clear Hrun.
  rewrite (with_clone_children user_id now id name (FileMeta.file_hash obj) w id).
  rewrite Hnone, Z.eqb_refl.
  set (n := FileMeta.mk (file_meta_seq w + 1) user_id id name true (FileMeta.file_hash obj)
                        false None now now).
  cbn [app for_each].
  unfold mbind at 1, M_bind at 1. unfold mbind at 1, M_bind at 1.
  rewrite (IH (with_clone n w) (FileMeta.id n) n); [reflexivity| | |reflexivity| |].
  - apply with_clone_numbered; assumption.
  - apply with_clone_get_new. exact Hn.
  - cbn. lia.
  - apply with_clone_children_new; assumption.
Qed.

(** A folder copied into its only active child, a folder without an active
    child: the clone is the only active child of the destination, which is
    copied into it in turn. *)
Lemma copy_into_child_diverges fuel now user_id :
  forall w id target obj child,
    numbered_rows w -> get_obj id user_id w = Some obj -> FileMeta.is_folder obj = true ->
    get_obj target user_id w = Some child -> FileMeta.is_folder child = true ->
    id <> target -> target <= file_meta_seq w ->
    all (active_child_of id user_id) (file_meta w) = [child] ->
    all (active_child_of target user_id) (file_meta w) = [] ->
    copy fuel now id target user_id w = Diverge.
Proof.
  induction fuel as [|fuel IH]; intros w id target obj child Hn Hobj Hf Hchild Hcf Hne Ht Hone Hnone;
    [reflexivity|].
  destruct (copy_folder_unfold fuel now id target user_id w obj Hobj Hf) as [name Hrun].
  cbn zeta in Hrun. rewrite Hrun. clear Hrun.
  rewrite (with_clone_children user_id now target name (FileMeta.file_hash obj) w id).
  rewrite Hone. destruct (id =? target) eqn:E; [apply Z.eqb_eq in E; contradiction|].
  set (n := FileMeta.mk (file_meta_seq w + 1) user_id target name true (FileMeta.file_hash obj)
                        false None now now).
  cbn [app for_each].
  unfold mbind at 1, M_bind at 1. unfold mbind at 1, M_bind at 1.
  assert (Hcid : FileMeta.id child = target).
  { apply first_some in Hchild as [_ Ho]. unfold owned in Ho.
    apply andb_true_iff in Ho as [Ho _]. apply Z.eqb_eq in Ho. exact Ho. }
  rewrite Hcid.
  rewrite (IH (with_clone n w) target (FileMeta.id n) child n); [reflexivity|..].
  - apply with_clone_numbered; assumption.
  - apply with_clone_get_old. exact Hchild.
  - exact Hcf.
  - apply with_clone_get_new. exact Hn.
  - reflexivity.
  - cbn. lia.
  - cbn. lia.
  - unfold n.
    rewrite (with_clone_children user_id now target name (FileMeta.file_hash obj) w target).
    rewrite Hnone, Z.eqb_refl. reflexivity.
  - apply with_clone_children_new; assumption.
Qed.

End CopyInside.

(** * Further properties of the code *)

(** ** The slots of a chunk session *)

Section ChunkProgress.

Import CRUDChunk.

(** The repair of [get_uploaded_chunks] on one slot, given which temporary
    files exist. *)
Definition reset_slot (te : FileChunk.t -> bool) (upload_id : string) (c : FileChunk.t)
    : FileChunk.t :=
  if String.eqb (FileChunk.upload_id c) upload_id && FileChunk.is_uploaded c && negb (te c)
  then set_uploaded false c else c.

Definition uploaded_in (upload_id : string) (c : FileChunk.t) : bool :=
  String.eqb (FileChunk.upload_id c) upload_id && FileChunk.is_uploaded c.

Lemma reset_slot_other te upload_id other (l : list FileChunk.t) :
  other <> upload_id ->
  all (fun c => String.eqb (FileChunk.upload_id c) other) (List.map (reset_slot te upload_id) l)
  = all (fun c => String.eqb (FileChunk.upload_id c) other) l.
Proof.
  intros Hne. unfold all. induction l as [|c l IH]; [reflexivity|]. cbn. rewrite IH.
  unfold reset_slot. destruct (String.eqb (FileChunk.upload_id c) upload_id) eqn:E; cbn.
  - apply String.eqb_eq in E.
    assert (Hno : String.eqb (FileChunk.upload_id c) other = false).
    { apply String.eqb_neq. congruence. }
    destruct (FileChunk.is_uploaded c && negb (te c)); cbn; rewrite Hno; reflexivity.
  - reflexivity.
Qed.

Lemma reset_slot_valid te upload_id (l : list FileChunk.t) :
  (forall b c, te (set_uploaded b c) = te c) ->
  all te (all (uploaded_in upload_id) (List.map (reset_slot te upload_id) l))
  = all te (all (uploaded_in upload_id) l).
Proof.
  intros Hte. unfold all. induction l as [|c l IH]; [reflexivity|]. cbn.
  set (rl := List.map (reset_slot te upload_id) l) in *.
  unfold reset_slot, uploaded_in.
  destruct (String.eqb (FileChunk.upload_id c) upload_id) eqn:E; cbn; [|rewrite E; exact IH].
  destruct (FileChunk.is_uploaded c) eqn:U; cbn.
  - destruct (te c) eqn:T; cbn.
    + rewrite E, U. cbn. rewrite T. f_equal. exact IH.
    + rewrite E. cbn. exact IH.
  - rewrite E, U. cbn. exact IH.
Qed.

Lemma reset_slot_fixed te upload_id (l : list FileChunk.t) :
  (forall b c, te (set_uploaded b c) = te c) ->
  List.map (reset_slot te upload_id) (List.map (reset_slot te upload_id) l)
  = List.map (reset_slot te upload_id) l.
Proof.
  intros Hte. rewrite List.map_map. apply List.map_ext. intros c. unfold reset_slot at 2.
  destruct (String.eqb (FileChunk.upload_id c) upload_id && FileChunk.is_uploaded c
            && negb (te c)) eqn:E; [|unfold reset_slot; rewrite E; reflexivity].
  unfold reset_slot. rewrite E. cbn. rewrite andb_false_r. reflexivity.
Qed.

Lemma get_uploaded_chunks_unfold upload_id w :
  get_uploaded_chunks upload_id w
  = Ok (List.map FileChunk.chunk_index
          (all (fun c => temp_exists c w) (all (uploaded_in upload_id) (file_chunk w))))
       (with_file_chunk (List.map (reset_slot (fun c => temp_exists c w) upload_id) (file_chunk w)) w).
Proof. reflexivity. Qed.

(** X2. [get_uploaded_chunks] returns the indices of the slots of the
    session that are marked uploaded and whose temporary file exists; it
    never touches the disk nor the slots of another session; afterwards
    every slot of the session that is still marked uploaded has its
    temporary file; and asking again returns the same indices and changes
    nothing more. *)
Theorem get_uploaded_chunks_repairs_once :
  forall (upload_id : string) (w : World),
    exists indices w',
      get_uploaded_chunks upload_id w = Ok indices w'
      /\ (forall i, In i indices <->
            exists c, In c (file_chunk w) /\ FileChunk.upload_id c = upload_id
                      /\ FileChunk.is_uploaded c = true /\ temp_exists c w = true
                      /\ FileChunk.chunk_index c = i)
      /\ files w' = files w /\ dirs w' = dirs w
      /\ (forall other, other <> upload_id ->
            get_all_chunks_unordered other w' = get_all_chunks_unordered other w)
      /\ (forall c, In c (file_chunk w') -> FileChunk.upload_id c = upload_id ->
            FileChunk.is_uploaded c = true -> temp_exists c w' = true)
      /\ get_uploaded_chunks upload_id w' = Ok indices w'.
Proof.
  intros upload_id w. rewrite get_uploaded_chunks_unfold.
  set (te := fun c => temp_exists c w).
  set (w' := with_file_chunk (List.map (reset_slot te upload_id) (file_chunk w)) w).
  assert (Hte : forall b c, te (set_uploaded b c) = te c) by reflexivity.
  eexists _, w'. split; [reflexivity|].
  split; [|split; [reflexivity|split; [reflexivity|split; [|split]]]].
  - intros i. rewrite in_map_iff. split.
    + intros (c & <- & Hc). apply filter_In in Hc as [Hc Ht]. apply filter_In in Hc as [Hc Hu].
      apply andb_true_iff in Hu as [He Hu]. apply String.eqb_eq in He. exists c. auto.
    + intros (c & Hc & He & Hu & Ht & <-). exists c. split; [reflexivity|].
      apply filter_In. split; [|exact Ht]. apply filter_In. split; [exact Hc|].
      unfold uploaded_in. apply String.eqb_eq in He. rewrite He, Hu. reflexivity.
  - intros other Hne. apply reset_slot_other. exact Hne.
  - intros c Hc He Hu. cbn in Hc. apply in_map_iff in Hc as (c0 & <- & Hc0).
    change (te (reset_slot te upload_id c0) = true). unfold reset_slot in *.
    destruct (String.eqb (FileChunk.upload_id c0) upload_id && FileChunk.is_uploaded c0
              && negb (te c0)) eqn:E; [discriminate Hu|].
    apply String.eqb_eq in He. rewrite He, Hu in E. cbn in E.
    apply negb_false_iff in E. exact E.
  - rewrite get_uploaded_chunks_unfold.
    change (fun c => temp_exists c w') with te. cbn [file_chunk w' with_file_chunk].
    rewrite (reset_slot_valid te upload_id _ Hte), (reset_slot_fixed te upload_id _ Hte).
    reflexivity.
Qed.

End ChunkProgress.

Section ChunkResume.

Import CRUDChunk.

Variable md5 : list Byte.byte -> string.
Variable UPLOAD_DIR : string.

(** What [init_chunk_upload] checks before it touches the session. *)
Definition admitted (current_user : Z) (init_data : files.ChunkInit) (auto_rename : bool)
    (w : World) : bool :=
  files.is_filename_valid (files.init_file_name init_data)
  && (auto_rename
      || negb (bool_decide (is_Some (CRUDFileMeta.get_by_name_and_parent
                                       (files.init_file_name init_data)
                                       (files.init_parent_id init_data) current_user w))))
  && negb (files.quota_exceeded current_user (files.init_file_size init_data) w).

Lemma init_chunk_upload_admitted current_user init_data auto_rename w :
  admitted current_user init_data auto_rename w = true ->
  files.init_chunk_upload md5 current_user init_data auto_rename w
  = (let upload_id := files.session_id md5 current_user init_data in
     _ ← create_init_chunks upload_id current_user (files.init_file_hash init_data)
           (files.init_total_chunks init_data);
     uploaded_chunks ← get_uploaded_chunks upload_id;
     mret (upload_id, uploaded_chunks)) w.
Proof.
  unfold admitted, files.init_chunk_upload. intros H.
  apply andb_true_iff in H as [H Hq]. apply andb_true_iff in H as [Hv Hc].
  rewrite Hv. cbn [negb]. apply negb_true_iff in Hq.
  unfold mbind at 1. unfold M_bind at 1.
  destruct auto_rename; cbn [negb orb] in *.
  - unfold mret at 1. unfold M_ret at 1. unfold mbind at 1. unfold M_bind at 1.
    unfold gets at 1. rewrite Hq. reflexivity.
  - unfold mbind at 1. unfold M_bind at 1. unfold gets at 1.
    destruct (CRUDFileMeta.get_by_name_and_parent _ _ _ w) as [r|] eqn:E.
    + exfalso. apply negb_true_iff in Hc. apply bool_decide_eq_false in Hc. apply Hc. eauto.
    + unfold mret at 1. unfold M_ret at 1. unfold mbind at 1. unfold M_bind at 1.
      unfold gets at 1. rewrite Hq. reflexivity.
Qed.

Lemma init_chunk_upload_Ok current_user init_data auto_rename w r w' :
  files.init_chunk_upload md5 current_user init_data auto_rename w = Ok r w' ->
  admitted current_user init_data auto_rename w = true.
Proof.
  unfold admitted, files.init_chunk_upload. intros H.
  destruct (files.is_filename_valid (files.init_file_name init_data)); [|discriminate H].
  cbn [negb andb] in *. apply bind_Ok in H as ([] & w0 & Hc & H).
  apply bind_Ok in H as (over & w1 & Hq & H). apply gets_Ok in Hq as [-> ->].
  assert (Hw0 : w0 = w /\ (auto_rename
            || negb (bool_decide (is_Some (CRUDFileMeta.get_by_name_and_parent
                                       (files.init_file_name init_data)
                                       (files.init_parent_id init_data) current_user w)))) = true).
  { destruct auto_rename; cbn [negb orb] in *.
    - injection Hc as <-. auto.
    - apply bind_Ok in Hc as (ex & w2 & Hg & Hc). apply gets_Ok in Hg as [-> ->].
      destruct (CRUDFileMeta.get_by_name_and_parent _ _ _ w) as [x|]; [discriminate Hc|].
      injection Hc as <-. split; [reflexivity|]. apply negb_true_iff.
      apply bool_decide_eq_false. intros [x Hx]. discriminate Hx. }
  destruct Hw0 as [-> ->]. cbn [andb].
  destruct (files.quota_exceeded current_user (files.init_file_size init_data) w);
    [discriminate H|reflexivity].
Qed.

Lemma admitted_frame current_user init_data auto_rename w w' :
  file_meta w' = file_meta w -> sys_user w' = sys_user w ->
  admitted current_user init_data auto_rename w' = admitted current_user init_data auto_rename w.
Proof.
  intros Hm Hu. unfold admitted, CRUDFileMeta.get_by_name_and_parent, files.quota_exceeded.
  rewrite Hm, Hu. reflexivity.
Qed.

(** The slots of a session just initialised, and the slot of index [i] once
    its chunk was received. *)
Definition received (upload_id : string) (user_id : Z) (file_hash : string) (i size : Z)
    (path : string) : FileChunk.t :=
  FileChunk.mk upload_id user_id file_hash i size true (Some path).

Definition receive (upload_id : string) (user_id : Z) (file_hash : string) (i size : Z)
    (path : string) (c : FileChunk.t) : FileChunk.t :=
  if same_slot upload_id i c then received upload_id user_id file_hash i size path else c.

Lemma fresh_session_no_slot upload_id (l : list FileChunk.t) :
  all (fun c => String.eqb (FileChunk.upload_id c) upload_id) l = [] ->
  forall c, In c l -> String.eqb (FileChunk.upload_id c) upload_id = false.
Proof. intros H. apply all_nil_iff. exact H. Qed.

Lemma first_same_slot_pending upload_id user_id file_hash i (L : list Z) :
  In i L ->
  first (same_slot upload_id i) (List.map (pending_chunk upload_id user_id file_hash) L)
  = Some (pending_chunk upload_id user_id file_hash i).
Proof.
  unfold first. induction L as [|j L IH]; [intros []|]. intros Hi. cbn.
  unfold same_slot at 1. cbn. rewrite String.eqb_refl. cbn.
  destruct (j =? i) eqn:E; [apply Z.eqb_eq in E; subst j; reflexivity|].
  apply IH. destruct Hi as [->|Hi]; [rewrite Z.eqb_refl in E; discriminate E|exact Hi].
Qed.

Lemma receive_pending upload_id user_id file_hash i size path j :
  receive upload_id user_id file_hash i size path (pending_chunk upload_id user_id file_hash j)
  = if j =? i then received upload_id user_id file_hash i size path
    else pending_chunk upload_id user_id file_hash j.
Proof. unfold receive, same_slot. cbn. rewrite String.eqb_refl. reflexivity. Qed.

Lemma received_only upload_id user_id file_hash i size path (te : FileChunk.t -> bool) (L : list Z) :
  List.NoDup L -> In i L ->
  te (received upload_id user_id file_hash i size path) = true ->
  all te (all (uploaded_in upload_id)
            (List.map (receive upload_id user_id file_hash i size path)
               (List.map (pending_chunk upload_id user_id file_hash) L)))
  = [received upload_id user_id file_hash i size path].
Proof.
  intros Hnd Hi Hte. unfold all.
  assert (Hup : uploaded_in upload_id (received upload_id user_id file_hash i size path) = true).
  { unfold uploaded_in. cbn. rewrite String.eqb_refl. reflexivity. }
  assert (Hpend : forall j, uploaded_in upload_id (pending_chunk upload_id user_id file_hash j) = false).
  { intros j. unfold uploaded_in. cbn. apply andb_false_r. }
  assert (Hrest : forall L', ~ In i L' ->
            List.filter (uploaded_in upload_id)
              (List.map (receive upload_id user_id file_hash i size path)
                 (List.map (pending_chunk upload_id user_id file_hash) L')) = []).
  { induction L' as [|j L' IH]; [reflexivity|]. intros Hn. cbn [List.map List.filter].
    rewrite receive_pending.
    destruct (j =? i) eqn:E; [apply Z.eqb_eq in E; subst j; exfalso; apply Hn; left; reflexivity|].
    rewrite Hpend. apply IH. intros H. apply Hn. right. exact H. }
  induction L as [|j L IH]; [destruct Hi|]. cbn [List.map List.filter].
  apply List.NoDup_cons_iff in Hnd as [Hfresh Hnd]. rewrite receive_pending.
  destruct (j =? i) eqn:E.
  - apply Z.eqb_eq in E. subst j. rewrite Hup. cbn [List.filter]. rewrite Hte.
    rewrite (Hrest L Hfresh). reflexivity.
  - rewrite Hpend.
    apply IH; [exact Hnd|]. destruct Hi as [->|Hi]; [rewrite Z.eqb_refl in E; discriminate E|exact Hi].
Qed.

Lemma range_NoDup n : List.NoDup (range n).
Proof.
  unfold range. generalize (seq_NoDup (Z.to_nat n) 0).
  induction (seq 0 (Z.to_nat n)) as [|a l IH]; intros Hnd; [constructor|]. cbn.
  apply List.NoDup_cons_iff in Hnd as [Hfresh Hnd]. constructor; [|apply IH; exact Hnd].
  intros Hin. apply in_map_iff in Hin as (b & Hb & Hbin).
  assert (b = a) by lia. subst b. contradiction.
Qed.

Lemma os_path_join_nonempty base name :
  name <> EmptyString -> String.eqb (os_path_join base name) "" = false.
Proof.
  intros Hname. apply String.eqb_neq. unfold os_path_join.
  destruct (absolute name); [exact Hname|].
  destruct (String.eqb base "" || ends_with_slash base).
  - destruct base; [exact Hname|discriminate].
  - destruct base; discriminate.
Qed.

(** The slots of the other sessions are not seen. *)
Section Foreign.

Variables (upload_id : string) (l : list FileChunk.t).
Hypothesis Hforeign : forall c, In c l -> String.eqb (FileChunk.upload_id c) upload_id = false.

Lemma foreign_uploaded_in : all (uploaded_in upload_id) l = [].
Proof.
  apply all_nil_iff. intros c Hc. unfold uploaded_in. rewrite (Hforeign c Hc). reflexivity.
Qed.

Lemma foreign_reset te : List.map (reset_slot te upload_id) l = l.
Proof.
  rewrite <- (List.map_id l) at 2. apply List.map_ext_in. intros c Hc.
  unfold reset_slot. rewrite (Hforeign c Hc). reflexivity.
Qed.

Lemma foreign_receive user_id file_hash i size path :
  List.map (receive upload_id user_id file_hash i size path) l = l.
Proof.
  rewrite <- (List.map_id l) at 2. apply List.map_ext_in. intros c Hc.
  unfold receive, same_slot. rewrite (Hforeign c Hc). reflexivity.
Qed.

Lemma foreign_first i : first (same_slot upload_id i) l = None.
Proof.
  apply first_none_all. apply all_nil_iff. intros c Hc.
  unfold same_slot. rewrite (Hforeign c Hc). reflexivity.
Qed.

End Foreign.

Lemma pending_reset te upload_id user_id file_hash (L : list Z) :
  List.map (reset_slot te upload_id) (List.map (pending_chunk upload_id user_id file_hash) L)
  = List.map (pending_chunk upload_id user_id file_hash) L.
Proof.
  rewrite <- (List.map_id (List.map _ L)) at 2. apply List.map_ext_in. intros c Hc.
  apply in_map_iff in Hc as (j & <- & _). unfold reset_slot. cbn. rewrite andb_false_r. reflexivity.
Qed.

Lemma pending_uploaded_in upload_id user_id file_hash (L : list Z) :
  all (uploaded_in upload_id) (List.map (pending_chunk upload_id user_id file_hash) L) = [].
Proof.
  apply all_nil_iff. intros c Hc. apply in_map_iff in Hc as (j & <- & _).
  unfold uploaded_in. cbn. apply andb_false_r.
Qed.

Lemma received_reset te upload_id user_id file_hash i size path (L : list Z) :
  te (received upload_id user_id file_hash i size path) = true ->
  let slots := List.map (receive upload_id user_id file_hash i size path)
                 (List.map (pending_chunk upload_id user_id file_hash) L) in
  List.map (reset_slot te upload_id) slots = slots.
Proof.
  intros Hte slots. rewrite <- (List.map_id slots) at 2. apply List.map_ext_in. intros c Hc.
  apply in_map_iff in Hc as (c0 & <- & Hc0). apply in_map_iff in Hc0 as (j & <- & _).
  rewrite receive_pending. unfold reset_slot. destruct (j =? i).
  - rewrite Hte. cbn. rewrite andb_false_r. reflexivity.
  - cbn. rewrite andb_false_r. reflexivity.
Qed.

Lemma received_session upload_id user_id file_hash i size path (L : list Z) :
  let slots := List.map (receive upload_id user_id file_hash i size path)
                 (List.map (pending_chunk upload_id user_id file_hash) L) in
  all (fun c => String.eqb (FileChunk.upload_id c) upload_id) slots = slots.
Proof.
  intros slots. apply all_id. intros c Hc.
  apply in_map_iff in Hc as (c0 & <- & Hc0). apply in_map_iff in Hc0 as (j & <- & _).
  rewrite receive_pending. destruct (j =? i); cbn; apply String.eqb_refl.
Qed.

(** X3. An interrupted chunked upload resumes.  Take an accepted
    [init_chunk_upload] on a session that did not exist: it reports no
    uploaded chunk.  After [upload_chunk] of one of its indices, the chunk's
    bytes lie in the temporary file, and the same [init_chunk_upload] again
    returns the same session identity with exactly that index as uploaded,
    and changes nothing. *)
Theorem interrupted_upload_resumes :
  forall (current_user : Z) (init_data : files.ChunkInit) (auto_rename : bool) (i : Z)
         (content : list Byte.byte) (w w1 : World) (upload_id : string) (uploaded : list Z),
    files.init_chunk_upload md5 current_user init_data auto_rename w
      = Ok (upload_id, uploaded) w1 ->
    get_all_chunks_unordered (files.session_id md5 current_user init_data) w = [] ->
    0 <= i < files.init_total_chunks init_data ->
    is_dir (files.chunk_path UPLOAD_DIR upload_id i) w = false ->
    upload_id = files.session_id md5 current_user init_data
    /\ uploaded = []
    /\ exists w2,
         files.upload_chunk UPLOAD_DIR upload_id i content w1 = Ok i w2
         /\ files w2 !! files.chunk_path UPLOAD_DIR upload_id i = Some content
         /\ files.init_chunk_upload md5 current_user init_data auto_rename w2
            = Ok (upload_id, [i]) w2.
Proof.
  intros current_user init_data auto_rename i content w w1 upload_id uploaded Hinit Hfresh Hi Hdir.
  pose proof (init_chunk_upload_Ok _ _ _ _ _ _ Hinit) as Hadm.
  rewrite (init_chunk_upload_admitted _ _ _ _ Hadm) in Hinit. cbn zeta in Hinit.
  set (u := files.session_id md5 current_user init_data) in *.
  set (h := files.init_file_hash init_data) in *.
  set (n := files.init_total_chunks init_data) in *.
  set (P := List.map (pending_chunk u current_user h) (range n)).
  set (wa := with_file_chunk (file_chunk w ++ P) w).
  pose proof (fresh_session_no_slot u (file_chunk w) Hfresh) as Hforeign.
  assert (Hcreate : create_init_chunks u current_user h n w = Ok P wa).
  { unfold create_init_chunks. unfold mbind at 1. unfold M_bind at 1. unfold gets at 1.
    rewrite Hfresh. reflexivity. }
  assert (Hlist : get_uploaded_chunks u wa = Ok [] wa).
  { rewrite get_uploaded_chunks_unfold. cbn [file_chunk wa with_file_chunk].
    rewrite all_app, (foreign_uploaded_in u _ Hforeign). unfold P at 1.
    rewrite pending_uploaded_in. cbn [app all List.filter List.map].
    rewrite List.map_app, (foreign_reset u _ Hforeign). unfold P at 1.
    rewrite pending_reset. reflexivity. }
  unfold mbind at 1 in Hinit. unfold M_bind at 1 in Hinit. rewrite Hcreate in Hinit.
  unfold mbind at 1 in Hinit. unfold M_bind at 1 in Hinit. rewrite Hlist in Hinit.
  injection Hinit as <- <- <-.
  split; [reflexivity|]. split; [reflexivity|].
  set (p := files.chunk_path UPLOAD_DIR u i) in *.
  set (size := Z.of_nat (length content)).
  set (wb := with_files (<[p := content]> (files wa)) wa).
  set (slots := List.map (receive u current_user h i size p) P).
  set (w2 := with_file_chunk (file_chunk w ++ slots) wb).
  assert (Hin : In i (range n)) by (apply range_spec; exact Hi).
  assert (Hupload : files.upload_chunk UPLOAD_DIR u i content wa = Ok i w2).
  { unfold files.upload_chunk. fold p. fold size.
    unfold mbind at 1. unfold M_bind at 1. unfold write_file at 1.
    change (is_dir p wa) with (is_dir p w). rewrite Hdir. fold wb.
    unfold mbind at 1. unfold M_bind at 1. unfold mark_chunk_uploaded.
    change (file_chunk wb) with (file_chunk w ++ P).
    rewrite first_app, (foreign_first u _ Hforeign i). unfold P at 1.
    rewrite (first_same_slot_pending u current_user h i _ Hin).
    rewrite List.map_app.
    change (List.map _ (file_chunk w)) with
      (List.map (receive u current_user h i size p) (file_chunk w)).
    rewrite (foreign_receive u _ Hforeign). reflexivity. }
  exists w2. split; [exact Hupload|]. split.
  { cbn. apply lookup_insert_eq. }
  assert (Hadm2 : admitted current_user init_data auto_rename w2 = true).
  { rewrite <- Hadm. apply admitted_frame; reflexivity. }
  rewrite (init_chunk_upload_admitted _ _ _ _ Hadm2). cbn zeta. fold u. fold h. fold n.
  assert (Hlen : Z.of_nat (length slots) = n).
  { unfold slots, P. rewrite !length_map, range_length. lia. }
  assert (Hsession : get_all_chunks_unordered u w2 = slots).
  { unfold get_all_chunks_unordered. cbn [file_chunk w2 with_file_chunk].
    rewrite all_app. pose proof Hfresh as Hf. unfold get_all_chunks_unordered in Hf. rewrite Hf.
    apply received_session. }
  assert (Hcreate2 : create_init_chunks u current_user h n w2 = Ok slots w2).
  { unfold create_init_chunks. unfold mbind at 1. unfold M_bind at 1. unfold gets at 1.
    rewrite Hsession. destruct slots as [|c0 rest] eqn:Es; [cbn in Hlen; lia|].
    rewrite Hlen, Z.eqb_refl. reflexivity. }
  assert (Hte : temp_exists (received u current_user h i size p) w2 = true).
  { unfold temp_exists. cbn [FileChunk.temp_path received]. unfold p at 1, files.chunk_path.
    rewrite os_path_join_nonempty by (destruct u; discriminate).
    cbn [negb andb]. unfold os_path_exists, is_file.
    cbn [files w2 wb with_file_chunk with_files]. rewrite lookup_insert_eq.
    rewrite bool_decide_eq_true_2; [reflexivity|eauto]. }
  assert (Hlist2 : get_uploaded_chunks u w2 = Ok [i] w2).
  { rewrite get_uploaded_chunks_unfold. cbn [file_chunk w2 with_file_chunk].
    rewrite !all_app, (foreign_uploaded_in u _ Hforeign). cbn [app all List.filter].
    unfold slots at 1, P at 1.
    rewrite (received_only u current_user h i size p (fun c => temp_exists c w2) (range n)
               (range_NoDup n) Hin Hte).
    rewrite List.map_app, (foreign_reset u _ Hforeign). unfold slots at 1, P at 1.
    rewrite (received_reset (fun c => temp_exists c w2) u current_user h i size p (range n) Hte).
    reflexivity. }
  unfold mbind at 1. unfold M_bind at 1. rewrite Hcreate2.
  unfold mbind at 1. unfold M_bind at 1. rewrite Hlist2. reflexivity.
Qed.

End ChunkResume.

(** ** The choice of a volume *)

Section Volumes.

Variables (UPLOAD_DIR : string) (EXTRA_STORAGE_PATHS : list string).

(** The scan of [get_best_storage_path] over a list of volumes. *)
Definition scan (w : World) (acc : option string * Z * list string) (path : string)
    : option string * Z * list string :=
  let '(best_path, max_free_space, made) := acc in
  match disk_free w !! path with
  | Some free =>
      if free >? max_free_space then (Some path, free, made ++ [path])
      else (best_path, max_free_space, made ++ [path])
  | None => acc
  end.

Lemma get_best_storage_path_scan w :
  files.get_best_storage_path UPLOAD_DIR EXTRA_STORAGE_PATHS w
  = let '(best_path, _, made) :=
      fold_left (scan w) (files.STORAGE_PATHS UPLOAD_DIR EXTRA_STORAGE_PATHS) (None, -1, []) in
    match best_path with
    | Some path => Ok path (with_dirs (dirs w ++ made) w)
    | None => Raise (HTTPException 500 (Msg "No usable storage paths found."))
                    (with_dirs (dirs w ++ made) w)
    end.
Proof. reflexivity. Qed.

(** The invariant of the scan: the best volume so far is one of those
    scanned, and its free space is the greatest seen. *)
Definition best_so_far (w : World) (seen : list string) (acc : option string * Z * list string)
    : Prop :=
  let '(best_path, max_free_space, _) := acc in
  (forall q g, In q seen -> disk_free w !! q = Some g -> g <= max_free_space)
  /\ match best_path with
     | Some p => In p seen /\ disk_free w !! p = Some max_free_space /\ -1 < max_free_space
     | None => max_free_space = -1
     end.

Lemma scan_best_so_far w (paths seen : list string) acc :
  best_so_far w seen acc -> best_so_far w (seen ++ paths) (fold_left (scan w) paths acc).
Proof.
  revert seen acc. induction paths as [|p paths IH]; intros seen acc H.
  - rewrite app_nil_r. exact H.
  - cbn [fold_left]. replace (seen ++ p :: paths) with ((seen ++ [p]) ++ paths)
      by (rewrite <- app_assoc; reflexivity).
    apply IH. destruct acc as [[best m] made]. unfold scan. destruct H as [Hmax Hbest].
    destruct (disk_free w !! p) as [free|] eqn:Hp.
    + destruct (free >? m) eqn:E.
      * apply Z.gtb_lt in E. split.
        -- intros q g Hq Hg. apply in_app_iff in Hq as [Hq|[<-|[]]].
           ++ specialize (Hmax q g Hq Hg). lia.
           ++ assert (g = free) by congruence. lia.
        -- split; [apply in_or_app; right; left; reflexivity|]. split; [exact Hp|].
           destruct best; [destruct Hbest as (_ & _ & ?)|]; lia.
      * assert (Hle : free <= m) by (destruct (Z.gtb_spec free m); [discriminate|lia]). split.
        -- intros q g Hq Hg. apply in_app_iff in Hq as [Hq|[<-|[]]].
           ++ exact (Hmax q g Hq Hg).
           ++ assert (g = free) by congruence. lia.
        -- destruct best; [|exact Hbest]. destruct Hbest as (Hin & Hb & Hpos).
           split; [apply in_or_app; left; exact Hin|auto].
    + split.
      * intros q g Hq Hg. apply in_app_iff in Hq as [Hq|[<-|[]]]; [exact (Hmax q g Hq Hg)|].
        congruence.
      * destruct best; [|exact Hbest]. destruct Hbest as (Hin & Hb & Hpos).
        split; [apply in_or_app; left; exact Hin|auto].
Qed.

(** X4. [get_best_storage_path] returns one of the configured volumes whose
    free space could be read, and no readable volume has more free space;
    it fails (with status 500) exactly when no volume with free space at
    least zero is readable.  In both cases the files, the database and the
    directories that existed are left as they were. *)
Theorem get_best_storage_path_most_free :
  forall (w : World),
    match files.get_best_storage_path UPLOAD_DIR EXTRA_STORAGE_PATHS w with
    | Ok path w' =>
        In path (files.STORAGE_PATHS UPLOAD_DIR EXTRA_STORAGE_PATHS)
        /\ (exists free, disk_free w !! path = Some free /\ 0 <= free
              /\ forall q g, In q (files.STORAGE_PATHS UPLOAD_DIR EXTRA_STORAGE_PATHS) ->
                             disk_free w !! q = Some g -> g <= free)
        /\ files w' = files w /\ file_store w' = file_store w /\ file_meta w' = file_meta w
        /\ (forall d, In d (dirs w) -> In d (dirs w'))
    | Raise e w' =>
        e = HTTPException 500 (Msg "No usable storage paths found.")
        /\ (forall q g, In q (files.STORAGE_PATHS UPLOAD_DIR EXTRA_STORAGE_PATHS) ->
                        disk_free w !! q = Some g -> g < 0)
        /\ files w' = files w /\ file_store w' = file_store w /\ file_meta w' = file_meta w
    | Diverge => False
    end.
Proof.
  intros w. rewrite get_best_storage_path_scan.
  pose proof (scan_best_so_far w (files.STORAGE_PATHS UPLOAD_DIR EXTRA_STORAGE_PATHS) []
                (None, -1, [])) as H.
  cbn [app] in H.
  destruct (fold_left (scan w) (files.STORAGE_PATHS UPLOAD_DIR EXTRA_STORAGE_PATHS) (None, -1, []))
    as [[best m] made].
  destruct H as [Hmax Hbest]; [split; [intros q g []|reflexivity]|].
  destruct best as [p|].
  - destruct Hbest as (Hin & Hp & Hpos). split; [exact Hin|]. split.
    + exists m. split; [exact Hp|]. split; [lia|exact Hmax].
    + repeat split. intros d Hd. cbn. apply in_or_app. left. exact Hd.
  - subst m. split; [reflexivity|]. split; [|repeat split].
    intros q g Hq Hg. specialize (Hmax q g Hq Hg). lia.
Qed.

End Volumes.

(** ** The owners of the rows *)

Section Isolation.

Import CRUDFileMeta.

(** The rows of the other owners. *)
Definition others (user_id : Z) (rows : list FileMeta.t) : list FileMeta.t :=
  all (fun r => negb (FileMeta.user_id r =? user_id)) rows.

Definition unique_ids (w : World) : Prop := List.NoDup (List.map FileMeta.id (file_meta w)).

Lemma others_app user_id l1 l2 : others user_id (l1 ++ l2) = others user_id l1 ++ others user_id l2.
Proof. apply all_app. Qed.

(** A change of the rows that bear the key of one of the owner's rows. *)
Lemma others_update user_id id (f : FileMeta.t -> FileMeta.t) (rows : list FileMeta.t) :
  (forall r, In r rows -> FileMeta.id r = id -> FileMeta.user_id r = user_id) ->
  (forall r, FileMeta.user_id (f r) = FileMeta.user_id r) ->
  others user_id (List.map (fun r => if by_id id r then f r else r) rows) = others user_id rows.
Proof.
  intros Hown Hf. unfold others, all. induction rows as [|a l IH]; [reflexivity|]. cbn.
  rewrite IH by (intros r Hr; apply Hown; right; exact Hr).
  unfold by_id. destruct (FileMeta.id a =? id) eqn:E; [|reflexivity].
  apply Z.eqb_eq in E. rewrite Hf, (Hown a (or_introl eq_refl) E), Z.eqb_refl. reflexivity.
Qed.

Lemma others_delete user_id id (rows : list FileMeta.t) :
  (forall r, In r rows -> FileMeta.id r = id -> FileMeta.user_id r = user_id) ->
  others user_id (all (fun r => negb (by_id id r)) rows) = others user_id rows.
Proof.
  intros Hown. unfold others, all. induction rows as [|a l IH]; [reflexivity|]. cbn.
  rewrite <- IH by (intros r Hr; apply Hown; right; exact Hr).
  unfold by_id. destruct (FileMeta.id a =? id) eqn:E; cbn; [|reflexivity].
  apply Z.eqb_eq in E. rewrite (Hown a (or_introl eq_refl) E), Z.eqb_refl. reflexivity.
Qed.

(** With unique keys, the rows that bear the key of an owned row are that row. *)
Lemma owned_key user_id id w obj :
  unique_ids w -> get_obj id user_id w = Some obj ->
  forall r, In r (file_meta w) -> FileMeta.id r = id -> FileMeta.user_id r = user_id.
Proof.
  intros Hnd Hobj r Hr Hid. apply first_some in Hobj as [Hin Hp].
  unfold owned in Hp. apply andb_true_iff in Hp as [H1 H2]. apply Z.eqb_eq in H1, H2.
  assert (r = obj) by (apply (NoDup_map_In_eq FileMeta.id _ r obj Hnd Hr Hin); congruence).
  subst r. exact H2.
Qed.

(** What a soft delete keeps: the keys and the owners, in the order of the rows. *)
Definition same_owners (w w' : World) : Prop :=
  List.map (fun r => (FileMeta.id r, FileMeta.user_id r)) (file_meta w')
  = List.map (fun r => (FileMeta.id r, FileMeta.user_id r)) (file_meta w).

Lemma same_owners_ids w w' : same_owners w w' -> unique_ids w -> unique_ids w'.
Proof.
  unfold same_owners, unique_ids. intros H Hnd.
  assert (Hids : forall rows, List.map FileMeta.id rows
            = List.map fst (List.map (fun r => (FileMeta.id r, FileMeta.user_id r)) rows)).
  { intros rows. rewrite List.map_map. reflexivity. }
  rewrite Hids, H, <- Hids. exact Hnd.
Qed.

Lemma same_owners_get_obj w w' id user_id obj :
  same_owners w w' -> get_obj id user_id w = Some obj ->
  exists obj', get_obj id user_id w' = Some obj'.
Proof.
  unfold same_owners, get_obj, first. intros H Hobj.
  revert H. generalize (file_meta w'). revert Hobj. 
  induction (file_meta w) as [|a l IH]; intros Hobj rows' H; [discriminate Hobj|].
  destruct rows' as [|a' l']; [discriminate H|]. cbn in H. injection H as Hi Hu Hrest.
  cbn in Hobj |- *. unfold owned in *. rewrite Hi, Hu.
  destruct ((FileMeta.id a =? id) && (FileMeta.user_id a =? user_id)); [eauto|].
  apply (IH Hobj l' Hrest).
Qed.

Lemma update_row_same_owners id f w :
  (forall r, FileMeta.id (f r) = FileMeta.id r /\ FileMeta.user_id (f r) = FileMeta.user_id r) ->
  same_owners w (update_row id f w).
Proof.
  intros Hf. unfold same_owners, update_row. cbn. rewrite List.map_map. apply List.map_ext.
  intros r. destruct (by_id id r); [|reflexivity]. destruct (Hf r) as [-> ->]. reflexivity.
Qed.

Lemma remove_isolated fuel now user_id :
  forall id w r w',
    unique_ids w -> remove fuel now id user_id w = Ok r w' ->
    same_owners w w' /\ others user_id (file_meta w') = others user_id (file_meta w).
Proof.
  induction fuel as [|fuel IH]; intros id w r w' Hnd H; [discriminate|].
  cbn [remove] in H. apply bind_Ok in H as (obj & w0 & Hg & H). apply gets_Ok in Hg as [-> ->].
  destruct (get_obj id user_id w) as [obj|] eqn:Hobj;
    [|injection H as _ <-; split; reflexivity].
  apply bind_Ok in H as ([] & w1 & Hbody & H).
  assert (H1 : same_owners w w1 /\ others user_id (file_meta w1) = others user_id (file_meta w)).
  { destruct (FileMeta.is_folder obj); [|injection Hbody as <-; split; reflexivity].
    apply bind_Ok in Hbody as (children & w0 & Hg & Hbody). apply gets_Ok in Hg as [-> ->].
    eapply (for_each_preserves
              (fun w1 => same_owners w w1
                         /\ others user_id (file_meta w1) = others user_id (file_meta w)));
      [|split; reflexivity|exact Hbody].
    intros child wa [] wb [Hsa Hoa] Hc. apply bind_Ok in Hc as (rc & wc & Hc & Hret).
    injection Hret as <-.
    destruct (IH _ _ _ _ (same_owners_ids _ _ Hsa Hnd) Hc) as [Hsb Hob].
    split; [unfold same_owners in *; congruence|congruence]. }
  destruct H1 as [Hs1 Ho1].
  apply bind_Ok in H as ([] & w2 & Hmod & H). apply gets_Ok in H as [_ ->].
  unfold modify in Hmod. injection Hmod as <-.
  pose proof (get_obj_In _ _ _ _ Hobj) as (_ & Hid & _).
  destruct (same_owners_get_obj w w1 id user_id obj Hs1 Hobj) as [obj1 Hobj1].
  split.
  - unfold same_owners in *. rewrite <- Hs1.
    apply (update_row_same_owners (FileMeta.id obj) _ w1). intros r0. split; reflexivity.
  - rewrite <- Ho1. unfold update_row. cbn. apply others_update; [|reflexivity].
    rewrite Hid. apply (owned_key user_id id w1 obj1 (same_owners_ids _ _ Hs1 Hnd) Hobj1).
Qed.

Lemma NoDup_map_all {A B} (f : A -> B) (q : A -> bool) (l : list A) :
  List.NoDup (List.map f l) -> List.NoDup (List.map f (all q l)).
Proof.
  unfold all. induction l as [|a l IH]; [auto|]. cbn. intros Hnd.
  apply List.NoDup_cons_iff in Hnd as [Hfresh Hnd]. destruct (q a); [|auto]. cbn.
  constructor; [|auto]. intros Hin. apply Hfresh. apply in_map_iff in Hin as (x & Hx & Hxin).
  apply filter_In in Hxin as [Hxin _]. apply in_map_iff. eauto.
Qed.

Lemma release_store_file_meta obj w a w' :
  release_store obj w = Ok a w' -> file_meta w' = file_meta w.
Proof.
  unfold release_store. intros H. apply bind_Ok in H as (store & w0 & Hg & H).
  apply gets_Ok in Hg as [-> ->]. destruct (file_store_of obj w) as [store|];
    [|injection H as _ <-; reflexivity].
  apply bind_Ok in H as (updated & w1 & Hdec & H).
  unfold decrement_ref_count in Hdec. apply bind_Ok in Hdec as ([] & w2 & Hmod & Hg).
  apply gets_Ok in Hg as [-> ->]. unfold modify in Hmod. injection Hmod as <-.
  destruct (get_by_hash _ _) as [updated|]; [|injection H as _ <-; reflexivity].
  destruct (FileStore.ref_count updated <=? 0); [|injection H as _ <-; reflexivity].
  apply bind_Ok in H as (present & w3 & Hg & H). apply gets_Ok in Hg as [-> ->].
  apply bind_Ok in H as ([] & w4 & Hrm & H). unfold modify in H. injection H as _ <-.
  destruct (os_path_exists _ _); [|injection Hrm as <-; reflexivity].
  unfold os_remove in Hrm. destruct (is_file _ _); [|discriminate Hrm].
  injection Hrm as <-. reflexivity.
Qed.

(** What a hard delete keeps: rows are removed, never changed. *)
Definition shrunk (user_id : Z) (w w' : World) : Prop :=
  unique_ids w'
  /\ (forall r, In r (file_meta w') -> In r (file_meta w))
  /\ others user_id (file_meta w') = others user_id (file_meta w).

Lemma permanent_remove_isolated fuel user_id :
  forall id w r w',
    unique_ids w -> permanent_remove fuel id user_id w = Ok r w' -> shrunk user_id w w'.
Proof.
  induction fuel as [|fuel IH]; intros id w r w' Hnd H; [discriminate|].
  cbn [permanent_remove] in H. apply bind_Ok in H as (obj & w0 & Hg & H).
  apply gets_Ok in Hg as [-> ->].
  destruct (get_obj id user_id w) as [obj|] eqn:Hobj;
    [|injection H as _ <-; repeat split; auto].
  apply bind_Ok in H as ([] & w1 & Hbody & H).
  assert (H1 : shrunk user_id w w1).
  { destruct (FileMeta.is_folder obj).
    - apply bind_Ok in Hbody as (children & w0 & Hg & Hbody). apply gets_Ok in Hg as [-> ->].
      eapply (for_each_preserves (shrunk user_id w)); [|repeat split; auto|exact Hbody].
      intros child wa [] wb (Hna & Hia & Hoa) Hc. apply bind_Ok in Hc as (rc & wc & Hc & Hret).
      injection Hret as <-. destruct (IH _ _ _ _ Hna Hc) as (Hnb & Hib & Hob).
      split; [exact Hnb|]. split; [auto|congruence].
    - unfold shrunk, unique_ids. rewrite (release_store_file_meta _ _ _ _ Hbody). auto. }
  destruct H1 as (Hn1 & Hi1 & Ho1).
  apply bind_Ok in H as ([] & w2 & Hmod & H). injection H as _ <-.
  unfold modify in Hmod. injection Hmod as <-.
  pose proof (get_obj_In _ _ _ _ Hobj) as (_ & Hid & _).
  split; [|split].
  - unfold unique_ids, delete_row. cbn. apply NoDup_map_all. exact Hn1.
  - intros r0 Hr0. unfold delete_row in Hr0. cbn in Hr0. apply filter_In in Hr0 as [Hr0 _]. auto.
  - rewrite <- Ho1. unfold delete_row. cbn. apply others_delete.
    intros r0 Hr0 Hr0id. rewrite Hid in Hr0id.
    apply (owned_key user_id id w obj Hnd Hobj r0 (Hi1 r0 Hr0) Hr0id).
Qed.

Lemma copy_isolated fuel now user_id :
  forall id target_parent_id w r w',
    copy fuel now id target_parent_id user_id w = Ok r w' ->
    others user_id (file_meta w') = others user_id (file_meta w).
Proof.
  induction fuel as [|fuel IH]; intros id target w r w' H; [discriminate|].
  cbn [copy] in H. apply bind_Ok in H as (obj & w0 & Hg & H). apply gets_Ok in Hg as [-> ->].
  destruct (get_obj id user_id w) as [obj|]; [|injection H as _ <-; reflexivity].
  apply bind_Ok in H as (name & w1 & Hname & H).
  destruct (_get_unique_filename_total user_id target (FileMeta.file_name obj) w)
    as (name' & Hname' & _).
  rewrite Hname' in Hname. injection Hname as <- <-.
  apply bind_Ok in H as (new_obj & w2 & Hadd & H).
  unfold add_file_meta in Hadd. injection Hadd as <- <-.
  match type of H with
  | mbind _ _ ?w2 = _ =>
      assert (Ho2 : others user_id (file_meta w2) = others user_id (file_meta w))
  end.
  { cbn [file_meta with_file_meta with_file_meta_seq]. rewrite others_app.
    unfold others at 2. cbn. rewrite Z.eqb_refl. cbn. apply app_nil_r. }
  apply bind_Ok in H as ([] & w3 & Hbody & H). injection H as _ <-.
  destruct (FileMeta.is_folder obj); cbn [negb] in Hbody.
  - apply bind_Ok in Hbody as (children & w2' & Hg & Hbody). apply gets_Ok in Hg as [-> ->].
    eapply (for_each_preserves
              (fun w3 => others user_id (file_meta w3) = others user_id (file_meta w)));
      [|exact Ho2|exact Hbody].
    intros child wa [] wb Hoa Hc. apply bind_Ok in Hc as (rc & wc & Hc & Hret).
    injection Hret as <-. rewrite (IH _ _ _ _ _ Hc). exact Hoa.
  - destruct (FileMeta.file_hash obj) as [h|]; [|injection Hbody as <-; exact Ho2].
    destruct (truthy (Some h)); [|injection Hbody as <-; exact Ho2].
    apply bind_Ok in Hbody as (s & w2' & Hinc & Hret). injection Hret as <-.
    match type of Hinc with increment_ref_count _ ?wx = _ =>
      destruct (increment_ref_count_Ok h wx) as [s' Hinc'] end.
    rewrite Hinc' in Hinc. injection Hinc as _ <-. exact Ho2.
Qed.

Lemma move_isolated fuel now user_id id target_parent_id w r w' :
  unique_ids w -> move fuel now id target_parent_id user_id w = Ok r w' ->
  others user_id (file_meta w') = others user_id (file_meta w).
Proof.
  intros Hnd H. unfold move in H. apply bind_Ok in H as (obj & w0 & Hg & H).
  apply gets_Ok in Hg as [-> ->].
  destruct (get_obj id user_id w) as [obj|] eqn:Hobj; [|injection H as _ <-; reflexivity].
  apply bind_Ok in H as (cyclic & w1 & Hcyc & H).
  assert (w1 = w).
  { destruct (FileMeta.is_folder obj); [|injection Hcyc as _ <-; reflexivity].
    apply bind_Ok in Hcyc as (anc & w2 & Hanc & Hret). injection Hret as _ <-.
    pose proof (get_ancestors_pure fuel target_parent_id user_id w) as Hp.
    rewrite Hanc in Hp. cbn in Hp. auto. }
  subst w1. destruct cyclic; [injection H as _ <-; reflexivity|].
  apply bind_Ok in H as (name & w1 & Hname & H).
  destruct (_get_unique_filename_total user_id target_parent_id (FileMeta.file_name obj) w)
    as (name' & Hname' & _).
  rewrite Hname' in Hname. injection Hname as <- <-.
  apply bind_Ok in H as ([] & w2 & Hmod & H). apply gets_Ok in H as [_ ->].
  unfold modify in Hmod. injection Hmod as <-.
  pose proof (get_obj_In _ _ _ _ Hobj) as (_ & Hid & _).
  unfold update_row. cbn. apply others_update; [|reflexivity].
  rewrite Hid. apply (owned_key user_id id w obj Hnd Hobj).
Qed.

(** The dirty objects of a restore are rows of the owner. *)
Definition own_ok (user_id : Z) (w : World) (pend : gmap Z FileMeta.t) : Prop :=
  forall k, is_Some (pend !! k) ->
    exists row, In row (file_meta w) /\ FileMeta.id row = k /\ FileMeta.user_id row = user_id.

Lemma undelete_own_ok user_id w now pend row :
  keys_ok w -> pend_ok w pend -> own_ok user_id w pend ->
  In row (file_meta w) -> FileMeta.user_id row = user_id ->
  own_ok user_id w (fst (undelete now pend (load pend row))).
Proof.
  intros Hk Hp Ho Hin Hu. destruct (load_fields w pend row Hk Hp Hin) as (Hid & _).
  unfold undelete. cbn. intros k Hs. rewrite Hid in Hs.
  destruct (decide (FileMeta.id row = k)) as [<-|Hne]; [eauto|].
  rewrite lookup_insert_ne in Hs by exact Hne. apply Ho. exact Hs.
Qed.

Lemma _restore_downwards_owned now w user_id :
  keys_ok w ->
  forall fuel obj pend pend',
    pend_ok w pend -> own_ok user_id w pend ->
    _restore_downwards fuel now w user_id obj pend = Some pend' ->
    own_ok user_id w pend'.
Proof.
  intros Hk. induction fuel as [|fuel IH]; intros obj pend pend' Hp Ho H; [discriminate|].
  cbn [_restore_downwards] in H.
  destruct (FileMeta.is_folder obj); cbn [negb] in H; [|injection H as <-; exact Ho].
  set (step := fun (acc : option (gmap Z FileMeta.t)) (row : FileMeta.t) =>
                 match acc with
                 | None => None
                 | Some pend0 =>
                     let '(pend1, child) := undelete now pend0 (load pend0 row) in
                     _restore_downwards fuel now w user_id child pend1
                 end) in H.
  assert (Hloop : forall cs pend0 pend1,
            pend_ok w pend0 -> own_ok user_id w pend0 ->
            (forall c, In c cs -> In c (file_meta w) /\ FileMeta.user_id c = user_id) ->
            fold_left step cs (Some pend0) = Some pend1 ->
            own_ok user_id w pend1).
  { induction cs as [|c cs IHcs]; intros pend0 pend1 Hp0 Ho0 Hrows Hfold.
    - cbn in Hfold. injection Hfold as <-. exact Ho0.
    - cbn [fold_left] in Hfold. destruct (Hrows c (or_introl eq_refl)) as [Hcrow Hcu].
      pose proof (undelete_pend_ok w now pend0 c Hk Hp0 Hcrow) as Hp0'.
      pose proof (undelete_own_ok user_id w now pend0 c Hk Hp0 Ho0 Hcrow Hcu) as Ho0'.
      destruct (step (Some pend0) c) as [pend2|] eqn:Estep;
        [|rewrite fold_left_none in Hfold by reflexivity; discriminate].
      unfold step in Estep. unfold undelete in Estep, Hp0', Ho0'. cbn in Estep, Hp0', Ho0'.
      pose proof (IH _ _ _ Hp0' Ho0' Estep) as Ho2.
      destruct (_restore_downwards_spec now w user_id Hk _ _ _ _ Hp0' Estep) as (Hp2 & _).
      apply (IHcs pend2 pend1 Hp2 Ho2 (fun x Hx => Hrows x (or_intror Hx)) Hfold). }
  apply (Hloop _ _ _ Hp Ho) in H; [exact H|].
  intros c Hc. apply filter_In in Hc as [Hc Hchild].
  apply deleted_child_of_spec in Hchild as (_ & Hu & _). auto.
Qed.

Lemma _restore_upwards_owned now w user_id :
  keys_ok w ->
  forall fuel current pend pend',
    pend_ok w pend -> own_ok user_id w pend ->
    _restore_upwards fuel now w user_id current pend = Some pend' ->
    own_ok user_id w pend'.
Proof.
  intros Hk. induction fuel as [|fuel IH]; intros current pend pend' Hp Ho H; [discriminate|].
  cbn [_restore_upwards] in H.
  destruct (FileMeta.parent_id current =? 0); [injection H as <-; exact Ho|].
  destruct (get_obj (FileMeta.parent_id current) user_id w) as [prow|] eqn:Eprow;
    [|injection H as <-; exact Ho].
  pose proof (get_obj_In _ _ _ _ Eprow) as (Hin & _ & Hu).
  destruct (FileMeta.is_deleted (load pend prow)).
  - pose proof (undelete_pend_ok w now pend prow Hk Hp Hin) as Hp1.
    pose proof (undelete_own_ok user_id w now pend prow Hk Hp Ho Hin Hu) as Ho1.
    unfold undelete in H, Hp1, Ho1. cbn in H, Hp1, Ho1. exact (IH _ _ _ Hp1 Ho1 H).
  - exact (IH _ _ _ Hp Ho H).
Qed.

Lemma others_map user_id (f : FileMeta.t -> FileMeta.t) (rows : list FileMeta.t) :
  (forall r, In r rows ->
     FileMeta.user_id (f r) = FileMeta.user_id r
     /\ (FileMeta.user_id r <> user_id -> f r = r)) ->
  others user_id (List.map f rows) = others user_id rows.
Proof.
  unfold others, all. induction rows as [|a l IH]; [reflexivity|]. intros H. cbn.
  rewrite IH by (intros r Hr; apply H; right; exact Hr).
  destruct (H a (or_introl eq_refl)) as [Hu Hfix]. rewrite Hu.
  destruct (FileMeta.user_id a =? user_id) eqn:E; cbn; [reflexivity|].
  apply Z.eqb_neq in E. rewrite (Hfix E). reflexivity.
Qed.

Lemma restore_isolated fuel now user_id id w r w' :
  keys_ok w -> restore fuel now id user_id w = Ok r w' ->
  others user_id (file_meta w') = others user_id (file_meta w).
Proof.
  intros Hk H. unfold restore in H.
  destruct (get_obj id user_id w) as [obj|] eqn:Hobj; [|injection H as _ <-; reflexivity].
  pose proof (get_obj_In _ _ _ _ Hobj) as (Hin & Hid & Hu).
  assert (Hempty : pend_ok w ∅).
  { intros k o Hko. rewrite lookup_empty in Hko. discriminate. }
  assert (Hload : load ∅ obj = obj) by (unfold load; rewrite lookup_empty; reflexivity).
  pose proof (undelete_pend_ok w now ∅ obj Hk Hempty Hin) as Hp0.
  assert (Hown : own_ok user_id w ∅).
  { intros k [o Ho]. rewrite lookup_empty in Ho. discriminate. }
  pose proof (undelete_own_ok user_id w now ∅ obj Hk Hempty Hown Hin Hu) as Ho0.
  rewrite Hload in Hp0, Ho0. unfold undelete in H, Hp0, Ho0. cbn in H, Hp0, Ho0.
  destruct (_restore_downwards _ _ _ _ _ _) as [pend1|] eqn:Hdown; [|discriminate H].
  destruct (_restore_downwards_spec now w user_id Hk _ _ _ _ Hp0 Hdown) as (Hp1 & _).
  pose proof (_restore_downwards_owned now w user_id Hk _ _ _ _ Hp0 Ho0 Hdown) as Ho1.
  destruct (_restore_upwards _ _ _ _ _ _) as [pend2|] eqn:Hup; [|discriminate H].
  assert (Hp2 : pend_ok w pend2 /\ own_ok user_id w pend2).
  { split.
    - revert Hup. generalize (FileMeta.set_deleted false None now obj). clear Hdown H.
      revert pend1 Hp1 Ho1. induction fuel as [|fuel IH]; intros pend1 Hp1 Ho1 cur Hup;
        [discriminate|].
      cbn [_restore_upwards] in Hup.
      destruct (FileMeta.parent_id cur =? 0); [injection Hup as <-; exact Hp1|].
      destruct (get_obj (FileMeta.parent_id cur) user_id w) as [prow|] eqn:Eprow;
        [|injection Hup as <-; exact Hp1].
      pose proof (get_obj_In _ _ _ _ Eprow) as (Hpin & _ & Hpu).
      destruct (FileMeta.is_deleted (load pend1 prow)).
      + pose proof (undelete_pend_ok w now pend1 prow Hk Hp1 Hpin) as Hq.
        pose proof (undelete_own_ok user_id w now pend1 prow Hk Hp1 Ho1 Hpin Hpu) as Hq'.
        unfold undelete in Hup, Hq, Hq'. cbn in Hup, Hq, Hq'. exact (IH _ Hq Hq' _ Hup).
      + exact (IH _ Hp1 Ho1 _ Hup).
    - exact (_restore_upwards_owned now w user_id Hk _ _ _ _ Hp1 Ho1 Hup). }
  destruct Hp2 as [Hp2 Ho2]. injection H as _ <-. unfold commit. cbn.
  apply others_map. intros row Hrow.
  destruct (load_fields w pend2 row Hk Hp2 Hrow) as (_ & Hlu & _). split; [exact Hlu|].
  intros Hne. unfold load. destruct (pend2 !! FileMeta.id row) as [o|] eqn:E; [|reflexivity].
  exfalso. destruct (Ho2 (FileMeta.id row)) as (row' & Hin' & Hid' & Hu'); [eauto|].
  assert (row' = row) by (apply (NoDup_map_In_eq FileMeta.id _ row' row (proj1 Hk) Hin' Hrow Hid')).
  subst row'. contradiction.
Qed.

(** X5. The namespace operations of one owner leave the rows of every
    other owner as they were: whatever a soft delete, a restore, a hard
    delete, a copy or a move by [user_id] returns, the rows whose owner is
    not [user_id] are the same rows, in the same order. *)
Theorem other_owners_rows_untouched :
  forall (user_id : Z) (w : World),
    keys_ok w ->
    (forall fuel now id r w',
        remove fuel now id user_id w = Ok r w' ->
        others user_id (file_meta w') = others user_id (file_meta w))
    /\ (forall fuel now id r w',
          restore fuel now id user_id w = Ok r w' ->
          others user_id (file_meta w') = others user_id (file_meta w))
    /\ (forall fuel id r w',
          permanent_remove fuel id user_id w = Ok r w' ->
          others user_id (file_meta w') = others user_id (file_meta w))
    /\ (forall fuel now id target_parent_id r w',
          copy fuel now id target_parent_id user_id w = Ok r w' ->
          others user_id (file_meta w') = others user_id (file_meta w))
    /\ (forall fuel now id target_parent_id r w',
          move fuel now id target_parent_id user_id w = Ok r w' ->
          others user_id (file_meta w') = others user_id (file_meta w)).
Proof.
  intros user_id w Hk. pose proof (proj1 Hk) as Hnd. split; [|split; [|split; [|split]]].
  - intros fuel now id r w' H. exact (proj2 (remove_isolated fuel now user_id id w r w' Hnd H)).
  - intros fuel now id r w' H. exact (restore_isolated fuel now user_id id w r w' Hk H).
  - intros fuel id r w' H.
    exact (proj2 (proj2 (permanent_remove_isolated fuel user_id id w r w' Hnd H))).
  - intros fuel now id target r w' H. exact (copy_isolated fuel now user_id id target w r w' H).
  - intros fuel now id target r w' H. exact (move_isolated fuel now user_id id target w r w' Hnd H).
Qed.

End Isolation.

(** ** Soft delete *)

Section SoftDelete.

Import CRUDFileMeta.

Variables (user_id now : Z) (w : World).
Hypothesis Hnd : unique_ids w.

(** [r] is reached from the node [n] going down through folders, along
    children in any state. *)
Inductive below : FileMeta.t -> FileMeta.t -> Prop :=
| below_child n r :
    FileMeta.is_folder n = true -> In r (file_meta w) ->
    child_of (FileMeta.id n) user_id r = true ->
    below n r
| below_deeper n c r :
    FileMeta.is_folder n = true -> In c (file_meta w) ->
    child_of (FileMeta.id n) user_id c = true ->
    below c r ->
    below n r.

(** The row of a node in the trash since [now]. *)
Definition trashed_row (r : FileMeta.t) : FileMeta.t := FileMeta.set_deleted true (Some now) now r.

(** The nodes of the subtree of the node [id]. *)
Definition subtree (id : Z) (d : FileMeta.t) : Prop :=
  exists obj, get_obj id user_id w = Some obj /\ (d = obj \/ below obj d).

(** A world reached from [w] by soft deletes at [now]: row by row, the rows
    among [may] may have been put in the trash, the rows among [must] have
    been. *)
Definition marked (may must : FileMeta.t -> Prop) (wa : World) : Prop :=
  List.Forall2 (fun r r' => (r' = r \/ (r' = trashed_row r /\ may r))
                            /\ (must r -> r' = trashed_row r))
               (file_meta w) (file_meta wa).

Lemma marked_weaken (may must may' must' : FileMeta.t -> Prop) wa :
  (forall r, may r -> may' r) -> (forall r, must' r -> must r) ->
  marked may must wa -> marked may' must' wa.
Proof.
  intros Hmay Hmust H. unfold marked in *. eapply List.Forall2_impl; [|exact H].
  intros r r' [[->|[-> Hs]] Hm]; split; auto.
Qed.

Lemma marked_start : marked (fun _ => False) (fun _ => False) w.
Proof.
  unfold marked. induction (file_meta w) as [|a l IH]; constructor; [|exact IH].
  split; [left; reflexivity|intros []].
Qed.

Definition alike (r r' : FileMeta.t) : Prop :=
  FileMeta.id r' = FileMeta.id r /\ FileMeta.user_id r' = FileMeta.user_id r
  /\ FileMeta.parent_id r' = FileMeta.parent_id r
  /\ FileMeta.is_folder r' = FileMeta.is_folder r.

Lemma marked_alike may must wa :
  marked may must wa -> List.Forall2 alike (file_meta w) (file_meta wa).
Proof.
  intros H. eapply List.Forall2_impl; [|exact H].
  intros r r' [[->|[-> _]] _]; repeat split.
Qed.

Lemma alike_first (p : FileMeta.t -> bool) (l l' : list FileMeta.t) :
  (forall r r', alike r r' -> p r' = p r) ->
  List.Forall2 alike l l' ->
  match first p l, first p l' with
  | Some r, Some r' => alike r r'
  | None, None => True
  | _, _ => False
  end.
Proof.
  intros Hp H. unfold first. induction H as [|r r' l l' Hr _ IH]; cbn; [exact I|].
  rewrite (Hp r r' Hr). destruct (p r); [exact Hr|exact IH].
Qed.

Lemma alike_all (p : FileMeta.t -> bool) (l l' : list FileMeta.t) :
  (forall r r', alike r r' -> p r' = p r) ->
  List.Forall2 alike l l' -> List.Forall2 alike (all p l) (all p l').
Proof.
  intros Hp H. unfold all. induction H as [|r r' l l' Hr _ IH]; cbn; [constructor|].
  rewrite (Hp r r' Hr). destruct (p r); [constructor; assumption|exact IH].
Qed.

Lemma alike_owned id r r' : alike r r' -> owned id user_id r' = owned id user_id r.
Proof. intros (Hi & Hu & _). unfold owned. rewrite Hi, Hu. reflexivity. Qed.

Lemma alike_child_of id r r' : alike r r' -> child_of id user_id r' = child_of id user_id r.
Proof. intros (_ & Hu & Hp & _). unfold child_of. rewrite Hp, Hu. reflexivity. Qed.

Lemma trashed_row_twice r : trashed_row (trashed_row r) = trashed_row r.
Proof. reflexivity. Qed.

(** The row of the node itself is put in the trash. *)
Lemma marked_update_rows (may must : FileMeta.t -> Prop) obj (rows rows' : list FileMeta.t) :
  In obj (file_meta w) -> (forall r, In r rows -> In r (file_meta w)) ->
  List.Forall2 (fun r r' => (r' = r \/ (r' = trashed_row r /\ may r))
                            /\ (must r -> r' = trashed_row r)) rows rows' ->
  List.Forall2 (fun r r' => (r' = r \/ (r' = trashed_row r /\ (may r \/ r = obj)))
                            /\ (must r \/ r = obj -> r' = trashed_row r))
    rows
    (List.map (fun r => if by_id (FileMeta.id obj) r
                        then FileMeta.set_deleted true (Some now) now r else r) rows').
Proof.
  intros Hobj Hin H. induction H as [|r r' l l' Hr _ IH]; cbn; [constructor|].
  constructor; [|apply IH; intros x Hx; apply Hin; right; exact Hx].
  assert (Hid : FileMeta.id r' = FileMeta.id r) by (destruct Hr as [[->|[-> _]] _]; reflexivity).
  unfold by_id. rewrite Hid. destruct (FileMeta.id r =? FileMeta.id obj) eqn:E.
  - apply Z.eqb_eq in E.
    assert (r = obj).
    { apply (NoDup_map_In_eq FileMeta.id _ r obj Hnd (Hin r (or_introl eq_refl)) Hobj E). }
    subst r. destruct Hr as [[->|[-> _]] _]; split; auto.
  - apply Z.eqb_neq in E. destruct Hr as [Hr Hm]. split.
    + destruct Hr as [->|[-> Hs]]; auto.
    + intros [Hmr| ->]; [auto|contradiction].
Qed.

Lemma marked_update may must wa obj :
  marked may must wa -> In obj (file_meta w) ->
  marked (fun r => may r \/ r = obj) (fun r => must r \/ r = obj)
         (update_row (FileMeta.id obj) (FileMeta.set_deleted true (Some now) now) wa).
Proof.
  intros H Hobj. unfold marked, update_row in *. cbn.
  apply marked_update_rows; auto.
Qed.

Lemma child_of_user parent_id r : child_of parent_id user_id r = true -> FileMeta.user_id r = user_id.
Proof.
  unfold child_of. intros H. apply andb_true_iff in H as [_ H]. apply Z.eqb_eq in H. exact H.
Qed.

Lemma get_obj_own r :
  In r (file_meta w) -> FileMeta.user_id r = user_id -> get_obj (FileMeta.id r) user_id w = Some r.
Proof.
  intros Hin Hu. unfold get_obj.
  destruct (first (owned (FileMeta.id r) user_id) (file_meta w)) as [r'|] eqn:E.
  - apply first_some in E as [Hin' Hp]. unfold owned in Hp.
    apply andb_true_iff in Hp as [H1 _]. apply Z.eqb_eq in H1.
    f_equal. apply (NoDup_map_In_eq FileMeta.id _ r' r Hnd Hin' Hin H1).
  - apply first_none_all in E. apply (proj1 (all_nil_iff _ _)) with (x := r) in E; [|exact Hin].
    unfold owned in E. rewrite Hu, !Z.eqb_refl in E. discriminate E.
Qed.

Lemma marked_first_rows (may must : FileMeta.t -> Prop) obj (rows rows' : list FileMeta.t) :
  (forall r, In r rows -> In r (file_meta w)) -> In obj rows -> must obj ->
  List.Forall2 (fun r r' => (r' = r \/ (r' = trashed_row r /\ may r))
                            /\ (must r -> r' = trashed_row r)) rows rows' ->
  first (by_id (FileMeta.id obj)) rows' = Some (trashed_row obj).
Proof.
  intros Hin Hobj Hm H. induction H as [|r r' l l' Hr _ IH]; [destruct Hobj|].
  unfold first. cbn.
  assert (Hid : FileMeta.id r' = FileMeta.id r) by (destruct Hr as [[->|[-> _]] _]; reflexivity).
  unfold by_id. rewrite Hid. destruct (FileMeta.id r =? FileMeta.id obj) eqn:E.
  - apply Z.eqb_eq in E.
    assert (r = obj).
    { apply (NoDup_map_In_eq FileMeta.id _ r obj Hnd (Hin r (or_introl eq_refl))); [|exact E].
      apply Hin. exact Hobj. }
    subst r. destruct Hr as [_ Hmust]. rewrite (Hmust Hm). reflexivity.
  - apply IH; [intros x Hx; apply Hin; right; exact Hx|].
    destruct Hobj as [->|Hobj]; [rewrite Z.eqb_refl in E; discriminate E|exact Hobj].
Qed.

Lemma marked_first may must wa obj :
  marked may must wa -> In obj (file_meta w) -> must obj ->
  first (by_id (FileMeta.id obj)) (file_meta wa) = Some (trashed_row obj).
Proof.
  intros H Hobj Hm. eapply marked_first_rows; [| exact Hobj | exact Hm | exact H]. auto.
Qed.

(** What a soft delete leaves as it was. *)
Definition untouched (wa wb : World) : Prop :=
  file_meta_seq wb = file_meta_seq wa /\ file_store wb = file_store wa
  /\ file_chunk wb = file_chunk wa /\ sys_user wb = sys_user wa
  /\ files wb = files wa /\ dirs wb = dirs wa /\ disk_free wb = disk_free wa.

Lemma untouched_refl wa : untouched wa wa.
Proof. repeat split. Qed.

Lemma untouched_trans wa wb wc : untouched wa wb -> untouched wb wc -> untouched wa wc.
Proof.
  unfold untouched. intros (A1 & A2 & A3 & A4 & A5 & A6 & A7) (B1 & B2 & B3 & B4 & B5 & B6 & B7).
  repeat split; congruence.
Qed.

Lemma subtree_spec id obj d :
  get_obj id user_id w = Some obj -> (subtree id d <-> d = obj \/ below obj d).
Proof.
  intros Hobj. unfold subtree. split.
  - intros (obj' & Hobj' & H). assert (obj' = obj) by congruence. subst obj'. exact H.
  - intros H. exists obj. auto.
Qed.

Lemma remove_marks :
  forall fuel id wa r wb (may must : FileMeta.t -> Prop),
    marked may must wa -> remove fuel now id user_id wa = Ok r wb ->
    marked (fun d => may d \/ subtree id d) (fun d => must d \/ subtree id d) wb
    /\ untouched wa wb
    /\ r = option_map trashed_row (get_obj id user_id w).
Proof.
  induction fuel as [|fuel IH]; intros id wa r wb may must Hm H; [discriminate|].
  cbn [remove] in H. apply bind_Ok in H as (oa & w0 & Hg & H). apply gets_Ok in Hg as [-> ->].
  pose proof (alike_first (owned id user_id) _ _ (alike_owned id) (marked_alike _ _ _ Hm)) as Hfirst.
  fold (get_obj id user_id w) in Hfirst. fold (get_obj id user_id wa) in Hfirst.
  destruct (get_obj id user_id w) as [obj|] eqn:Hobj;
    destruct (get_obj id user_id wa) as [obj_a|] eqn:Hobj_a; try contradiction.
  2:{ injection H as <- <-. split; [|split; [apply untouched_refl|reflexivity]].
      eapply marked_weaken; [| |exact Hm]; [auto|].
      intros d [Hd|(o & Ho & _)]; [exact Hd|congruence]. }
  destruct Hfirst as (Hid_a & Hu_a & Hp_a & Hf_a).
  pose proof (get_obj_In _ _ _ _ Hobj) as (Hobj_in & Hobj_id & Hobj_u).
  apply bind_Ok in H as ([] & w1 & Hbody & H).
  set (X := fun d => FileMeta.is_folder obj = true
                     /\ exists c, In c (all (child_of id user_id) (file_meta w))
                                  /\ subtree (FileMeta.id c) d).
  assert (H1 : marked (fun d => may d \/ X d) (fun d => must d \/ X d) w1 /\ untouched wa w1).
  { rewrite Hf_a in Hbody. destruct (FileMeta.is_folder obj) eqn:Hfolder.
    2:{ injection Hbody as <-. split; [|apply untouched_refl].
        eapply marked_weaken; [| |exact Hm]; [auto|].
        intros d [Hd|[Hx _]]; [exact Hd|discriminate Hx]. }
    apply bind_Ok in Hbody as (children & w0 & Hg & Hbody). apply gets_Ok in Hg as [-> ->].
    pose proof (alike_all (child_of id user_id) _ _ (alike_child_of id) (marked_alike _ _ _ Hm))
      as Hchildren.
    assert (Hloop : forall cs cs_a,
              List.Forall2 alike cs cs_a ->
              forall wx wy (may0 must0 : FileMeta.t -> Prop),
                marked may0 must0 wx ->
                for_each cs_a (fun child => _ ← remove fuel now (FileMeta.id child) user_id; mret tt)
                         wx = Ok tt wy ->
                marked (fun d => may0 d \/ exists c, In c cs /\ subtree (FileMeta.id c) d)
                       (fun d => must0 d \/ exists c, In c cs /\ subtree (FileMeta.id c) d) wy
                /\ untouched wx wy).
    { induction 1 as [|c c_a cs cs_a Hc _ IHcs]; intros wx wy may0 must0 Hm0 Hrun.
      - injection Hrun as <-. split; [|apply untouched_refl].
        eapply marked_weaken; [| |exact Hm0]; [auto|].
        intros d [Hd|(c & [] & _)]. exact Hd.
      - cbn [for_each] in Hrun. apply bind_Ok in Hrun as ([] & wz & Hstep & Hrun).
        apply bind_Ok in Hstep as (rc & wz' & Hstep & Hret). injection Hret as <-.
        destruct Hc as (Hcid & _). rewrite Hcid in Hstep.
        destruct (IH _ _ _ _ _ _ Hm0 Hstep) as (Hmz & Huz & _).
        destruct (IHcs _ _ _ _ Hmz Hrun) as (Hmy & Huy).
        split; [|eapply untouched_trans; eassumption].
        eapply marked_weaken; [| |exact Hmy].
        + intros d [[Hd|Hd]|(x & Hx & Hd)]; [left; exact Hd|right; exists c; cbn; auto|].
          right. exists x. cbn. auto.
        + intros d [Hd|(x & [<-|Hx] & Hd)]; [left; left; exact Hd|left; right; exact Hd|].
          right. exists x. auto. }
    destruct (Hloop _ _ Hchildren _ _ _ _ Hm Hbody) as [Hm1 Hu1]. split; [|exact Hu1].
    eapply marked_weaken; [| |exact Hm1]; unfold X.
    - intros d [Hd|Hd]; auto.
    - intros d [Hd|[_ Hd]]; auto. }
  destruct H1 as [Hm1 Hu1].
  apply bind_Ok in H as ([] & w2 & Hmod & H). apply gets_Ok in H as [-> ->].
  unfold modify in Hmod. injection Hmod as <-. rewrite Hid_a.
  pose proof (marked_update _ _ w1 obj Hm1 Hobj_in) as Hm2.
  assert (Hsub : forall d, subtree id d <-> (X d \/ d = obj)).
  { intros d. rewrite (subtree_spec id obj d Hobj). unfold X. rewrite <- Hobj_id. split.
    - intros [->|Hb]; [right; reflexivity|]. left.
      inversion Hb as [n r0 Hf Hr0 Hc|n c r0 Hf Hcin Hc Hdeep]; subst.
      + split; [exact Hf|]. exists d. split; [apply filter_In; auto|].
        apply child_of_user in Hc. exists d. split; [apply get_obj_own; auto|auto].
      + split; [exact Hf|]. exists c. split; [apply filter_In; auto|].
        apply child_of_user in Hc. exists c. split; [apply get_obj_own; auto|auto].
    - intros [(Hf & c & Hc & oc & Hoc & Hd)| ->]; [|left; reflexivity]. right.
      apply filter_In in Hc as [Hcin Hchild].
      assert (oc = c).
      { pose proof (child_of_user _ _ Hchild) as Hcu.
        rewrite (get_obj_own c Hcin Hcu) in Hoc. congruence. }
      subst oc. destruct Hd as [->|Hd].
      + apply below_child; assumption.
      + eapply below_deeper; eassumption. }
  split; [|split].
  - eapply marked_weaken; [| |exact Hm2].
    + intros d [[Hd|Hd]|Hd]; [left; exact Hd|right; apply Hsub; left; exact Hd|].
      right. apply Hsub. right. exact Hd.
    + intros d [Hd|Hd]; [left; left; exact Hd|]. apply Hsub in Hd as [Hd|Hd]; auto.
  - destruct Hu1 as (A1 & A2 & A3 & A4 & A5 & A6 & A7). repeat split; assumption.
  - cbn. unfold compose. apply (marked_first _ _ _ obj Hm2 Hobj_in). right. reflexivity.
Qed.

Lemma remove_total (depth : Z -> nat) (bound : nat) :
  (forall c p, In c (file_meta w) -> In p (file_meta w) ->
      FileMeta.user_id c = user_id -> FileMeta.user_id p = user_id ->
      FileMeta.parent_id c = FileMeta.id p ->
      (depth (FileMeta.id p) < depth (FileMeta.id c))%nat) ->
  (forall r, In r (file_meta w) -> (depth (FileMeta.id r) < bound)%nat) ->
  forall fuel id wa (may must : FileMeta.t -> Prop),
    marked may must wa -> (bound - depth id < fuel)%nat ->
    exists r wb, remove fuel now id user_id wa = Ok r wb.
Proof.
  intros Hd Hb. induction fuel as [|fuel IH]; intros id wa may must Hm Hfuel; [lia|].
  cbn [remove]. unfold mbind at 1. unfold M_bind at 1. unfold gets at 1.
  pose proof (alike_first (owned id user_id) _ _ (alike_owned id) (marked_alike _ _ _ Hm)) as Hfirst.
  fold (get_obj id user_id w) in Hfirst. fold (get_obj id user_id wa) in Hfirst.
  destruct (get_obj id user_id w) as [obj|] eqn:Hobj;
    destruct (get_obj id user_id wa) as [obj_a|] eqn:Hobj_a; try contradiction;
    [|eexists _, _; reflexivity].
  destruct Hfirst as (Hid_a & Hu_a & Hp_a & Hf_a).
  pose proof (get_obj_In _ _ _ _ Hobj) as (Hobj_in & Hobj_id & Hobj_u).
  assert (Hbody : exists w1,
            (if FileMeta.is_folder obj_a then
               children ← gets (fun w0 => all (child_of id user_id) (file_meta w0));
               for_each children (fun child =>
                 _ ← remove fuel now (FileMeta.id child) user_id; mret tt)
             else mret tt) wa = Ok tt w1).
  { destruct (FileMeta.is_folder obj_a); [|eexists; reflexivity].
    unfold mbind at 1. unfold M_bind at 1. unfold gets at 1.
    pose proof (alike_all (child_of id user_id) _ _ (alike_child_of id) (marked_alike _ _ _ Hm))
      as Hchildren.
    assert (Hrows : forall c, In c (all (child_of id user_id) (file_meta w)) ->
              (bound - depth (FileMeta.id c) < fuel)%nat).
    { intros c Hc. apply filter_In in Hc as [Hcin Hchild].
      pose proof (child_of_user _ _ Hchild) as Hcu.
      unfold child_of in Hchild. apply andb_true_iff in Hchild as [Hcp _].
      apply Z.eqb_eq in Hcp. rewrite <- Hobj_id in Hcp.
      pose proof (Hd c obj Hcin Hobj_in Hcu Hobj_u Hcp). pose proof (Hb c Hcin).
      rewrite Hobj_id in *. lia. }
    assert (Hloop : forall cs cs_a,
              List.Forall2 alike cs cs_a ->
              (forall c, In c cs -> (bound - depth (FileMeta.id c) < fuel)%nat) ->
              forall wx (may0 must0 : FileMeta.t -> Prop),
                marked may0 must0 wx ->
                exists wy,
                  for_each cs_a (fun child =>
                                   _ ← remove fuel now (FileMeta.id child) user_id; mret tt)
                           wx = Ok tt wy).
    { induction 1 as [|c c_a cs cs_a Hc _ IHcs]; intros Hcs wx may0 must0 Hm0.
      - eexists. reflexivity.
      - cbn [for_each]. destruct Hc as (Hcid & _).
        destruct (IH (FileMeta.id c) wx may0 must0 Hm0 (Hcs c (or_introl eq_refl)))
          as (rc & wz & Hstep).
        destruct (remove_marks _ _ _ _ _ _ _ Hm0 Hstep) as (Hmz & _).
        unfold mbind at 1. unfold M_bind at 1. unfold mbind at 1. unfold M_bind at 1.
        rewrite Hcid, Hstep. cbn.
        apply (IHcs (fun x Hx => Hcs x (or_intror Hx)) wz _ _ Hmz). }
    exact (Hloop _ _ Hchildren Hrows wa may must Hm). }
  destruct Hbody as [w1 Hbody]. unfold mbind at 1. unfold M_bind at 1. rewrite Hbody.
  eexists _, _. reflexivity.
Qed.

End SoftDelete.

(** X6. Soft delete.  In a namespace without a cycle, [remove] on an
    existing node returns (with enough fuel) the node's row as put in the
    trash; in the table, the rows of the node and of every node below it
    (through folders, whatever their state) are marked deleted with the
    deletion time [now], row by row, and every other row is what it was;
    the blobs, the disk, the quota counters and the chunk sessions are not
    touched: a soft delete frees nothing. *)
Theorem remove_trashes_exactly_the_subtree :
  forall (user_id now : Z) (w : World) (id : Z) (obj : FileMeta.t),
    unique_ids w -> acyclic user_id w -> CRUDFileMeta.get_obj id user_id w = Some obj ->
    exists N, forall fuel, (N <= fuel)%nat ->
      exists w',
        CRUDFileMeta.remove fuel now id user_id w = Ok (Some (trashed_row now obj)) w'
        /\ List.Forall2
             (fun row row' =>
                ((row = obj \/ below user_id w obj row) -> row' = trashed_row now row)
                /\ (~ (row = obj \/ below user_id w obj row) -> row' = row))
             (file_meta w) (file_meta w')
        /\ untouched w w'.
Proof.
  intros user_id now w id obj Hnd [depth Hd] Hobj.
  destruct (depth_bound depth (file_meta w)) as [bound Hb].
  exists (S bound). intros fuel Hfuel.
  pose proof (marked_start now w) as Hstart.
  destruct (remove_total user_id now w Hnd depth bound Hd Hb fuel id w _ _ Hstart)
    as (r & w' & Hrun); [lia|].
  destruct (remove_marks user_id now w Hnd _ _ _ _ _ _ _ Hstart Hrun) as (Hm & Hu & Hr).
  rewrite Hobj in Hr. cbn in Hr. subst r. exists w'. split; [exact Hrun|]. split; [|exact Hu].
  unfold marked in Hm. eapply List.Forall2_impl; [|exact Hm].
  intros row row' [Hmay Hmust]. split.
  - intros Hin. apply Hmust. right. apply (subtree_spec user_id w id obj row Hobj). exact Hin.
  - intros Hout. destruct Hmay as [->|[_ [[]|Hs]]]; [reflexivity|].
    exfalso. apply Hout. apply (subtree_spec user_id w id obj row Hobj). exact Hs.
Qed.

(** ** Automatic renaming *)

Section AutoRename.

Import CRUDFileMeta.

Lemma probe_smallest taken name ext fuel :
  forall c r, probe taken name ext fuel c = Some r ->
  exists k, c <= k /\ r = numbered name ext k /\ taken r = false
            /\ forall j, c <= j < k -> taken (numbered name ext j) = true.
Proof.
  induction fuel as [|fuel IH]; intros c r H; [discriminate|]. simpl in H.
  destruct (taken (numbered name ext c)) eqn:E.
  - destruct (IH _ _ H) as (k & Hk & -> & Hf & Hbelow). exists k.
    split; [lia|]. split; [reflexivity|]. split; [exact Hf|].
    intros j Hj. destruct (Z.eq_dec j c) as [->|Hne]; [exact E|]. apply Hbelow. lia.
  - injection H as <-. exists c. split; [lia|]. split; [reflexivity|]. split; [exact E|].
    intros j Hj. lia.
Qed.

(** A name is taken under a parent when an active node there bears it. *)
Definition name_taken (user_id parent_id : Z) (w : World) (n : string) : Prop :=
  exists r, In r (file_meta w) /\ active_child_of parent_id user_id r = true
            /\ FileMeta.file_name r = n.

Lemma get_by_name_and_parent_taken user_id parent_id w n :
  is_Some (get_by_name_and_parent n parent_id user_id w) <-> name_taken user_id parent_id w n.
Proof.
  unfold get_by_name_and_parent, name_taken. split.
  - intros [r Hr]. apply first_some in Hr as [Hin Hp]. apply andb_true_iff in Hp as [Ha Hn].
    apply String.eqb_eq in Hn. eauto.
  - intros (r & Hin & Ha & Hn).
    destruct (first _ (file_meta w)) as [x|] eqn:E; [eauto|].
    apply first_none_all in E. apply (proj1 (all_nil_iff _ _)) with (x := r) in E; [|exact Hin].
    rewrite Ha, Hn, String.eqb_refl in E. discriminate E.
Qed.

Lemma existing_names_taken user_id parent_id file_name w n :
  (let '(name, ext) := split_ext file_name in like (name +:+ "%" +:+ ext) n = true) ->
  mem n (existing_names user_id parent_id file_name w) = true <-> name_taken user_id parent_id w n.
Proof.
  unfold existing_names, name_taken. destruct (split_ext file_name) as [name ext]. intros Hlike.
  rewrite mem_In, in_map_iff. split.
  - intros (r & Hn & Hr). apply filter_In in Hr as [Hin Hp]. apply andb_true_iff in Hp as [Ha _].
    eauto.
  - intros (r & Hin & Ha & Hn). exists r. split; [exact Hn|]. apply filter_In.
    split; [exact Hin|]. rewrite Ha, Hn, Hlike. reflexivity.
Qed.

(** X7. The automatic renaming returns the requested name when no active
    sibling bears it, and otherwise the name with the smallest counter
    [k >= 1] that no active sibling bears, the counter being put, as
    [" (k)"], before the extension: every smaller counter is taken.  The
    stem and the extension make up the requested name.  This holds of the
    routine of the CRUD layer (the extension is what follows the last dot of
    a name that does not begin with a dot) and of the routine of the
    endpoints (the extension of [os.path.splitext]).  Neither changes the
    database. *)
Theorem auto_rename_smallest_free_counter :
  forall (user_id parent_id : Z) (file_name : string) (w : World),
    let taken := name_taken user_id parent_id w in
    (forall stem ext, split_ext file_name = (stem, ext) ->
       file_name = stem +:+ ext
       /\ exists r, _get_unique_filename user_id parent_id file_name w = Ok r w
           /\ ~ taken r
           /\ (~ taken file_name -> r = file_name)
           /\ (taken file_name ->
                 exists k, 1 <= k /\ r = numbered stem ext k
                           /\ forall j, 1 <= j < k -> taken (numbered stem ext j)))
    /\ (forall stem ext, files.splitext file_name = (stem, ext) ->
          exists r, files.get_unique_filename file_name parent_id user_id w = Ok r w
            /\ ~ taken r
            /\ (~ taken file_name -> r = file_name)
            /\ (taken file_name ->
                  exists k, 1 <= k /\ r = numbered stem ext k
                            /\ forall j, 1 <= j < k -> taken (numbered stem ext j))).
Proof.
  intros user_id parent_id file_name w taken. split.
  - intros stem ext Hsplit. pose proof (split_ext_spec _ _ _ Hsplit) as Hname.
    split; [exact Hname|].
    assert (Hlike : forall x, let '(name, e) := split_ext file_name in
                              like (name +:+ "%" +:+ e) (stem +:+ x +:+ ext) = true).
    { intros x. rewrite Hsplit. apply like_pattern. }
    assert (Hself : mem file_name (existing_names user_id parent_id file_name w) = true
                    <-> taken file_name).
    { apply existing_names_taken. rewrite Hsplit, Hname. apply (like_pattern stem ext EmptyString). }
    assert (Hnum : forall k, mem (numbered stem ext k) (existing_names user_id parent_id file_name w)
                             = true <-> taken (numbered stem ext k)).
    { intros k. apply existing_names_taken. rewrite numbered_shape. apply Hlike. }
    unfold _get_unique_filename. rewrite Hsplit.
    destruct (mem file_name (existing_names user_id parent_id file_name w)) eqn:Hm; cbn [negb].
    + destruct (probe_total (fun n => mem n (existing_names user_id parent_id file_name w))
                  stem ext (existing_names user_id parent_id file_name w) 1) as [r Hr].
      { intros n Hn. apply mem_In. exact Hn. }
      rewrite Hr. exists r. split; [reflexivity|].
      apply probe_smallest in Hr as (k & Hk & -> & Hf & Hbelow).
      split; [|split].
      * intros Ht. apply Hnum in Ht. congruence.
      * intros Hn. exfalso. apply Hn. apply Hself. reflexivity.
      * intros _. exists k. split; [exact Hk|]. split; [reflexivity|].
        intros j Hj. apply Hnum. apply Hbelow. exact Hj.
    + exists file_name. split; [reflexivity|].
      assert (Hfree : ~ taken file_name) by (intros Ht; apply Hself in Ht; congruence).
      split; [exact Hfree|]. split; [reflexivity|]. intros Ht. contradiction.
  - intros stem ext Hsplit. unfold files.get_unique_filename. rewrite Hsplit.
    assert (Hdec : forall n, bool_decide (is_Some (get_by_name_and_parent n parent_id user_id w))
                             = true <-> taken n).
    { intros n. rewrite bool_decide_eq_true. apply get_by_name_and_parent_taken. }
    destruct (get_by_name_and_parent file_name parent_id user_id w) as [x|] eqn:E.
    + destruct (probe_total
                  (fun n => bool_decide (is_Some (get_by_name_and_parent n parent_id user_id w)))
                  stem ext (List.map FileMeta.file_name (file_meta w)) 1) as [r Hr].
      { intros n Hn. apply Hdec in Hn as (r0 & Hin & _ & Hn). apply in_map_iff. eauto. }
      rewrite length_map in Hr. rewrite Hr. exists r. split; [reflexivity|].
      apply probe_smallest in Hr as (k & Hk & -> & Hf & Hbelow).
      split; [|split].
      * intros Ht. apply Hdec in Ht. congruence.
      * intros Hn. exfalso. apply Hn. apply get_by_name_and_parent_taken. rewrite E. eauto.
      * intros _. exists k. split; [exact Hk|]. split; [reflexivity|].
        intros j Hj. apply Hdec. apply Hbelow. exact Hj.
    + exists file_name. split; [reflexivity|].
      assert (Hfree : ~ taken file_name).
      { intros Ht. apply get_by_name_and_parent_taken in Ht. rewrite E in Ht.
        destruct Ht as [? Ht]. discriminate Ht. }
      split; [exact Hfree|]. split; [reflexivity|]. intros Ht. contradiction.
Qed.

End AutoRename.

(** ** The resolution of a relative path *)

Section PathResolution.

Import CRUDFileMeta.

Lemma resolve_folder_again user_id now now' current_parent_id folder_name w r w1 :
  resolve_folder user_id now current_parent_id folder_name w = Ok r w1 ->
  (exists extra, file_meta w1 = file_meta w ++ extra)
  /\ forall w2 extra2, file_meta w2 = file_meta w1 ++ extra2 ->
       resolve_folder user_id now' current_parent_id folder_name w2 = Ok r w2.
Proof.
  unfold resolve_folder. destruct (String.eqb folder_name "") eqn:Hname.
  - intros H. injection H as <- <-. split; [exists []; symmetry; apply app_nil_r|].
    intros w2 extra2 _. reflexivity.
  - intros H. apply bind_Ok in H as (folder & w0 & Hg & H). apply gets_Ok in Hg as [-> ->].
    destruct (first (active_folder_named user_id current_parent_id folder_name) (file_meta w))
      as [folder|] eqn:Hf.
    + injection H as <- <-. split; [exists []; symmetry; apply app_nil_r|].
      intros w2 extra2 Hext. unfold mbind, M_bind, gets. rewrite Hext, first_app, Hf. reflexivity.
    + apply bind_Ok in H as (nf & wa & Hadd & H). unfold add_file_meta in Hadd.
      injection Hadd as <- <-.
      apply bind_Ok in H as (ex & wb & Hg & H). apply gets_Ok in Hg as [-> ->].
      cbn [file_meta with_file_meta with_file_meta_seq] in H.
      set (nf := FileMeta.mk (file_meta_seq w + 1) user_id current_parent_id folder_name true None
                             false None now now) in *.
      assert (Hnf : active_folder_named user_id current_parent_id folder_name nf = true).
      { unfold active_folder_named, active_child_of, child_of. cbn.
        rewrite !Z.eqb_refl, String.eqb_refl. reflexivity. }
      pose proof Hf as Hnone. apply first_none_all in Hnone.
      rewrite all_app, Hnone in H. cbn [app] in H.
      unfold all in H. cbn [List.filter] in H. rewrite Hnf in H.
      rewrite order_by_singleton in H. injection H as <- <-.
      split; [exists [nf]; reflexivity|].
      intros w2 extra2 Hext. cbn [file_meta with_file_meta with_file_meta_seq] in Hext.
      unfold mbind, M_bind, gets. rewrite Hext, <- app_assoc, first_app, Hf.
      unfold first. cbn [app List.find]. rewrite Hnf. reflexivity.
Qed.

Lemma resolve_path_again user_id now now' (parts : list string) :
  forall parent_id w r w1,
    foldM (resolve_folder user_id now) parent_id parts w = Ok r w1 ->
    (exists extra, file_meta w1 = file_meta w ++ extra)
    /\ forall w2 extra2, file_meta w2 = file_meta w1 ++ extra2 ->
         foldM (resolve_folder user_id now') parent_id parts w2 = Ok r w2.
Proof.
  induction parts as [|n parts IH]; intros parent_id w r w1 H; cbn [foldM] in *.
  - injection H as <- <-. split; [exists []; symmetry; apply app_nil_r|].
    intros w2 extra2 _. reflexivity.
  - apply bind_Ok in H as (p1 & wa & Hstep & H).
    destruct (resolve_folder_again _ _ now' _ _ _ _ _ Hstep) as ([e1 He1] & Hagain).
    destruct (IH _ _ _ _ H) as ([e2 He2] & Hrest).
    split; [exists (e1 ++ e2); rewrite He2, He1, <- app_assoc; reflexivity|].
    intros w2 extra2 Hext. unfold mbind, M_bind.
    rewrite (Hagain w2 (e2 ++ extra2)) by (rewrite Hext, He2, <- app_assoc; reflexivity).
    apply (Hrest w2 extra2 Hext).
Qed.

(** The folders named by [parts], one in the other from [parent_id] down,
    exist as active folders of the owner, and the last one is [folder_id]
    (empty components are skipped). *)
Inductive resolved (user_id : Z) (w : World) : Z -> list string -> Z -> Prop :=
| resolved_end parent_id : resolved user_id w parent_id [] parent_id
| resolved_skip parent_id parts folder_id :
    resolved user_id w parent_id parts folder_id ->
    resolved user_id w parent_id (EmptyString :: parts) folder_id
| resolved_step parent_id folder_name parts folder folder_id :
    folder_name <> EmptyString -> In folder (file_meta w) ->
    active_folder_named user_id parent_id folder_name folder = true ->
    resolved user_id w (FileMeta.id folder) parts folder_id ->
    resolved user_id w parent_id (folder_name :: parts) folder_id.

Lemma resolved_ext user_id w w' parent_id parts folder_id :
  (forall r, In r (file_meta w) -> In r (file_meta w')) ->
  resolved user_id w parent_id parts folder_id -> resolved user_id w' parent_id parts folder_id.
Proof.
  intros Hin H. induction H.
  - constructor.
  - constructor. assumption.
  - eapply resolved_step; eauto.
Qed.

Lemma resolve_folder_found user_id now current_parent_id folder_name w r w1 :
  resolve_folder user_id now current_parent_id folder_name w = Ok r w1 ->
  folder_name <> EmptyString ->
  exists folder, In folder (file_meta w1)
                 /\ active_folder_named user_id current_parent_id folder_name folder = true
                 /\ FileMeta.id folder = r.
Proof.
  intros H Hname. pose proof (resolve_folder_again _ _ now _ _ _ _ _ H) as (_ & Hagain).
  specialize (Hagain w1 [] (eq_sym (app_nil_r _))). unfold resolve_folder in Hagain.
  destruct (String.eqb folder_name "") eqn:E; [apply String.eqb_eq in E; contradiction|].
  apply bind_Ok in Hagain as (folder & w0 & Hg & Hagain). apply gets_Ok in Hg as [-> ->].
  destruct (first _ (file_meta w1)) as [folder|] eqn:Hf.
  - injection Hagain as <-. apply first_some in Hf as [Hin Hp]. eauto.
  - exfalso. apply bind_Ok in Hagain as (nf & wa & Hadd & Hagain).
    unfold add_file_meta in Hadd. injection Hadd as <- <-.
    apply bind_Ok in Hagain as (ex & wb & Hg & Hagain). apply gets_Ok in Hg as [-> ->].
    assert (Hseq : file_meta_seq w1 + 1 = file_meta_seq w1 -> False) by lia.
    destruct (order_by _ _) as [|pf [|d dups]]; [| |].
    + injection Hagain as _ Hw. apply (f_equal file_meta_seq) in Hw. cbn in Hw. lia.
    + injection Hagain as _ Hw. apply (f_equal file_meta_seq) in Hw. cbn in Hw. lia.
    + apply bind_Ok in Hagain as ([] & wc & Hmod & Hagain). unfold modify in Hmod.
      injection Hmod as <-. injection Hagain as _ Hw.
      apply (f_equal file_meta_seq) in Hw. cbn in Hw. lia.
Qed.

Lemma resolve_path_resolved user_id now (parts : list string) :
  forall parent_id w r w1,
    foldM (resolve_folder user_id now) parent_id parts w = Ok r w1 ->
    resolved user_id w1 parent_id parts r.
Proof.
  induction parts as [|n parts IH]; intros parent_id w r w1 H; cbn [foldM] in *.
  - injection H as <- <-. constructor.
  - apply bind_Ok in H as (p1 & wa & Hstep & H).
    destruct (resolve_path_again user_id now now _ _ _ _ _ H) as ([e He] & _).
    pose proof (IH _ _ _ _ H) as Hrest.
    destruct (String.eqb n "") eqn:E.
    + apply String.eqb_eq in E. subst n. unfold resolve_folder in Hstep. cbn in Hstep.
      injection Hstep as <- <-. constructor. exact Hrest.
    + apply String.eqb_neq in E.
      destruct (resolve_folder_found _ _ _ _ _ _ _ Hstep E) as (folder & Hin & Hp & <-).
      eapply resolved_step; [exact E| |exact Hp|exact Hrest].
      rewrite He. apply in_or_app. left. exact Hin.
Qed.

(** X8. The resolution of a relative path always returns, and only adds
    rows.  Afterwards the folders named by the components before the last
    slash exist as active folders, one in the other from the parent down,
    and the folder returned is the last of them; and any later resolution
    of the same path from the same parent returns the same folder without
    creating anything: the second call leaves the database as the first one
    left it. *)
Theorem get_or_create_path_idempotent :
  forall (user_id now now' parent_id : Z) (relative_path : string) (w : World),
    exists folder_id w1,
      get_or_create_path user_id now parent_id relative_path w = Ok folder_id w1
      /\ resolved user_id w1 parent_id (removelast (split_slash relative_path)) folder_id
      /\ get_or_create_path user_id now' parent_id relative_path w1 = Ok folder_id w1
      /\ exists created, file_meta w1 = file_meta w ++ created.
Proof.
  intros user_id now now' parent_id relative_path w. unfold get_or_create_path.
  destruct (foldM_total (resolve_folder user_id now) (resolve_folder_total user_id now)
              (removelast (split_slash relative_path)) parent_id w) as (r & w1 & H).
  exists r, w1. split; [exact H|]. split; [exact (resolve_path_resolved _ _ _ _ _ _ _ H)|].
  destruct (resolve_path_again user_id now now' _ _ _ _ _ H) as (Hext & Hagain).
  split; [|exact Hext]. apply (Hagain w1 []). symmetry. apply app_nil_r.
Qed.

End PathResolution.

(** ** The path of a folder *)

Section Breadcrumb.

Import CRUDFileMeta.

Variables (user_id : Z) (w : World).

(** Each node of the list is the parent of the next one. *)
Inductive linked : list FileMeta.t -> Prop :=
| linked_nil : linked []
| linked_one a : linked [a]
| linked_cons a b l :
    FileMeta.parent_id b = FileMeta.id a -> linked (b :: l) -> linked (a :: b :: l).

Lemma linked_snoc l a b :
  linked (l ++ [a]) -> FileMeta.parent_id b = FileMeta.id a -> linked (l ++ [a; b]).
Proof.
  induction l as [|x l IH]; intros H Hb; cbn in *.
  - constructor; [exact Hb|constructor].
  - destruct l as [|y l]; cbn in *.
    + inversion H; subst. constructor; [assumption|]. constructor; [exact Hb|constructor].
    + inversion H; subst. constructor; [assumption|]. apply IH; assumption.
Qed.

(** The path from a root down to the node [n]. *)
Definition path_to (n : Z) (l : list FileMeta.t) : Prop :=
  linked l
  /\ (forall a, In a l -> In a (file_meta w) /\ FileMeta.user_id a = user_id)
  /\ (forall a rest, l = a :: rest ->
        FileMeta.parent_id a = 0 \/ get_obj (FileMeta.parent_id a) user_id w = None)
  /\ (n = 0 \/ get_obj n user_id w = None -> l = [])
  /\ (forall obj, n <> 0 -> get_obj n user_id w = Some obj -> exists l', l = l' ++ [obj]).

Lemma path_to_nil n : n = 0 \/ get_obj n user_id w = None -> path_to n [].
Proof.
  intros Hn. split; [constructor|]. split; [intros a []|]. split; [intros a rest Hl; discriminate Hl|].
  split; [reflexivity|]. intros obj Hnz Ho. destruct Hn as [Hn|Hn]; congruence.
Qed.

Lemma get_ancestors_from_path fuel :
  forall n l, get_ancestors_from fuel w user_id n [] = Some l -> path_to n l.
Proof.
  induction fuel as [|fuel IH]; intros n l H; [discriminate|]. simpl in H.
  destruct (n =? 0) eqn:E0.
  { injection H as <-. apply Z.eqb_eq in E0. apply path_to_nil. left. exact E0. }
  apply Z.eqb_neq in E0.
  destruct (get_obj n user_id w) as [folder|] eqn:Hobj.
  2:{ injection H as <-. apply path_to_nil. right. exact Hobj. }
  rewrite get_ancestors_from_acc in H.
  destruct (get_ancestors_from fuel w user_id (FileMeta.parent_id folder) []) as [lp|] eqn:Hrec;
    [|discriminate H].
  cbn in H. injection H as <-.
  destruct (IH _ _ Hrec) as (Hlink & Hmem & Hroot & Hnone & Hlast).
  pose proof (get_obj_In _ _ _ _ Hobj) as (Hin & Hid & Hu).
  split; [|split; [|split; [|split]]].
  - destruct (Z.eq_dec (FileMeta.parent_id folder) 0) as [Hz|Hnz].
    + rewrite (Hnone (or_introl Hz)). constructor.
    + destruct (get_obj (FileMeta.parent_id folder) user_id w) as [par|] eqn:Hpar.
      * destruct (Hlast par Hnz eq_refl) as [l' ->]. rewrite <- app_assoc. cbn.
        apply linked_snoc; [exact Hlink|].
        apply get_obj_In in Hpar as (_ & Hpid & _). congruence.
      * rewrite (Hnone (or_intror eq_refl)). constructor.
  - intros a Ha. apply in_app_iff in Ha as [Ha|[<-|[]]]; auto.
  - intros a rest Hl. destruct lp as [|x lp'].
    + cbn in Hl. injection Hl as <- <-.
      destruct (Z.eq_dec (FileMeta.parent_id folder) 0) as [Hz|Hnz]; [left; exact Hz|].
      right. destruct (get_obj (FileMeta.parent_id folder) user_id w) as [par|] eqn:Hpar;
        [|reflexivity].
      destruct (Hlast par Hnz eq_refl) as [l' Hl']. destruct l'; cbn in Hl'; discriminate Hl'.
    + cbn in Hl. injection Hl as <- <-. apply (Hroot x lp'). reflexivity.
  - intros [Hz|Hn]; [contradiction|congruence].
  - intros obj _ Ho. assert (obj = folder) by congruence. subst obj. eauto.
Qed.

End Breadcrumb.

(** X9. The folder path.  In a namespace without a cycle, [get_folder_path]
    returns (with enough fuel), changes nothing, and its answer for the
    folder [folder_id] is a list of the owner's nodes in which each node is
    the parent of the next one, which starts at a node without a parent
    among the owner's nodes and ends with the folder itself; it is empty
    when [folder_id] is 0 or names no node of the owner. *)
Theorem get_folder_path_breadcrumb :
  forall (user_id : Z) (w : World) (folder_id : Z),
    acyclic user_id w ->
    exists N, forall fuel, (N <= fuel)%nat ->
      exists l,
        files.get_folder_path fuel user_id folder_id w = Ok l w
        /\ path_to user_id w folder_id l.
Proof.
  intros user_id w folder_id [depth Hd]. exists (depth folder_id + 2)%nat. intros fuel Hfuel.
  unfold files.get_folder_path. destruct (folder_id =? 0) eqn:E0.
  - exists []. split; [reflexivity|]. apply Z.eqb_eq in E0. apply path_to_nil. left. exact E0.
  - unfold CRUDFileMeta.get_ancestors.
    destruct (get_ancestors_from_total user_id w depth Hd fuel folder_id [] Hfuel) as [l Hl].
    rewrite Hl. exists l. split; [reflexivity|].
    apply (get_ancestors_from_path user_id w fuel folder_id l Hl).
Qed.

(** ** The quota of the uploads, and the end of a chunk session *)

Section Quota.

Import CRUDFileMeta.

Variable md5 : list Byte.byte -> string.
Variable UPLOAD_DIR : string.
Variable EXTRA_STORAGE_PATHS : list string.
Variable DIR_SIZE : Z.

(** The counter of a user after [size] bytes more. *)
Definition charge (size : Z) (u : User.t) : User.t :=
  User.mk (User.id u) (User.quota_total u) (User.quota_used u + size).

(** [size] bytes more do not take the user over the quota. *)
Definition within_quota (user size : Z) (w : World) : Prop :=
  forall u, sys_user w !! user = Some u -> User.quota_used u + size <= User.quota_total u.

(** From [w] to [w'], [size] bytes were charged to [user], and to nobody
    else; they fitted in. *)
Definition charged (user size : Z) (w w' : World) : Prop :=
  sys_user w' = alter (charge size) user (sys_user w) /\ within_quota user size w.

(** The tables an upload has no business with until it commits: the users
    and the chunk sessions. *)
Definition bystanders (w : World) : gmap Z User.t * list FileChunk.t :=
  (sys_user w, file_chunk w).

(** An operation that leaves them alone, however it ends. *)
Definition keeps_bystanders {A} (m : M A) : Prop :=
  forall w, final (m w) (fun w' => bystanders w' = bystanders w).

Lemma keeps_bystanders_bind {A B} (m : M A) (k : A -> M B) :
  keeps_bystanders m -> (forall a, keeps_bystanders (k a)) -> keeps_bystanders (m ≫= k).
Proof.
  intros Hm Hk w. specialize (Hm w). unfold mbind, M_bind.
  destruct (m w) as [a w1|e w1|]; cbn in *; [|exact Hm|exact I].
  specialize (Hk a w1). destruct (k a w1); cbn in *; congruence.
Qed.

Lemma keeps_bystanders_same_db {A} (m : M A) :
  (forall w, final (m w) (same_db w)) -> keeps_bystanders m.
Proof.
  intros H w. specialize (H w). unfold bystanders. destruct (m w); cbn in *; try exact I;
    destruct H as (_ & _ & _ & -> & ->); reflexivity.
Qed.

Lemma keeps_bystanders_gets {A} (f : World -> A) : keeps_bystanders (gets f).
Proof. intros w. reflexivity. Qed.

Lemma keeps_bystanders_ret {A} (a : A) : keeps_bystanders (mret a).
Proof. intros w. reflexivity. Qed.

Lemma keeps_bystanders_raise {A} (e : exn) : keeps_bystanders (raise (A := A) e).
Proof. intros w. reflexivity. Qed.

Lemma keeps_bystanders_increment h : keeps_bystanders (increment_ref_count h).
Proof. intros w. reflexivity. Qed.

Lemma keeps_bystanders_create_file_store h real_path file_size :
  keeps_bystanders (create_file_store h real_path file_size).
Proof.
  intros w. unfold create_file_store. munfold. destruct (get_by_hash h w); [reflexivity|].
  unfold insert_file_store. cbn. destruct (existsb _ _); reflexivity.
Qed.

Lemma keeps_bystanders_destination current_user now file_name parent_id relative_path auto_rename :
  keeps_bystanders (files.destination current_user now file_name parent_id relative_path auto_rename).
Proof.
  intros w.
  pose proof (destination_adds_folders current_user now file_name parent_id relative_path
                auto_rename w) as H.
  unfold bystanders. destruct (files.destination _ _ _ _ _ _ w); cbn in *; try exact I;
    destruct H as (_ & -> & -> & _); reflexivity.
Qed.

(** What a request does to the quota counters; [proj] reads the committed
    node off the value returned, and [fits] describes the size charged. *)
Definition quota_post {A} (proj : A -> option FileMeta.t) (user : Z) (fits : Z -> Prop)
    (w : World) (o : outcome A) : Prop :=
  match o with
  | Ok a w' =>
      match proj a with
      | Some _ => exists size, fits size /\ charged user size w w'
      | None => sys_user w' = sys_user w
      end
  | Raise _ w' => sys_user w' = sys_user w
  | Diverge => True
  end.

Lemma quota_post_bind {A B} (proj : B -> option FileMeta.t) user fits (m : M A) (k : A -> M B)
    (w w1 : World) :
  keeps_bystanders m -> sys_user w1 = sys_user w ->
  (forall a w2, m w1 = Ok a w2 -> sys_user w2 = sys_user w -> quota_post proj user fits w (k a w2)) ->
  quota_post proj user fits w ((m ≫= k) w1).
Proof.
  intros Hm Hw Hk. specialize (Hm w1). unfold mbind, M_bind.
  destruct (m w1) as [a w2|e w2|] eqn:E; cbn in *; [| |exact I];
    apply (f_equal fst) in Hm; cbn in Hm.
  - apply Hk; [reflexivity|congruence].
  - congruence.
Qed.

(** A step that cannot return, and keeps the users. *)
Lemma quota_post_fails {A B} (proj : B -> option FileMeta.t) user fits (m : M A) e (w w1 : World) :
  keeps_bystanders m -> sys_user w1 = sys_user w ->
  quota_post proj user fits w ((m ≫= fun _ => raise e) w1).
Proof.
  intros Hm Hw. apply quota_post_bind; [exact Hm|exact Hw|]. intros a w2 _ H2. exact H2.
Qed.

Lemma quota_exceeded_within user size w w1 :
  sys_user w1 = sys_user w -> files.quota_exceeded user size w1 = false -> within_quota user size w.
Proof.
  intros Hw H u Hu. unfold files.quota_exceeded in H. rewrite Hw, Hu in H. lia.
Qed.

(** [commit_node] returns, and charges the size. *)
Lemma commit_node_charges current_user now final_filename target_parent_id h file_size w :
  match files.commit_node current_user now final_filename target_parent_id h file_size w with
  | Ok _ w' => sys_user w' = alter (charge file_size) current_user (sys_user w)
  | Raise _ _ => False
  | Diverge => True
  end.
Proof.
  unfold files.commit_node, create_with_user. munfold. cbn.
  pose proof (_get_unique_filename_pure current_user target_parent_id final_filename w) as Hp.
  destruct (_get_unique_filename _ _ _ w) as [n w1|e w1|] eqn:E; cbn in Hp.
  - subst w1. cbn. reflexivity.
  - unfold _get_unique_filename in E. destruct (split_ext final_filename).
    destruct (negb _); [discriminate|]. destruct (probe _ _ _ _ _); discriminate.
  - exact I.
Qed.

Lemma commit_node_quota_post {B} (proj : B -> option FileMeta.t) (fits : Z -> Prop)
    (k : FileMeta.t -> M B) current_user now final_filename target_parent_id h file_size w w0 w1 :
  sys_user w0 = sys_user w -> sys_user w1 = sys_user w ->
  files.quota_exceeded current_user file_size w0 = false -> fits file_size ->
  (forall node w2,
     exists b w3, k node w2 = Ok b w3 /\ proj b = Some node /\ sys_user w3 = sys_user w2) ->
  quota_post proj current_user fits w
    ((files.commit_node current_user now final_filename target_parent_id h file_size ≫= k) w1).
Proof.
  intros H0 H1 Hq Hfits Hk. unfold mbind, M_bind.
  pose proof (commit_node_charges current_user now final_filename target_parent_id h file_size w1) as Hc.
  destruct (files.commit_node _ _ _ _ _ _ w1) as [node w2|e w2|]; [|contradiction|exact I].
  destruct (Hk node w2) as (b & w3 & -> & Hp & H3). cbn. rewrite Hp.
  exists file_size. split; [exact Hfits|]. split; [congruence|].
  exact (quota_exceeded_within _ _ _ _ H0 Hq).
Qed.

Lemma commit_node_quota_post_direct (fits : Z -> Prop)
    current_user now final_filename target_parent_id h file_size w w0 w1 :
  sys_user w0 = sys_user w -> sys_user w1 = sys_user w ->
  files.quota_exceeded current_user file_size w0 = false -> fits file_size ->
  quota_post Some current_user fits w
    (files.commit_node current_user now final_filename target_parent_id h file_size w1).
Proof.
  intros H0 H1 Hq Hfits.
  pose proof (commit_node_charges current_user now final_filename target_parent_id h file_size w1) as Hc.
  destruct (files.commit_node _ _ _ _ _ _ w1) as [node w2|e w2|]; [|contradiction|exact I].
  cbn. exists file_size. split; [exact Hfits|]. split; [congruence|].
  exact (quota_exceeded_within _ _ _ _ H0 Hq).
Qed.

Lemma keeps_bystanders_write_file p content : keeps_bystanders (write_file p content).
Proof. apply keeps_bystanders_same_db. intros w. apply write_file_same_db. Qed.

Lemma keeps_bystanders_os_remove p : keeps_bystanders (os_remove p).
Proof. apply keeps_bystanders_same_db. intros w. apply os_remove_same_db. Qed.

Lemma keeps_bystanders_getsize p : keeps_bystanders (files.os_path_getsize DIR_SIZE p).
Proof.
  apply keeps_bystanders_same_db. intros w. apply final_eq_same_db, os_path_getsize_final.
Qed.

Lemma keeps_bystanders_best : keeps_bystanders (files.get_best_storage_path UPLOAD_DIR EXTRA_STORAGE_PATHS).
Proof. apply keeps_bystanders_same_db. intros w. apply get_best_storage_path_same_db. Qed.

Lemma getsize_written p content w w1 size w2 :
  w1 = with_files (<[p := content]> (files w)) w ->
  files.os_path_getsize DIR_SIZE p w1 = Ok size w2 -> size = Z.of_nat (length content).
Proof.
  intros -> H. unfold files.os_path_getsize in H. cbn in H.
  rewrite lookup_insert_eq in H. injection H as <- _. reflexivity.
Qed.

Lemma upload_file_quota current_user now filename content parent_id relative_path auto_rename
    uuid w :
  quota_post Some current_user (fun size => size = Z.of_nat (length content)) w
    (files.upload_file md5 UPLOAD_DIR EXTRA_STORAGE_PATHS DIR_SIZE current_user now filename content
       parent_id relative_path auto_rename uuid w).
Proof.
  unfold files.upload_file.
  destruct (negb (files.is_filename_valid filename)); [reflexivity|].
  apply quota_post_bind; [apply keeps_bystanders_destination|reflexivity|].
  intros [target final_name] w1 _ H1.
  set (temp := os_path_join UPLOAD_DIR _).
  apply quota_post_bind; [apply keeps_bystanders_write_file|exact H1|]. intros [] w2 Hw H2.
  apply write_file_Ok in Hw.
  apply quota_post_bind; [apply keeps_bystanders_getsize|exact H2|]. intros file_size w3 Hsz H3.
  pose proof (getsize_written _ _ _ _ _ _ Hw Hsz) as Hsize.
  apply quota_post_bind; [apply keeps_bystanders_gets|exact H3|]. intros over w4 Hg _.
  apply gets_Ok in Hg as [-> ->].
  destruct (files.quota_exceeded current_user file_size w3) eqn:Hq.
  { apply quota_post_fails; [apply keeps_bystanders_os_remove|exact H3]. }
  apply quota_post_bind; [apply keeps_bystanders_gets|exact H3|]. intros existing w4 Hg _.
  apply gets_Ok in Hg as [-> ->].
  apply quota_post_bind; [|exact H3|].
  - destruct (get_by_hash (md5 content) w3).
    + apply keeps_bystanders_bind; [apply keeps_bystanders_increment|]. intros _. apply keeps_bystanders_os_remove.
    + apply keeps_bystanders_bind; [apply keeps_bystanders_best|]. intros path.
      apply keeps_bystanders_bind; [apply keeps_bystanders_gets|]. intros present.
      apply keeps_bystanders_bind.
      * destruct present; [apply keeps_bystanders_os_remove|].
        apply keeps_bystanders_same_db. intros w0. apply shutil_move_same_db.
      * intros _. apply keeps_bystanders_bind; [apply keeps_bystanders_create_file_store|].
        intros _. apply keeps_bystanders_ret.
  - intros _ w4 _ H4.
    apply (commit_node_quota_post_direct _ _ _ _ _ _ _ w w3 w4 H3 H4 Hq Hsize).
Qed.

Lemma check_fast_upload_quota current_user now file_hash file_name parent_id relative_path
    auto_rename w :
  quota_post id current_user
    (fun size => exists store, get_by_hash file_hash w = Some store
                               /\ size = FileStore.file_size store) w
    (files.check_fast_upload current_user now file_hash file_name parent_id relative_path
       auto_rename w).
Proof.
  unfold files.check_fast_upload.
  destruct (negb (files.is_filename_valid file_name)); [reflexivity|].
  pose proof (destination_adds_folders current_user now file_name parent_id relative_path
                auto_rename w) as Hd.
  unfold mbind at 1, M_bind at 1.
  destruct (files.destination _ _ _ _ _ _ w) as [[target final_name] w1|e w1|]; cbn in Hd |- *;
    [|destruct Hd as (_ & _ & H & _); exact H|exact I].
  pose proof (adds_folders_no_commit _ _ Hd) as Hnc. destruct Hd as (_ & _ & H1 & _).
  apply quota_post_bind; [apply keeps_bystanders_gets|exact H1|]. intros existing w2 Hg _.
  apply gets_Ok in Hg as [-> ->]. rewrite (no_commit_get_by_hash _ _ _ Hnc).
  destruct (get_by_hash file_hash w) as [s|] eqn:Hs; [|exact H1].
  apply quota_post_bind; [apply keeps_bystanders_gets|exact H1|]. intros over w2 Hg _.
  apply gets_Ok in Hg as [-> ->].
  destruct (files.quota_exceeded _ _ _) eqn:Hq; [exact H1|].
  apply quota_post_bind; [apply keeps_bystanders_increment|exact H1|]. intros _ w2 _ H2.
  apply (commit_node_quota_post _ _ _ _ _ _ _ _ _ w w1 w2 H1 H2 Hq); [eauto|].
  intros node w3. exists (Some node), w3. repeat split.
Qed.

Lemma merge_chunks_quota current_user now upload_id file_name file_hash parent_id relative_path
    auto_rename w :
  quota_post Some current_user (fun _ => True) w
    (files.merge_chunks md5 UPLOAD_DIR EXTRA_STORAGE_PATHS DIR_SIZE current_user now upload_id
       file_name file_hash parent_id relative_path auto_rename w).
Proof.
  unfold files.merge_chunks. apply quota_post_bind; [|reflexivity|].
  { unfold files.merge_prelude.
    destruct (negb (files.is_filename_valid file_name)); [apply keeps_bystanders_raise|].
    apply keeps_bystanders_bind; [apply keeps_bystanders_destination|]. intros [target final_name].
    apply keeps_bystanders_same_db. intros w0.
    apply same_db_bind; [apply gets_same_db|]. intros chunks w2.
    apply same_db_bind; [apply check_session_same_db|]. intros _ w3.
    apply same_db_bind; [apply get_best_storage_path_same_db|]. intros path w4.
    apply same_db_refl. }
  intros [[[target final_name] chunks] final_path] w1 _ H1.
  apply quota_post_bind; [|exact H1|].
  { apply keeps_bystanders_same_db. intros w0. apply reassemble_same_db. }
  intros _ w2 _ H2. unfold files.merge_commit.
  apply quota_post_bind; [apply keeps_bystanders_getsize|exact H2|]. intros file_size w3 _ H3.
  apply quota_post_bind; [apply keeps_bystanders_gets|exact H3|]. intros over w4 Hg _.
  apply gets_Ok in Hg as [-> ->].
  destruct (files.quota_exceeded current_user file_size w3) eqn:Hq.
  { apply quota_post_bind; [apply keeps_bystanders_gets|exact H3|]. intros ex w4 Hg _.
    apply gets_Ok in Hg as [-> ->].
    apply quota_post_fails; [|exact H3].
    destruct (get_by_hash file_hash w3); [apply keeps_bystanders_ret|apply keeps_bystanders_os_remove]. }
  apply quota_post_bind; [apply keeps_bystanders_gets|exact H3|]. intros ex w4 Hg _.
  apply gets_Ok in Hg as [-> ->].
  apply quota_post_bind; [|exact H3|].
  { destruct (get_by_hash file_hash w3).
    - apply keeps_bystanders_bind; [apply keeps_bystanders_increment|]. intros _. apply keeps_bystanders_ret.
    - apply keeps_bystanders_bind; [apply keeps_bystanders_create_file_store|]. intros _.
      apply keeps_bystanders_ret. }
  intros _ w4 _ H4.
  apply (commit_node_quota_post _ _ _ _ _ _ _ _ _ w w3 w4 H3 H4 Hq I).
  intros node w5. eexists _, _. split; [reflexivity|]. repeat split.
Qed.

(** An operation that ends, by a value or by an exception. *)
Definition ends {A} (m : M A) : Prop := forall w, m w <> Diverge.

Lemma ends_bind {A B} (m : M A) (k : A -> M B) :
  ends m -> (forall a, ends (k a)) -> ends (m ≫= k).
Proof.
  intros Hm Hk w. specialize (Hm w). unfold mbind, M_bind.
  destruct (m w) as [a w1|e w1|]; [apply Hk|discriminate|contradiction].
Qed.

Lemma ends_gets {A} (f : World -> A) : ends (gets f).
Proof. intros w. discriminate. Qed.

Lemma ends_ret {A} (a : A) : ends (mret a).
Proof. intros w. discriminate. Qed.

Lemma ends_raise {A} (e : exn) : ends (raise (A := A) e).
Proof. intros w. discriminate. Qed.

Lemma ends_modify (f : World -> World) : ends (modify f).
Proof. intros w. discriminate. Qed.

Lemma ends_write_file p content : ends (write_file p content).
Proof. intros w. unfold write_file. destruct (is_dir p w); discriminate. Qed.

Lemma ends_os_remove p : ends (os_remove p).
Proof. intros w. unfold os_remove. destruct (is_file p w); discriminate. Qed.

Lemma ends_read_file p : ends (files.read_file p).
Proof. intros w. unfold files.read_file. destruct (files w !! p); discriminate. Qed.

Lemma ends_getsize p : ends (files.os_path_getsize DIR_SIZE p).
Proof.
  intros w. unfold files.os_path_getsize. destruct (files w !! p); [discriminate|].
  destruct (is_dir p w); discriminate.
Qed.

Lemma ends_shutil_move src dst : ends (files.shutil_move src dst).
Proof.
  unfold files.shutil_move. apply ends_bind; [apply ends_read_file|]. intros c.
  apply ends_bind; [apply ends_write_file|]. intros _. apply ends_os_remove.
Qed.

Lemma ends_best : ends (files.get_best_storage_path UPLOAD_DIR EXTRA_STORAGE_PATHS).
Proof.
  intros w. unfold files.get_best_storage_path.
  destruct (fold_left _ _ _) as [[[p|] f] made]; discriminate.
Qed.

Lemma ends_increment h : ends (increment_ref_count h).
Proof. intros w. discriminate. Qed.

Lemma ends_create_file_store h real_path file_size :
  ends (create_file_store h real_path file_size).
Proof.
  unfold create_file_store. apply ends_bind; [apply ends_gets|]. intros [s|].
  - apply ends_increment.
  - apply ends_bind.
    + intros w. unfold insert_file_store. destruct (existsb _ _); discriminate.
    + intros [|]; [apply ends_ret|apply ends_increment].
Qed.

Lemma ends_for_each {A} (l : list A) (body : A -> M unit) :
  (forall x, ends (body x)) -> ends (for_each l body).
Proof.
  intros Hb. induction l as [|x l IH]; cbn; [apply ends_ret|].
  apply ends_bind; [apply Hb|]. intros _. exact IH.
Qed.

Lemma ends_foldM {A B} (f : B -> A -> M B) (l : list A) :
  (forall b a, ends (f b a)) -> forall b, ends (foldM f b l).
Proof.
  intros Hf. induction l as [|x l IH]; intros b; cbn; [apply ends_ret|].
  apply ends_bind; [apply Hf|]. exact IH.
Qed.

Lemma ends_destination current_user now file_name parent_id relative_path auto_rename :
  ends (files.destination current_user now file_name parent_id relative_path auto_rename).
Proof.
  intros w H.
  pose proof (destination_total current_user now file_name parent_id relative_path auto_rename w)
    as Ht.
  rewrite H in Ht. exact Ht.
Qed.

Lemma ends_commit_node current_user now final_filename target_parent_id h file_size :
  ends (files.commit_node current_user now final_filename target_parent_id h file_size).
Proof.
  unfold files.commit_node. apply ends_bind.
  - unfold create_with_user. apply ends_bind.
    + intros w H. cbn in H.
      destruct (_get_unique_filename_total current_user target_parent_id final_filename w)
        as (r & Hr & _).
      congruence.
    + intros n w. discriminate.
  - intros node. apply ends_bind; [apply ends_modify|]. intros _. apply ends_ret.
Qed.

Lemma ends_upload_file current_user now filename content parent_id relative_path auto_rename uuid :
  ends (files.upload_file md5 UPLOAD_DIR EXTRA_STORAGE_PATHS DIR_SIZE current_user now filename
          content parent_id relative_path auto_rename uuid).
Proof.
  unfold files.upload_file.
  destruct (negb (files.is_filename_valid filename)); [apply ends_raise|].
  apply ends_bind; [apply ends_destination|]. intros [target final_name].
  apply ends_bind; [apply ends_write_file|]. intros _.
  apply ends_bind; [apply ends_getsize|]. intros file_size.
  apply ends_bind; [apply ends_gets|]. intros [|].
  { apply ends_bind; [apply ends_os_remove|]. intros _. apply ends_raise. }
  apply ends_bind; [apply ends_gets|]. intros existing.
  apply ends_bind; [|intros _; apply ends_commit_node].
  destruct existing.
  - apply ends_bind; [apply ends_increment|]. intros _. apply ends_os_remove.
  - apply ends_bind; [apply ends_best|]. intros path.
    apply ends_bind; [apply ends_gets|]. intros present.
    apply ends_bind; [destruct present; [apply ends_os_remove|apply ends_shutil_move]|].
    intros _. apply ends_bind; [apply ends_create_file_store|]. intros _. apply ends_ret.
Qed.

Lemma ends_check_fast_upload current_user now file_hash file_name parent_id relative_path
    auto_rename :
  ends (files.check_fast_upload current_user now file_hash file_name parent_id relative_path
          auto_rename).
Proof.
  unfold files.check_fast_upload.
  destruct (negb (files.is_filename_valid file_name)); [apply ends_raise|].
  apply ends_bind; [apply ends_destination|]. intros [target final_name].
  apply ends_bind; [apply ends_gets|]. intros [s|]; [|apply ends_ret].
  apply ends_bind; [apply ends_gets|]. intros [|]; [apply ends_raise|].
  apply ends_bind; [apply ends_increment|]. intros _.
  apply ends_bind; [apply ends_commit_node|]. intros node. apply ends_ret.
Qed.

Lemma ends_merge_chunks current_user now upload_id file_name file_hash parent_id relative_path
    auto_rename :
  ends (files.merge_chunks md5 UPLOAD_DIR EXTRA_STORAGE_PATHS DIR_SIZE current_user now upload_id
          file_name file_hash parent_id relative_path auto_rename).
Proof.
  unfold files.merge_chunks. apply ends_bind.
  { unfold files.merge_prelude.
    destruct (negb (files.is_filename_valid file_name)); [apply ends_raise|].
    apply ends_bind; [apply ends_destination|]. intros [target final_name].
    apply ends_bind; [apply ends_gets|]. intros chunks.
    apply ends_bind.
    - unfold files.check_session. apply ends_bind.
      + destruct chunks; [destruct (String.eqb _ _); [apply ends_ret|apply ends_raise]|apply ends_ret].
      + intros _. apply ends_for_each. intros c.
        destruct (negb _); [apply ends_raise|apply ends_ret].
    - intros _. apply ends_bind; [apply ends_best|]. intros path. apply ends_ret. }
  intros [[[target final_name] chunks] final_path].
  apply ends_bind.
  { unfold files.reassemble. apply ends_bind; [apply ends_gets|]. intros present.
    destruct present; cbn [negb].
    - apply ends_for_each. intros c. unfold files.discard_chunk.
      apply ends_bind; [apply ends_gets|]. intros [|]; [apply ends_os_remove|apply ends_ret].
    - apply ends_bind; [apply ends_write_file|]. intros _.
      apply ends_bind.
      + apply ends_foldM. intros hashed c. unfold files.append_chunk.
        apply ends_bind; [apply ends_gets|]. intros [|]; [|apply ends_raise].
        apply ends_bind; [apply ends_read_file|]. intros c1.
        apply ends_bind; [apply ends_read_file|]. intros c2.
        apply ends_bind; [apply ends_write_file|]. intros _.
        apply ends_bind; [apply ends_os_remove|]. intros _. apply ends_ret.
      + intros hashed. cbn zeta. destruct (negb _); [|apply ends_ret].
        apply ends_bind; [apply ends_os_remove|]. intros _. apply ends_raise. }
  intros _. unfold files.merge_commit.
  apply ends_bind; [apply ends_getsize|]. intros file_size.
  apply ends_bind; [apply ends_gets|]. intros [|].
  { apply ends_bind; [apply ends_gets|]. intros ex.
    apply ends_bind; [destruct ex; [apply ends_ret|apply ends_os_remove]|].
    intros _. apply ends_raise. }
  apply ends_bind; [apply ends_gets|]. intros ex.
  apply ends_bind.
  { destruct ex.
    - apply ends_bind; [apply ends_increment|]. intros _. apply ends_ret.
    - apply ends_bind; [apply ends_create_file_store|]. intros _. apply ends_ret. }
  intros _. apply ends_bind; [apply ends_commit_node|]. intros node.
  apply ends_bind; [apply ends_modify|]. intros _. apply ends_ret.
Qed.

(** The user who uploads, and what is known of the size charged. *)
Definition uploader (u : upload) : Z :=
  match u with
  | WholeFile current_user _ _ _ _ _ _ _ => current_user
  | ChunkedMerge current_user _ _ _ _ _ _ _ => current_user
  | FastUpload current_user _ _ _ _ _ _ => current_user
  end.

Definition upload_size (u : upload) (w : World) (size : Z) : Prop :=
  match u with
  | WholeFile _ _ _ content _ _ _ _ => size = Z.of_nat (length content)
  | ChunkedMerge _ _ _ _ _ _ _ _ => True
  | FastUpload _ _ file_hash _ _ _ _ =>
      exists store, get_by_hash file_hash w = Some store /\ size = FileStore.file_size store
  end.

End Quota.

(** X10. The quota of the uploads.  Each of the three upload requests ends.
    When it commits a node, the size of the content was charged to the
    uploader's counter and to no other, and it fitted: the counter before,
    plus the size, did not exceed the uploader's quota.  The size is the
    number of bytes received for a whole-file upload, and the recorded size
    of the blob for a fast upload.  A request that fails, or a fast upload
    that finds no blob, leaves every counter as it was. *)
Theorem uploads_charge_within_quota :
  forall (md5 : list Byte.byte -> string) (UPLOAD_DIR : string)
         (EXTRA_STORAGE_PATHS : list string) (DIR_SIZE : Z) (u : upload) (w : World),
    match run_upload md5 UPLOAD_DIR EXTRA_STORAGE_PATHS DIR_SIZE u w with
    | Ok (Some _) w' =>
        exists size, upload_size u w size
                     /\ sys_user w' = alter (charge size) (uploader u) (sys_user w)
                     /\ within_quota (uploader u) size w
    | Ok None w' => sys_user w' = sys_user w
    | Raise _ w' => sys_user w' = sys_user w
    | Diverge => False
    end.
Proof.
  intros md5 UPLOAD_DIR EXTRA_STORAGE_PATHS DIR_SIZE u w.
  destruct u; cbn [run_upload uploader upload_size].
  - pose proof (upload_file_quota md5 UPLOAD_DIR EXTRA_STORAGE_PATHS DIR_SIZE current_user now
                  filename content parent_id relative_path auto_rename uuid w) as H.
    pose proof (ends_upload_file md5 UPLOAD_DIR EXTRA_STORAGE_PATHS DIR_SIZE current_user now
                  filename content parent_id relative_path auto_rename uuid w) as He.
    unfold mbind, M_bind. destruct (files.upload_file _ _ _ _ _ _ _ _ _ _ _ _ w);
      [exact H|exact H|contradiction].
  - pose proof (merge_chunks_quota md5 UPLOAD_DIR EXTRA_STORAGE_PATHS DIR_SIZE current_user now
                  upload_id file_name file_hash parent_id relative_path auto_rename w) as H.
    pose proof (ends_merge_chunks md5 UPLOAD_DIR EXTRA_STORAGE_PATHS DIR_SIZE current_user now
                  upload_id file_name file_hash parent_id relative_path auto_rename w) as He.
    unfold mbind, M_bind. destruct (files.merge_chunks _ _ _ _ _ _ _ _ _ _ _ _ w);
      [exact H|exact H|contradiction].
  - pose proof (check_fast_upload_quota current_user now file_hash file_name parent_id
                  relative_path auto_rename w) as H.
    pose proof (ends_check_fast_upload current_user now file_hash file_name parent_id
                  relative_path auto_rename w) as He.
    destruct (files.check_fast_upload _ _ _ _ _ _ _ w) as [[node|] w'|e w'|];
      [exact H|exact H|exact H|contradiction].
Qed.

Section SessionEnd.

Import CRUDFileMeta.

Variable md5 : list Byte.byte -> string.
Variable UPLOAD_DIR : string.
Variable EXTRA_STORAGE_PATHS : list string.
Variable DIR_SIZE : Z.

Definition other_session (upload_id : string) (c : FileChunk.t) : bool :=
  negb (String.eqb (FileChunk.upload_id c) upload_id).

(** What a merge does to the chunk sessions. *)
Definition session_post {A} (upload_id : string) (w : World) (o : outcome A) : Prop :=
  match o with
  | Ok _ w' => file_chunk w' = all (other_session upload_id) (file_chunk w)
  | Raise _ w' => file_chunk w' = file_chunk w
  | Diverge => True
  end.

Lemma session_post_bind {A B} upload_id (m : M A) (k : A -> M B) (w w1 : World) :
  keeps_bystanders m -> file_chunk w1 = file_chunk w ->
  (forall a w2, m w1 = Ok a w2 -> file_chunk w2 = file_chunk w ->
     session_post upload_id w (k a w2)) ->
  session_post upload_id w ((m ≫= k) w1).
Proof.
  intros Hm Hw Hk. specialize (Hm w1). unfold mbind, M_bind.
  destruct (m w1) as [a w2|e w2|] eqn:E; cbn in *; [| |exact I];
    apply (f_equal snd) in Hm; cbn in Hm.
  - apply Hk; [reflexivity|congruence].
  - congruence.
Qed.

Lemma session_post_fails {A B} upload_id (m : M A) e (w w1 : World) :
  keeps_bystanders m -> file_chunk w1 = file_chunk w ->
  session_post (A := B) upload_id w ((m ≫= fun _ => raise e) w1).
Proof.
  intros Hm Hw. apply session_post_bind; [exact Hm|exact Hw|]. intros a w2 _ H2. exact H2.
Qed.

Lemma commit_node_chunks current_user now final_filename target_parent_id h file_size w :
  match files.commit_node current_user now final_filename target_parent_id h file_size w with
  | Ok _ w' => file_chunk w' = file_chunk w
  | Raise _ _ => False
  | Diverge => True
  end.
Proof.
  unfold files.commit_node, create_with_user. munfold. cbn.
  pose proof (_get_unique_filename_pure current_user target_parent_id final_filename w) as Hp.
  destruct (_get_unique_filename _ _ _ w) as [n w1|e w1|] eqn:E; cbn in Hp.
  - subst w1. cbn. reflexivity.
  - unfold _get_unique_filename in E. destruct (split_ext final_filename).
    destruct (negb _); [discriminate|]. destruct (probe _ _ _ _ _); discriminate.
  - exact I.
Qed.

Lemma merge_chunks_session current_user now upload_id file_name file_hash parent_id relative_path
    auto_rename w :
  session_post upload_id w
    (files.merge_chunks md5 UPLOAD_DIR EXTRA_STORAGE_PATHS DIR_SIZE current_user now upload_id
       file_name file_hash parent_id relative_path auto_rename w).
Proof.
  unfold files.merge_chunks. apply session_post_bind; [|reflexivity|].
  { unfold files.merge_prelude.
    destruct (negb (files.is_filename_valid file_name)); [apply keeps_bystanders_raise|].
    apply keeps_bystanders_bind; [apply keeps_bystanders_destination|]. intros [target final_name].
    apply keeps_bystanders_same_db. intros w0.
    apply same_db_bind; [apply gets_same_db|]. intros chunks w2.
    apply same_db_bind; [apply check_session_same_db|]. intros _ w3.
    apply same_db_bind; [apply get_best_storage_path_same_db|]. intros path w4.
    apply same_db_refl. }
  intros [[[target final_name] chunks] final_path] w1 _ H1.
  apply session_post_bind; [|exact H1|].
  { apply keeps_bystanders_same_db. intros w0. apply reassemble_same_db. }
  intros _ w2 _ H2. unfold files.merge_commit.
  apply session_post_bind; [apply keeps_bystanders_getsize|exact H2|]. intros file_size w3 _ H3.
  apply session_post_bind; [apply keeps_bystanders_gets|exact H3|]. intros over w4 Hg _.
  apply gets_Ok in Hg as [-> ->].
  destruct (files.quota_exceeded current_user file_size w3).
  { apply session_post_bind; [apply keeps_bystanders_gets|exact H3|]. intros ex w4 Hg _.
    apply gets_Ok in Hg as [-> ->].
    apply session_post_fails; [|exact H3].
    destruct (get_by_hash file_hash w3);
      [apply keeps_bystanders_ret|apply keeps_bystanders_os_remove]. }
  apply session_post_bind; [apply keeps_bystanders_gets|exact H3|]. intros ex w4 Hg _.
  apply gets_Ok in Hg as [-> ->].
  apply session_post_bind; [|exact H3|].
  { destruct (get_by_hash file_hash w3).
    - apply keeps_bystanders_bind; [apply keeps_bystanders_increment|]. intros _.
      apply keeps_bystanders_ret.
    - apply keeps_bystanders_bind; [apply keeps_bystanders_create_file_store|]. intros _.
      apply keeps_bystanders_ret. }
  intros _ w4 _ H4. unfold mbind at 1, M_bind at 1.
  pose proof (commit_node_chunks current_user now final_name target file_hash file_size w4) as Hc.
  destruct (files.commit_node _ _ _ _ _ _ w4) as [node w5|e w5|]; [|contradiction|exact I].
  unfold CRUDChunk.delete_chunks. munfold. cbn. rewrite Hc, H4. reflexivity.
Qed.

End SessionEnd.

(** X14. The end of a chunk session.  A merge always ends.  When it
    succeeds, the rows of its session are deleted, all of them, and the
    rows of every other session are what they were, in the same order;
    when it fails, for whatever reason, no chunk row is deleted or
    changed, and the session is still there. *)
Theorem merge_closes_its_session :
  forall (md5 : list Byte.byte -> string) (UPLOAD_DIR : string)
         (EXTRA_STORAGE_PATHS : list string) (DIR_SIZE : Z)
         (current_user now : Z) (upload_id file_name file_hash : string) (parent_id : Z)
         (relative_path : option string) (auto_rename : bool) (w : World),
    match files.merge_chunks md5 UPLOAD_DIR EXTRA_STORAGE_PATHS DIR_SIZE current_user now
            upload_id file_name file_hash parent_id relative_path auto_rename w with
    | Ok _ w' =>
        CRUDChunk.get_all_chunks_unordered upload_id w' = []
        /\ forall other, other <> upload_id ->
             CRUDChunk.get_all_chunks_unordered other w'
             = CRUDChunk.get_all_chunks_unordered other w
    | Raise _ w' => file_chunk w' = file_chunk w
    | Diverge => False
    end.
Proof.
  intros md5 UPLOAD_DIR EXTRA_STORAGE_PATHS DIR_SIZE current_user now upload_id file_name
    file_hash parent_id relative_path auto_rename w.
  pose proof (merge_chunks_session md5 UPLOAD_DIR EXTRA_STORAGE_PATHS DIR_SIZE current_user now
                upload_id file_name file_hash parent_id relative_path auto_rename w) as H.
  pose proof (ends_merge_chunks md5 UPLOAD_DIR EXTRA_STORAGE_PATHS DIR_SIZE current_user now
                upload_id file_name file_hash parent_id relative_path auto_rename w) as He.
  destruct (files.merge_chunks _ _ _ _ _ _ _ _ _ _ _ _ w) as [node w'|e w'|];
    [|exact H|contradiction].
  cbn in H. unfold CRUDChunk.get_all_chunks_unordered. rewrite H. split.
  - apply (all_all_neg (fun c => String.eqb (FileChunk.upload_id c) upload_id)).
  - intros other Hne.
    apply (all_all_other (fun c => String.eqb (FileChunk.upload_id c) upload_id)
             (fun c => String.eqb (FileChunk.upload_id c) other)).
    intros c Hc. apply String.eqb_eq in Hc. rewrite Hc. apply String.eqb_neq. exact Hne.
Qed.

(** ** The reference counts through the namespace operations *)

Section RefCounts.

Import CRUDFileMeta.

(** No folder bears a content hash. *)
Definition hashless_folders (w : World) : Prop :=
  forall r, In r (file_meta w) -> FileMeta.is_folder r = true -> FileMeta.file_hash r = None.

(** Every blob record counts the nodes that reference it. *)
Definition counted (w : World) : Prop := forall h, blob_consistent h w.

Definition stored_as (h : string) (s : FileStore.t) : bool := String.eqb (FileStore.file_hash s) h.

Lemma all_bump_other h h' delta (l : list FileStore.t) :
  h <> h' -> all (stored_as h) (List.map (bump h' delta) l) = all (stored_as h) l.
Proof.
  intros Hne. unfold all, stored_as. induction l as [|a l IH]; simpl; [reflexivity|].
  rewrite bump_hash. destruct (String.eqb (FileStore.file_hash a) h) eqn:E; [|exact IH].
  rewrite IH. f_equal. unfold bump. apply String.eqb_eq in E.
  destruct (String.eqb (FileStore.file_hash a) h') eqn:E'; [|reflexivity].
  apply String.eqb_eq in E'. congruence.
Qed.

Lemma all_bump_same h delta (l : list FileStore.t) :
  all (stored_as h) (List.map (bump h delta) l) = List.map (bump h delta) (all (stored_as h) l).
Proof. apply all_map_stable. intros x. unfold stored_as. rewrite bump_hash. reflexivity. Qed.

Lemma all_purge h h0 (l : list FileStore.t) :
  all (stored_as h) (all (fun s => negb (String.eqb (FileStore.file_hash s) h0)) l)
  = if String.eqb h h0 then [] else all (stored_as h) l.
Proof.
  destruct (String.eqb h h0) eqn:E.
  - apply String.eqb_eq in E. subst h0. apply (all_all_neg (stored_as h)).
  - apply (all_all_other (stored_as h0) (stored_as h)). intros x Hx. unfold stored_as in *.
    apply String.eqb_eq in Hx. rewrite Hx. exact E.
Qed.

(** The rows that go with the key of [obj] are [obj] alone. *)
Lemma refs_delete_row h obj (l : list FileMeta.t) :
  List.NoDup (List.map FileMeta.id l) -> In obj l ->
  (length (all (references h) (all (fun r => negb (by_id (FileMeta.id obj) r)) l))
   + (if references h obj then 1 else 0))%nat
  = length (all (references h) l).
Proof.
  unfold all, by_id. induction l as [|a l IH]; intros Hnd Hin; [destruct Hin|].
  cbn in Hnd. apply List.NoDup_cons_iff in Hnd as [Hfresh Hnd]. destruct Hin as [->|Hin].
  - cbn. rewrite Z.eqb_refl. cbn.
    assert (Hrest : List.filter (fun r => negb (FileMeta.id r =? FileMeta.id obj)) l = l).
    { apply (all_id (fun r => negb (FileMeta.id r =? FileMeta.id obj))). intros x Hx.
      destruct (FileMeta.id x =? FileMeta.id obj) eqn:E; [|reflexivity].
      apply Z.eqb_eq in E. exfalso. apply Hfresh. rewrite <- E. apply in_map. exact Hx. }
    rewrite Hrest. destruct (references h obj); cbn; lia.
  - cbn. destruct (FileMeta.id a =? FileMeta.id obj) eqn:E.
    + apply Z.eqb_eq in E. exfalso. apply Hfresh. rewrite E. apply in_map. exact Hin.
    + cbn. specialize (IH Hnd Hin). destruct (references h a); cbn; lia.
Qed.

Lemma refs_delete_hashless h id (l : list FileMeta.t) :
  (forall r, In r l -> by_id id r = true -> FileMeta.file_hash r = None) ->
  all (references h) (all (fun r => negb (by_id id r)) l) = all (references h) l.
Proof.
  intros H. unfold all. induction l as [|a l IH]; [reflexivity|]. cbn.
  assert (IH' := IH (fun r Hr => H r (or_intror Hr))).
  destruct (by_id id a) eqn:E; cbn.
  - unfold references at 2. rewrite (H a (or_introl eq_refl) E). cbn. exact IH'.
  - destruct (references h a); [f_equal|]; exact IH'.
Qed.

(** What the release of a file node's blob does to the two tables. *)
Lemma release_store_effect obj w a w' :
  release_store obj w = Ok a w' ->
  file_meta w' = file_meta w
  /\ file_store w'
     = match file_store_of obj w with
       | Some s =>
           let l := List.map (bump (FileStore.file_hash s) (-1)) (file_store w) in
           if FileStore.ref_count s - 1 <=? 0
           then all (fun x => negb (String.eqb (FileStore.file_hash x) (FileStore.file_hash s))) l
           else l
       | None => file_store w
       end.
Proof.
  intros H. split; [exact (release_store_file_meta _ _ _ _ H)|].
  unfold release_store in H. apply bind_Ok in H as (store & w0 & Hg & H).
  apply gets_Ok in Hg as [-> ->]. destruct (file_store_of obj w) as [s|] eqn:Hs;
    [|injection H as _ <-; reflexivity].
  assert (Hget : get_by_hash (FileStore.file_hash s) w = Some s).
  { unfold file_store_of in Hs. destruct (FileMeta.file_hash obj) as [h|]; [|discriminate Hs].
    rewrite (get_by_hash_hash _ _ _ Hs). exact Hs. }
  unfold mbind at 1, M_bind at 1 in H. rewrite (decrement_ref_count_spec _ _ _ Hget) in H.
  cbn [FileStore.ref_count FileStore.set_ref_count FileStore.real_path FileStore.file_hash] in H.
  cbn zeta. destruct (FileStore.ref_count s - 1 <=? 0).
  - apply bind_Ok in H as (present & w3 & Hg & H). apply gets_Ok in Hg as [-> ->].
    apply bind_Ok in H as ([] & w4 & Hrm & H). unfold modify in H. injection H as _ <-.
    assert (Hst : file_store w4 = file_store (add_ref_count (FileStore.file_hash s) (-1) w)).
    { destruct (os_path_exists _ _); [|injection Hrm as <-; reflexivity].
      apply os_remove_Ok in Hrm. rewrite Hrm. reflexivity. }
    unfold delete_store. cbn. rewrite Hst. reflexivity.
  - injection H as _ <-. reflexivity.
Qed.

Lemma records_head h w s :
  blob_consistent h w -> get_by_hash h w = Some s ->
  records h w = [s] /\ FileStore.ref_count s = Z.of_nat (refs h w).
Proof.
  unfold blob_consistent. rewrite get_by_hash_records.
  destruct (records h w) as [|s0 [|s1 l]]; cbn; intros Hc Hs; try discriminate Hs;
    [|contradiction].
  injection Hs as ->. auto.
Qed.

(** The hard delete of one file node: its blob released, its row deleted. *)
Lemma counted_delete_file obj w w1 a :
  unique_ids w -> counted w -> In obj (file_meta w) ->
  release_store obj w = Ok a w1 ->
  counted (delete_row (FileMeta.id obj) w1).
Proof.
  intros Hnd Hc Hin Hrel h. destruct (release_store_effect _ _ _ _ Hrel) as [Hm Hs].
  pose proof (refs_delete_row h obj (file_meta w) Hnd Hin) as Hrefs.
  assert (Hr2 : (refs h (delete_row (FileMeta.id obj) w1)
                 + (if references h obj then 1 else 0))%nat = refs h w).
  { unfold refs, delete_row. cbn. rewrite Hm. exact Hrefs. }
  assert (Hrec2 : records h (delete_row (FileMeta.id obj) w1)
                  = all (stored_as h) (file_store w1)) by reflexivity.
  specialize (Hc h) as Hch. unfold blob_consistent in *. rewrite Hrec2, Hs. clear Hrec2 Hs.
  unfold file_store_of, references, opt_eqb in *.
  destruct (FileMeta.file_hash obj) as [h0|] eqn:Hh0.
  2:{ rewrite Nat.add_0_r in Hr2. rewrite Hr2. exact Hch. }
  destruct (get_by_hash h0 w) as [s|] eqn:Hget.
  - pose proof (get_by_hash_hash _ _ _ Hget) as Hsh. rewrite Hsh.
    destruct (String.eqb h0 h) eqn:E.
    + apply String.eqb_eq in E. subst h0.
      destruct (records_head h w s (Hc h) Hget) as [Hrec Hcount].
      unfold records in Hrec. fold (stored_as h) in Hrec. cbn zeta.
      destruct (FileStore.ref_count s - 1 <=? 0) eqn:Hz.
      * rewrite all_purge, String.eqb_refl. apply Z.leb_le in Hz. lia.
      * rewrite all_bump_same, Hrec. cbn [List.map]. unfold bump.
        rewrite Hsh, String.eqb_refl. cbn [FileStore.ref_count FileStore.set_ref_count]. lia.
    + rewrite Nat.add_0_r in Hr2. rewrite Hr2. apply String.eqb_neq in E.
      assert (Hsame : all (stored_as h) (List.map (bump h0 (-1)) (file_store w))
                      = all (stored_as h) (file_store w)) by (apply all_bump_other; congruence).
      cbn zeta. destruct (FileStore.ref_count s - 1 <=? 0).
      * rewrite all_purge. destruct (String.eqb h h0) eqn:E'.
        { apply String.eqb_eq in E'. congruence. }
        rewrite Hsame. exact Hch.
      * rewrite Hsame. exact Hch.
  - destruct (String.eqb h0 h) eqn:E.
    + apply String.eqb_eq in E. subst h0. exfalso.
      rewrite get_by_hash_records in Hget. unfold records in Hch.
      fold (stored_as h) in Hch. unfold records in Hget. fold (stored_as h) in Hget.
      destruct (all (stored_as h) (file_store w)); [lia|discriminate Hget].
    + rewrite Nat.add_0_r in Hr2. rewrite Hr2. exact Hch.
Qed.

Definition kept (w : World) : Prop :=
  unique_ids w /\ hashless_folders w /\ counted w.

Lemma permanent_remove_kept fuel user_id :
  forall id w r w', kept w -> permanent_remove fuel id user_id w = Ok r w' -> kept w'.
Proof.
  induction fuel as [|fuel IH]; intros id w r w' (Hnd & Hless & Hc) H; [discriminate|].
  pose proof (permanent_remove_isolated _ _ _ _ _ _ Hnd H) as (Hnd' & Hsub' & _).
  split; [exact Hnd'|]. split; [intros x Hx; apply Hless; auto|].
  cbn [permanent_remove] in H. apply bind_Ok in H as (obj & w0 & Hg & H).
  apply gets_Ok in Hg as [-> ->].
  destruct (get_obj id user_id w) as [obj|] eqn:Hobj; [|injection H as _ <-; exact Hc].
  pose proof (get_obj_In _ _ _ _ Hobj) as (Hin & Hid & _).
  apply bind_Ok in H as ([] & w1 & Hbody & H).
  apply bind_Ok in H as ([] & w2 & Hmod & H). injection H as _ <-.
  unfold modify in Hmod. injection Hmod as <-.
  destruct (FileMeta.is_folder obj) eqn:Hfolder.
  - apply bind_Ok in Hbody as (children & w0 & Hg & Hbody). apply gets_Ok in Hg as [-> ->].
    assert (H1 : kept w1 /\ forall x, In x (file_meta w1) -> In x (file_meta w)).
    { eapply (for_each_preserves
                (fun w1 => kept w1 /\ forall x, In x (file_meta w1) -> In x (file_meta w)));
        [|split; [exact (conj Hnd (conj Hless Hc))|auto]|exact Hbody].
      intros child wa [] wb [Ha Hsa] Hcb. apply bind_Ok in Hcb as (rc & wc & Hcb & Hret).
      injection Hret as <-. split; [exact (IH _ _ _ _ Ha Hcb)|].
      destruct (permanent_remove_isolated _ _ _ _ _ _ (proj1 Ha) Hcb) as (_ & Hs & _). auto. }
    destruct H1 as [(_ & _ & Hc1) Hs1]. intros h. specialize (Hc1 h).
    unfold blob_consistent in *.
    assert (Hrefs : refs h (delete_row (FileMeta.id obj) w1) = refs h w1).
    { unfold refs, delete_row. cbn. f_equal. apply refs_delete_hashless.
      intros x Hx Hxid. apply Z.eqb_eq in Hxid.
      assert (x = obj).
      { apply (NoDup_map_In_eq FileMeta.id (file_meta w) x obj Hnd (Hs1 x Hx) Hin Hxid). }
      subst x. apply Hless; assumption. }
    rewrite Hrefs. exact Hc1.
  - exact (counted_delete_file obj w w1 () Hnd Hc Hin Hbody).
Qed.

(** What a hard delete leaves alone: the key counter, the users and their
    quota counters, the chunk sessions. *)
Definition spared (w w' : World) : Prop :=
  file_meta_seq w' = file_meta_seq w /\ sys_user w' = sys_user w
  /\ file_chunk w' = file_chunk w.

Lemma release_store_spared obj w a w' : release_store obj w = Ok a w' -> spared w w'.
Proof.
  unfold release_store. intros H. apply bind_Ok in H as (store & w0 & Hg & H).
  apply gets_Ok in Hg as [-> ->]. destruct (file_store_of obj w) as [store|];
    [|injection H as _ <-; repeat split].
  apply bind_Ok in H as (updated & w1 & Hdec & H).
  unfold decrement_ref_count in Hdec. apply bind_Ok in Hdec as ([] & w2 & Hmod & Hg).
  apply gets_Ok in Hg as [-> ->]. unfold modify in Hmod. injection Hmod as <-.
  destruct (get_by_hash _ _) as [updated|]; [|injection H as _ <-; repeat split].
  destruct (FileStore.ref_count updated <=? 0); [|injection H as _ <-; repeat split].
  apply bind_Ok in H as (present & w3 & Hg & H). apply gets_Ok in Hg as [-> ->].
  apply bind_Ok in H as ([] & w4 & Hrm & H). unfold modify in H. injection H as _ <-.
  destruct (os_path_exists _ _); [|injection Hrm as <-; repeat split].
  apply os_remove_Ok in Hrm. rewrite Hrm. repeat split.
Qed.

Lemma permanent_remove_spared fuel user_id :
  forall id w r w', permanent_remove fuel id user_id w = Ok r w' -> spared w w'.
Proof.
  induction fuel as [|fuel IH]; intros id w r w' H; [discriminate|].
  cbn [permanent_remove] in H. apply bind_Ok in H as (obj & w0 & Hg & H).
  apply gets_Ok in Hg as [-> ->].
  destruct (get_obj id user_id w) as [obj|]; [|injection H as _ <-; repeat split].
  apply bind_Ok in H as ([] & w1 & Hbody & H).
  apply bind_Ok in H as ([] & w2 & Hmod & H). injection H as _ <-.
  unfold modify in Hmod. injection Hmod as <-.
  change (spared w w1). destruct (FileMeta.is_folder obj).
  - apply bind_Ok in Hbody as (children & w0 & Hg & Hbody). apply gets_Ok in Hg as [-> ->].
    eapply (for_each_preserves (spared w)); [|repeat split|exact Hbody].
    intros child wa [] wb (A1 & A2 & A3) Hcb. apply bind_Ok in Hcb as (rc & wc & Hcb & Hret).
    injection Hret as <-. destruct (IH _ _ _ _ Hcb) as (B1 & B2 & B3).
    repeat split; congruence.
  - exact (release_store_spared _ _ _ _ Hbody).
Qed.

(** No node bears the hash that the code takes for no hash. *)
Definition no_empty_hash (w : World) : Prop :=
  forall r, In r (file_meta w) -> FileMeta.file_hash r <> Some EmptyString.

(** The invariant of the reference counts, with what it takes to keep it. *)
Definition accounted (w : World) : Prop :=
  keys_ok w /\ hashless_folders w /\ no_empty_hash w /\ counted w.

Lemma counted_frame w w' :
  List.map FileMeta.file_hash (file_meta w') = List.map FileMeta.file_hash (file_meta w) ->
  file_store w' = file_store w -> counted w -> counted w'.
Proof.
  intros Hm Hs Hc h. specialize (Hc h). unfold blob_consistent, records, refs in *.
  rewrite Hs.
  assert (Hlen : forall l l' : list FileMeta.t,
            List.map FileMeta.file_hash l' = List.map FileMeta.file_hash l ->
            length (all (references h) l') = length (all (references h) l)).
  { clear. unfold all, references. induction l as [|a l IH]; intros [|a' l'] H;
      try discriminate H; [reflexivity|].
    cbn in H. injection H as Ha Hl. cbn. rewrite Ha. specialize (IH _ Hl).
    destruct (opt_eqb _ _); cbn; congruence. }
  rewrite (Hlen _ _ Hm). exact Hc.
Qed.

Lemma copy_accounted fuel now user_id :
  forall id target_parent_id w r w',
    accounted w -> copy fuel now id target_parent_id user_id w = Ok r w' -> accounted w'.
Proof.
  induction fuel as [|fuel IH]; intros id target w r w' Ha H; [discriminate|].
  cbn [copy] in H. apply bind_Ok in H as (obj & w0 & Hg & H). apply gets_Ok in Hg as [-> ->].
  destruct (get_obj id user_id w) as [obj|] eqn:Hobj; [|injection H as _ <-; exact Ha].
  pose proof (get_obj_In _ _ _ _ Hobj) as (Hin & _ & _).
  destruct Ha as ((Hnd & Hids) & Hless & Hne & Hc).
  apply bind_Ok in H as (name & w1 & Hname & H).
  destruct (_get_unique_filename_total user_id target (FileMeta.file_name obj) w)
    as (name' & Hname' & _).
  rewrite Hname' in Hname. injection Hname as <- <-.
  apply bind_Ok in H as (new_obj & w2 & Hadd & H).
  unfold add_file_meta in Hadd. injection Hadd as <- <-.
  set (new_obj := FileMeta.mk (file_meta_seq w + 1) user_id target name'
                    (FileMeta.is_folder obj) (FileMeta.file_hash obj) false None now now) in *.
  set (w2 := with_file_meta_seq (file_meta_seq w + 1)
               (with_file_meta (file_meta w ++ [new_obj]) w)) in *.
  assert (Hk2 : keys_ok w2).
  { split.
    - cbn. rewrite map_app. cbn. apply NoDup_snoc; [exact Hnd|].
      intros Hx. apply in_map_iff in Hx as (x & Hxid & Hx). specialize (Hids x Hx). lia.
    - intros x Hx. cbn in Hx. apply in_app_iff in Hx as [Hx|[<-|[]]]; cbn.
      + specialize (Hids x Hx). lia.
      + destruct (Hids obj Hin). lia. }
  assert (Hless2 : hashless_folders w2).
  { intros x Hx. cbn in Hx. apply in_app_iff in Hx as [Hx|[<-|[]]]; [auto|]. cbn.
    apply Hless. exact Hin. }
  assert (Hne2 : no_empty_hash w2).
  { intros x Hx. cbn in Hx. apply in_app_iff in Hx as [Hx|[<-|[]]]; [auto|]. cbn.
    apply Hne. exact Hin. }
  assert (Hrefs2 : forall h, refs h w2
                             = (refs h w + if opt_eqb (FileMeta.file_hash obj) h then 1 else 0)%nat).
  { intros h. unfold refs. cbn. rewrite all_app, length_app. cbn. unfold references at 2. cbn.
    destruct (opt_eqb _ _); reflexivity. }
  apply bind_Ok in H as ([] & w3 & Hbody & H). injection H as _ <-.
  destruct (FileMeta.is_folder obj) eqn:Hfolder; cbn [negb] in Hbody.
  - assert (Hc2 : counted w2).
    { intros h. specialize (Hc h). unfold blob_consistent in *. rewrite Hrefs2.
      rewrite (Hless obj Hin Hfolder). cbn. rewrite Nat.add_0_r. exact Hc. }
    apply bind_Ok in Hbody as (children & w2' & Hg & Hbody). apply gets_Ok in Hg as [-> ->].
    eapply (for_each_preserves accounted); [|exact (conj Hk2 (conj Hless2 (conj Hne2 Hc2)))|exact Hbody].
    intros child wa [] wb Hacc Hcb. apply bind_Ok in Hcb as (rc & wc & Hcb & Hret).
    injection Hret as <-. exact (IH _ _ _ _ _ Hacc Hcb).
  - destruct (FileMeta.file_hash obj) as [h0|] eqn:Hh0.
    2:{ injection Hbody as <-. split; [exact Hk2|]. split; [exact Hless2|]. split; [exact Hne2|].
        intros h. specialize (Hc h). unfold blob_consistent in *. rewrite Hrefs2. cbn.
        rewrite Nat.add_0_r. exact Hc. }
    assert (Hh0ne : h0 <> EmptyString) by (intros ->; exact (Hne obj Hin Hh0)).
    unfold truthy in Hbody. apply String.eqb_neq in Hh0ne. rewrite Hh0ne in Hbody.
    cbn [negb] in Hbody.
    apply bind_Ok in Hbody as (s' & w2' & Hinc & Hret). injection Hret as <-.
    destruct (increment_ref_count_Ok h0 w2) as [s'' Hinc'].
    rewrite Hinc' in Hinc. injection Hinc as _ <-.
    split; [exact Hk2|]. split; [exact Hless2|]. split; [exact Hne2|].
    intros h. specialize (Hc h) as Hch. unfold blob_consistent in *.
    change (refs h (add_ref_count h0 1 w2)) with (refs h w2). rewrite Hrefs2.
    change (records h (add_ref_count h0 1 w2))
      with (all (stored_as h) (List.map (bump h0 1) (file_store w))).
    cbn [opt_eqb]. destruct (String.eqb h0 h) eqn:E.
    + apply String.eqb_eq in E. subst h0. rewrite all_bump_same.
      change (all (stored_as h) (file_store w)) with (records h w).
      assert (Hpos : (0 < refs h w)%nat).
      { unfold refs. assert (Hx : In obj (all (references h) (file_meta w))).
        { apply filter_In. split; [exact Hin|]. unfold references. rewrite Hh0. cbn.
          apply String.eqb_refl. }
        destruct (all (references h) (file_meta w)); [destruct Hx|cbn; lia]. }
      destruct (records h w) as [|s [|s1 l]] eqn:Hrec; [lia| |contradiction].
      cbn [List.map]. unfold bump.
      assert (Hsh : FileStore.file_hash s = h).
      { assert (Hx : In s (records h w)) by (rewrite Hrec; left; reflexivity).
        apply filter_In in Hx as [_ Hx]. apply String.eqb_eq. exact Hx. }
      rewrite Hsh, String.eqb_refl. cbn [FileStore.ref_count FileStore.set_ref_count]. lia.
    + apply String.eqb_neq in E. rewrite all_bump_other by congruence.
      rewrite Nat.add_0_r. exact Hch.
Qed.

(** Two rows with the same key, kind and content. *)
Definition same_blob (r r' : FileMeta.t) : Prop :=
  FileMeta.id r' = FileMeta.id r /\ FileMeta.is_folder r' = FileMeta.is_folder r
  /\ FileMeta.file_hash r' = FileMeta.file_hash r.

(** From [w] to [w'] the rows kept their keys, kinds and contents, and the
    blob records were left alone. *)
Definition reshaped (w w' : World) : Prop :=
  List.Forall2 same_blob (file_meta w) (file_meta w')
  /\ file_store w' = file_store w /\ file_meta_seq w' = file_meta_seq w.

Lemma Forall2_same_blob_map (f : FileMeta.t -> FileMeta.t) (l : list FileMeta.t) :
  (forall r, In r l -> same_blob r (f r)) -> List.Forall2 same_blob l (List.map f l).
Proof.
  induction l as [|a l IH]; intros H; cbn; constructor.
  - apply H. left. reflexivity.
  - apply IH. intros r Hr. apply H. right. exact Hr.
Qed.

Lemma Forall2_same_blob_in (l l' : list FileMeta.t) r' :
  List.Forall2 same_blob l l' -> In r' l' -> exists r, In r l /\ same_blob r r'.
Proof.
  induction 1 as [|a a' l l' Ha Hl IH]; intros Hin; [destruct Hin|].
  destruct Hin as [<-|Hin]; [exists a; split; [left; reflexivity|exact Ha]|].
  destruct (IH Hin) as (r & Hr & Hs). exists r. split; [right; exact Hr|exact Hs].
Qed.

Lemma accounted_reshaped w w' : reshaped w w' -> accounted w -> accounted w'.
Proof.
  intros (Hrows & Hs & Hseq) ((Hnd & Hids) & Hless & Hne & Hc).
  assert (Hmap : forall (A : Type) (g : FileMeta.t -> A),
            (forall r r', same_blob r r' -> g r' = g r) ->
            List.map g (file_meta w') = List.map g (file_meta w)).
  { intros A g Hg. clear -Hrows Hg. revert Hrows.
    generalize (file_meta w) (file_meta w'). intros l l' H.
    induction H as [|a a' l l' Ha Hl IH]; [reflexivity|].
    cbn. rewrite (Hg _ _ Ha), IH. reflexivity. }
  split; [split|split; [|split]].
  - rewrite (Hmap _ FileMeta.id); [exact Hnd|]. intros r r' (H & _). exact H.
  - intros r' Hr'. destruct (Forall2_same_blob_in _ _ _ Hrows Hr') as (r & Hr & Hid & _).
    rewrite Hid, Hseq. apply Hids. exact Hr.
  - intros r' Hr' Hf. destruct (Forall2_same_blob_in _ _ _ Hrows Hr') as (r & Hr & _ & Hfo & Hh).
    rewrite Hh. apply Hless; [exact Hr|congruence].
  - intros r' Hr'. destruct (Forall2_same_blob_in _ _ _ Hrows Hr') as (r & Hr & _ & _ & Hh).
    rewrite Hh. apply Hne. exact Hr.
  - apply (counted_frame w w'); [|exact Hs|exact Hc].
    apply Hmap. intros r r' (_ & _ & H). exact H.
Qed.

Lemma remove_reshaped fuel now user_id id w r w' :
  unique_ids w -> remove fuel now id user_id w = Ok r w' -> reshaped w w'.
Proof.
  intros Hnd H.
  destruct (remove_marks user_id now w Hnd _ _ _ _ _ _ _ (marked_start now w) H)
    as (Hm & (Hseq & Hs & _) & _).
  split; [|split; assumption]. unfold marked in Hm.
  eapply List.Forall2_impl; [|exact Hm]. intros a b [[->|[-> _]] _]; repeat split.
Qed.

Lemma move_reshaped fuel now user_id id target_parent_id w r w' :
  move fuel now id target_parent_id user_id w = Ok r w' -> reshaped w w'.
Proof.
  intros H. unfold move in H. apply bind_Ok in H as (obj & w0 & Hg & H).
  apply gets_Ok in Hg as [-> ->].
  assert (Hrefl : reshaped w w).
  { split; [|split; reflexivity]. rewrite <- (List.map_id (file_meta w)) at 2.
    apply Forall2_same_blob_map. intros x _. repeat split. }
  destruct (get_obj id user_id w) as [obj|] eqn:Hobj; [|injection H as _ <-; exact Hrefl].
  apply bind_Ok in H as (cyclic & w1 & Hcyc & H).
  assert (w1 = w).
  { destruct (FileMeta.is_folder obj); [|injection Hcyc as _ <-; reflexivity].
    apply bind_Ok in Hcyc as (anc & w2 & Hanc & Hret). injection Hret as _ <-.
    pose proof (get_ancestors_pure fuel target_parent_id user_id w) as Hp.
    rewrite Hanc in Hp. cbn in Hp. auto. }
  subst w1. destruct cyclic; [injection H as _ <-; exact Hrefl|].
  apply bind_Ok in H as (name & w1 & Hname & H).
  destruct (_get_unique_filename_total user_id target_parent_id (FileMeta.file_name obj) w)
    as (name' & Hname' & _).
  rewrite Hname' in Hname. injection Hname as <- <-.
  apply bind_Ok in H as ([] & w2 & Hmod & H). apply gets_Ok in H as [_ ->].
  unfold modify in Hmod. injection Hmod as <-.
  split; [|split; reflexivity]. unfold update_row. cbn.
  apply Forall2_same_blob_map. intros x _. destruct (by_id _ x); repeat split.
Qed.

(** The dirty objects of a restore carry the content hash of their rows. *)
Definition hash_ok (w : World) (pend : gmap Z FileMeta.t) : Prop :=
  forall k o, pend !! k = Some o ->
    exists row, In row (file_meta w) /\ FileMeta.id row = k
                /\ FileMeta.file_hash o = FileMeta.file_hash row.

Lemma load_hash w pend row :
  keys_ok w -> hash_ok w pend -> In row (file_meta w) ->
  FileMeta.file_hash (load pend row) = FileMeta.file_hash row.
Proof.
  intros Hk Hh Hin. unfold load. destruct (pend !! FileMeta.id row) as [o|] eqn:E; [|reflexivity].
  destruct (Hh _ _ E) as (row' & Hin' & Hid' & Hhash). cbn.
  assert (row' = row) by (apply (NoDup_map_In_eq FileMeta.id _ row' row (proj1 Hk) Hin' Hin Hid')).
  subst row'. exact Hhash.
Qed.

Lemma undelete_hash_ok w now pend row :
  keys_ok w -> pend_ok w pend -> hash_ok w pend -> In row (file_meta w) ->
  hash_ok w (fst (undelete now pend (load pend row))).
Proof.
  intros Hk Hp Hh Hin. destruct (load_fields w pend row Hk Hp Hin) as (Hid & _).
  pose proof (load_hash w pend row Hk Hh Hin) as Hhash.
  unfold undelete. cbn. intros k o Hko. rewrite Hid in Hko.
  destruct (decide (FileMeta.id row = k)) as [<-|Hne].
  - rewrite lookup_insert_eq in Hko. injection Hko as <-. exists row. cbn. auto.
  - rewrite lookup_insert_ne in Hko by exact Hne. apply Hh. exact Hko.
Qed.

Lemma _restore_downwards_hash now w user_id :
  keys_ok w ->
  forall fuel obj pend pend',
    pend_ok w pend -> hash_ok w pend ->
    _restore_downwards fuel now w user_id obj pend = Some pend' ->
    hash_ok w pend'.
Proof.
  intros Hk. induction fuel as [|fuel IH]; intros obj pend pend' Hp Ho H; [discriminate|].
  cbn [_restore_downwards] in H.
  destruct (FileMeta.is_folder obj); cbn [negb] in H; [|injection H as <-; exact Ho].
  set (step := fun (acc : option (gmap Z FileMeta.t)) (row : FileMeta.t) =>
                 match acc with
                 | None => None
                 | Some pend0 =>
                     let '(pend1, child) := undelete now pend0 (load pend0 row) in
                     _restore_downwards fuel now w user_id child pend1
                 end) in H.
  assert (Hloop : forall cs pend0 pend1,
            pend_ok w pend0 -> hash_ok w pend0 ->
            (forall c, In c cs -> In c (file_meta w)) ->
            fold_left step cs (Some pend0) = Some pend1 ->
            hash_ok w pend1).
  { induction cs as [|c cs IHcs]; intros pend0 pend1 Hp0 Ho0 Hrows Hfold.
    - cbn in Hfold. injection Hfold as <-. exact Ho0.
    - cbn [fold_left] in Hfold. pose proof (Hrows c (or_introl eq_refl)) as Hcrow.
      pose proof (undelete_pend_ok w now pend0 c Hk Hp0 Hcrow) as Hp0'.
      pose proof (undelete_hash_ok w now pend0 c Hk Hp0 Ho0 Hcrow) as Ho0'.
      destruct (step (Some pend0) c) as [pend2|] eqn:Estep;
        [|rewrite fold_left_none in Hfold by reflexivity; discriminate].
      unfold step in Estep. unfold undelete in Estep, Hp0', Ho0'. cbn in Estep, Hp0', Ho0'.
      pose proof (IH _ _ _ Hp0' Ho0' Estep) as Ho2.
      destruct (_restore_downwards_spec now w user_id Hk _ _ _ _ Hp0' Estep) as (Hp2 & _).
      apply (IHcs pend2 pend1 Hp2 Ho2 (fun x Hx => Hrows x (or_intror Hx)) Hfold). }
  apply (Hloop _ _ _ Hp Ho) in H; [exact H|].
  intros c Hc. apply filter_In in Hc as [Hc _]. exact Hc.
Qed.

Lemma _restore_upwards_hash now w user_id :
  keys_ok w ->
  forall fuel current pend pend',
    pend_ok w pend -> hash_ok w pend ->
    _restore_upwards fuel now w user_id current pend = Some pend' ->
    pend_ok w pend' /\ hash_ok w pend'.
Proof.
  intros Hk. induction fuel as [|fuel IH]; intros current pend pend' Hp Ho H; [discriminate|].
  cbn [_restore_upwards] in H.
  destruct (FileMeta.parent_id current =? 0); [injection H as <-; auto|].
  destruct (get_obj (FileMeta.parent_id current) user_id w) as [prow|] eqn:Eprow;
    [|injection H as <-; auto].
  pose proof (get_obj_In _ _ _ _ Eprow) as (Hin & _ & Hu).
  destruct (FileMeta.is_deleted (load pend prow)).
  - pose proof (undelete_pend_ok w now pend prow Hk Hp Hin) as Hp1.
    pose proof (undelete_hash_ok w now pend prow Hk Hp Ho Hin) as Ho1.
    unfold undelete in H, Hp1, Ho1. cbn in H, Hp1, Ho1. exact (IH _ _ _ Hp1 Ho1 H).
  - exact (IH _ _ _ Hp Ho H).
Qed.

Lemma restore_reshaped fuel now user_id id w r w' :
  keys_ok w -> restore fuel now id user_id w = Ok r w' -> reshaped w w'.
Proof.
  intros Hk H. unfold restore in H.
  assert (Hrefl : reshaped w w).
  { split; [|split; reflexivity]. rewrite <- (List.map_id (file_meta w)) at 2.
    apply Forall2_same_blob_map. intros x _. repeat split. }
  destruct (get_obj id user_id w) as [obj|] eqn:Hobj; [|injection H as _ <-; exact Hrefl].
  pose proof (get_obj_In _ _ _ _ Hobj) as (Hin & Hid & Hu).
  assert (Hempty : pend_ok w ∅).
  { intros k o Hko. rewrite lookup_empty in Hko. discriminate. }
  assert (Hload : load ∅ obj = obj) by (unfold load; rewrite lookup_empty; reflexivity).
  pose proof (undelete_pend_ok w now ∅ obj Hk Hempty Hin) as Hp0.
  assert (Hhash : hash_ok w ∅).
  { intros k o Ho. rewrite lookup_empty in Ho. discriminate. }
  pose proof (undelete_hash_ok w now ∅ obj Hk Hempty Hhash Hin) as Ho0.
  rewrite Hload in Hp0, Ho0. unfold undelete in H, Hp0, Ho0. cbn in H, Hp0, Ho0.
  destruct (_restore_downwards _ _ _ _ _ _) as [pend1|] eqn:Hdown; [|discriminate H].
  destruct (_restore_downwards_spec now w user_id Hk _ _ _ _ Hp0 Hdown) as (Hp1 & _).
  pose proof (_restore_downwards_hash now w user_id Hk _ _ _ _ Hp0 Ho0 Hdown) as Ho1.
  destruct (_restore_upwards _ _ _ _ _ _) as [pend2|] eqn:Hup; [|discriminate H].
  destruct (_restore_upwards_hash now w user_id Hk _ _ _ _ Hp1 Ho1 Hup) as [Hp2 Ho2].
  injection H as _ <-. split; [|split; reflexivity]. unfold commit. cbn.
  apply Forall2_same_blob_map. intros row Hrow.
  destruct (load_fields w pend2 row Hk Hp2 Hrow) as (Hlid & _ & Hlf & _).
  split; [exact Hlid|]. split; [exact Hlf|]. exact (load_hash w pend2 row Hk Ho2 Hrow).
Qed.

End RefCounts.

(** X11. The reference counts through the namespace operations.  Take a
    database in which every blob record counts the nodes that reference
    its hash and no node references a hash without a record, where the
    node keys are distinct and were given out by the counter, no folder
    bears a hash and no node bears the empty hash.  Whatever a soft delete,
    a restore, a hard delete, a copy or a move returns, the database it
    leaves is such a database again: the hard delete takes one reference
    off for each file node it deletes and drops the record with the last
    one, the copy adds one for each file node it clones, and the other
    three change neither the hashes nor the records. *)
Theorem namespace_keeps_reference_counts :
  forall (user_id : Z) (w : World),
    accounted w ->
    (forall fuel now id r w',
        CRUDFileMeta.remove fuel now id user_id w = Ok r w' -> accounted w')
    /\ (forall fuel now id r w',
          CRUDFileMeta.restore fuel now id user_id w = Ok r w' -> accounted w')
    /\ (forall fuel id r w',
          CRUDFileMeta.permanent_remove fuel id user_id w = Ok r w' -> accounted w')
    /\ (forall fuel now id target_parent_id r w',
          CRUDFileMeta.copy fuel now id target_parent_id user_id w = Ok r w' -> accounted w')
    /\ (forall fuel now id target_parent_id r w',
          CRUDFileMeta.move fuel now id target_parent_id user_id w = Ok r w' -> accounted w').
Proof.
  intros user_id w Ha. pose proof Ha as ((Hnd & Hids) & Hless & Hne & Hc).
  split; [|split; [|split; [|split]]].
  - intros fuel now id r w' H.
    exact (accounted_reshaped w w' (remove_reshaped fuel now user_id id w r w' Hnd H) Ha).
  - intros fuel now id r w' H.
    exact (accounted_reshaped w w'
             (restore_reshaped fuel now user_id id w r w' (conj Hnd Hids) H) Ha).
  - intros fuel id r w' H.
    destruct (permanent_remove_kept fuel user_id id w r w' (conj Hnd (conj Hless Hc)) H)
      as (Hnd' & Hless' & Hc').
    destruct (permanent_remove_isolated fuel user_id id w r w' Hnd H) as (_ & Hsub & _).
    split; [split|split; [|split]]; [exact Hnd'| |exact Hless'| |exact Hc'].
    + intros x Hx. rewrite (proj1 (permanent_remove_spared fuel user_id id w r w' H)). auto.
    + intros x Hx. auto.
  - intros fuel now id target r w' H.
    exact (copy_accounted fuel now user_id id target w r w' Ha H).
  - intros fuel now id target r w' H.
    exact (accounted_reshaped w w' (move_reshaped fuel now user_id id target w r w' H) Ha).
Qed.

(** ** The purge of the trash *)

Section Trash.

Import CRUDFileMeta.

Variable user_id : Z.

Lemma get_obj_none_iff id w :
  get_obj id user_id w = None <-> forall r, In r (file_meta w) -> owned id user_id r = false.
Proof. unfold get_obj. rewrite first_none_all. apply all_nil_iff. Qed.

(** After a hard delete that returned, the key names no node of the owner. *)
Lemma permanent_remove_gone fuel id w r w' :
  permanent_remove fuel id user_id w = Ok r w' -> get_obj id user_id w' = None.
Proof.
  destruct fuel as [|fuel]; intros H; [discriminate|].
  cbn [permanent_remove] in H. apply bind_Ok in H as (obj & w0 & Hg & H).
  apply gets_Ok in Hg as [-> ->].
  destruct (get_obj id user_id w) as [obj|] eqn:Hobj; [|injection H as _ <-; exact Hobj].
  pose proof (get_obj_In _ _ _ _ Hobj) as (_ & Hid & _).
  apply bind_Ok in H as ([] & w1 & Hbody & H).
  apply bind_Ok in H as ([] & w2 & Hmod & H). injection H as _ <-.
  unfold modify in Hmod. injection Hmod as <-.
  apply get_obj_none_iff. intros x Hx. unfold delete_row in Hx. cbn in Hx.
  apply filter_In in Hx as [_ Hx]. unfold owned. unfold by_id in Hx. rewrite Hid in Hx.
  destruct (FileMeta.id x =? id); [discriminate Hx|reflexivity].
Qed.

Lemma shrunk_gone id w w' :
  (forall r, In r (file_meta w') -> In r (file_meta w)) ->
  get_obj id user_id w = None -> get_obj id user_id w' = None.
Proof.
  intros Hsub Hn. apply get_obj_none_iff. intros r Hr.
  apply (proj1 (get_obj_none_iff id w) Hn). auto.
Qed.

(** The loop of the purge: every key of the list is gone at the end. *)
Lemma purge_loop fuel (l : list FileMeta.t) :
  forall w w',
    unique_ids w ->
    for_each l (fun file => _ ← permanent_remove fuel (FileMeta.id file) user_id; mret tt) w
      = Ok tt w' ->
    shrunk user_id w w' /\ spared w w'
    /\ forall x, In x l -> get_obj (FileMeta.id x) user_id w' = None.
Proof.
  induction l as [|x l IH]; intros w w' Hnd H; cbn [for_each] in H.
  - injection H as <-. split; [repeat split; auto|]. split; [repeat split|]. intros x [].
  - apply bind_Ok in H as ([] & w1 & Hstep & H).
    apply bind_Ok in Hstep as (r & wr & Hrm & Hret). injection Hret as ->.
    destruct (permanent_remove_isolated _ _ _ _ _ _ Hnd Hrm) as (Hnd1 & Hsub1 & Ho1).
    destruct (permanent_remove_spared _ _ _ _ _ _ Hrm) as (A1 & A2 & A3).
    destruct (IH _ _ Hnd1 H) as ((Hnd2 & Hsub2 & Ho2) & (B1 & B2 & B3) & Hgone).
    split; [split; [exact Hnd2|split; [auto|congruence]]|].
    split; [repeat split; congruence|].
    intros y [<-|Hy]; [|auto].
    apply (shrunk_gone _ w1 w' Hsub2). exact (permanent_remove_gone _ _ _ _ _ Hrm).
Qed.

Lemma clean_expired_trash_purges fuel now days w w' :
  unique_ids w -> clean_expired_trash fuel now user_id days w = Ok tt w' ->
  shrunk user_id w w' /\ spared w w'
  /\ forall r, In r (file_meta w') -> expired user_id (now - timedelta_days days) r = false.
Proof.
  intros Hnd H. unfold clean_expired_trash in H. cbn zeta in H.
  apply bind_Ok in H as (ex & w0 & Hg & H). apply gets_Ok in Hg as [-> ->].
  destruct (purge_loop _ _ _ _ Hnd H) as (Hs & Hsp & Hgone).
  split; [exact Hs|]. split; [exact Hsp|]. intros r Hr.
  destruct (expired user_id (now - timedelta_days days) r) eqn:E; [|reflexivity]. exfalso.
  destruct Hs as (_ & Hsub & _).
  assert (Hex : In r (all (expired user_id (now - timedelta_days days)) (file_meta w))).
  { apply filter_In. split; [auto|exact E]. }
  specialize (Hgone r Hex). apply (proj1 (get_obj_none_iff _ _)) with (r := r) in Hgone; [|exact Hr].
  unfold expired in E. apply andb_true_iff in E as [E _]. apply andb_true_iff in E as [E _].
  unfold owned in Hgone. rewrite Z.eqb_refl, E in Hgone. discriminate Hgone.
Qed.

Lemma In_page {A} (skip limit : Z) (l : list A) x : In x (page skip limit l) -> In x l.
Proof.
  unfold page. cbn zeta. intros H.
  rewrite <- (firstn_skipn (Z.to_nat skip) l). apply in_or_app. right.
  destruct (limit <? 0); [exact H|].
  rewrite <- (firstn_skipn (Z.to_nat limit) (skipn (Z.to_nat skip) l)).
  apply in_or_app. left. exact H.
Qed.

End Trash.

(** X12. The purge of the trash.  Whenever [clean_expired_trash] returns,
    no node of the user is left that is in the trash with a deletion time
    before the expiry date (the current time less the given days); rows
    were deleted, none was changed or added, and none of another user was
    deleted; the quota counters are what they were: the purge gives no
    quota back.  [get_trash_files] purges with thirty days before it
    lists: every node it lists, whatever the offset and the limit (a
    negative limit bounds nothing), is a row of the table, of the user, in
    the trash, and not expired. *)
Theorem trash_listing_purges_expired :
  forall (user_id now : Z) (w : World),
    unique_ids w ->
    (forall fuel days w',
        CRUDFileMeta.clean_expired_trash fuel now user_id days w = Ok tt w' ->
        (forall r, In r (file_meta w') ->
           In r (file_meta w)
           /\ CRUDFileMeta.expired user_id (now - CRUDFileMeta.timedelta_days days) r = false)
        /\ others user_id (file_meta w') = others user_id (file_meta w)
        /\ sys_user w' = sys_user w)
    /\ (forall fuel parent_id skip limit l w',
          CRUDFileMeta.get_trash_files fuel now user_id parent_id skip limit w = Ok l w' ->
          forall r, In r l ->
            In r (file_meta w') /\ FileMeta.user_id r = user_id
            /\ FileMeta.is_deleted r = true
            /\ CRUDFileMeta.expired user_id (now - CRUDFileMeta.timedelta_days 30) r = false).
Proof.
  intros user_id now w Hnd. split.
  - intros fuel days w' H.
    destruct (clean_expired_trash_purges user_id fuel now days w w' Hnd H)
      as ((_ & Hsub & Ho) & (_ & Hu & _) & Hex).
    split; [auto|]. split; [exact Ho|exact Hu].
  - intros fuel parent_id skip limit l w' H r Hr. unfold CRUDFileMeta.get_trash_files in H.
    apply bind_Ok in H as ([] & w1 & Hclean & H).
    destruct (clean_expired_trash_purges user_id fuel now 30 w w1 Hnd Hclean) as (_ & _ & Hex).
    assert (Hlist : w' = w1 /\
              (In r (all (CRUDFileMeta.deleted_child_of (default 0 parent_id) user_id) (file_meta w1))
               \/ In r (all (CRUDFileMeta.trash_root user_id w1) (file_meta w1)))).
    { destruct parent_id as [p|]; [destruct (negb (p =? 0))|];
        apply gets_Ok in H as [-> ->]; (split; [reflexivity|]); apply In_page in Hr; auto. }
    destruct Hlist as [-> Hlist].
    assert (Hrow : In r (file_meta w1) /\ FileMeta.user_id r = user_id
                   /\ FileMeta.is_deleted r = true).
    { destruct Hlist as [Hl|Hl]; apply filter_In in Hl as [Hin Hp].
      - apply deleted_child_of_spec in Hp as (_ & Hu & Hd). auto.
      - unfold CRUDFileMeta.trash_root in Hp. apply andb_true_iff in Hp as [Hp _].
        apply andb_true_iff in Hp as [Hu Hd]. apply Z.eqb_eq in Hu. auto. }
    destruct Hrow as (Hin & Hu & Hd). repeat split; auto.
Qed.

(** ** The creation of a folder *)

Lemma _get_unique_filename_free user_id parent_id file_name w :
  ~ name_taken user_id parent_id w file_name ->
  CRUDFileMeta._get_unique_filename user_id parent_id file_name w = Ok file_name w.
Proof.
  intros Hfree. unfold CRUDFileMeta._get_unique_filename.
  pose proof (existing_names_taken user_id parent_id file_name w file_name) as Hmem.
  destruct (CRUDFileMeta.split_ext file_name) as [stem ext] eqn:Hsplit.
  pose proof (split_ext_spec _ _ _ Hsplit) as Hname.
  destruct (mem file_name (CRUDFileMeta.existing_names user_id parent_id file_name w)) eqn:Hm;
    [|reflexivity].
  exfalso. apply Hfree. apply Hmem; [|reflexivity].
  rewrite Hname. apply (like_pattern stem ext EmptyString).
Qed.

(** X13. The creation of a folder.  [create_folder] always ends, in one of
    three ways.  A name with an illegal character is refused (400), and a
    name that an active sibling bears is refused (409): nothing is changed.
    Otherwise one row is added: an active folder without a content hash,
    whatever kind and hash the request announced, of the user, under the
    requested parent, with the next key and with exactly the requested
    name. *)
Theorem create_folder_outcomes :
  forall (current_user now : Z) (folder_in : FileMetaCreate.t) (w : World),
    let name := FileMetaCreate.file_name folder_in in
    let parent_id := FileMetaCreate.parent_id folder_in in
    match files.create_folder current_user now folder_in w with
    | Ok folder w' =>
        files.is_filename_valid name = true
        /\ ~ name_taken current_user parent_id w name
        /\ folder = FileMeta.mk (file_meta_seq w + 1) current_user parent_id name true None
                      false None now now
        /\ w' = with_file_meta_seq (file_meta_seq w + 1)
                  (with_file_meta (file_meta w ++ [folder]) w)
    | Raise e w' =>
        w' = w
        /\ ((files.is_filename_valid name = false /\ e = files.illegal_folder_name)
            \/ (files.is_filename_valid name = true /\ name_taken current_user parent_id w name
                /\ e = files.folder_conflict))
    | Diverge => False
    end.
Proof.
  intros current_user now folder_in w name parent_id. unfold files.create_folder.
  fold name parent_id. destruct (files.is_filename_valid name) eqn:Hvalid; cbn [negb].
  2:{ split; [reflexivity|]. left. auto. }
  unfold mbind at 1, M_bind at 1. unfold gets at 1.
  pose proof (get_by_name_and_parent_taken current_user parent_id w name) as Htaken.
  destruct (CRUDFileMeta.get_by_name_and_parent name parent_id current_user w) as [existing|]
    eqn:Hex.
  - split; [reflexivity|]. right. split; [reflexivity|]. split; [|reflexivity].
    apply Htaken. eauto.
  - assert (Hfree : ~ name_taken current_user parent_id w name).
    { intros Ht. apply Htaken in Ht. destruct Ht as [x Hx]. discriminate Hx. }
    unfold CRUDFileMeta.create_with_user. cbn [FileMetaCreate.file_name FileMetaCreate.parent_id
      FileMetaCreate.is_folder FileMetaCreate.file_hash].
    unfold mbind, M_bind.
    pose proof (_get_unique_filename_free current_user parent_id name w Hfree) as Hname.
    rewrite Hname. unfold CRUDFileMeta.add_file_meta. auto.
Qed.

(** ** Hard delete *)

Section HardDelete.

Import CRUDFileMeta.

Variables (user_id : Z) (w : World).
Hypothesis Hnd : unique_ids w.

Lemma below_trans a b c : below user_id w a b -> below user_id w b c -> below user_id w a c.
Proof.
  intros Hab Hbc. induction Hab as [n r Hf Hin Hc|n x r Hf Hin Hc Hxr IH].
  - eapply below_deeper; eauto.
  - eapply below_deeper; eauto.
Qed.

Lemma below_folder n r : below user_id w n r -> FileMeta.is_folder n = true.
Proof. intros H. destruct H; assumption. Qed.

(** The node below which [r] lies, one level down. *)
Lemma below_inv n r :
  below user_id w n r ->
  exists c, In c (file_meta w) /\ child_of (FileMeta.id n) user_id c = true
            /\ (r = c \/ below user_id w c r).
Proof. intros H. destruct H as [n r Hf Hin Hc|n c r Hf Hin Hc Hcr]; eauto. Qed.

(** A world reached from [w] by hard deletes: the rows among [gone] were
    deleted, the others are there, in their order; what lies below a
    deleted node was deleted with it. *)
Definition purged (gone : FileMeta.t -> Prop) (wa : World) : Prop :=
  (exists keep : FileMeta.t -> bool,
      file_meta wa = all keep (file_meta w)
      /\ forall r, In r (file_meta w) -> keep r = false <-> gone r)
  /\ forall r d, gone r -> below user_id w r d -> gone d.

Lemma purged_start : purged (fun _ => False) w.
Proof.
  split; [|intros r d []]. exists (fun _ => true). split.
  - symmetry. apply all_id. reflexivity.
  - intros r _. split; [discriminate|intros []].
Qed.

Lemma purged_In gone wa r : purged gone wa -> In r (file_meta wa) -> In r (file_meta w) /\ ~ gone r.
Proof.
  intros [(keep & Hm & Hk) _] Hr. rewrite Hm in Hr. apply filter_In in Hr as [Hin Hkeep].
  split; [exact Hin|]. intros Hg. apply (Hk r Hin) in Hg. congruence.
Qed.

Lemma purged_there gone wa r :
  purged gone wa -> In r (file_meta w) -> In r (file_meta wa) \/ gone r.
Proof.
  intros [(keep & Hm & Hk) _] Hr. destruct (keep r) eqn:E.
  - left. rewrite Hm. apply filter_In. auto.
  - right. apply (Hk r Hr). exact E.
Qed.

Lemma purged_ext (gone gone' : FileMeta.t -> Prop) wa :
  (forall r, gone r <-> gone' r) -> purged gone wa -> purged gone' wa.
Proof.
  intros He [(keep & Hm & Hk) Hc]. split.
  - exists keep. split; [exact Hm|]. intros r Hr. rewrite (Hk r Hr). apply He.
  - intros r d Hg Hb. apply He. apply (Hc r d); [apply He; exact Hg|exact Hb].
Qed.

Lemma get_obj_own_row r :
  In r (file_meta w) -> FileMeta.user_id r = user_id -> get_obj (FileMeta.id r) user_id w = Some r.
Proof.
  intros Hin Hu. destruct (get_obj (FileMeta.id r) user_id w) as [x|] eqn:E.
  - pose proof (get_obj_In _ _ _ _ E) as (Hx & Hxid & _). f_equal.
    apply (NoDup_map_In_eq FileMeta.id (file_meta w) x r Hnd Hx Hin Hxid).
  - apply first_none_all in E. rewrite all_nil_iff in E. specialize (E r Hin).
    unfold owned in E. rewrite Hu, !Z.eqb_refl in E. discriminate E.
Qed.

(** The node found under a key in a purged world is the node of [w]. *)
Lemma purged_get_obj gone wa id obj :
  purged gone wa -> get_obj id user_id wa = Some obj -> get_obj id user_id w = Some obj.
Proof.
  intros Hp Hobj. pose proof (get_obj_In _ _ _ _ Hobj) as (Hin & Hid & Hu).
  destruct (purged_In _ _ _ Hp Hin) as [Hinw _]. rewrite <- Hid.
  apply get_obj_own_row; assumption.
Qed.

Lemma subtree_closed id r d :
  subtree user_id w id r -> below user_id w r d -> subtree user_id w id d.
Proof.
  intros (obj & Hobj & [->|Hb]) Hrd; exists obj; split; auto.
  right. eapply below_trans; eauto.
Qed.

Lemma delete_row_all id (keep : FileMeta.t -> bool) (l : list FileMeta.t) :
  all (fun r => negb (by_id id r)) (all keep l) = all (fun r => keep r && negb (by_id id r)) l.
Proof.
  unfold all. induction l as [|a l IH]; [reflexivity|]. cbn.
  destruct (keep a); cbn; [destruct (negb (by_id id a)); cbn; congruence|exact IH].
Qed.

Lemma permanent_remove_purges fuel :
  forall id wa r wb (gone : FileMeta.t -> Prop),
    purged gone wa -> permanent_remove fuel id user_id wa = Ok r wb ->
    purged (fun d => gone d \/ subtree user_id w id d) wb
    /\ r = get_obj id user_id wa.
Proof.
  induction fuel as [|fuel IH]; intros id wa r wb gone Hp H; [discriminate|].
  cbn [permanent_remove] in H. apply bind_Ok in H as (oa & w0 & Hg & H).
  apply gets_Ok in Hg as [-> ->].
  destruct (get_obj id user_id wa) as [obj|] eqn:Hobj.
  2:{ injection H as <- <-. split; [|reflexivity]. pose proof Hp as [(keep & Hm & Hk) Hc]. split.
      - exists keep. split; [exact Hm|]. intros x Hx. rewrite (Hk x Hx).
        split; [auto|]. intros [Hg|(obj & Hobjw & Hsub)]; [exact Hg|].
        pose proof (get_obj_In _ _ _ _ Hobjw) as (Hin & Hid & Hu).
        assert (Hgo : gone obj).
        { destruct (purged_there _ _ _ Hp Hin) as [Hthere|Hgo]; [|exact Hgo]. exfalso.
          apply first_none_all in Hobj. rewrite all_nil_iff in Hobj. specialize (Hobj obj Hthere).
          unfold owned in Hobj. rewrite Hid, Hu, !Z.eqb_refl in Hobj. discriminate Hobj. }
        destruct Hsub as [->|Hb]; [exact Hgo|]. exact (Hc _ _ Hgo Hb).
      - intros x d [Hg|Hs] Hb; [left; exact (Hc _ _ Hg Hb)|right; exact (subtree_closed _ _ _ Hs Hb)]. }
  pose proof (purged_get_obj _ _ _ _ Hp Hobj) as Hobjw.
  pose proof (get_obj_In _ _ _ _ Hobjw) as (Hin & Hid & Hu).
  apply bind_Ok in H as ([] & w1 & Hbody & H).
  apply bind_Ok in H as ([] & w2 & Hmod & H). injection H as <- <-.
  unfold modify in Hmod. injection Hmod as <-. split; [|reflexivity].
  assert (Hsub : forall d, subtree user_id w id d <-> d = obj \/ below user_id w obj d).
  { intros d. unfold subtree. rewrite Hobjw. split; [intros (o & Ho & Hd); congruence|eauto]. }
  assert (H1 : purged (fun d => gone d \/ below user_id w obj d) w1).
  { destruct (FileMeta.is_folder obj) eqn:Hfolder.
    - apply bind_Ok in Hbody as (children & w0 & Hg & Hbody). apply gets_Ok in Hg as [-> ->].
      set (G := fun (l : list FileMeta.t) (d : FileMeta.t) =>
                  gone d \/ exists c, In c l /\ (d = c \/ below user_id w c d)).
      assert (Hloop : forall cs done wx wy,
                (forall c, In c cs -> In c (file_meta w) /\ FileMeta.user_id c = user_id) ->
                purged (G done) wx ->
                for_each cs (fun child =>
                               _ ← permanent_remove fuel (FileMeta.id child) user_id; mret tt)
                         wx = Ok tt wy ->
                purged (G (done ++ cs)) wy).
      { induction cs as [|c cs IHcs]; intros done wx wy Hcs Hpx Hrun; cbn [for_each] in Hrun.
        - injection Hrun as <-. rewrite app_nil_r. exact Hpx.
        - apply bind_Ok in Hrun as ([] & wz & Hstep & Hrun).
          apply bind_Ok in Hstep as (rc & wr & Hrm & Hret). injection Hret as ->.
          destruct (IH _ _ _ _ _ Hpx Hrm) as [Hpz _].
          destruct (Hcs c (or_introl eq_refl)) as [Hcin Hcu].
          pose proof (get_obj_own_row c Hcin Hcu) as Hcobj.
          replace (done ++ c :: cs) with ((done ++ [c]) ++ cs)
            by (rewrite <- app_assoc; reflexivity).
          apply (IHcs (done ++ [c]) wz wy (fun x Hx => Hcs x (or_intror Hx))); [|exact Hrun].
          eapply purged_ext; [|exact Hpz]. intros d. unfold G, subtree. rewrite Hcobj. split.
          + intros [[Hg|(c0 & Hc0 & Hd)]|(o & Ho & Hd)].
            * left. exact Hg.
            * right. exists c0. split; [apply in_or_app; left; exact Hc0|exact Hd].
            * injection Ho as <-. right. exists c.
              split; [apply in_or_app; right; left; reflexivity|exact Hd].
          + intros [Hg|(c0 & Hc0 & Hd)]; [left; left; exact Hg|].
            apply in_app_iff in Hc0 as [Hc0|[<-|[]]]; [left; right; eauto|right; eauto]. }
      assert (Hstart : purged (G []) wa).
      { eapply purged_ext; [|exact Hp]. intros d. unfold G. split; [auto|].
        intros [Hg|(c & [] & _)]. exact Hg. }
      assert (Hrows : forall c, In c (all (child_of id user_id) (file_meta wa)) ->
                In c (file_meta w) /\ FileMeta.user_id c = user_id).
      { intros c Hc. apply filter_In in Hc as [Hc Hchild].
        split; [exact (proj1 (purged_In _ _ _ Hp Hc))|]. unfold child_of in Hchild.
        apply andb_true_iff in Hchild as [_ Hcu]. apply Z.eqb_eq in Hcu. exact Hcu. }
      pose proof (Hloop _ [] wa w1 Hrows Hstart Hbody) as Hend. cbn [app] in Hend.
      eapply purged_ext; [|exact Hend]. intros d. unfold G. split.
      + intros [Hg|(c & Hc & Hd)]; [left; exact Hg|right].
        apply filter_In in Hc as [Hc Hchild]. rewrite <- Hid in Hchild.
        pose proof (proj1 (purged_In _ _ _ Hp Hc)) as Hcw.
        destruct Hd as [->|Hd]; [apply below_child; assumption|].
        eapply below_deeper; eauto.
      + intros [Hg|Hb]; [left; exact Hg|].
        destruct (below_inv _ _ Hb) as (c & Hcw & Hchild & Hd).
        destruct (purged_there _ _ _ Hp Hcw) as [Hca|Hcg].
        * right. exists c. split; [|exact Hd]. apply filter_In. rewrite <- Hid. auto.
        * left. destruct Hd as [->|Hd]; [exact Hcg|]. exact (proj2 Hp _ _ Hcg Hd).
    - pose proof (release_store_file_meta _ _ _ _ Hbody) as Hm1.
      eapply (purged_ext gone).
      + intros d. split; [auto|]. intros [Hg|Hb]; [exact Hg|].
        apply below_folder in Hb. congruence.
      + destruct Hp as [(keep & Hm & Hk) Hc]. split; [|exact Hc].
        exists keep. split; [congruence|exact Hk]. }
  destruct H1 as [(keep & Hm & Hk) Hc]. split.
  - exists (fun r => keep r && negb (by_id (FileMeta.id obj) r)). split.
    + unfold delete_row. cbn. rewrite Hm. apply delete_row_all.
    + intros x Hx. rewrite andb_false_iff, (Hk x Hx), Hsub. unfold by_id.
      split.
      * intros [[Hg|Hb]|Hx0]; [auto|auto|]. right. left.
        apply negb_false_iff, Z.eqb_eq in Hx0.
        apply (NoDup_map_In_eq FileMeta.id (file_meta w) x obj Hnd Hx Hin Hx0).
      * intros [Hg|[->|Hb]]; [auto|right|auto].
        rewrite Z.eqb_refl. reflexivity.
  - intros x d [Hg|Hs] Hb.
    + destruct (Hc x d (or_introl Hg) Hb) as [Hgd|Hbd]; [left; exact Hgd|].
      right. apply Hsub. right. exact Hbd.
    + right. exact (subtree_closed _ _ _ Hs Hb).
Qed.

Lemma ends_release_store obj : ends (release_store obj).
Proof.
  unfold release_store. apply ends_bind; [apply ends_gets|]. intros [store|]; [|apply ends_ret].
  apply ends_bind.
  { unfold decrement_ref_count. apply ends_bind; [apply ends_modify|]. intros _. apply ends_gets. }
  intros [updated|]; [|apply ends_ret].
  destruct (FileStore.ref_count updated <=? 0); [|apply ends_ret].
  apply ends_bind; [apply ends_gets|]. intros present.
  apply ends_bind; [destruct present; [apply ends_os_remove|apply ends_ret]|].
  intros _. apply ends_modify.
Qed.

Lemma permanent_remove_ends (depth : Z -> nat) (bound : nat) :
  (forall c p, In c (file_meta w) -> In p (file_meta w) ->
      FileMeta.user_id c = user_id -> FileMeta.user_id p = user_id ->
      FileMeta.parent_id c = FileMeta.id p ->
      (depth (FileMeta.id p) < depth (FileMeta.id c))%nat) ->
  (forall r, In r (file_meta w) -> (depth (FileMeta.id r) < bound)%nat) ->
  forall fuel id wa (gone : FileMeta.t -> Prop),
    purged gone wa -> (bound - depth id < fuel)%nat ->
    permanent_remove fuel id user_id wa <> Diverge.
Proof.
  intros Hd Hb. induction fuel as [|fuel IH]; intros id wa gone Hp Hfuel; [lia|].
  cbn [permanent_remove]. unfold mbind at 1. unfold M_bind at 1. unfold gets at 1.
  destruct (get_obj id user_id wa) as [obj|] eqn:Hobj; [|discriminate].
  pose proof (purged_get_obj _ _ _ _ Hp Hobj) as Hobjw.
  pose proof (get_obj_In _ _ _ _ Hobjw) as (Hin & Hid & Hu).
  assert (Hbody : (if FileMeta.is_folder obj then
                     children ← gets (fun w0 => all (child_of id user_id) (file_meta w0));
                     for_each children (fun child =>
                       _ ← permanent_remove fuel (FileMeta.id child) user_id; mret tt)
                   else release_store obj) wa <> Diverge).
  { destruct (FileMeta.is_folder obj); [|apply ends_release_store].
    unfold mbind at 1. unfold M_bind at 1. unfold gets at 1.
    assert (Hloop : forall cs wx (gone0 : FileMeta.t -> Prop),
              (forall c, In c cs -> (bound - depth (FileMeta.id c) < fuel)%nat) ->
              purged gone0 wx ->
              for_each cs (fun child =>
                             _ ← permanent_remove fuel (FileMeta.id child) user_id; mret tt)
                       wx <> Diverge).
    { induction cs as [|c cs IHcs]; intros wx gone0 Hcs Hpx; cbn [for_each]; [discriminate|].
      unfold mbind at 1. unfold M_bind at 1. unfold mbind at 1. unfold M_bind at 1.
      pose proof (IH (FileMeta.id c) wx gone0 Hpx (Hcs c (or_introl eq_refl))) as Hstep.
      destruct (permanent_remove fuel (FileMeta.id c) user_id wx) as [rc wz|e wz|] eqn:Hrm;
        [|discriminate|contradiction].
      cbn. destruct (permanent_remove_purges _ _ _ _ _ _ Hpx Hrm) as [Hpz _].
      exact (IHcs wz _ (fun x Hx => Hcs x (or_intror Hx)) Hpz). }
    apply (Hloop _ wa gone); [|exact Hp].
    intros c Hc. apply filter_In in Hc as [Hc Hchild].
    pose proof (proj1 (purged_In _ _ _ Hp Hc)) as Hcw.
    unfold child_of in Hchild. apply andb_true_iff in Hchild as [Hcp Hcu].
    apply Z.eqb_eq in Hcp, Hcu. rewrite <- Hid in Hcp.
    pose proof (Hd c obj Hcw Hin Hcu Hu Hcp). pose proof (Hb c Hcw). rewrite Hid in *. lia. }
  unfold mbind at 1. unfold M_bind at 1. revert Hbody.
  match goal with |- ?b wa <> Diverge -> _ => generalize (b wa) end.
  intros [[] w1|e w1|] Hbody; [discriminate|discriminate|contradiction].
Qed.

End HardDelete.

(** X15. Hard delete.  In a namespace without a cycle, [permanent_remove]
    on an existing node ends (with enough fuel).  When it returns, it
    returns the node, and the table is what it was without the rows of the
    node and of every node below it (through folders, whatever their
    state: the active nodes of a folder go with it): exactly these rows
    are deleted, and the other rows are there, unchanged and in their
    order. *)
Theorem permanent_remove_deletes_exactly_the_subtree :
  forall (user_id : Z) (w : World) (id : Z) (obj : FileMeta.t),
    unique_ids w -> acyclic user_id w -> CRUDFileMeta.get_obj id user_id w = Some obj ->
    exists N, forall fuel, (N <= fuel)%nat ->
      match CRUDFileMeta.permanent_remove fuel id user_id w with
      | Ok r w' =>
          r = Some obj
          /\ exists keep : FileMeta.t -> bool,
               file_meta w' = all keep (file_meta w)
               /\ forall d, In d (file_meta w) ->
                    keep d = false <-> (d = obj \/ below user_id w obj d)
      | Raise _ _ => True
      | Diverge => False
      end.
Proof.
  intros user_id w id obj Hnd [depth Hd] Hobj.
  destruct (depth_bound depth (file_meta w)) as [bound Hb].
  exists (S bound). intros fuel Hfuel.
  pose proof (purged_start user_id w) as Hstart.
  assert (Hends : CRUDFileMeta.permanent_remove fuel id user_id w <> Diverge).
  { apply (permanent_remove_ends user_id w Hnd depth bound Hd Hb fuel id w _ Hstart). lia. }
  destruct (CRUDFileMeta.permanent_remove fuel id user_id w) as [r w'|e w'|] eqn:Hrun;
    [|exact I|contradiction].
  destruct (permanent_remove_purges user_id w Hnd _ _ _ _ _ _ Hstart Hrun)
    as [[(keep & Hm & Hk) _] Hr].
  split; [congruence|]. exists keep. split; [exact Hm|].
  intros d Hin. rewrite (Hk d Hin). unfold subtree. rewrite Hobj. split.
  - intros [[]|(o & Ho & Hdo)]. injection Ho as <-. exact Hdo.
  - intros Hdo. right. eauto.
Qed.

(** ** Restore, exactly *)

Section RestoreExact.

Import CRUDFileMeta.

Variables (user_id now : Z) (w : World).
Hypothesis Hk : keys_ok w.

(** The row of a node taken out of the trash at [now]. *)
Definition revived (r : FileMeta.t) : FileMeta.t := FileMeta.set_deleted false None now r.

(** The dirty objects of a restore are the revived rows of nodes among [S]. *)
Definition exact_ok (S : FileMeta.t -> Prop) (pend : gmap Z FileMeta.t) : Prop :=
  forall k o, pend !! k = Some o ->
    exists row, In row (file_meta w) /\ FileMeta.id row = k /\ o = revived row /\ S row.

Lemma exact_pend_ok S pend : exact_ok S pend -> pend_ok w pend.
Proof.
  intros He k o Hko. destruct (He k o Hko) as (row & Hin & Hid & -> & _).
  split; [split; reflexivity|]. exists row. cbn. repeat (split; [assumption || reflexivity|]). reflexivity.
Qed.

Lemma exact_empty S : exact_ok S ∅.
Proof. intros k o Hko. rewrite lookup_empty in Hko. discriminate. Qed.

Lemma load_revived S pend row :
  exact_ok S pend -> In row (file_meta w) -> revived (load pend row) = revived row.
Proof.
  intros He Hin. unfold load. destruct (pend !! FileMeta.id row) as [o|] eqn:E; [|reflexivity].
  destruct (He _ _ E) as (row' & Hin' & Hid' & -> & _). cbn.
  assert (row' = row) by (apply (NoDup_map_In_eq FileMeta.id _ row' row (proj1 Hk) Hin' Hin Hid')).
  subst row'. reflexivity.
Qed.

(** A row that [load] shows in the trash is not a dirty object. *)
Lemma load_deleted S pend row :
  exact_ok S pend -> FileMeta.is_deleted (load pend row) = true ->
  load pend row = row /\ FileMeta.is_deleted row = true.
Proof.
  intros He Hd. unfold load in *. destruct (pend !! FileMeta.id row) as [o|] eqn:E; [|auto].
  destruct (He _ _ E) as (row' & _ & _ & -> & _). discriminate Hd.
Qed.

Lemma undelete_exact S pend row :
  exact_ok S pend -> In row (file_meta w) -> S row ->
  exact_ok S (fst (undelete now pend (load pend row))).
Proof.
  intros He Hin HS.
  destruct (load_fields w pend row Hk (exact_pend_ok S pend He) Hin) as (Hid & _).
  unfold undelete. cbn. intros k o Hko. rewrite Hid in Hko.
  destruct (decide (FileMeta.id row = k)) as [<-|Hne].
  - rewrite lookup_insert_eq in Hko. injection Hko as <-. exists row.
    split; [exact Hin|]. split; [reflexivity|]. split; [|exact HS].
    apply (load_revived S); assumption.
  - rewrite lookup_insert_ne in Hko by exact Hne. apply He. exact Hko.
Qed.

Lemma _restore_downwards_exact (S : FileMeta.t -> Prop) :
  forall fuel obj pend pend',
    exact_ok S pend ->
    (forall r, deleted_below user_id w obj r -> S r) ->
    _restore_downwards fuel now w user_id obj pend = Some pend' ->
    exact_ok S pend'.
Proof.
  induction fuel as [|fuel IH]; intros obj pend pend' He HS H; [discriminate|].
  cbn [_restore_downwards] in H.
  destruct (FileMeta.is_folder obj) eqn:Hfolder; cbn [negb] in H; [|injection H as <-; exact He].
  set (step := fun (acc : option (gmap Z FileMeta.t)) (row : FileMeta.t) =>
                 match acc with
                 | None => None
                 | Some pend0 =>
                     let '(pend1, child) := undelete now pend0 (load pend0 row) in
                     _restore_downwards fuel now w user_id child pend1
                 end) in H.
  assert (Hloop : forall cs pend0 pend1,
            exact_ok S pend0 ->
            (forall c, In c cs -> In c (file_meta w)
                                  /\ deleted_child_of (FileMeta.id obj) user_id c = true) ->
            fold_left step cs (Some pend0) = Some pend1 ->
            exact_ok S pend1).
  { induction cs as [|c cs IHcs]; intros pend0 pend1 He0 Hrows Hfold.
    - cbn in Hfold. injection Hfold as <-. exact He0.
    - cbn [fold_left] in Hfold. destruct (Hrows c (or_introl eq_refl)) as [Hcrow Hchild].
      assert (Hbc : deleted_below user_id w obj c) by (apply deleted_child; assumption).
      destruct (load_fields w pend0 c Hk (exact_pend_ok S pend0 He0) Hcrow)
        as (Hid & _ & Hf & _).
      pose proof (undelete_exact S pend0 c He0 Hcrow (HS c Hbc)) as He0'.
      destruct (step (Some pend0) c) as [pend2|] eqn:Estep;
        [|rewrite fold_left_none in Hfold by reflexivity; discriminate].
      unfold step in Estep. unfold undelete in Estep, He0'. cbn in Estep, He0'.
      assert (He2 : exact_ok S pend2).
      { eapply IH; [exact He0'| |exact Estep]. intros r Hr. apply HS.
        eapply deleted_deeper; [exact Hfolder|exact Hcrow|exact Hchild|].
        eapply deleted_below_same; [| |exact Hr]; cbn; auto. }
      apply (IHcs pend2 pend1 He2 (fun x Hx => Hrows x (or_intror Hx)) Hfold). }
  apply (Hloop _ _ _ He) in H; [exact H|].
  intros c Hc. apply filter_In in Hc. exact Hc.
Qed.

Lemma _restore_upwards_exact (S : FileMeta.t -> Prop) :
  forall fuel current pend pend',
    exact_ok S pend ->
    (exists row, get_obj (FileMeta.id current) user_id w = Some row
                 /\ FileMeta.parent_id current = FileMeta.parent_id row) ->
    (forall row, In row (file_meta w) -> FileMeta.is_deleted row = true ->
                 ancestor user_id w (FileMeta.id row) (FileMeta.id current) -> S row) ->
    _restore_upwards fuel now w user_id current pend = Some pend' ->
    exact_ok S pend'.
Proof.
  induction fuel as [|fuel IH]; intros current pend pend' He (row & Hrow & Hpar) HS H;
    [discriminate|].
  cbn [_restore_upwards] in H.
  destruct (FileMeta.parent_id current =? 0); [injection H as <-; exact He|].
  destruct (get_obj (FileMeta.parent_id current) user_id w) as [prow|] eqn:Eprow;
    [|injection H as <-; exact He].
  pose proof (get_obj_In _ _ _ _ Eprow) as (Hprow_in & Hprow_id & Hprow_u).
  destruct (load_fields w pend prow Hk (exact_pend_ok S pend He) Hprow_in)
    as (Hid & Hu & Hf & Hppar).
  assert (Hanc : ancestor user_id w (FileMeta.id prow) (FileMeta.id current)).
  { rewrite Hprow_id, Hpar. rewrite Hpar in Eprow. eapply ancestor_parent; eauto. }
  assert (Hup : forall a, ancestor user_id w a (FileMeta.id prow) ->
                          ancestor user_id w a (FileMeta.id current)).
  { intros a Ha. eapply ancestor_up; [exact Hrow|]. rewrite <- Hpar, <- Hprow_id. exact Ha. }
  assert (Hcur : exists row0, get_obj (FileMeta.id (load pend prow)) user_id w = Some row0
                   /\ FileMeta.parent_id (load pend prow) = FileMeta.parent_id row0).
  { exists prow. rewrite Hid, Hprow_id. auto. }
  assert (HS' : forall row0, In row0 (file_meta w) -> FileMeta.is_deleted row0 = true ->
                  ancestor user_id w (FileMeta.id row0) (FileMeta.id (load pend prow)) -> S row0).
  { intros row0 Hin0 Hd0 Ha0. rewrite Hid in Ha0. apply HS; auto. }
  destruct (FileMeta.is_deleted (load pend prow)) eqn:Edel.
  - destruct (load_deleted S pend prow He Edel) as [_ Hdel].
    pose proof (undelete_exact S pend prow He Hprow_in (HS prow Hprow_in Hdel Hanc)) as He1.
    unfold undelete in H, He1. cbn in H, He1.
    apply (IH (FileMeta.set_deleted false None now (load pend prow)) _ _ He1); [| |exact H].
    + exact Hcur.
    + exact HS'.
  - exact (IH _ _ _ He Hcur HS' H).
Qed.

Lemma Forall2_map_rows {A} (R : A -> A -> Prop) (f : A -> A) (l : list A) :
  (forall r, In r l -> R r (f r)) -> List.Forall2 R l (List.map f l).
Proof.
  induction l as [|a l IH]; intros H; cbn; constructor.
  - apply H. left. reflexivity.
  - apply IH. intros r Hr. apply H. right. exact Hr.
Qed.

(** The nodes a restore of [obj] takes out of the trash. *)
Definition chosen (obj row : FileMeta.t) : Prop :=
  row = obj \/ deleted_below user_id w obj row
  \/ (FileMeta.is_deleted row = true /\ ancestor user_id w (FileMeta.id row) (FileMeta.id obj)).

Lemma restore_exact id obj (depth : Z -> nat) (bound : nat) :
  (forall c p, In c (file_meta w) -> In p (file_meta w) ->
      FileMeta.user_id c = user_id -> FileMeta.user_id p = user_id ->
      FileMeta.parent_id c = FileMeta.id p ->
      (depth (FileMeta.id p) < depth (FileMeta.id c))%nat) ->
  (forall r, In r (file_meta w) -> (depth (FileMeta.id r) < bound)%nat) ->
  get_obj id user_id w = Some obj ->
  forall fuel, (bound + depth id < fuel)%nat ->
    exists w',
      restore fuel now id user_id w = Ok (Some (revived obj)) w'
      /\ List.Forall2 (fun row row' => (chosen obj row -> row' = revived row)
                                       /\ (~ chosen obj row -> row' = row))
           (file_meta w) (file_meta w')
      /\ untouched w w'.
Proof.
  intros Hd Hb Hobj fuel Hfuel.
  pose proof (get_obj_In _ _ _ _ Hobj) as (Hobj_in & Hobj_id & Hobj_u).
  set (S := chosen obj).
  assert (Hload : load ∅ obj = obj) by (unfold load; rewrite lookup_empty; reflexivity).
  pose proof (undelete_exact S ∅ obj (exact_empty S) Hobj_in (or_introl eq_refl)) as He0.
  rewrite Hload in He0. unfold undelete in He0. cbn in He0.
  set (obj0 := FileMeta.set_deleted false None now obj) in *.
  set (pend0 := <[FileMeta.id obj := obj0]> (∅ : gmap Z FileMeta.t)) in *.
  pose proof (exact_pend_ok S pend0 He0) as Hp0.
  destruct (_restore_downwards_total now w user_id depth bound Hk Hd Hb fuel obj0 pend0 Hp0)
    as [pend1 Hdown].
  { exists obj. auto. }
  { cbn. lia. }
  destruct (_restore_downwards_spec now w user_id Hk _ _ _ _ Hp0 Hdown) as (Hp1 & Hmono1 & Hbelow).
  assert (He1 : exact_ok S pend1).
  { eapply (_restore_downwards_exact S); [exact He0| |exact Hdown].
    intros r Hr. right. left. eapply deleted_below_same; [| |exact Hr]; reflexivity. }
  assert (Hcur : exists row, get_obj (FileMeta.id obj0) user_id w = Some row
                   /\ FileMeta.parent_id obj0 = FileMeta.parent_id row).
  { exists obj. cbn. rewrite Hobj_id. auto. }
  destruct (_restore_upwards_total now w user_id depth Hk Hd fuel obj0 pend1 Hp1 Hcur)
    as [pend2 Hup].
  { cbn. rewrite Hobj_id. lia. }
  destruct (_restore_upwards_spec now w user_id Hk _ _ _ _ Hp1 Hcur Hup) as (Hp2 & Hmono2 & Hanc).
  assert (He2 : exact_ok S pend2).
  { eapply (_restore_upwards_exact S); [exact He1|exact Hcur| |exact Hup].
    intros row Hin Hdel Ha. right. right. split; [exact Hdel|exact Ha]. }
  assert (Hself : is_Some (pend2 !! FileMeta.id obj)).
  { apply Hmono2, Hmono1. unfold pend0. rewrite lookup_insert_eq. eauto. }
  assert (Hin_pend : forall row, In row (file_meta w) -> is_Some (pend2 !! FileMeta.id row) ->
                       load pend2 row = revived row /\ chosen obj row).
  { intros row Hin [o Ho]. destruct (He2 _ _ Ho) as (row' & Hin' & Hid' & -> & HS).
    assert (row' = row)
      by (apply (NoDup_map_In_eq FileMeta.id _ row' row (proj1 Hk) Hin' Hin Hid')).
    subst row'. unfold load. rewrite Ho. auto. }
  assert (Hchosen : forall row, In row (file_meta w) -> chosen obj row ->
                      is_Some (pend2 !! FileMeta.id row)).
  { intros row Hin [->|[Hdb|[Hdel Ha]]].
    - exact Hself.
    - apply Hmono2, Hbelow. eapply deleted_below_same; [| |exact Hdb]; reflexivity.
    - cbn in Hanc. destruct (Hanc _ Ha) as [Hs|(row' & Hrow' & Hact)]; [exact Hs|].
      pose proof (get_obj_In _ _ _ _ Hrow') as (Hin' & Hid' & _).
      assert (row' = row)
        by (apply (NoDup_map_In_eq FileMeta.id _ row' row (proj1 Hk) Hin' Hin Hid')).
      subst row'. congruence. }
  exists (commit pend2 w). split; [|split; [|repeat split]].
  - unfold restore. rewrite Hobj. unfold undelete. cbn. fold obj0 pend0.
    rewrite Hdown, Hup. f_equal.
    etransitivity; [apply (commit_first_by_id w pend2 _ Hk Hp2)|].
    change (FileMeta.id obj0) with (FileMeta.id obj). rewrite Hobj_id.
    rewrite (get_obj_first_by_id id user_id w obj Hk Hobj). cbn.
    rewrite (proj1 (Hin_pend obj Hobj_in Hself)). reflexivity.
  - unfold commit. cbn. apply Forall2_map_rows. intros row Hin. split.
    + intros Hc. exact (proj1 (Hin_pend row Hin (Hchosen row Hin Hc))).
    + intros Hn. unfold load. destruct (pend2 !! FileMeta.id row) as [o|] eqn:Ho; [|reflexivity].
      exfalso. apply Hn. apply (Hin_pend row Hin). eauto.
Qed.

End RestoreExact.

(** X16. Restore, exactly.  In a namespace without a cycle, [restore] on
    an existing node returns (with enough fuel) the node as taken out of
    the trash.  The rows it changes are those of the node itself, of the
    nodes reached from it going down through folders along soft-deleted
    children, and of its ancestors that are in the trash: each becomes
    active, with no deletion time and the current time as update time, and
    keeps everything else; every other row is what it was, and nothing but
    the node table is touched. *)
Theorem restore_revives_exactly :
  forall (user_id now : Z) (w : World) (id : Z) (obj : FileMeta.t),
    keys_ok w -> acyclic user_id w -> CRUDFileMeta.get_obj id user_id w = Some obj ->
    exists N, forall fuel, (N <= fuel)%nat ->
      exists w',
        CRUDFileMeta.restore fuel now id user_id w = Ok (Some (revived now obj)) w'
        /\ List.Forall2
             (fun row row' =>
                (chosen user_id w obj row -> row' = revived now row)
                /\ (~ chosen user_id w obj row -> row' = row))
             (file_meta w) (file_meta w')
        /\ untouched w w'.
Proof.
  intros user_id now w id obj Hk [depth Hd] Hobj.
  destruct (depth_bound depth (file_meta w)) as [bound Hb].
  exists (S (bound + depth id))%nat. intros fuel Hfuel.
  apply (restore_exact user_id now w Hk id obj depth bound Hd Hb Hobj fuel). lia.
Qed.

(** ** Soft delete, then restore *)

Section RoundTrip.

Import CRUDFileMeta.

Variables (user_id t1 t2 : Z) (w w1 : World) (id : Z) (obj : FileMeta.t).
Hypothesis Hk : keys_ok w.
Hypothesis Hobj : get_obj id user_id w = Some obj.

(** The subtree of the node, and the world [w1] in which it was put in the
    trash at [t1]. *)
Definition sub (d : FileMeta.t) : Prop := subtree user_id w id d.

Hypothesis Hm : marked t1 w sub sub w1.
Hypothesis Hun : untouched w w1.

(** The ancestors of the node are active. *)
Hypothesis Hactive :
  forall row, In row (file_meta w) -> ancestor user_id w (FileMeta.id row) id ->
              FileMeta.is_deleted row = false.

Definition pair (r r1 : FileMeta.t) : Prop :=
  (r1 = r \/ (r1 = trashed_row t1 r /\ sub r)) /\ (sub r -> r1 = trashed_row t1 r).

Lemma pair_alike r r1 : pair r r1 -> alike r r1.
Proof. intros [[->|[-> _]] _]; repeat split. Qed.

Lemma Forall2_In_l {A B} (R : A -> B -> Prop) (l : list A) (l' : list B) a :
  List.Forall2 R l l' -> In a l -> exists b, In b l' /\ R a b.
Proof.
  induction 1 as [|x y l l' Hxy _ IH]; intros Hin; [destruct Hin|].
  destruct Hin as [<-|Hin]; [exists y; split; [left; reflexivity|exact Hxy]|].
  destruct (IH Hin) as (b & Hb & Hab). exists b. split; [right; exact Hb|exact Hab].
Qed.

Lemma Forall2_In_r {A B} (R : A -> B -> Prop) (l : list A) (l' : list B) b :
  List.Forall2 R l l' -> In b l' -> exists a, In a l /\ R a b.
Proof.
  induction 1 as [|x y l l' Hxy _ IH]; intros Hin; [destruct Hin|].
  destruct Hin as [<-|Hin]; [exists x; split; [left; reflexivity|exact Hxy]|].
  destruct (IH Hin) as (a & Ha & Hab). exists a. split; [right; exact Ha|exact Hab].
Qed.

Lemma Forall2_first {A} (R : A -> A -> Prop) (p : A -> bool) (l l' : list A) o :
  (forall r r', R r r' -> p r' = p r) -> List.Forall2 R l l' ->
  first p l = Some o -> exists o', first p l' = Some o' /\ R o o'.
Proof.
  intros Hp H. unfold first. induction H as [|r r' l l' Hr _ IH]; cbn; [discriminate|].
  rewrite (Hp r r' Hr). destruct (p r); [|exact IH].
  intros Ho. injection Ho as <-. eauto.
Qed.

Lemma into_w1 r : In r (file_meta w) -> exists r1, In r1 (file_meta w1) /\ pair r r1.
Proof. apply (Forall2_In_l pair). exact Hm. Qed.

Lemma back_to_w r1 : In r1 (file_meta w1) -> exists r, In r (file_meta w) /\ pair r r1.
Proof. apply (Forall2_In_r pair). exact Hm. Qed.

Lemma same_key r r' : In r (file_meta w) -> In r' (file_meta w) ->
  FileMeta.id r = FileMeta.id r' -> r = r'.
Proof. intros. apply (NoDup_map_In_eq FileMeta.id (file_meta w) r r' (proj1 Hk)); assumption. Qed.

Lemma sub_spec d : sub d <-> d = obj \/ below user_id w obj d.
Proof. apply (subtree_spec user_id w id obj d Hobj). Qed.

Lemma keys_ok_w1 : keys_ok w1.
Proof.
  destruct Hk as [Hnd Hids]. destruct Hun as (Hseq & _).
  assert (Hal : List.Forall2 alike (file_meta w) (file_meta w1)).
  { eapply List.Forall2_impl; [|exact Hm]. intros a b. apply pair_alike. }
  split.
  - assert (Hmap : List.map FileMeta.id (file_meta w1) = List.map FileMeta.id (file_meta w)).
    { clear -Hal. induction Hal as [|a b l l' (Hab & _) _ IH]; [reflexivity|].
      cbn. rewrite Hab, IH. reflexivity. }
    rewrite Hmap. exact Hnd.
  - intros r1 Hr1. destruct (back_to_w r1 Hr1) as (r & Hr & Hp).
    destruct (pair_alike _ _ Hp) as (Hid & _). rewrite Hid, Hseq. auto.
Qed.

Lemma get_obj_w1 n o :
  get_obj n user_id w = Some o -> exists o1, get_obj n user_id w1 = Some o1 /\ pair o o1.
Proof.
  apply (Forall2_first pair (owned n user_id)); [|exact Hm].
  intros r r' Hp. apply (alike_owned user_id n). apply pair_alike. exact Hp.
Qed.

Lemma get_obj_back n o1 :
  get_obj n user_id w1 = Some o1 -> exists o, get_obj n user_id w = Some o /\ pair o o1.
Proof.
  intros H1. pose proof (get_obj_In _ _ _ _ H1) as (Hin1 & Hid1 & Hu1).
  destruct (back_to_w o1 Hin1) as (o & Hin & Hp). exists o. split; [|exact Hp].
  destruct (pair_alike _ _ Hp) as (Hid & Hu & _).
  rewrite <- Hid1, Hid. rewrite <- Hu1, Hu. apply In_get_obj; assumption.
Qed.

Lemma ancestor_back a n : ancestor user_id w1 a n -> ancestor user_id w a n.
Proof.
  induction 1 as [n o1 par1 Ho1 Hpar1|n o1 a Ho1 _ IH].
  - destruct (get_obj_back _ _ Ho1) as (o & Ho & Hp).
    destruct (pair_alike _ _ Hp) as (_ & _ & Hpar & _). rewrite Hpar in *.
    destruct (get_obj_back _ _ Hpar1) as (par & Hparw & _).
    eapply ancestor_parent; eauto.
  - destruct (get_obj_back _ _ Ho1) as (o & Ho & Hp).
    destruct (pair_alike _ _ Hp) as (_ & _ & Hpar & _). rewrite Hpar in *.
    eapply ancestor_up; eauto.
Qed.

Lemma below_sub n r : sub n -> below user_id w n r -> sub r.
Proof.
  intros Hn Hb. apply sub_spec. right. apply sub_spec in Hn as [->|Hn]; [exact Hb|].
  clear -Hn Hb. induction Hn as [n c Hf Hin Hc|n c x Hf Hin Hc Hcx IH].
  - eapply below_deeper; eauto.
  - eapply below_deeper; eauto.
Qed.

(** Below the node, after the soft delete, everything is in the trash. *)
Lemma below_deleted n r :
  below user_id w n r -> sub n ->
  deleted_below user_id w1 (trashed_row t1 n) (trashed_row t1 r).
Proof.
  induction 1 as [n r Hf Hin Hc|n c r Hf Hin Hc Hcr IH]; intros Hn.
  - assert (Hr : sub r) by (apply (below_sub n); [exact Hn|apply below_child; assumption]).
    destruct (into_w1 r Hin) as (r1 & Hr1 & _ & Hmust). rewrite (Hmust Hr) in Hr1.
    apply deleted_child; [exact Hf|exact Hr1|].
    unfold deleted_child_of. cbn. unfold child_of in *. cbn. rewrite Hc. reflexivity.
  - assert (Hcs : sub c) by (apply (below_sub n); [exact Hn|apply below_child; assumption]).
    destruct (into_w1 c Hin) as (c1 & Hc1 & _ & Hmust). rewrite (Hmust Hcs) in Hc1.
    eapply deleted_deeper; [exact Hf|exact Hc1| |exact (IH Hcs)].
    unfold deleted_child_of. cbn. unfold child_of in *. cbn. rewrite Hc. reflexivity.
Qed.

Lemma deleted_below_back n1 r1 :
  deleted_below user_id w1 n1 r1 ->
  forall n, FileMeta.id n1 = FileMeta.id n -> FileMeta.is_folder n1 = FileMeta.is_folder n ->
    exists r, In r (file_meta w) /\ pair r r1 /\ below user_id w n r.
Proof.
  induction 1 as [n1 r1 Hf Hin Hc|n1 c1 r1 Hf Hin Hc Hcr IH]; intros n Hid Hfo.
  - destruct (back_to_w r1 Hin) as (r & Hr & Hp). exists r. split; [exact Hr|]. split; [exact Hp|].
    apply deleted_child_of_spec in Hc as (Hpar & Hu & _).
    destruct (pair_alike _ _ Hp) as (_ & Hu' & Hpar' & _).
    apply below_child; [congruence|exact Hr|].
    unfold child_of. rewrite <- Hpar', <- Hu', Hpar, Hu, Hid, !Z.eqb_refl. reflexivity.
  - destruct (back_to_w c1 Hin) as (c & Hcw & Hp).
    apply deleted_child_of_spec in Hc as (Hpar & Hu & _).
    destruct (pair_alike _ _ Hp) as (Hcid & Hu' & Hpar' & Hcf).
    destruct (IH c Hcid Hcf) as (r & Hr & Hpr & Hb).
    exists r. split; [exact Hr|]. split; [exact Hpr|].
    eapply below_deeper; [congruence|exact Hcw| |exact Hb].
    unfold child_of. rewrite <- Hpar', <- Hu', Hpar, Hu, Hid, !Z.eqb_refl. reflexivity.
Qed.

(** The nodes that the restore of the node takes out of the trash of [w1]
    are those of the subtree. *)
Lemma sub_chosen r :
  In r (file_meta w) -> sub r ->
  chosen user_id w1 (trashed_row t1 obj) (trashed_row t1 r).
Proof.
  intros Hin Hs. apply sub_spec in Hs as [->|Hb]; [left; reflexivity|].
  right. left. apply below_deleted; [exact Hb|]. apply sub_spec. left. reflexivity.
Qed.

Lemma chosen_sub r r1 :
  In r (file_meta w) -> pair r r1 ->
  chosen user_id w1 (trashed_row t1 obj) r1 -> sub r.
Proof.
  intros Hin Hp Hc. pose proof (get_obj_In _ _ _ _ Hobj) as (Hobj_in & Hobj_id & _).
  destruct (pair_alike _ _ Hp) as (Hid & _).
  destruct Hc as [->|[Hdb|[Hdel Ha]]].
  - apply sub_spec. left. apply same_key; [exact Hin|exact Hobj_in|]. rewrite <- Hid. reflexivity.
  - destruct (deleted_below_back _ _ Hdb obj eq_refl eq_refl) as (r' & Hr' & Hp' & Hb).
    destruct (pair_alike _ _ Hp') as (Hid' & _).
    assert (r' = r) by (apply same_key; [exact Hr'|exact Hin|congruence]). subst r'.
    apply sub_spec. right. exact Hb.
  - destruct Hp as [[->|[_ Hs]] _]; [|exact Hs]. exfalso.
    apply ancestor_back in Ha. cbn in Ha. rewrite Hobj_id in Ha.
    rewrite (Hactive r Hin Ha) in Hdel. discriminate Hdel.
Qed.

End RoundTrip.

Lemma Forall2_compose_In {A} (P Q R : A -> A -> Prop) (l l1 l2 : list A) :
  List.Forall2 P l l1 -> List.Forall2 Q l1 l2 ->
  (forall a b c, In a l -> P a b -> Q b c -> R a c) ->
  List.Forall2 R l l2.
Proof.
  intros HP. revert l2. induction HP as [|a b l l1 Hab _ IH]; intros l2 HQ HR.
  - inversion HQ. constructor.
  - inversion HQ as [|b' c l1' l2' Hbc HQ']; subst. constructor.
    + apply (HR a b c); [left; reflexivity|exact Hab|exact Hbc].
    + apply IH; [exact HQ'|]. intros x y z Hx. apply HR. right. exact Hx.
Qed.

(** X17. Soft delete, then restore.  In a namespace without a cycle, take
    an existing node whose ancestors are all active.  Putting it in the
    trash and restoring it returns (with enough fuel), and leaves every
    node of its subtree active, without deletion time and with the time of
    the restore as update time, the nodes that were in the trash before
    the soft delete included; every other row, and everything but the
    node table, is what it was before the soft delete. *)
Theorem remove_then_restore_revives_subtree :
  forall (user_id t1 t2 : Z) (w : World) (id : Z) (obj : FileMeta.t),
    keys_ok w -> acyclic user_id w -> CRUDFileMeta.get_obj id user_id w = Some obj ->
    (forall row, In row (file_meta w) -> ancestor user_id w (FileMeta.id row) id ->
                 FileMeta.is_deleted row = false) ->
    exists N, forall fuel, (N <= fuel)%nat ->
      exists w1 w2,
        CRUDFileMeta.remove fuel t1 id user_id w = Ok (Some (trashed_row t1 obj)) w1
        /\ CRUDFileMeta.restore fuel t2 id user_id w1 = Ok (Some (revived t2 obj)) w2
        /\ List.Forall2
             (fun row row2 =>
                ((row = obj \/ below user_id w obj row) -> row2 = revived t2 row)
                /\ (~ (row = obj \/ below user_id w obj row) -> row2 = row))
             (file_meta w) (file_meta w2)
        /\ untouched w w2.
Proof.
  intros user_id t1 t2 w id obj Hk [depth Hd] Hobj Hactive.
  destruct (depth_bound depth (file_meta w)) as [bound Hb].
  exists (S (bound + depth id))%nat. intros fuel Hfuel.
  pose proof (proj1 Hk) as Hnd.
  pose proof (marked_start t1 w) as Hstart.
  destruct (remove_total user_id t1 w Hnd depth bound Hd Hb fuel id w _ _ Hstart)
    as (r & w1 & Hrun); [lia|].
  destruct (remove_marks user_id t1 w Hnd _ _ _ _ _ _ _ Hstart Hrun) as (Hm0 & Hun & Hr).
  rewrite Hobj in Hr. cbn in Hr. subst r.
  assert (Hm : marked t1 w (sub user_id w id) (sub user_id w id) w1).
  { eapply marked_weaken; [| |exact Hm0]; unfold sub.
    - intros x [[]|Hx]. exact Hx.
    - intros x Hx. right. exact Hx. }
  pose proof (keys_ok_w1 user_id t1 w w1 id Hk Hm Hun) as Hk1.
  assert (Hsobj : sub user_id w id obj).
  { apply (sub_spec user_id w id obj Hobj). left. reflexivity. }
  assert (Hobj1 : CRUDFileMeta.get_obj id user_id w1 = Some (trashed_row t1 obj)).
  { destruct (get_obj_w1 user_id t1 w w1 id Hm id obj Hobj) as (o1 & Ho1 & _ & Hmust).
    rewrite Ho1, (Hmust Hsobj). reflexivity. }
  assert (Hrows1 : forall r1, In r1 (file_meta w1) ->
            exists r, In r (file_meta w) /\ alike r r1).
  { intros r1 Hr1. destruct (back_to_w user_id t1 w w1 id Hm r1 Hr1) as (r0 & Hr0 & Hp).
    exists r0. split; [exact Hr0|]. exact (pair_alike user_id t1 w id r0 r1 Hp). }
  assert (Hd1 : forall c p, In c (file_meta w1) -> In p (file_meta w1) ->
            FileMeta.user_id c = user_id -> FileMeta.user_id p = user_id ->
            FileMeta.parent_id c = FileMeta.id p ->
            (depth (FileMeta.id p) < depth (FileMeta.id c))%nat).
  { intros c p Hc Hp Hcu Hpu Hcp.
    destruct (Hrows1 c Hc) as (c0 & Hc0 & Hcid & Hcu0 & Hcp0 & _).
    destruct (Hrows1 p Hp) as (p0 & Hp0 & Hpid & Hpu0 & _).
    rewrite Hcid, Hpid. apply Hd; congruence. }
  assert (Hb1 : forall r1, In r1 (file_meta w1) -> (depth (FileMeta.id r1) < bound)%nat).
  { intros r1 Hr1. destruct (Hrows1 r1 Hr1) as (r0 & Hr0 & Hid & _). rewrite Hid. auto. }
  destruct (restore_exact user_id t2 w1 Hk1 id (trashed_row t1 obj) depth bound Hd1 Hb1 Hobj1
              fuel) as (w2 & Hres & Hrows & Hun2); [lia|].
  exists w1, w2. split; [exact Hrun|]. split; [exact Hres|].
  split; [|exact (untouched_trans _ _ _ Hun Hun2)].
  eapply (Forall2_compose_In _ _ _ _ _ _ Hm Hrows).
  intros row row1 row2 Hin Hp [Hyes Hno]. split.
  - intros Hs. apply (sub_spec user_id w id obj Hobj) in Hs.
    rewrite (proj2 Hp Hs) in Hyes.
    rewrite (Hyes (sub_chosen user_id t1 w w1 id obj Hobj Hm row Hin Hs)). reflexivity.
  - intros Hn.
    assert (Hns : ~ sub user_id w id row).
    { intros Hs. apply Hn. apply (sub_spec user_id w id obj Hobj). exact Hs. }
    rewrite Hno.
    + destruct Hp as [[->|[_ Hs]] _]; [reflexivity|contradiction].
    + intros Hc. apply Hns.
      exact (chosen_sub user_id t1 w w1 id obj Hk Hobj Hm Hactive row row1 Hin Hp Hc).
Qed.

(** ** What a whole-file upload stores *)

Section Stored.

Import CRUDFileMeta.

Variable md5 : list Byte.byte -> string.
Variable UPLOAD_DIR : string.
Variable EXTRA_STORAGE_PATHS : list string.
Variable DIR_SIZE : Z.

Lemma get_best_storage_path_Ok w base w' :
  files.get_best_storage_path UPLOAD_DIR EXTRA_STORAGE_PATHS w = Ok base w' ->
  In base (files.STORAGE_PATHS UPLOAD_DIR EXTRA_STORAGE_PATHS)
  /\ files w' = files w /\ file_store w' = file_store w /\ file_meta w' = file_meta w
  /\ file_meta_seq w' = file_meta_seq w.
Proof.
  rewrite get_best_storage_path_scan.
  pose proof (scan_best_so_far w (files.STORAGE_PATHS UPLOAD_DIR EXTRA_STORAGE_PATHS) []
                (None, -1, [])) as H.
  cbn [app] in H.
  destruct (fold_left (scan w) (files.STORAGE_PATHS UPLOAD_DIR EXTRA_STORAGE_PATHS) (None, -1, []))
    as [[best m] made].
  destruct H as [_ Hbest]; [split; [intros q g []|reflexivity]|].
  destruct best as [p|]; [|discriminate]. intros Heq. injection Heq as <- <-.
  destruct Hbest as (Hin & _). repeat split. exact Hin.
Qed.

(** The node that [commit_node] adds, when the name is free. *)
Lemma commit_node_Ok current_user now final_filename target h file_size w node w' :
  get_by_name_and_parent final_filename target current_user w = None ->
  files.commit_node current_user now final_filename target h file_size w = Ok node w' ->
  node = FileMeta.mk (file_meta_seq w + 1) current_user target final_filename false (Some h)
           false None now now
  /\ file_meta w' = file_meta w ++ [node]
  /\ file_store w' = file_store w /\ files w' = files w /\ dirs w' = dirs w.
Proof.
  intros Hfree H. unfold files.commit_node in H.
  apply bind_Ok in H as (n & w1 & Hc & H). apply bind_Ok in H as ([] & w2 & Hq & H).
  injection H as <- <-. unfold CRUDUser.update_quota_used, modify in Hq. injection Hq as <-.
  unfold create_with_user in Hc. cbn in Hc. apply bind_Ok in Hc as (name & w0 & Hn & Hadd).
  assert (Hnot : ~ name_taken current_user target w final_filename).
  { intros Ht. apply get_by_name_and_parent_taken in Ht. destruct Ht as [x Hx]. congruence. }
  rewrite (_get_unique_filename_free current_user target final_filename w Hnot) in Hn.
  injection Hn as <- <-. unfold add_file_meta in Hadd. injection Hadd as <- <-.
  repeat split.
Qed.

(** The destination of an upload is a free name. *)
Lemma destination_Ok current_user now file_name parent_id relative_path auto_rename w
    target final_filename w1 :
  files.destination current_user now file_name parent_id relative_path auto_rename w
    = Ok (target, final_filename) w1 ->
  adds_folders w w1
  /\ get_by_name_and_parent final_filename target current_user w1 = None.
Proof.
  intros H.
  pose proof (destination_adds_folders current_user now file_name parent_id relative_path
                auto_rename w) as Hd.
  rewrite H in Hd. cbn in Hd. split; [exact Hd|].
  unfold files.destination in H. apply bind_Ok in H as (t & wa & Ht & H).
  apply bind_Ok in H as (n & wb & Hn & H). injection H as <- <- <-.
  destruct auto_rename.
  - destruct (get_unique_filename_total file_name t current_user wa) as (r & Hr & Hfree).
    rewrite Hr in Hn. injection Hn as <- <-. exact Hfree.
  - apply bind_Ok in Hn as (ex & wc & Hg & Hn). apply gets_Ok in Hg as [-> ->].
    destruct (get_by_name_and_parent file_name t current_user wa) eqn:E; [discriminate Hn|].
    injection Hn as <- <-. exact E.
Qed.

Lemma get_by_name_and_parent_rows name parent_id user_id w w' :
  file_meta w' = file_meta w ->
  get_by_name_and_parent name parent_id user_id w' = get_by_name_and_parent name parent_id user_id w.
Proof. intros H. unfold get_by_name_and_parent. rewrite H. reflexivity. Qed.

(** The temporary file of a whole-file upload. *)
Definition temp_file (final_filename uuid : string) : string :=
  os_path_join UPLOAD_DIR ("temp_" +:+ final_filename +:+ "_" +:+ uuid).

Lemma delete_insert_same (p : string) (content : list Byte.byte)
    (fs : gmap string (list Byte.byte)) :
  delete p (<[p := content]> fs) = delete p fs.
Proof.
  apply map_eq. intros q. destruct (decide (p = q)) as [<-|Hne].
  - rewrite !lookup_delete_eq. reflexivity.
  - rewrite !lookup_delete_ne by exact Hne. rewrite lookup_insert_ne by exact Hne. reflexivity.
Qed.

(** What a whole-file upload that returned has done. *)
Lemma upload_file_run current_user now filename content parent_id relative_path auto_rename uuid
    w node w' :
  files.upload_file md5 UPLOAD_DIR EXTRA_STORAGE_PATHS DIR_SIZE current_user now filename content
    parent_id relative_path auto_rename uuid w = Ok node w' ->
  exists target final_filename w1,
    files.destination current_user now filename parent_id relative_path auto_rename w
      = Ok (target, final_filename) w1
    /\ node = FileMeta.mk (file_meta_seq w1 + 1) current_user target final_filename false
                (Some (md5 content)) false None now now
    /\ file_meta w' = file_meta w1 ++ [node]
    /\ files w' !! temp_file final_filename uuid = None
    /\ match get_by_hash (md5 content) w with
       | Some _ =>
           file_store w' = List.map (bump (md5 content) 1) (file_store w)
           /\ files w' = delete (temp_file final_filename uuid) (files w)
       | None =>
           exists base,
             In base (files.STORAGE_PATHS UPLOAD_DIR EXTRA_STORAGE_PATHS)
             /\ file_store w'
                = file_store w ++ [FileStore.mk (md5 content) (os_path_join base (md5 content))
                                     (Z.of_nat (length content)) 1]
             /\ (is_file (os_path_join base (md5 content)) w = false ->
                 is_dir (os_path_join base (md5 content)) w' = false ->
                 os_path_join base (md5 content) <> temp_file final_filename uuid ->
                 files w' !! os_path_join base (md5 content) = Some content)
       end.
Proof.
  intros H. unfold files.upload_file in H.
  destruct (negb (files.is_filename_valid filename)); [discriminate H|].
  apply bind_Ok in H as ([target final_filename] & w1 & Hdest & H).
  destruct (destination_Ok _ _ _ _ _ _ _ _ _ _ Hdest) as (Hadd & Hfree).
  destruct Hadd as (Hs1 & _ & _ & Hf1 & Hd1 & _ & _).
  exists target, final_filename, w1. split; [exact Hdest|].
  fold (temp_file final_filename uuid) in H. set (temp := temp_file final_filename uuid) in *.
  apply bind_Ok in H as ([] & w2 & Hw & H). apply write_file_Ok in Hw.
  apply bind_Ok in H as (file_size & w3 & Hsz & H).
  pose proof (getsize_written DIR_SIZE _ _ _ _ _ _ Hw Hsz) as Hsize.
  pose proof (os_path_getsize_final DIR_SIZE temp w2) as Heq. rewrite Hsz in Heq. cbn in Heq.
  subst w3. apply bind_Ok in H as (over & w3 & Hg & H). apply gets_Ok in Hg as [-> ->].
  destruct (files.quota_exceeded current_user file_size w2).
  { apply bind_Ok in H as (x & w3 & _ & H). discriminate H. }
  apply bind_Ok in H as (ex & w3 & Hg & H). apply gets_Ok in Hg as [-> ->].
  apply bind_Ok in H as ([] & w4 & Hblob & Hcommit).
  assert (Hget : get_by_hash (md5 content) w2 = get_by_hash (md5 content) w).
  { unfold get_by_hash. rewrite Hw. cbn. rewrite Hs1. reflexivity. }
  rewrite Hget in Hblob.
  assert (Hfiles2 : files w2 = <[temp := content]> (files w)).
  { rewrite Hw. cbn. rewrite Hf1. reflexivity. }
  assert (Hrest2 : file_meta w2 = file_meta w1 /\ file_meta_seq w2 = file_meta_seq w1
                   /\ file_store w2 = file_store w /\ dirs w2 = dirs w).
  { rewrite Hw. cbn. auto. }
  destruct Hrest2 as (Hm2 & Hq2 & Hst2 & Hdir2).
  destruct (get_by_hash (md5 content) w) as [s|] eqn:Hs.
  - apply bind_Ok in Hblob as (r & w5 & Hinc & Hrm).
    destruct (increment_ref_count_Ok (md5 content) w2) as [r' Hinc'].
    rewrite Hinc' in Hinc. injection Hinc as _ <-.
    apply os_remove_Ok in Hrm. subst w4.
    match type of Hcommit with files.commit_node _ _ _ _ _ _ ?wx = _ =>
      assert (Hfree4 : get_by_name_and_parent final_filename target current_user wx = None)
        by (rewrite <- Hfree; apply get_by_name_and_parent_rows; cbn; exact Hm2)
    end.
    destruct (commit_node_Ok _ _ _ _ _ _ _ _ _ Hfree4 Hcommit) as (Hnode & Hm' & Hs' & Hf' & _).
    cbn in Hnode, Hm', Hs', Hf'. rewrite Hq2 in Hnode. rewrite Hm2 in Hm'.
    rewrite Hst2 in Hs'. rewrite Hfiles2, delete_insert_same in Hf'.
    split; [exact Hnode|]. split; [exact Hm'|]. split; [|split; [exact Hs'|exact Hf']].
    rewrite Hf'. apply lookup_delete_eq.
  - apply bind_Ok in Hblob as (base & w5 & Hbest & Hblob).
    destruct (get_best_storage_path_Ok _ _ _ Hbest) as (Hbase & Hf5 & Hs5 & Hm5 & Hq5).
    apply bind_Ok in Hblob as (present & w6 & Hg & Hblob). apply gets_Ok in Hg as [-> ->].
    set (final := os_path_join base (md5 content)) in *.
    apply bind_Ok in Hblob as ([] & w6 & Hmove & Hblob).
    apply bind_Ok in Hblob as (st & w7 & Hcreate & Hret). injection Hret as <-.
    assert (Hw6 : file_meta w6 = file_meta w1 /\ file_meta_seq w6 = file_meta_seq w1
                  /\ file_store w6 = file_store w /\ dirs w6 = dirs w5
                  /\ files w6 !! temp = None
                  /\ (os_path_exists final w5 = false -> final <> temp ->
                      files w6 !! final = Some content)).
    { destruct (os_path_exists final w5) eqn:Hpresent.
      - apply os_remove_Ok in Hmove. subst w6. cbn.
        rewrite Hm5, Hq5, Hs5, Hm2, Hq2, Hst2. repeat (split; [reflexivity|]).
        split; [apply lookup_delete_eq|discriminate].
      - unfold files.shutil_move in Hmove. apply bind_Ok in Hmove as (c & wa & Hread & Hmove).
        unfold files.read_file in Hread. rewrite Hf5, Hfiles2, lookup_insert_eq in Hread.
        injection Hread as <- <-.
        apply bind_Ok in Hmove as ([] & wb & Hwr & Hrm). apply write_file_Ok in Hwr.
        apply os_remove_Ok in Hrm. subst w6 wb. cbn.
        rewrite Hm5, Hq5, Hs5, Hm2, Hq2, Hst2. repeat (split; [reflexivity|]).
        split; [apply lookup_delete_eq|]. intros _ Hne.
        rewrite lookup_delete_ne by (intros E; apply Hne; symmetry; exact E).
        apply lookup_insert_eq. }
    destruct Hw6 as (Hm6 & Hq6 & Hs6 & Hd6 & Htemp6 & Hfinal6).
    destruct (create_file_store_Ok (md5 content) final file_size w6) as [st' Hcreate'].
    { unfold get_by_hash. rewrite Hs6. exact Hs. }
    rewrite Hcreate' in Hcreate. injection Hcreate as _ <-.
    match type of Hcommit with files.commit_node _ _ _ _ _ _ ?wx = _ =>
      assert (Hfree4 : get_by_name_and_parent final_filename target current_user wx = None)
        by (rewrite <- Hfree; apply get_by_name_and_parent_rows; cbn; exact Hm6)
    end.
    destruct (commit_node_Ok _ _ _ _ _ _ _ _ _ Hfree4 Hcommit) as (Hnode & Hm' & Hs' & Hf' & Hd').
    cbn in Hnode, Hm', Hs', Hf', Hd'. rewrite Hq6 in Hnode. rewrite Hm6 in Hm'.
    rewrite Hs6, Hsize in Hs'.
    split; [exact Hnode|]. split; [exact Hm'|]. split; [rewrite Hf'; exact Htemp6|].
    exists base. split; [exact Hbase|]. split; [exact Hs'|].
    intros Hnofile Hnodir Hne. rewrite Hf'. apply Hfinal6; [|exact Hne].
    unfold os_path_exists. apply orb_false_iff. split.
    + unfold is_file in *. rewrite Hf5, Hfiles2. rewrite lookup_insert_ne
        by (intros E; apply Hne; symmetry; exact E).
      exact Hnofile.
    + unfold is_dir in *. rewrite <- Hd6, <- Hd'. exact Hnodir.
Qed.

End Stored.

(** X18. What a whole-file upload stores.  When [upload_file] returns, the
    node it returns is the row it added: a file of the uploader, under the
    destination folder, with the final name and the digest of the bytes
    received, and the temporary file is gone.  If a blob was recorded for
    the digest, its reference count is one more and no other file on the
    disk has changed: the bytes are not stored twice.  Otherwise a record
    is added for the digest, with one reference, the number of bytes
    received as size, and a path made of a configured storage path and the
    digest; and the bytes received are the content of the file at that
    path, provided that the path was no file before, is no directory and
    is not the temporary path. *)
Theorem upload_file_stores_the_content :
  forall (md5 : list Byte.byte -> string) (UPLOAD_DIR : string)
         (EXTRA_STORAGE_PATHS : list string) (DIR_SIZE : Z)
         (current_user now : Z) (filename : string) (content : list Byte.byte) (parent_id : Z)
         (relative_path : option string) (auto_rename : bool) (uuid : string)
         (w : World) (node : FileMeta.t) (w' : World),
    files.upload_file md5 UPLOAD_DIR EXTRA_STORAGE_PATHS DIR_SIZE current_user now filename content
      parent_id relative_path auto_rename uuid w = Ok node w' ->
    exists target final_filename w1,
      files.destination current_user now filename parent_id relative_path auto_rename w
        = Ok (target, final_filename) w1
      /\ node = FileMeta.mk (file_meta_seq w1 + 1) current_user target final_filename false
                  (Some (md5 content)) false None now now
      /\ file_meta w' = file_meta w1 ++ [node]
      /\ files w' !! temp_file UPLOAD_DIR final_filename uuid = None
      /\ match CRUDFileMeta.get_by_hash (md5 content) w with
         | Some _ =>
             file_store w' = List.map (bump (md5 content) 1) (file_store w)
             /\ files w' = delete (temp_file UPLOAD_DIR final_filename uuid) (files w)
         | None =>
             exists base,
               In base (files.STORAGE_PATHS UPLOAD_DIR EXTRA_STORAGE_PATHS)
               /\ file_store w'
                  = file_store w ++ [FileStore.mk (md5 content) (os_path_join base (md5 content))
                                       (Z.of_nat (length content)) 1]
               /\ (is_file (os_path_join base (md5 content)) w = false ->
                   is_dir (os_path_join base (md5 content)) w' = false ->
                   os_path_join base (md5 content) <> temp_file UPLOAD_DIR final_filename uuid ->
                   files w' !! os_path_join base (md5 content) = Some content)
         end.
Proof.
  intros md5 UPLOAD_DIR EXTRA_STORAGE_PATHS DIR_SIZE current_user now filename content parent_id
    relative_path auto_rename uuid w node w' H.
  exact (upload_file_run md5 UPLOAD_DIR EXTRA_STORAGE_PATHS DIR_SIZE current_user now filename
           content parent_id relative_path auto_rename uuid w node w' H).
Qed.

(** * Concrete worlds: the theorems at work, and where the specification fails *)

Module Examples.

Import CRUDFileMeta.
Local Open Scope string_scope.

(** A stand-in for the digest: the decimal length of the content. *)
Definition digest (content : list Byte.byte) : string := pretty (Z.of_nat (length content)).

Definition empty_world : World :=
  mkWorld [] 0 [] [] {[ 1 := User.mk 1 1000 0 ]} ∅ ["/up"] {[ "/up" := 500 ]}.

(** A session "s" with two slots, the first one uploaded. *)
Definition two_slots : World :=
  with_file_chunk
    [FileChunk.mk "s" 1 "h" 0 4 true (Some "/up/s_0"); FileChunk.mk "s" 1 "h" 1 0 false None]
    empty_world.

Lemma create_init_chunks_reuse_witness :
  CRUDChunk.create_init_chunks "s" 1 "h" 2 two_slots
  = Ok (CRUDChunk.get_all_chunks_unordered "s" two_slots) two_slots.
Proof.
  apply (create_init_chunks_reuse_or_reset "s" 1 "h" 2 two_slots); [discriminate|reflexivity].
Defined.

(** One blob "h", referenced once, by the file node 1. *)
Definition one_blob : World :=
  with_files {[ "/up/h" := [Byte.x41] ]}
    (with_file_store [FileStore.mk "h" "/up/h" 1 1]
       (with_file_meta_seq 1
          (with_file_meta [FileMeta.mk 1 1 0 "a.txt" false (Some "h") false None 0 0] empty_world))).



(** The world an operation stops in. *)
Definition after {A} (o : outcome A) : World :=
  match o with
  | Ok _ w => w
  | Raise _ w => w
  | Diverge => empty_world
  end.

Definition run := run_upload digest "/up" [] 4096.

(** Three uploads of the same two bytes: whole file, fast upload, merge. *)
Definition first_upload : upload := WholeFile 1 100 "a.txt" [Byte.x41; Byte.x42] 0 None false "u1".
Definition second_upload : upload := FastUpload 1 101 "2" "b.txt" 0 None false.
Definition third_upload : upload := ChunkedMerge 1 102 "s" "c.txt" "2" 0 None false.

Definition once : World := after (run first_upload empty_world).
Definition twice : World := after (run second_upload once).
(** In between, a session is opened and its only chunk uploaded. *)
Definition twice_and_chunk : World :=
  with_files (<["/up/s_0" := [Byte.x41; Byte.x42]]> (files twice))
    (with_file_chunk [FileChunk.mk "s" 1 "2" 0 2 true (Some "/up/s_0")] twice).
Definition thrice : World := after (run third_upload twice_and_chunk).

Lemma three_commits : commits digest "/up" [] 4096 "2" 3 empty_world thrice.
Proof.
  eapply commits_same with (u := third_upload) (w1 := twice_and_chunk);
    [|reflexivity|vm_compute; reflexivity].
  apply commits_elsewhere with (w1 := twice); [|reflexivity|reflexivity].
  eapply commits_same with (u := second_upload) (w1 := once);
    [|reflexivity|vm_compute; reflexivity].
  eapply commits_same with (u := first_upload) (w1 := empty_world);
    [|reflexivity|vm_compute; reflexivity].
  apply commits_nil.
Qed.


(** A session "s" whose only chunk holds two bytes, of digest "2". *)
Definition session_of_two_bytes : World :=
  with_files {[ "/up/s_0" := [Byte.x42; Byte.x43] ]}
    (with_file_chunk [FileChunk.mk "s" 1 "9" 0 2 true (Some "/up/s_0")] empty_world).

Definition merge := files.merge_chunks digest "/up" [] 4096.

Lemma merge_mismatch_witness :
  exists w',
    merge 1 100 "s" "b.txt" "9" 0 None false session_of_two_bytes
    = Raise (files.hash_mismatch "9" "2") w'
    /\ files w' !! "/up/9" = None
    /\ (forall c p, In c [FileChunk.mk "s" 1 "9" 0 2 true (Some "/up/s_0")] ->
                    FileChunk.temp_path c = Some p -> files w' !! p = None)
    /\ no_commit session_of_two_bytes w'.
Proof.
  refine (proj1 (merge_accepts_only_matching_hash digest "/up" [] 4096 1 100 "s" "b.txt" "9" 0
                   None false session_of_two_bytes
                   (with_dirs ["/up"; "/up"] session_of_two_bytes)
                   0 "b.txt" "/up/9" [FileChunk.mk "s" 1 "9" 0 2 true (Some "/up/s_0")]
                   _ _ _ _) _).
  - vm_compute. reflexivity.
  - split; [reflexivity|]. split; [reflexivity|].
    intros c p [<-|[]] Hp. injection Hp as <-. reflexivity.
  - vm_compute. reflexivity.
  - split.
    + repeat constructor. intros [].
    + intros c [<-|[]]. exists "/up/s_0". repeat split; try discriminate.
      eexists. vm_compute. reflexivity.
  - vm_compute. discriminate.
Defined.

(** C2 fails as stated: a file lies at the output path "/up/h" (say, what an
    earlier merge left there when a temporary file was missing).  The two
    bytes of the session have digest "2", the client claims "h", and the
    merge is accepted: nothing is recomputed, a record and a node for "h"
    are created over the stale file.  The same happens when the client
    claims the absolute path "/up/h" as the hash: [os.path.join] drops the
    volume, the file is found and a record is created under that hash.
    And a merge that fails on the mismatch has created a node all the
    same: the folder of its relative path. *)
Definition stale_output : World :=
  with_files {[ "/up/h" := [Byte.x41]; "/up/s_0" := [Byte.x42; Byte.x43] ]}
    (with_file_chunk [FileChunk.mk "s" 1 "h" 0 2 true (Some "/up/s_0")] empty_world).

Lemma merge_accepts_unverified_hash :
  digest (chunk_bytes (session_chunks "s" stale_output) stale_output) = "2"
  /\ (exists node w',
        merge 1 100 "s" "b.txt" "h" 0 None false stale_output = Ok node w'
        /\ FileMeta.file_hash node = Some "h"
        /\ file_store w' = [FileStore.mk "h" "/up/h" 1 1])
  /\ (exists node w',
        merge 1 100 "s" "b.txt" "/up/h" 0 None false stale_output = Ok node w'
        /\ FileMeta.file_hash node = Some "/up/h"
        /\ file_store w' = [FileStore.mk "/up/h" "/up/h" 1 1])
  /\ (exists w',
        merge 1 100 "s" "b.txt" "9" 0 (Some "d/b.txt") false session_of_two_bytes
        = Raise (files.hash_mismatch "9" "2") w'
        /\ file_meta session_of_two_bytes = []
        /\ file_meta w' = [FileMeta.mk 1 1 0 "d" true None false None 100 100]).
Proof.
  split; [vm_compute; reflexivity|]. split; [|split].
  - eexists _, _. split; [vm_compute; reflexivity|]. split; reflexivity.
  - eexists _, _. split; [vm_compute; reflexivity|]. split; reflexivity.
  - eexists. split; [vm_compute; reflexivity|]. split; reflexivity.
Qed.

Lemma merge_incomplete_witness :
  exists e w',
    merge 1 100 "s" "b.txt" "h" 0 None false two_slots = Raise e w'
    /\ no_commit two_slots w'
    /\ ((files.is_filename_valid "b.txt" = false
         /\ e = files.illegal_name "b.txt" /\ w' = two_slots)
        \/ (files.is_filename_valid "b.txt" = true /\ false = false
            /\ files.destination 1 100 "b.txt" 0 None false two_slots = Raise e w'
            /\ exists x, e = files.name_conflict "b.txt" x)
        \/ (files.is_filename_valid "b.txt" = true
            /\ (exists target final_filename,
                  files.destination 1 100 "b.txt" 0 None false two_slots
                  = Ok (target, final_filename) w')
            /\ ((session_chunks "s" two_slots = [] /\ e = files.session_not_found)
                \/ (exists c, first_missing (session_chunks "s" two_slots) = Some c
                              /\ e = files.chunk_missing c)))).
Proof.
  apply (proj1 (merge_rejects_incomplete_session digest "/up" [] 4096 1 100 "s" "b.txt" "h" 0
                  None false two_slots)).
  right. exists (FileChunk.mk "s" 1 "h" 1 0 false None). split; [|reflexivity].
  vm_compute. right. left. reflexivity.
Defined.

(** C7 fails as stated: there is no session "none", the client claims the
    digest of the empty content, and the merge succeeds: it commits a blob
    record and a file node.  And a merge that fails on a missing chunk has
    committed a node all the same: the folder of its relative path. *)
Lemma merge_without_session_succeeds :
  session_chunks "none" empty_world = []
  /\ (exists node w',
        merge 1 100 "none" "e.txt" (digest []) 0 None false empty_world = Ok node w'
        /\ FileMeta.file_hash node = Some (digest [])
        /\ file_store w' = [FileStore.mk (digest []) "/up/0" 0 1]
        /\ file_meta w' = [node])
  /\ (exists w',
        merge 1 100 "s" "b.txt" "h" 0 (Some "d/b.txt") false two_slots
        = Raise (files.chunk_missing (FileChunk.mk "s" 1 "h" 1 0 false None)) w'
        /\ file_meta two_slots = []
        /\ file_meta w' = [FileMeta.mk 1 1 0 "d" true None false None 100 100]).
Proof.
  split; [reflexivity|]. split.
  - eexists _, _. split; [vm_compute; reflexivity|]. repeat split; reflexivity.
  - eexists. split; [vm_compute; reflexivity|]. split; reflexivity.
Qed.

(** ** The namespace *)

Definition folder_A : FileMeta.t := FileMeta.mk 1 1 0 "A" true None false None 0 0.
Definition folder_B : FileMeta.t := FileMeta.mk 2 1 1 "B" true None false None 0 0.
Definition file_c : FileMeta.t := FileMeta.mk 3 1 2 "c.txt" false None true (Some 5) 0 5.

(** /A/B/c.txt, where only c.txt is in the trash. *)
Definition tree : World :=
  with_file_meta_seq 3 (with_file_meta [folder_A; folder_B; file_c] empty_world).

Definition trash (r : FileMeta.t) : FileMeta.t := FileMeta.set_deleted true (Some 5) 5 r.

(** The same three nodes, all of them in the trash. *)
Definition trashed : World :=
  with_file_meta_seq 3 (with_file_meta [trash folder_A; trash folder_B; file_c] empty_world).

Ltac rows H :=
  cbn in H; repeat (destruct H as [<-|H]; [|]); try (destruct H).

Lemma tree_keys_ok : keys_ok tree.
Proof.
  split.
  - cbn. repeat constructor; cbn; intuition discriminate.
  - intros r H. rows H; cbn; lia.
Qed.

Lemma trashed_keys_ok : keys_ok trashed.
Proof.
  split.
  - cbn. repeat constructor; cbn; intuition discriminate.
  - intros r H. rows H; cbn; lia.
Qed.

Lemma tree_acyclic : acyclic 1 tree.
Proof.
  exists Z.to_nat. intros c p Hc Hp _ _ Hpar.
  rows Hc; rows Hp; cbn in Hpar |- *; try discriminate Hpar; lia.
Qed.

Lemma trashed_acyclic : acyclic 1 trashed.
Proof.
  exists Z.to_nat. intros c p Hc Hp _ _ Hpar.
  rows Hc; rows Hp; cbn in Hpar |- *; try discriminate Hpar; lia.
Qed.

Lemma trashed_flags_ok : flags_ok trashed.
Proof. intros r H Hact. rows H; cbn in Hact; discriminate Hact. Qed.

Lemma restore_chain_witness :
  exists N, forall fuel, (N <= fuel)%nat ->
    exists obj' w',
      restore fuel 9 2 1 trashed = Ok (Some obj') w'
      /\ get_obj 2 1 w' = Some obj' /\ cleared obj'
      /\ (forall a, ancestor 1 trashed a 2 -> exists r, get_obj a 1 w' = Some r /\ cleared r)
      /\ (forall d, deleted_below 1 trashed (trash folder_B) d ->
            exists r, get_obj (FileMeta.id d) 1 w' = Some r /\ cleared r).
Proof.
  apply (restore_node_ancestors_deleted_chain 1 trashed 2 9 (trash folder_B)).
  - exact trashed_keys_ok.
  - exact trashed_flags_ok.
  - exact trashed_acyclic.
  - reflexivity.
Defined.

(** C4 fails as stated: c.txt is a descendant of the folder A, and it is in
    the trash while the folder B between them is not.  Restoring A does not
    reach it: the downward pass only follows soft-deleted children. *)
Lemma restore_skips_deleted_below_active :
  descendant 1 tree 1 3
  /\ exists obj' w',
       restore 8 9 1 1 tree = Ok (Some obj') w'
       /\ get_obj 3 1 w' = Some file_c
       /\ FileMeta.is_deleted file_c = true
       /\ ~ cleared file_c.
Proof.
  split.
  - apply (ancestor_up 1 tree 3 file_c 1 eq_refl).
    exact (ancestor_parent 1 tree 2 folder_B folder_A eq_refl eq_refl).
  - eexists _, _. split; [reflexivity|]. split; [reflexivity|]. split; [reflexivity|].
    intros [H _]. discriminate H.
Qed.

Lemma move_into_descendant_witness :
  exists N, forall fuel, (N <= fuel)%nat -> move fuel 9 1 2 1 tree = Ok None tree.
Proof.
  destruct (move_refuses_cycles_for_folders 1 tree 1 2 9 folder_A
              tree_keys_ok tree_acyclic eq_refl) as [N H].
  exists N. intros fuel Hfuel. apply (H fuel Hfuel); [reflexivity|].
  right. exact (ancestor_parent 1 tree 2 folder_B folder_A eq_refl eq_refl).
Defined.

(** C5 fails as stated: the node 1 of [one_blob] is a file, and the walk up
    from the target is only made for folders.  Moving it under itself
    succeeds, and leaves a node that is its own parent. *)
Lemma move_file_under_itself :
  exists obj' w',
    move 8 9 1 1 1 one_blob = Ok (Some obj') w'
    /\ FileMeta.parent_id obj' = FileMeta.id obj'
    /\ ~ acyclic 1 w'.
Proof.
  eexists _, _. split; [reflexivity|]. split; [reflexivity|].
  intros [depth Hd].
  specialize (Hd (FileMeta.mk 1 1 1 "a.txt" false (Some "h") false None 0 9)
                 (FileMeta.mk 1 1 1 "a.txt" false (Some "h") false None 0 9)
                 (or_introl eq_refl) (or_introl eq_refl) eq_refl eq_refl eq_refl).
  cbn in Hd. lia.
Qed.

Lemma one_blob_unique_names : unique_names one_blob.
Proof. repeat constructor. intros []. Qed.

Lemma create_keeps_names_unique_witness :
  exists r w',
    create_with_user (FileMetaCreate.mk "a.txt" false 0 None 0) 1 9 one_blob = Ok r w'
    /\ FileMeta.file_name r = "a (1).txt"
    /\ unique_names w'.
Proof.
  eexists _, _. split; [reflexivity|]. split; [reflexivity|].
  exact (proj1 (unique_sibling_names_preserved one_blob one_blob_unique_names)
           (FileMetaCreate.mk "a.txt" false 0 None 0) 1 9 _ _ eq_refl).
Defined.

(** The resolution of the relative path a.txt/x looks for an active folder
    named a.txt under the root, finds none (the node of that name is a
    file) and creates one, under the same name. *)
Lemma path_resolution_duplicates_name :
  unique_names one_blob
  /\ exists parent w',
       get_or_create_path 1 9 0 "a.txt/x" one_blob = Ok parent w'
       /\ active_keys (file_meta w') = [(1, 0, "a.txt"); (1, 0, "a.txt")]
       /\ ~ unique_names w'.
Proof.
  split; [exact one_blob_unique_names|].
  eexists _, _. split; [reflexivity|]. split; [reflexivity|].
  intros H. inversion H as [|k l Hn _]. apply Hn. left. reflexivity.
Qed.

(** A file a.txt in the trash beside an active file a.txt. *)
Definition namesake_in_trash : World :=
  with_file_meta_seq 2
    (with_file_meta
       [FileMeta.mk 1 1 0 "a.txt" false None false None 0 0;
        FileMeta.mk 2 1 0 "a.txt" false None true (Some 5) 0 5] empty_world).

(** [restore] brings a node back under the name it was deleted with. *)
Lemma restore_beside_namesake :
  unique_names namesake_in_trash
  /\ exists obj' w',
       restore 8 9 2 1 namesake_in_trash = Ok (Some obj') w'
       /\ active_keys (file_meta w') = [(1, 0, "a.txt"); (1, 0, "a.txt")]
       /\ ~ unique_names w'.
Proof.
  split; [repeat constructor; intros []|].
  eexists _, _. split; [reflexivity|]. split; [reflexivity|].
  intros H. inversion H as [|k l Hn _]. apply Hn. left. reflexivity.
Qed.

(** C8, on the code.  Two of the public operations let two active siblings
    bear one name, which every other operation avoids ([create_folder]
    answers 409, the node creation, [copy] and [move] rename).  The upload
    of a.txt/x by the owner of the file a.txt creates the folder a.txt
    beside the file: the path resolution looks among the folders only and
    names the folder it creates without [_get_unique_filename].  And the
    restore of a file deleted as a.txt, beside the active file that took
    the name since, brings it back under that name. *)
Theorem active_siblings_share_a_name :
  (unique_names one_blob
   /\ exists parent w',
        get_or_create_path 1 9 0 "a.txt/x" one_blob = Ok parent w'
        /\ active_keys (file_meta w') = [(1, 0, "a.txt"); (1, 0, "a.txt")]
        /\ ~ unique_names w')
  /\ (unique_names namesake_in_trash
      /\ exists obj' w',
           restore 8 9 2 1 namesake_in_trash = Ok (Some obj') w'
           /\ active_keys (file_meta w') = [(1, 0, "a.txt"); (1, 0, "a.txt")]
           /\ ~ unique_names w').
Proof. split; [exact path_resolution_duplicates_name|exact restore_beside_namesake]. Qed.

(** ** The quota on a permanent delete *)

Definition file_a (deleted : bool) : FileMeta.t :=
  FileMeta.mk 2 1 1 "a.txt" false (Some "h") deleted (if deleted then Some 5 else None) 0 0.

(** A folder A with one file a.txt of one byte in it, which the owner's
    used quota counts; [deleted] says whether the two are in the trash. *)
Definition shelf (deleted : bool) : World :=
  mkWorld [FileMeta.mk 1 1 0 "A" true None deleted (if deleted then Some 5 else None) 0 0;
           file_a deleted]
          2 [FileStore.mk "h" "/up/h" 1 1] [] {[ 1 := User.mk 1 1000 1 ]}
          {[ "/up/h" := [Byte.x41] ]} ["/up"] {[ "/up" := 500 ]}.

Definition quota_used (w : World) : option Z := User.quota_used <$> sys_user w !! 1.

(** With the folder and its file in the trash, the permanent delete of the
    folder removes both nodes and the blob, and gives the file's byte back. *)
Example permanent_delete_frees_trashed_child :
  exists r w',
    files.permanent_delete_file 8 1 9 1 (shelf true) = Ok (Some r) w'
    /\ file_meta w' = [] /\ file_store w' = []
    /\ quota_used (shelf true) = Some 1 /\ quota_used w' = Some 0.
Proof. eexists _, _. repeat split; reflexivity. Qed.

(** C6, on the code. The file a.txt is a descendant of the folder A, of
    size 1.  Neither is in the trash.  The permanent delete of A removes
    both nodes, releases the blob (its count falls to zero: the record and
    the bytes are removed), and subtracts nothing from the used quota: the
    size to free is summed over the soft-deleted children only, the
    removal runs over all the children. *)
Theorem permanent_delete_keeps_quota_of_active_child :
  files.file_size_of (file_a false) (shelf false) = 1
  /\ exists r w',
       files.permanent_delete_file 8 1 9 1 (shelf false) = Ok (Some r) w'
       /\ file_meta w' = [] /\ file_store w' = [] /\ files w' !! "/up/h" = None
       /\ quota_used (shelf false) = Some 1 /\ quota_used w' = Some 1.
Proof. split; [reflexivity|]. eexists _, _. repeat split; reflexivity. Qed.

(** ** Copy of a folder with a file in the trash *)

Definition shelf_A : FileMeta.t := FileMeta.mk 1 1 0 "A" true None false None 0 0.

(** The folder A with two files of the same content: a.txt, and old.txt
    which is in the trash. *)
Definition library : World :=
  mkWorld [shelf_A;
           FileMeta.mk 2 1 1 "a.txt" false (Some "h") false None 0 0;
           FileMeta.mk 3 1 1 "old.txt" false (Some "h") true (Some 5) 0 5]
          3 [FileStore.mk "h" "/up/h" 1 2] [] {[ 1 := User.mk 1 1000 2 ]}
          {[ "/up/h" := [Byte.x41] ]} ["/up"] {[ "/up" := 500 ]}.

Lemma library_keys_ok : keys_ok library.
Proof.
  split.
  - cbn. repeat constructor; cbn; intuition discriminate.
  - intros r H. rows H; cbn; lia.
Qed.

Lemma library_acyclic : acyclic 1 library.
Proof.
  exists Z.to_nat. intros c p Hc Hp _ _ Hpar.
  rows Hc; rows Hp; cbn in Hpar |- *; try discriminate Hpar; lia.
Qed.


(** The copy of A under the root: the clone "A (1)" and, in it, a clone of
    a.txt; old.txt has no counterpart, and the blob counts one more
    reference. *)
Example copy_skips_trashed_child :
  exists new_obj w',
    copy 8 9 1 0 1 library = Ok (Some new_obj) w'
    /\ file_meta w' = (file_meta library
                       ++ [FileMeta.mk 4 1 0 "A (1)" true None false None 9 9;
                           FileMeta.mk 5 1 4 "a.txt" false (Some "h") false None 9 9])%list
    /\ file_store w' = [FileStore.mk "h" "/up/h" 1 3].
Proof. eexists _, _. repeat split; reflexivity. Qed.

(** The folder A with a file in the trash, and the same with an active
    folder B in it. *)
Definition old_file : FileMeta.t := FileMeta.mk 2 1 1 "old.txt" false (Some "h") true (Some 5) 0 5.
Definition shelf_B : FileMeta.t := FileMeta.mk 3 1 1 "B" true None false None 0 0.

Definition shelf_with_trash : World :=
  with_file_meta_seq 2 (with_file_meta [shelf_A; old_file] empty_world).
Definition shelves : World :=
  with_file_meta_seq 3 (with_file_meta [shelf_A; old_file; shelf_B] empty_world).


(** ** The further properties at work *)

(** A file of two chunks, announced by the user 1 under the root. *)
Definition two_chunks : files.ChunkInit := files.mkChunkInit "h" 4 "a.bin" 0 2.

Lemma interrupted_upload_resumes_witness :
  exists w2,
    files.upload_chunk "/up" (files.session_id digest 1 two_chunks) 1 [Byte.x41; Byte.x42]
      (after (files.init_chunk_upload digest 1 two_chunks false empty_world)) = Ok 1 w2
    /\ files w2 !! files.chunk_path "/up" (files.session_id digest 1 two_chunks) 1
       = Some [Byte.x41; Byte.x42]
    /\ files.init_chunk_upload digest 1 two_chunks false w2
       = Ok (files.session_id digest 1 two_chunks, [1]) w2.
Proof.
  refine (proj2 (proj2 (interrupted_upload_resumes digest "/up" 1 two_chunks false 1
                          [Byte.x41; Byte.x42] empty_world
                          (after (files.init_chunk_upload digest 1 two_chunks false empty_world))
                          (files.session_id digest 1 two_chunks) [] _ _ _ _))).
  - vm_compute. reflexivity.
  - reflexivity.
  - cbn. lia.
  - reflexivity.
Defined.

(** The tree of the user 1 beside a file of the user 2. *)
Definition two_owners : World :=
  with_file_meta_seq 4
    (with_file_meta [folder_A; FileMeta.mk 4 2 0 "z.txt" false None false None 0 0; folder_B; file_c]
       empty_world).

Lemma two_owners_keys_ok : keys_ok two_owners.
Proof.
  split.
  - cbn. repeat constructor; cbn; intuition discriminate.
  - intros r H. rows H; cbn; lia.
Qed.

Lemma other_owners_rows_untouched_witness :
  (forall fuel now id r w',
      remove fuel now id 1 two_owners = Ok r w' ->
      others 1 (file_meta w') = others 1 (file_meta two_owners))
  /\ (forall fuel now id r w',
        restore fuel now id 1 two_owners = Ok r w' ->
        others 1 (file_meta w') = others 1 (file_meta two_owners))
  /\ (forall fuel id r w',
        permanent_remove fuel id 1 two_owners = Ok r w' ->
        others 1 (file_meta w') = others 1 (file_meta two_owners))
  /\ (forall fuel now id target_parent_id r w',
        copy fuel now id target_parent_id 1 two_owners = Ok r w' ->
        others 1 (file_meta w') = others 1 (file_meta two_owners))
  /\ (forall fuel now id target_parent_id r w',
        move fuel now id target_parent_id 1 two_owners = Ok r w' ->
        others 1 (file_meta w') = others 1 (file_meta two_owners)).
Proof. exact (other_owners_rows_untouched 1 two_owners two_owners_keys_ok). Defined.

Lemma remove_trashes_exactly_the_subtree_witness :
  exists N, forall fuel, (N <= fuel)%nat ->
    exists w',
      remove fuel 9 2 1 tree = Ok (Some (trashed_row 9 folder_B)) w'
      /\ List.Forall2
           (fun row row' =>
              ((row = folder_B \/ below 1 tree folder_B row) -> row' = trashed_row 9 row)
              /\ (~ (row = folder_B \/ below 1 tree folder_B row) -> row' = row))
           (file_meta tree) (file_meta w')
      /\ untouched tree w'.
Proof.
  apply (remove_trashes_exactly_the_subtree 1 9 tree 2 folder_B).
  - exact (proj1 tree_keys_ok).
  - exact tree_acyclic.
  - reflexivity.
Defined.

Lemma get_folder_path_breadcrumb_witness :
  exists N, forall fuel, (N <= fuel)%nat ->
    exists l,
      files.get_folder_path fuel 1 2 tree = Ok l tree /\ path_to 1 tree 2 l.
Proof. exact (get_folder_path_breadcrumb 1 tree 2 tree_acyclic). Defined.

Lemma library_accounted : accounted library.
Proof.
  split; [exact library_keys_ok|]. split; [|split].
  - intros r H Hf. rows H; try discriminate Hf; reflexivity.
  - intros r H. rows H; discriminate.
  - intros h. unfold blob_consistent, records, refs, all, references. cbn -[String.eqb].
    destruct (String.eqb "h" h); cbn; reflexivity.
Qed.

Lemma namespace_keeps_reference_counts_witness :
  (forall fuel now id r w', remove fuel now id 1 library = Ok r w' -> accounted w')
  /\ (forall fuel now id r w', restore fuel now id 1 library = Ok r w' -> accounted w')
  /\ (forall fuel id r w', permanent_remove fuel id 1 library = Ok r w' -> accounted w')
  /\ (forall fuel now id target_parent_id r w',
        copy fuel now id target_parent_id 1 library = Ok r w' -> accounted w')
  /\ (forall fuel now id target_parent_id r w',
        move fuel now id target_parent_id 1 library = Ok r w' -> accounted w').
Proof. exact (namespace_keeps_reference_counts 1 library library_accounted). Defined.

(** Thirty-one days after the three nodes were put in the trash. *)
Lemma trash_listing_purges_expired_witness :
  (forall fuel days w',
      clean_expired_trash fuel 2678405 1 days trashed = Ok tt w' ->
      (forall r, In r (file_meta w') ->
         In r (file_meta trashed) /\ expired 1 (2678405 - timedelta_days days) r = false)
      /\ others 1 (file_meta w') = others 1 (file_meta trashed)
      /\ sys_user w' = sys_user trashed)
  /\ (forall fuel parent_id skip limit l w',
        get_trash_files fuel 2678405 1 parent_id skip limit trashed = Ok l w' ->
        forall r, In r l ->
          In r (file_meta w') /\ FileMeta.user_id r = 1 /\ FileMeta.is_deleted r = true
          /\ expired 1 (2678405 - timedelta_days 30) r = false).
Proof. exact (trash_listing_purges_expired 1 2678405 trashed (proj1 trashed_keys_ok)). Defined.

(** The purge at work: the three nodes are gone, and the listing is empty. *)
Example purge_empties_the_trash :
  get_trash_files 8 2678405 1 None 0 100 trashed = Ok [] (with_file_meta [] trashed).
Proof. reflexivity. Qed.

(** Before the expiry, the listing shows the root of the trash; a negative
    limit does not bound it. *)
Example negative_limit_is_no_limit :
  get_trash_files 8 9 1 None 0 (-1) trashed = Ok [trash folder_A] trashed
  /\ get_trash_files 8 9 1 None 0 0 trashed = Ok [] trashed.
Proof. split; reflexivity. Qed.

Lemma permanent_remove_deletes_exactly_the_subtree_witness :
  exists N, forall fuel, (N <= fuel)%nat ->
    match permanent_remove fuel 1 1 library with
    | Ok r w' =>
        r = Some shelf_A
        /\ exists keep : FileMeta.t -> bool,
             file_meta w' = all keep (file_meta library)
             /\ forall d, In d (file_meta library) ->
                  keep d = false <-> (d = shelf_A \/ below 1 library shelf_A d)
    | Raise _ _ => True
    | Diverge => False
    end.
Proof.
  apply (permanent_remove_deletes_exactly_the_subtree 1 library 1 shelf_A).
  - exact (proj1 library_keys_ok).
  - exact library_acyclic.
  - reflexivity.
Defined.

(** The folder A goes with its two files, the one in the trash and the
    active one; the blob they shared goes with its last reference. *)
Example hard_delete_takes_active_children :
  exists w', permanent_remove 8 1 1 library = Ok (Some shelf_A) w'
             /\ file_meta w' = [] /\ file_store w' = [] /\ files w' !! "/up/h" = None.
Proof. eexists. repeat split; reflexivity. Qed.

Lemma restore_revives_exactly_witness :
  exists N, forall fuel, (N <= fuel)%nat ->
    exists w',
      restore fuel 9 2 1 trashed = Ok (Some (revived 9 (trash folder_B))) w'
      /\ List.Forall2
           (fun row row' =>
              (chosen 1 trashed (trash folder_B) row -> row' = revived 9 row)
              /\ (~ chosen 1 trashed (trash folder_B) row -> row' = row))
           (file_meta trashed) (file_meta w')
      /\ untouched trashed w'.
Proof.
  apply (restore_revives_exactly 1 9 trashed 2 (trash folder_B)).
  - exact trashed_keys_ok.
  - exact trashed_acyclic.
  - reflexivity.
Defined.

Lemma tree_root_has_no_ancestor a : ~ ancestor 1 tree a 1.
Proof.
  intros H. inversion H as [n o par Ho Hpar|n o a' Ho Hup]; subst.
  - cbn in Ho. injection Ho as <-. cbn in Hpar. discriminate Hpar.
  - cbn in Ho. injection Ho as <-. cbn in Hup.
    inversion Hup as [n o par Ho Hpar|n o a' Ho Hup']; subst; cbn in Ho; discriminate Ho.
Qed.

Lemma remove_then_restore_revives_subtree_witness :
  exists N, forall fuel, (N <= fuel)%nat ->
    exists w1 w2,
      remove fuel 7 1 1 tree = Ok (Some (trashed_row 7 folder_A)) w1
      /\ restore fuel 9 1 1 w1 = Ok (Some (revived 9 folder_A)) w2
      /\ List.Forall2
           (fun row row2 =>
              ((row = folder_A \/ below 1 tree folder_A row) -> row2 = revived 9 row)
              /\ (~ (row = folder_A \/ below 1 tree folder_A row) -> row2 = row))
           (file_meta tree) (file_meta w2)
      /\ untouched tree w2.
Proof.
  apply (remove_then_restore_revives_subtree 1 7 9 tree 1 folder_A).
  - exact tree_keys_ok.
  - exact tree_acyclic.
  - reflexivity.
  - intros row _ Ha. exfalso. exact (tree_root_has_no_ancestor _ Ha).
Defined.

(** The round trip at work: c.txt, which was in the trash before the folder
    A was put there, is active after A was restored. *)
Example round_trip_revives_older_trash :
  exists w1 w2,
    remove 8 7 1 1 tree = Ok (Some (trashed_row 7 folder_A)) w1
    /\ restore 8 9 1 1 w1 = Ok (Some (revived 9 folder_A)) w2
    /\ file_meta w2 = [revived 9 folder_A; revived 9 folder_B; revived 9 file_c].
Proof. eexists _, _. repeat split; reflexivity. Qed.

(** The first upload of two bytes into the empty world: the blob is new. *)
Definition first_node : FileMeta.t := FileMeta.mk 1 1 0 "a.txt" false (Some "2") false None 100 100.

Lemma upload_file_stores_the_content_witness :
  exists target final_filename w1,
    files.destination 1 100 "a.txt" 0 None false empty_world = Ok (target, final_filename) w1
    /\ first_node = FileMeta.mk (file_meta_seq w1 + 1) 1 target final_filename false
                      (Some (digest [Byte.x41; Byte.x42])) false None 100 100
    /\ file_meta once = (file_meta w1 ++ [first_node])%list
    /\ files once !! temp_file "/up" final_filename "u1" = None
    /\ match get_by_hash (digest [Byte.x41; Byte.x42]) empty_world with
       | Some _ =>
           file_store once
           = List.map (bump (digest [Byte.x41; Byte.x42]) 1) (file_store empty_world)
           /\ files once = delete (temp_file "/up" final_filename "u1") (files empty_world)
       | None =>
           exists base,
             In base (files.STORAGE_PATHS "/up" [])
             /\ file_store once
                = (file_store empty_world
                   ++ [FileStore.mk (digest [Byte.x41; Byte.x42])
                         (os_path_join base (digest [Byte.x41; Byte.x42]))
                         (Z.of_nat (length [Byte.x41; Byte.x42])) 1])%list
             /\ (is_file (os_path_join base (digest [Byte.x41; Byte.x42])) empty_world = false ->
                 is_dir (os_path_join base (digest [Byte.x41; Byte.x42])) once = false ->
                 os_path_join base (digest [Byte.x41; Byte.x42]) <> temp_file "/up" final_filename "u1" ->
                 files once !! os_path_join base (digest [Byte.x41; Byte.x42])
                 = Some [Byte.x41; Byte.x42])
       end.
Proof.
  apply (upload_file_stores_the_content digest "/up" [] 4096 1 100 "a.txt" [Byte.x41; Byte.x42]
           0 None false "u1" empty_world first_node once).
  vm_compute. reflexivity.
Defined.

(** The two bytes are on the disk under their digest, and nowhere else. *)
Example first_upload_on_disk :
  files once = {[ "/up/2" := [Byte.x41; Byte.x42] ]}
  /\ file_store once = [FileStore.mk "2" "/up/2" 2 1].
Proof. split; vm_compute; reflexivity. Qed.

End Examples.
